(** * The descriptor layer of the reactor (ext/ed.cpp), embedded in Rocq

    The development follows ext/ed.cpp method by method.  Objects live in a
    store indexed by their binding; a method takes the binding of [this] and
    runs in a state-and-exception monad over the store, so that the raw
    pointers between a proxy source and its target ([ProxyTarget],
    [ProxiedFrom]) alias exactly as they do in the C++ code.

    Configuration embedded: OS_UNIX with HAVE_WRITEV (the gathering write of
    [_WriteOutboundData]; the copying fallback for platforms without
    [writev] is not part of the model), and WITH_SSL undefined (the [#else]
    branches of the TLS conditionals).  The methods in the
    monad leave out their calls to [_UpdateEvents] and to the reactor's
    queues, which read descriptor state and write none of the fields below;
    [_UpdateEvents] itself is embedded on its own, for HAVE_EPOLL, as a
    function on the interest mask.
    User callbacks are recorded in the trace and do not re-enter the model.

    Integers are mathematical ([Z]); the wrap-around of the [uint64_t] clock
    arithmetic, of the [(unsigned int)] casts and of the conversions of an
    [unsigned long] length to the [int] of the byte count, of a page's
    length and of a return value is written out where the source performs
    it. *)

From Stdlib Require Import ZArith List Bool Lia Strings.Byte.
From stdpp Require Import base option list gmap strings.

Import ListNotations.
Local Open Scope Z_scope.

(** ** Platform constants (project.h and the system headers) *)

(** [INVALID_SOCKET] is [-1] on Unix, where [SOCKET] is [int]. *)
Definition INVALID_SOCKET : Z := -1.

(** [errno] values (Linux numbering). *)
Definition EINTR : Z := 4.
Definition EAGAIN : Z := 11.
Definition EWOULDBLOCK : Z := 11.
Definition ETIMEDOUT : Z := 110.
Definition EINPROGRESS : Z := 115.

Definition UINT64_MOD : Z := 2 ^ 64.
Definition UINT_MOD : Z := 2 ^ 32.

(** Arithmetic on [uint64_t] and the cast to [unsigned int]. *)
Definition u64 (x : Z) : Z := x mod UINT64_MOD.
Definition to_unsigned_int (x : Z) : Z := x mod UINT_MOD.

(** The range of [int], and the conversion of an integer value to [int]:
    the value of that type congruent to it modulo [2 ^ 32]. *)
Definition INT_MIN : Z := - 2 ^ 31.
Definition INT_MAX : Z := 2 ^ 31 - 1.
Definition to_int (x : Z) : Z := (x - INT_MIN) mod UINT_MOD + INT_MIN.

(** ** Data model *)

Abbreviation binding := N (only parsing).
Abbreviation sockaddr := (list byte) (only parsing).

(** The dynamic type of a descriptor: which overrides its virtual methods
    resolve to. *)
Inductive descriptor_kind : Type :=
| ConnectionDescriptor
| DatagramDescriptor
| AcceptorDescriptor
| LoopbreakDescriptor
| InotifyDescriptor.

(** One queued outbound buffer.  [Buffer] holds the payload bytes followed
    by the terminating NUL that the send functions append; [Length] and
    [Offset] are [int]s; [From] is the destination of a datagram page and
    absent on a stream page. *)
Record OutboundPage : Type := mkOutboundPage {
  Buffer : list byte;
  Length : Z;
  Offset : Z;
  From : option sockaddr
}.

(** The member variables of [EventableDescriptor] and of its stream and
    datagram subclasses.  [EventCallback] records whether a callback is
    installed (non-NULL); [BytesToProxy] is left uninitialised by the C++
    constructor and only read once [StartProxy] has set it. *)
Record descriptor : Type := mkDescriptor {
  kind : descriptor_kind;
  bCloseNow : bool;
  bCloseAfterWriting : bool;
  MySocket : Z;
  bAttached : bool;
  bWatchOnly : bool;
  EventCallback : bool;
  UnbindReasonCode : Z;
  BytesToProxy : Z;
  ProxyTarget : option binding;
  ProxiedFrom : option binding;
  ProxiedBytes : Z;
  MaxOutboundBufSize : Z;
  PendingConnectTimeout : Z;
  InactivityTimeout : Z;
  CreatedAt : Z;
  LastActivity : Z;
  NextHeartbeat : Z;
  bPaused : bool;
  bConnectPending : bool;
  bNotifyReadable : bool;
  bReadAttemptedAfterClose : bool;
  bWriteAttemptedAfterClose : bool;
  OutboundPages : list OutboundPage;
  OutboundDataSize : Z;
  ReturnAddress : sockaddr
}.

(** Assignments to single member variables. *)

Definition set_bAttached (v : bool) (d : descriptor) : descriptor :=
  {| kind := kind d; bCloseNow := bCloseNow d; bCloseAfterWriting := bCloseAfterWriting d; MySocket
     := MySocket d; bAttached := v; bWatchOnly := bWatchOnly d; EventCallback := EventCallback d;
     UnbindReasonCode := UnbindReasonCode d; BytesToProxy := BytesToProxy d; ProxyTarget :=
     ProxyTarget d; ProxiedFrom := ProxiedFrom d; ProxiedBytes := ProxiedBytes d; MaxOutboundBufSize
     := MaxOutboundBufSize d; PendingConnectTimeout := PendingConnectTimeout d; InactivityTimeout :=
     InactivityTimeout d; CreatedAt := CreatedAt d; LastActivity := LastActivity d; NextHeartbeat :=
     NextHeartbeat d; bPaused := bPaused d; bConnectPending := bConnectPending d; bNotifyReadable :=
     bNotifyReadable d; bReadAttemptedAfterClose := bReadAttemptedAfterClose d;
     bWriteAttemptedAfterClose := bWriteAttemptedAfterClose d; OutboundPages := OutboundPages d;
     OutboundDataSize := OutboundDataSize d; ReturnAddress := ReturnAddress d |}.

Definition set_bWatchOnly (v : bool) (d : descriptor) : descriptor :=
  {| kind := kind d; bCloseNow := bCloseNow d; bCloseAfterWriting := bCloseAfterWriting d; MySocket
     := MySocket d; bAttached := bAttached d; bWatchOnly := v; EventCallback := EventCallback d;
     UnbindReasonCode := UnbindReasonCode d; BytesToProxy := BytesToProxy d; ProxyTarget :=
     ProxyTarget d; ProxiedFrom := ProxiedFrom d; ProxiedBytes := ProxiedBytes d; MaxOutboundBufSize
     := MaxOutboundBufSize d; PendingConnectTimeout := PendingConnectTimeout d; InactivityTimeout :=
     InactivityTimeout d; CreatedAt := CreatedAt d; LastActivity := LastActivity d; NextHeartbeat :=
     NextHeartbeat d; bPaused := bPaused d; bConnectPending := bConnectPending d; bNotifyReadable :=
     bNotifyReadable d; bReadAttemptedAfterClose := bReadAttemptedAfterClose d;
     bWriteAttemptedAfterClose := bWriteAttemptedAfterClose d; OutboundPages := OutboundPages d;
     OutboundDataSize := OutboundDataSize d; ReturnAddress := ReturnAddress d |}.

Definition set_EventCallback (v : bool) (d : descriptor) : descriptor :=
  {| kind := kind d; bCloseNow := bCloseNow d; bCloseAfterWriting := bCloseAfterWriting d; MySocket
     := MySocket d; bAttached := bAttached d; bWatchOnly := bWatchOnly d; EventCallback := v;
     UnbindReasonCode := UnbindReasonCode d; BytesToProxy := BytesToProxy d; ProxyTarget :=
     ProxyTarget d; ProxiedFrom := ProxiedFrom d; ProxiedBytes := ProxiedBytes d; MaxOutboundBufSize
     := MaxOutboundBufSize d; PendingConnectTimeout := PendingConnectTimeout d; InactivityTimeout :=
     InactivityTimeout d; CreatedAt := CreatedAt d; LastActivity := LastActivity d; NextHeartbeat :=
     NextHeartbeat d; bPaused := bPaused d; bConnectPending := bConnectPending d; bNotifyReadable :=
     bNotifyReadable d; bReadAttemptedAfterClose := bReadAttemptedAfterClose d;
     bWriteAttemptedAfterClose := bWriteAttemptedAfterClose d; OutboundPages := OutboundPages d;
     OutboundDataSize := OutboundDataSize d; ReturnAddress := ReturnAddress d |}.

Definition set_PendingConnectTimeout (v : Z) (d : descriptor) : descriptor :=
  {| kind := kind d; bCloseNow := bCloseNow d; bCloseAfterWriting := bCloseAfterWriting d; MySocket
     := MySocket d; bAttached := bAttached d; bWatchOnly := bWatchOnly d; EventCallback :=
     EventCallback d; UnbindReasonCode := UnbindReasonCode d; BytesToProxy := BytesToProxy d;
     ProxyTarget := ProxyTarget d; ProxiedFrom := ProxiedFrom d; ProxiedBytes := ProxiedBytes d;
     MaxOutboundBufSize := MaxOutboundBufSize d; PendingConnectTimeout := v; InactivityTimeout :=
     InactivityTimeout d; CreatedAt := CreatedAt d; LastActivity := LastActivity d; NextHeartbeat :=
     NextHeartbeat d; bPaused := bPaused d; bConnectPending := bConnectPending d; bNotifyReadable :=
     bNotifyReadable d; bReadAttemptedAfterClose := bReadAttemptedAfterClose d;
     bWriteAttemptedAfterClose := bWriteAttemptedAfterClose d; OutboundPages := OutboundPages d;
     OutboundDataSize := OutboundDataSize d; ReturnAddress := ReturnAddress d |}.

Definition set_InactivityTimeout (v : Z) (d : descriptor) : descriptor :=
  {| kind := kind d; bCloseNow := bCloseNow d; bCloseAfterWriting := bCloseAfterWriting d; MySocket
     := MySocket d; bAttached := bAttached d; bWatchOnly := bWatchOnly d; EventCallback :=
     EventCallback d; UnbindReasonCode := UnbindReasonCode d; BytesToProxy := BytesToProxy d;
     ProxyTarget := ProxyTarget d; ProxiedFrom := ProxiedFrom d; ProxiedBytes := ProxiedBytes d;
     MaxOutboundBufSize := MaxOutboundBufSize d; PendingConnectTimeout := PendingConnectTimeout d;
     InactivityTimeout := v; CreatedAt := CreatedAt d; LastActivity := LastActivity d; NextHeartbeat
     := NextHeartbeat d; bPaused := bPaused d; bConnectPending := bConnectPending d; bNotifyReadable
     := bNotifyReadable d; bReadAttemptedAfterClose := bReadAttemptedAfterClose d;
     bWriteAttemptedAfterClose := bWriteAttemptedAfterClose d; OutboundPages := OutboundPages d;
     OutboundDataSize := OutboundDataSize d; ReturnAddress := ReturnAddress d |}.

Definition set_bConnectPending (v : bool) (d : descriptor) : descriptor :=
  {| kind := kind d; bCloseNow := bCloseNow d; bCloseAfterWriting := bCloseAfterWriting d; MySocket
     := MySocket d; bAttached := bAttached d; bWatchOnly := bWatchOnly d; EventCallback :=
     EventCallback d; UnbindReasonCode := UnbindReasonCode d; BytesToProxy := BytesToProxy d;
     ProxyTarget := ProxyTarget d; ProxiedFrom := ProxiedFrom d; ProxiedBytes := ProxiedBytes d;
     MaxOutboundBufSize := MaxOutboundBufSize d; PendingConnectTimeout := PendingConnectTimeout d;
     InactivityTimeout := InactivityTimeout d; CreatedAt := CreatedAt d; LastActivity :=
     LastActivity d; NextHeartbeat := NextHeartbeat d; bPaused := bPaused d; bConnectPending := v;
     bNotifyReadable := bNotifyReadable d; bReadAttemptedAfterClose := bReadAttemptedAfterClose d;
     bWriteAttemptedAfterClose := bWriteAttemptedAfterClose d; OutboundPages := OutboundPages d;
     OutboundDataSize := OutboundDataSize d; ReturnAddress := ReturnAddress d |}.

Definition set_bNotifyReadable (v : bool) (d : descriptor) : descriptor :=
  {| kind := kind d; bCloseNow := bCloseNow d; bCloseAfterWriting := bCloseAfterWriting d; MySocket
     := MySocket d; bAttached := bAttached d; bWatchOnly := bWatchOnly d; EventCallback :=
     EventCallback d; UnbindReasonCode := UnbindReasonCode d; BytesToProxy := BytesToProxy d;
     ProxyTarget := ProxyTarget d; ProxiedFrom := ProxiedFrom d; ProxiedBytes := ProxiedBytes d;
     MaxOutboundBufSize := MaxOutboundBufSize d; PendingConnectTimeout := PendingConnectTimeout d;
     InactivityTimeout := InactivityTimeout d; CreatedAt := CreatedAt d; LastActivity :=
     LastActivity d; NextHeartbeat := NextHeartbeat d; bPaused := bPaused d; bConnectPending :=
     bConnectPending d; bNotifyReadable := v; bReadAttemptedAfterClose := bReadAttemptedAfterClose
     d; bWriteAttemptedAfterClose := bWriteAttemptedAfterClose d; OutboundPages := OutboundPages d;
     OutboundDataSize := OutboundDataSize d; ReturnAddress := ReturnAddress d |}.

Definition set_bCloseNow (v : bool) (d : descriptor) : descriptor :=
  {| kind := kind d; bCloseNow := v; bCloseAfterWriting := bCloseAfterWriting d; MySocket :=
     MySocket d; bAttached := bAttached d; bWatchOnly := bWatchOnly d; EventCallback :=
     EventCallback d; UnbindReasonCode := UnbindReasonCode d; BytesToProxy := BytesToProxy d;
     ProxyTarget := ProxyTarget d; ProxiedFrom := ProxiedFrom d; ProxiedBytes := ProxiedBytes d;
     MaxOutboundBufSize := MaxOutboundBufSize d; PendingConnectTimeout := PendingConnectTimeout d;
     InactivityTimeout := InactivityTimeout d; CreatedAt := CreatedAt d; LastActivity :=
     LastActivity d; NextHeartbeat := NextHeartbeat d; bPaused := bPaused d; bConnectPending :=
     bConnectPending d; bNotifyReadable := bNotifyReadable d; bReadAttemptedAfterClose :=
     bReadAttemptedAfterClose d; bWriteAttemptedAfterClose := bWriteAttemptedAfterClose d;
     OutboundPages := OutboundPages d; OutboundDataSize := OutboundDataSize d; ReturnAddress :=
     ReturnAddress d |}.

Definition set_bCloseAfterWriting (v : bool) (d : descriptor) : descriptor :=
  {| kind := kind d; bCloseNow := bCloseNow d; bCloseAfterWriting := v; MySocket := MySocket d;
     bAttached := bAttached d; bWatchOnly := bWatchOnly d; EventCallback := EventCallback d;
     UnbindReasonCode := UnbindReasonCode d; BytesToProxy := BytesToProxy d; ProxyTarget :=
     ProxyTarget d; ProxiedFrom := ProxiedFrom d; ProxiedBytes := ProxiedBytes d; MaxOutboundBufSize
     := MaxOutboundBufSize d; PendingConnectTimeout := PendingConnectTimeout d; InactivityTimeout :=
     InactivityTimeout d; CreatedAt := CreatedAt d; LastActivity := LastActivity d; NextHeartbeat :=
     NextHeartbeat d; bPaused := bPaused d; bConnectPending := bConnectPending d; bNotifyReadable :=
     bNotifyReadable d; bReadAttemptedAfterClose := bReadAttemptedAfterClose d;
     bWriteAttemptedAfterClose := bWriteAttemptedAfterClose d; OutboundPages := OutboundPages d;
     OutboundDataSize := OutboundDataSize d; ReturnAddress := ReturnAddress d |}.

Definition set_MySocket (v : Z) (d : descriptor) : descriptor :=
  {| kind := kind d; bCloseNow := bCloseNow d; bCloseAfterWriting := bCloseAfterWriting d; MySocket
     := v; bAttached := bAttached d; bWatchOnly := bWatchOnly d; EventCallback := EventCallback d;
     UnbindReasonCode := UnbindReasonCode d; BytesToProxy := BytesToProxy d; ProxyTarget :=
     ProxyTarget d; ProxiedFrom := ProxiedFrom d; ProxiedBytes := ProxiedBytes d; MaxOutboundBufSize
     := MaxOutboundBufSize d; PendingConnectTimeout := PendingConnectTimeout d; InactivityTimeout :=
     InactivityTimeout d; CreatedAt := CreatedAt d; LastActivity := LastActivity d; NextHeartbeat :=
     NextHeartbeat d; bPaused := bPaused d; bConnectPending := bConnectPending d; bNotifyReadable :=
     bNotifyReadable d; bReadAttemptedAfterClose := bReadAttemptedAfterClose d;
     bWriteAttemptedAfterClose := bWriteAttemptedAfterClose d; OutboundPages := OutboundPages d;
     OutboundDataSize := OutboundDataSize d; ReturnAddress := ReturnAddress d |}.

Definition set_UnbindReasonCode (v : Z) (d : descriptor) : descriptor :=
  {| kind := kind d; bCloseNow := bCloseNow d; bCloseAfterWriting := bCloseAfterWriting d; MySocket
     := MySocket d; bAttached := bAttached d; bWatchOnly := bWatchOnly d; EventCallback :=
     EventCallback d; UnbindReasonCode := v; BytesToProxy := BytesToProxy d; ProxyTarget :=
     ProxyTarget d; ProxiedFrom := ProxiedFrom d; ProxiedBytes := ProxiedBytes d; MaxOutboundBufSize
     := MaxOutboundBufSize d; PendingConnectTimeout := PendingConnectTimeout d; InactivityTimeout :=
     InactivityTimeout d; CreatedAt := CreatedAt d; LastActivity := LastActivity d; NextHeartbeat :=
     NextHeartbeat d; bPaused := bPaused d; bConnectPending := bConnectPending d; bNotifyReadable :=
     bNotifyReadable d; bReadAttemptedAfterClose := bReadAttemptedAfterClose d;
     bWriteAttemptedAfterClose := bWriteAttemptedAfterClose d; OutboundPages := OutboundPages d;
     OutboundDataSize := OutboundDataSize d; ReturnAddress := ReturnAddress d |}.

Definition set_BytesToProxy (v : Z) (d : descriptor) : descriptor :=
  {| kind := kind d; bCloseNow := bCloseNow d; bCloseAfterWriting := bCloseAfterWriting d; MySocket
     := MySocket d; bAttached := bAttached d; bWatchOnly := bWatchOnly d; EventCallback :=
     EventCallback d; UnbindReasonCode := UnbindReasonCode d; BytesToProxy := v; ProxyTarget :=
     ProxyTarget d; ProxiedFrom := ProxiedFrom d; ProxiedBytes := ProxiedBytes d; MaxOutboundBufSize
     := MaxOutboundBufSize d; PendingConnectTimeout := PendingConnectTimeout d; InactivityTimeout :=
     InactivityTimeout d; CreatedAt := CreatedAt d; LastActivity := LastActivity d; NextHeartbeat :=
     NextHeartbeat d; bPaused := bPaused d; bConnectPending := bConnectPending d; bNotifyReadable :=
     bNotifyReadable d; bReadAttemptedAfterClose := bReadAttemptedAfterClose d;
     bWriteAttemptedAfterClose := bWriteAttemptedAfterClose d; OutboundPages := OutboundPages d;
     OutboundDataSize := OutboundDataSize d; ReturnAddress := ReturnAddress d |}.

Definition set_ProxyTarget (v : option N) (d : descriptor) : descriptor :=
  {| kind := kind d; bCloseNow := bCloseNow d; bCloseAfterWriting := bCloseAfterWriting d; MySocket
     := MySocket d; bAttached := bAttached d; bWatchOnly := bWatchOnly d; EventCallback :=
     EventCallback d; UnbindReasonCode := UnbindReasonCode d; BytesToProxy := BytesToProxy d;
     ProxyTarget := v; ProxiedFrom := ProxiedFrom d; ProxiedBytes := ProxiedBytes d;
     MaxOutboundBufSize := MaxOutboundBufSize d; PendingConnectTimeout := PendingConnectTimeout d;
     InactivityTimeout := InactivityTimeout d; CreatedAt := CreatedAt d; LastActivity :=
     LastActivity d; NextHeartbeat := NextHeartbeat d; bPaused := bPaused d; bConnectPending :=
     bConnectPending d; bNotifyReadable := bNotifyReadable d; bReadAttemptedAfterClose :=
     bReadAttemptedAfterClose d; bWriteAttemptedAfterClose := bWriteAttemptedAfterClose d;
     OutboundPages := OutboundPages d; OutboundDataSize := OutboundDataSize d; ReturnAddress :=
     ReturnAddress d |}.

Definition set_ProxiedFrom (v : option N) (d : descriptor) : descriptor :=
  {| kind := kind d; bCloseNow := bCloseNow d; bCloseAfterWriting := bCloseAfterWriting d; MySocket
     := MySocket d; bAttached := bAttached d; bWatchOnly := bWatchOnly d; EventCallback :=
     EventCallback d; UnbindReasonCode := UnbindReasonCode d; BytesToProxy := BytesToProxy d;
     ProxyTarget := ProxyTarget d; ProxiedFrom := v; ProxiedBytes := ProxiedBytes d;
     MaxOutboundBufSize := MaxOutboundBufSize d; PendingConnectTimeout := PendingConnectTimeout d;
     InactivityTimeout := InactivityTimeout d; CreatedAt := CreatedAt d; LastActivity :=
     LastActivity d; NextHeartbeat := NextHeartbeat d; bPaused := bPaused d; bConnectPending :=
     bConnectPending d; bNotifyReadable := bNotifyReadable d; bReadAttemptedAfterClose :=
     bReadAttemptedAfterClose d; bWriteAttemptedAfterClose := bWriteAttemptedAfterClose d;
     OutboundPages := OutboundPages d; OutboundDataSize := OutboundDataSize d; ReturnAddress :=
     ReturnAddress d |}.

Definition set_ProxiedBytes (v : Z) (d : descriptor) : descriptor :=
  {| kind := kind d; bCloseNow := bCloseNow d; bCloseAfterWriting := bCloseAfterWriting d; MySocket
     := MySocket d; bAttached := bAttached d; bWatchOnly := bWatchOnly d; EventCallback :=
     EventCallback d; UnbindReasonCode := UnbindReasonCode d; BytesToProxy := BytesToProxy d;
     ProxyTarget := ProxyTarget d; ProxiedFrom := ProxiedFrom d; ProxiedBytes := v;
     MaxOutboundBufSize := MaxOutboundBufSize d; PendingConnectTimeout := PendingConnectTimeout d;
     InactivityTimeout := InactivityTimeout d; CreatedAt := CreatedAt d; LastActivity :=
     LastActivity d; NextHeartbeat := NextHeartbeat d; bPaused := bPaused d; bConnectPending :=
     bConnectPending d; bNotifyReadable := bNotifyReadable d; bReadAttemptedAfterClose :=
     bReadAttemptedAfterClose d; bWriteAttemptedAfterClose := bWriteAttemptedAfterClose d;
     OutboundPages := OutboundPages d; OutboundDataSize := OutboundDataSize d; ReturnAddress :=
     ReturnAddress d |}.

Definition set_MaxOutboundBufSize (v : Z) (d : descriptor) : descriptor :=
  {| kind := kind d; bCloseNow := bCloseNow d; bCloseAfterWriting := bCloseAfterWriting d; MySocket
     := MySocket d; bAttached := bAttached d; bWatchOnly := bWatchOnly d; EventCallback :=
     EventCallback d; UnbindReasonCode := UnbindReasonCode d; BytesToProxy := BytesToProxy d;
     ProxyTarget := ProxyTarget d; ProxiedFrom := ProxiedFrom d; ProxiedBytes := ProxiedBytes d;
     MaxOutboundBufSize := v; PendingConnectTimeout := PendingConnectTimeout d; InactivityTimeout :=
     InactivityTimeout d; CreatedAt := CreatedAt d; LastActivity := LastActivity d; NextHeartbeat :=
     NextHeartbeat d; bPaused := bPaused d; bConnectPending := bConnectPending d; bNotifyReadable :=
     bNotifyReadable d; bReadAttemptedAfterClose := bReadAttemptedAfterClose d;
     bWriteAttemptedAfterClose := bWriteAttemptedAfterClose d; OutboundPages := OutboundPages d;
     OutboundDataSize := OutboundDataSize d; ReturnAddress := ReturnAddress d |}.

Definition set_LastActivity (v : Z) (d : descriptor) : descriptor :=
  {| kind := kind d; bCloseNow := bCloseNow d; bCloseAfterWriting := bCloseAfterWriting d; MySocket
     := MySocket d; bAttached := bAttached d; bWatchOnly := bWatchOnly d; EventCallback :=
     EventCallback d; UnbindReasonCode := UnbindReasonCode d; BytesToProxy := BytesToProxy d;
     ProxyTarget := ProxyTarget d; ProxiedFrom := ProxiedFrom d; ProxiedBytes := ProxiedBytes d;
     MaxOutboundBufSize := MaxOutboundBufSize d; PendingConnectTimeout := PendingConnectTimeout d;
     InactivityTimeout := InactivityTimeout d; CreatedAt := CreatedAt d; LastActivity := v;
     NextHeartbeat := NextHeartbeat d; bPaused := bPaused d; bConnectPending := bConnectPending d;
     bNotifyReadable := bNotifyReadable d; bReadAttemptedAfterClose := bReadAttemptedAfterClose d;
     bWriteAttemptedAfterClose := bWriteAttemptedAfterClose d; OutboundPages := OutboundPages d;
     OutboundDataSize := OutboundDataSize d; ReturnAddress := ReturnAddress d |}.

Definition set_NextHeartbeat (v : Z) (d : descriptor) : descriptor :=
  {| kind := kind d; bCloseNow := bCloseNow d; bCloseAfterWriting := bCloseAfterWriting d; MySocket
     := MySocket d; bAttached := bAttached d; bWatchOnly := bWatchOnly d; EventCallback :=
     EventCallback d; UnbindReasonCode := UnbindReasonCode d; BytesToProxy := BytesToProxy d;
     ProxyTarget := ProxyTarget d; ProxiedFrom := ProxiedFrom d; ProxiedBytes := ProxiedBytes d;
     MaxOutboundBufSize := MaxOutboundBufSize d; PendingConnectTimeout := PendingConnectTimeout d;
     InactivityTimeout := InactivityTimeout d; CreatedAt := CreatedAt d; LastActivity :=
     LastActivity d; NextHeartbeat := v; bPaused := bPaused d; bConnectPending := bConnectPending d;
     bNotifyReadable := bNotifyReadable d; bReadAttemptedAfterClose := bReadAttemptedAfterClose d;
     bWriteAttemptedAfterClose := bWriteAttemptedAfterClose d; OutboundPages := OutboundPages d;
     OutboundDataSize := OutboundDataSize d; ReturnAddress := ReturnAddress d |}.

Definition set_bPaused (v : bool) (d : descriptor) : descriptor :=
  {| kind := kind d; bCloseNow := bCloseNow d; bCloseAfterWriting := bCloseAfterWriting d; MySocket
     := MySocket d; bAttached := bAttached d; bWatchOnly := bWatchOnly d; EventCallback :=
     EventCallback d; UnbindReasonCode := UnbindReasonCode d; BytesToProxy := BytesToProxy d;
     ProxyTarget := ProxyTarget d; ProxiedFrom := ProxiedFrom d; ProxiedBytes := ProxiedBytes d;
     MaxOutboundBufSize := MaxOutboundBufSize d; PendingConnectTimeout := PendingConnectTimeout d;
     InactivityTimeout := InactivityTimeout d; CreatedAt := CreatedAt d; LastActivity :=
     LastActivity d; NextHeartbeat := NextHeartbeat d; bPaused := v; bConnectPending :=
     bConnectPending d; bNotifyReadable := bNotifyReadable d; bReadAttemptedAfterClose :=
     bReadAttemptedAfterClose d; bWriteAttemptedAfterClose := bWriteAttemptedAfterClose d;
     OutboundPages := OutboundPages d; OutboundDataSize := OutboundDataSize d; ReturnAddress :=
     ReturnAddress d |}.

Definition set_bReadAttemptedAfterClose (v : bool) (d : descriptor) : descriptor :=
  {| kind := kind d; bCloseNow := bCloseNow d; bCloseAfterWriting := bCloseAfterWriting d; MySocket
     := MySocket d; bAttached := bAttached d; bWatchOnly := bWatchOnly d; EventCallback :=
     EventCallback d; UnbindReasonCode := UnbindReasonCode d; BytesToProxy := BytesToProxy d;
     ProxyTarget := ProxyTarget d; ProxiedFrom := ProxiedFrom d; ProxiedBytes := ProxiedBytes d;
     MaxOutboundBufSize := MaxOutboundBufSize d; PendingConnectTimeout := PendingConnectTimeout d;
     InactivityTimeout := InactivityTimeout d; CreatedAt := CreatedAt d; LastActivity :=
     LastActivity d; NextHeartbeat := NextHeartbeat d; bPaused := bPaused d; bConnectPending :=
     bConnectPending d; bNotifyReadable := bNotifyReadable d; bReadAttemptedAfterClose := v;
     bWriteAttemptedAfterClose := bWriteAttemptedAfterClose d; OutboundPages := OutboundPages d;
     OutboundDataSize := OutboundDataSize d; ReturnAddress := ReturnAddress d |}.

Definition set_bWriteAttemptedAfterClose (v : bool) (d : descriptor) : descriptor :=
  {| kind := kind d; bCloseNow := bCloseNow d; bCloseAfterWriting := bCloseAfterWriting d; MySocket
     := MySocket d; bAttached := bAttached d; bWatchOnly := bWatchOnly d; EventCallback :=
     EventCallback d; UnbindReasonCode := UnbindReasonCode d; BytesToProxy := BytesToProxy d;
     ProxyTarget := ProxyTarget d; ProxiedFrom := ProxiedFrom d; ProxiedBytes := ProxiedBytes d;
     MaxOutboundBufSize := MaxOutboundBufSize d; PendingConnectTimeout := PendingConnectTimeout d;
     InactivityTimeout := InactivityTimeout d; CreatedAt := CreatedAt d; LastActivity :=
     LastActivity d; NextHeartbeat := NextHeartbeat d; bPaused := bPaused d; bConnectPending :=
     bConnectPending d; bNotifyReadable := bNotifyReadable d; bReadAttemptedAfterClose :=
     bReadAttemptedAfterClose d; bWriteAttemptedAfterClose := v; OutboundPages := OutboundPages d;
     OutboundDataSize := OutboundDataSize d; ReturnAddress := ReturnAddress d |}.

Definition set_OutboundPages (v : list OutboundPage) (d : descriptor) : descriptor :=
  {| kind := kind d; bCloseNow := bCloseNow d; bCloseAfterWriting := bCloseAfterWriting d; MySocket
     := MySocket d; bAttached := bAttached d; bWatchOnly := bWatchOnly d; EventCallback :=
     EventCallback d; UnbindReasonCode := UnbindReasonCode d; BytesToProxy := BytesToProxy d;
     ProxyTarget := ProxyTarget d; ProxiedFrom := ProxiedFrom d; ProxiedBytes := ProxiedBytes d;
     MaxOutboundBufSize := MaxOutboundBufSize d; PendingConnectTimeout := PendingConnectTimeout d;
     InactivityTimeout := InactivityTimeout d; CreatedAt := CreatedAt d; LastActivity :=
     LastActivity d; NextHeartbeat := NextHeartbeat d; bPaused := bPaused d; bConnectPending :=
     bConnectPending d; bNotifyReadable := bNotifyReadable d; bReadAttemptedAfterClose :=
     bReadAttemptedAfterClose d; bWriteAttemptedAfterClose := bWriteAttemptedAfterClose d;
     OutboundPages := v; OutboundDataSize := OutboundDataSize d; ReturnAddress := ReturnAddress d |}.

Definition set_OutboundDataSize (v : Z) (d : descriptor) : descriptor :=
  {| kind := kind d; bCloseNow := bCloseNow d; bCloseAfterWriting := bCloseAfterWriting d; MySocket
     := MySocket d; bAttached := bAttached d; bWatchOnly := bWatchOnly d; EventCallback :=
     EventCallback d; UnbindReasonCode := UnbindReasonCode d; BytesToProxy := BytesToProxy d;
     ProxyTarget := ProxyTarget d; ProxiedFrom := ProxiedFrom d; ProxiedBytes := ProxiedBytes d;
     MaxOutboundBufSize := MaxOutboundBufSize d; PendingConnectTimeout := PendingConnectTimeout d;
     InactivityTimeout := InactivityTimeout d; CreatedAt := CreatedAt d; LastActivity :=
     LastActivity d; NextHeartbeat := NextHeartbeat d; bPaused := bPaused d; bConnectPending :=
     bConnectPending d; bNotifyReadable := bNotifyReadable d; bReadAttemptedAfterClose :=
     bReadAttemptedAfterClose d; bWriteAttemptedAfterClose := bWriteAttemptedAfterClose d;
     OutboundPages := OutboundPages d; OutboundDataSize := v; ReturnAddress := ReturnAddress d |}.

Definition set_ReturnAddress (v : sockaddr) (d : descriptor) : descriptor :=
  {| kind := kind d; bCloseNow := bCloseNow d; bCloseAfterWriting := bCloseAfterWriting d; MySocket
     := MySocket d; bAttached := bAttached d; bWatchOnly := bWatchOnly d; EventCallback :=
     EventCallback d; UnbindReasonCode := UnbindReasonCode d; BytesToProxy := BytesToProxy d;
     ProxyTarget := ProxyTarget d; ProxiedFrom := ProxiedFrom d; ProxiedBytes := ProxiedBytes d;
     MaxOutboundBufSize := MaxOutboundBufSize d; PendingConnectTimeout := PendingConnectTimeout d;
     InactivityTimeout := InactivityTimeout d; CreatedAt := CreatedAt d; LastActivity :=
     LastActivity d; NextHeartbeat := NextHeartbeat d; bPaused := bPaused d; bConnectPending :=
     bConnectPending d; bNotifyReadable := bNotifyReadable d; bReadAttemptedAfterClose :=
     bReadAttemptedAfterClose d; bWriteAttemptedAfterClose := bWriteAttemptedAfterClose d;
     OutboundPages := OutboundPages d; OutboundDataSize := OutboundDataSize d; ReturnAddress := v |}.

Definition add_Offset (n : Z) (op : OutboundPage) : OutboundPage :=
  {| Buffer := Buffer op; Length := Length op; Offset := Offset op + n; From := From op |}.

(** The event kinds passed to the callback (eventmachine.h). *)
Inductive callback_event : Type :=
| EM_CONNECTION_READ
| EM_CONNECTION_UNBOUND
| EM_CONNECTION_ACCEPTED
| EM_CONNECTION_COMPLETED
| EM_CONNECTION_NOTIFY_READABLE
| EM_CONNECTION_NOTIFY_WRITABLE
| EM_PROXY_TARGET_UNBOUND
| EM_PROXY_COMPLETED.

(** One element of the array handed to [writev]: the memory readable from
    [iov_base], and [iov_len]. *)
Record iovec : Type := mkIovec {
  iov_base : list byte;
  iov_len : Z
}.

(** What a method does to the world outside the descriptor objects: calls
    into the reactor, system calls on the handle, and user callbacks.  A
    callback receives a pointer and a size; the pointer is modelled by the
    memory readable from it (the rest of the array it points into), [None]
    for NULL.  A [writev] is recorded with the array it was handed and the
    value it returned. *)
Inductive effect : Type :=
| Deregister (ed : binding)
| ClearHeartbeat (key : Z) (ed : binding)
| sys_shutdown (sd : Z) (how : Z)
| sys_close (sd : Z)
| sys_writev_call (sd : Z) (iov : list iovec) (returned : Z)
| Callback (ed : binding) (ev : callback_event) (data : option (list byte)) (size : Z).

(** The reactor ([EventMachine_t]) as the descriptors see it, together with
    the object store and the trace of effects, oldest first. *)
Record World : Type := mkWorld {
  objs : gmap N descriptor;
  NumCloseScheduled : Z;
  GetCurrentLoopTime : Z;
  GetRealTime : Z;
  GetTimerQuantum : Z;
  trace : list effect
}.

Definition set_objs (m : gmap N descriptor) (w : World) : World :=
  {| objs := m; NumCloseScheduled := NumCloseScheduled w;
     GetCurrentLoopTime := GetCurrentLoopTime w; GetRealTime := GetRealTime w;
     GetTimerQuantum := GetTimerQuantum w; trace := trace w |}.

Definition set_NumCloseScheduled (n : Z) (w : World) : World :=
  {| objs := objs w; NumCloseScheduled := n;
     GetCurrentLoopTime := GetCurrentLoopTime w; GetRealTime := GetRealTime w;
     GetTimerQuantum := GetTimerQuantum w; trace := trace w |}.

Definition set_trace (t : list effect) (w : World) : World :=
  {| objs := objs w; NumCloseScheduled := NumCloseScheduled w;
     GetCurrentLoopTime := GetCurrentLoopTime w; GetRealTime := GetRealTime w;
     GetTimerQuantum := GetTimerQuantum w; trace := t |}.

(** ** The monad of methods

    A call returns a value, throws [std::runtime_error], or aborts the
    process (a failed [assert], or undefined behaviour such as following a
    dangling pointer or indexing outside an array). *)

Inductive abort_reason : Type :=
| AssertionFailed (what : string)
| DanglingPointer
| OutOfBounds.

Inductive result (A : Type) : Type :=
| Returned (a : A) (w : World)
| Thrown (what : string) (w : World)
| Aborted (why : abort_reason).
Arguments Returned {A} a w.
Arguments Thrown {A} what w.
Arguments Aborted {A} why.

Definition M (A : Type) : Type := World -> result A.

Definition ret {A} (a : A) : M A := fun w => Returned a w.

Definition bind {A B} (m : M A) (f : A -> M B) : M B :=
  fun w => match m w with
           | Returned a w' => f a w'
           | Thrown s w' => Thrown s w'
           | Aborted r => Aborted r
           end.

Notation "x <- m ;; k" := (bind m (fun x => k))
  (at level 100, m at next level, right associativity).
Notation "m ;; k" := (bind m (fun _ => k))
  (at level 100, right associativity).

Definition throw {A} (what : string) : M A := fun w => Thrown what w.
Definition abort {A} (why : abort_reason) : M A := fun _ => Aborted why.

Definition assert (b : bool) (what : string) : M unit :=
  if b then ret tt else abort (AssertionFailed what).

Definition when (b : bool) (m : M unit) : M unit := if b then m else ret tt.

(** Reading [*p] and assigning through [p]. *)
Definition deref (p : binding) : M descriptor :=
  fun w => match objs w !! p with
           | Some d => Returned d w
           | None => Aborted DanglingPointer
           end.

Definition modify (p : binding) (f : descriptor -> descriptor) : M unit :=
  fun w => match objs w !! p with
           | Some d => Returned tt (set_objs (<[p := f d]> (objs w)) w)
           | None => Aborted DanglingPointer
           end.

Definition emit (e : effect) : M unit :=
  fun w => Returned tt (set_trace (trace w ++ [e]) w).

Definition reactor {A} (f : World -> A) : M A := fun w => Returned (f w) w.

(** ** EventableDescriptor *)

(** The constructor, lines 71-122: the member initialisers, then the guard on
    the handle; both time stamps are the reactor's loop time. *)
Definition init_EventableDescriptor (k : descriptor_kind) (sd : Z) (now : Z) : descriptor :=
  {| kind := k; bCloseNow := false; bCloseAfterWriting := false; MySocket := sd;
     bAttached := false; bWatchOnly := false; EventCallback := false;
     UnbindReasonCode := 0; BytesToProxy := 0; ProxyTarget := None;
     ProxiedFrom := None; ProxiedBytes := 0; MaxOutboundBufSize := 0;
     PendingConnectTimeout := 20000000; InactivityTimeout := 0;
     CreatedAt := now; LastActivity := now; NextHeartbeat := 0; bPaused := false;
     bConnectPending := false; bNotifyReadable := false;
     bReadAttemptedAfterClose := false; bWriteAttemptedAfterClose := false;
     OutboundPages := []; OutboundDataSize := 0; ReturnAddress := [] |}.

Definition new_EventableDescriptor (k : descriptor_kind) (sd : Z) (now : Z) : option descriptor :=
  if sd =? INVALID_SOCKET then None else Some (init_EventableDescriptor k sd now).

(** [EventableDescriptor::SetEventCallback], lines 149-152. *)
Definition SetEventCallback (this : binding) : M unit :=
  modify this (set_EventCallback true).

(** Modelled from the spec: the virtual accessor [GetOutboundDataSize] is
    defined inline in the class declarations (ed.h), which are not among the
    sources.  The spec's data model attaches the tracked outbound byte count
    to the descriptors that own an outbound queue (stream and datagram); a
    descriptor without a queue has nothing left to write. *)
Definition GetOutboundDataSize (d : descriptor) : Z :=
  match kind d with
  | ConnectionDescriptor | DatagramDescriptor => OutboundDataSize d
  | _ => 0
  end.

(** Modelled from the spec: [IsConnectPending] is likewise inline in ed.h;
    only a stream connection has the PendingConnect state. *)
Definition IsConnectPending (d : descriptor) : bool :=
  match kind d with
  | ConnectionDescriptor => bConnectPending d
  | _ => false
  end.

(** [EventableDescriptor::IsCloseScheduled], lines 260-264. *)
Definition IsCloseScheduled (d : descriptor) : bool :=
  bCloseNow d || bCloseAfterWriting d.

(** [EventableDescriptor::ShouldDelete], lines 218-230. *)
Definition ShouldDelete (d : descriptor) : bool :=
  (MySocket d =? INVALID_SOCKET) || bCloseNow d
  || (bCloseAfterWriting d && (GetOutboundDataSize d <=? 0)).

(** [EventableDescriptor::Close], lines 159-211. *)
Definition Close (this : binding) : M unit :=
  d <- deref this ;;
  when (negb (MySocket d =? INVALID_SOCKET)) (
    emit (Deregister this) ;;
    when ((2 <? MySocket d) && negb (bAttached d)) (
      emit (sys_shutdown (MySocket d) 1) ;;
      emit (sys_close (MySocket d))) ;;
    modify this (set_MySocket INVALID_SOCKET)).

(** [EventableDescriptor::ScheduleClose], lines 237-253. *)
Definition EventableDescriptor_ScheduleClose (this : binding) (after_writing : bool) : M unit :=
  d <- deref this ;;
  if IsCloseScheduled d then
    when (negb after_writing) (modify this (set_bCloseNow true))
  else
    (fun w => Returned tt (set_NumCloseScheduled (NumCloseScheduled w + 1) w)) ;;
    if after_writing then modify this (set_bCloseAfterWriting true)
    else modify this (set_bCloseNow true).

(** [EventableDescriptor::SetProxiedFrom], lines 436-443. *)
Definition SetProxiedFrom (this : binding) (from : option binding) (bufsize : Z) : M unit :=
  d <- deref this ;;
  if bool_decide (from <> None) && bool_decide (ProxiedFrom d <> None) then
    throw "Tried to proxy to a busy target"
  else
    modify this (set_ProxiedFrom from) ;;
    modify this (set_MaxOutboundBufSize bufsize).

(** [EventableDescriptor::StopProxy], lines 423-429. *)
Definition StopProxy (this : binding) : M unit :=
  d <- deref this ;;
  match ProxyTarget d with
  | Some target =>
      SetProxiedFrom target None 0 ;;
      modify this (set_ProxyTarget None)
  | None => ret tt
  end.

(** [EventableDescriptor::StartProxy], lines 404-416.  [Bindable_t::GetObject]
    looks the binding up in the table of live objects. *)
Definition StartProxy (this : binding) (to : binding) (bufsize length : Z) : M unit :=
  ed <- reactor (fun w => objs w !! to) ;;
  match ed with
  | Some _ =>
      StopProxy this ;;
      modify this (set_ProxyTarget (Some to)) ;;
      modify this (set_BytesToProxy length) ;;
      modify this (set_ProxiedBytes 0) ;;
      SetProxiedFrom to (Some this) bufsize
  | None => throw "Tried to proxy to an invalid descriptor"
  end.

(** Modelled from the spec: [IsPaused], and the [Pause] and [Resume] of the
    descriptor kinds that do not override them, are inline in ed.h.  Pausing
    a source puts it in the Paused state and resuming takes it out; the
    stream connection's own overrides are in ed.cpp and follow below. *)
Definition IsPaused (this : binding) : M bool :=
  d <- deref this ;; ret (bPaused d).

Definition EventableDescriptor_Pause (this : binding) : M bool :=
  modify this (set_bPaused true) ;; ret true.

Definition EventableDescriptor_Resume (this : binding) : M bool :=
  modify this (set_bPaused false) ;; ret false.

(** ** ConnectionDescriptor *)

Definition new_ConnectionDescriptor (this : binding) (sd : Z) : M unit :=
  now <- reactor GetCurrentLoopTime ;;
  match new_EventableDescriptor ConnectionDescriptor sd now with
  | Some d => fun w => Returned tt (set_objs (<[this := d]> (objs w)) w)
  | None => throw "bad eventable descriptor"
  end.

(** [ConnectionDescriptor::SetConnectPending], [SetAttached], [SetWatchOnly]
    (lines 663-689) and [SetCommInactivityTimeout] (lines 2137-2142), without
    their requests to the reactor. *)
Definition SetConnectPending (this : binding) (f : bool) : M unit :=
  modify this (set_bConnectPending f).

Definition SetAttached (this : binding) (state : bool) : M unit :=
  modify this (set_bAttached state).

Definition SetWatchOnly (this : binding) (watching : bool) : M unit :=
  modify this (set_bWatchOnly watching).

Definition ConnectionDescriptor_SetCommInactivityTimeout (this : binding) (value : Z) : M Z :=
  modify this (set_InactivityTimeout (u64 (value * 1000))) ;; ret 1.

(** [ConnectionDescriptor::ScheduleClose], lines 718-724. *)
Definition ConnectionDescriptor_ScheduleClose (this : binding) (after_writing : bool) : M unit :=
  d <- deref this ;;
  if bWatchOnly d then throw "cannot close 'watch only' connections"
  else EventableDescriptor_ScheduleClose this after_writing.

(** [ConnectionDescriptor::Pause] and [Resume], lines 900-924. *)
Definition ConnectionDescriptor_Pause (this : binding) : M bool :=
  d <- deref this ;;
  if bWatchOnly d then
    throw "cannot pause/resume 'watch only' connections, set notify readable/writable instead"
  else
    let old := bPaused d in
    modify this (set_bPaused true) ;;
    ret (eqb old false).

Definition ConnectionDescriptor_Resume (this : binding) : M bool :=
  d <- deref this ;;
  if bWatchOnly d then
    throw "cannot pause/resume 'watch only' connections, set notify readable/writable instead"
  else
    let old := bPaused d in
    modify this (set_bPaused false) ;;
    ret (eqb old true).

(** Virtual dispatch of [Pause] and [Resume] through an
    [EventableDescriptor*]. *)
Definition Pause (p : binding) : M bool :=
  d <- deref p ;;
  match kind d with
  | ConnectionDescriptor => ConnectionDescriptor_Pause p
  | _ => EventableDescriptor_Pause p
  end.

Definition Resume (p : binding) : M bool :=
  d <- deref p ;;
  match kind d with
  | ConnectionDescriptor => ConnectionDescriptor_Resume p
  | _ => EventableDescriptor_Resume p
  end.

(** [memcpy (buffer, data, length); buffer [length] = 0]: the fresh buffer of
    [length + 1] bytes.  Reading past the end of [data] is undefined. *)
Definition copy_outbound (data : list byte) (length : Z) : M (list byte) :=
  if Z.of_nat (List.length data) <? length then abort OutOfBounds
  else ret (firstn (Z.to_nat length) data ++ [x00]).

(** [ConnectionDescriptor::_SendRawOutboundData], lines 804-839.  [data] is
    never NULL here and the allocation succeeds.  [length] is an
    [unsigned long]; the page's [Length], the byte count and the return
    value are [int]s, so each receives the length converted to [int]. *)
Definition _SendRawOutboundData (this : binding) (data : list byte) (length : Z) : M Z :=
  d <- deref this ;;
  if IsCloseScheduled d then ret 0
  else if length =? 0 then ret 0
  else
    buffer <- copy_outbound data length ;;
    modify this (fun d => set_OutboundPages
                            (OutboundPages d ++ [mkOutboundPage buffer (to_int length) 0 None])
                            d) ;;
    modify this (fun d => set_OutboundDataSize (to_int (OutboundDataSize d + length)) d) ;;
    ret (to_int length).

(** The backpressure test of [SendOutboundData], line 764: a threshold is
    set and the queue would grow past it. *)
Definition over_threshold (d : descriptor) (length : Z) : bool :=
  negb (MaxOutboundBufSize d =? 0)
  && (MaxOutboundBufSize d <? to_unsigned_int (GetOutboundDataSize d + length)).

(** Lines 764-765: pause the proxy source when the test holds. *)
Definition pause_source_if_over (this : binding) (length : Z) : M unit :=
  d <- deref this ;;
  match ProxiedFrom d with
  | Some from => when (over_threshold d length) (Pause from ;; ret tt)
  | None => ret tt
  end.

(** [ConnectionDescriptor::SendOutboundData], lines 759-796. *)
Definition ConnectionDescriptor_SendOutboundData
    (this : binding) (data : list byte) (length : Z) : M Z :=
  d <- deref this ;;
  if bWatchOnly d then throw "cannot send data on a 'watch only' connection"
  else
    pause_source_if_over this length ;;
    _SendRawOutboundData this data length.

(** ** DatagramDescriptor *)

Definition new_DatagramDescriptor (this : binding) (sd : Z) : M unit :=
  now <- reactor GetCurrentLoopTime ;;
  match new_EventableDescriptor DatagramDescriptor sd now with
  | Some d => fun w => Returned tt (set_objs (<[this := d]> (objs w)) w)
  | None => throw "bad eventable descriptor"
  end.

(** [DatagramDescriptor::SendOutboundData], lines 2042-2073, with the same
    conversions of [length] to [int]. *)
Definition DatagramDescriptor_SendOutboundData
    (this : binding) (data : list byte) (length : Z) : M Z :=
  d <- deref this ;;
  if IsCloseScheduled d then ret 0
  else
    buffer <- copy_outbound data length ;;
    modify this (fun d => set_OutboundPages
                            (OutboundPages d
                               ++ [mkOutboundPage buffer (to_int length) 0
                                     (Some (ReturnAddress d))]) d) ;;
    modify this (fun d => set_OutboundDataSize (to_int (OutboundDataSize d + length)) d) ;;
    ret (to_int length).

(** Virtual dispatch of [SendOutboundData] through an
    [EventableDescriptor*].  Modelled from the spec: the base-class body is
    inline in ed.h; the other descriptor kinds own no outbound queue and
    their [Write] is an invalid code path, so sending to them queues nothing
    and reports failure. *)
Definition SendOutboundData (p : binding) (data : list byte) (length : Z) : M Z :=
  d <- deref p ;;
  match kind d with
  | ConnectionDescriptor => ConnectionDescriptor_SendOutboundData p data length
  | DatagramDescriptor => DatagramDescriptor_SendOutboundData p data length
  | _ => ret (-1)
  end.

(** [EventableDescriptor::_GenericInboundDispatch], lines 450-474.  [buf] is
    the memory readable from the pointer; [buf + proxied] drops its first
    [proxied] bytes. *)
Definition _GenericInboundDispatch (this : binding) (buf : list byte) (size : Z) : M unit :=
  d <- deref this ;;
  assert (EventCallback d) "EventCallback" ;;
  match ProxyTarget d with
  | Some target =>
      if 0 <? BytesToProxy d then
        let proxied := Z.min (BytesToProxy d) size in
        SendOutboundData target buf proxied ;;
        modify this (fun d => set_ProxiedBytes (u64 (ProxiedBytes d + proxied)) d) ;;
        modify this (fun d => set_BytesToProxy (BytesToProxy d - proxied) d) ;;
        d' <- deref this ;;
        when (BytesToProxy d' =? 0) (
          StopProxy this ;;
          emit (Callback this EM_PROXY_COMPLETED None 0) ;;
          when (proxied <? size)
            (emit (Callback this EM_CONNECTION_READ
                     (Some (skipn (Z.to_nat proxied) buf)) (size - proxied))))
      else
        SendOutboundData target buf size ;;
        modify this (fun d => set_ProxiedBytes (u64 (ProxiedBytes d + size)) d)
  | None => emit (Callback this EM_CONNECTION_READ (Some buf) size)
  end.

(** [EventableDescriptor::GetNextHeartbeat], lines 545-564. *)
Definition GetNextHeartbeat (this : binding) : M Z :=
  d <- deref this ;;
  when (negb (NextHeartbeat d =? 0)) (emit (ClearHeartbeat (NextHeartbeat d) this)) ;;
  modify this (set_NextHeartbeat 0) ;;
  d <- deref this ;;
  if negb (ShouldDelete d) then
    let time_til_next := InactivityTimeout d in
    let time_til_next :=
      if IsConnectPending d then
        if (time_til_next =? 0) || (PendingConnectTimeout d <? time_til_next)
        then PendingConnectTimeout d else time_til_next
      else time_til_next in
    if time_til_next =? 0 then ret 0
    else
      real <- reactor GetRealTime ;;
      modify this (set_NextHeartbeat (u64 (time_til_next + real))) ;;
      d <- deref this ;;
      ret (NextHeartbeat d)
  else ret (NextHeartbeat d).

(** ** The kernel side of the system calls

    [read] and [recvfrom] copy at most [count] of the bytes the kernel holds
    for the handle into the start of the buffer and return how many, or fail
    with an [errno]; [writev] takes as many of the gathered bytes as it has
    room for, or fails. *)
Inductive kernel_read : Type :=
| Delivers (pending : list byte) (sender : sockaddr)
| ReadFails (e : Z).

Inductive kernel_write : Type :=
| Accepts (room : N)
| WriteFails (e : Z).

(** The buffer after the call, the return value and [errno]. *)
Definition sys_read (k : kernel_read) (buf : list byte) (count : Z) : list byte * Z * Z :=
  match k with
  | Delivers pending _ =>
      let got := firstn (Z.to_nat count) pending in
      (got ++ skipn (List.length got) buf, Z.of_nat (List.length got), 0)
  | ReadFails e => (buf, -1, e)
  end.

Definition sender_of (k : kernel_read) : sockaddr :=
  match k with
  | Delivers _ sender => sender
  | ReadFails _ => []
  end.

(** The return value and [errno]. *)
Definition sys_writev (k : kernel_write) (nbytes : Z) : Z * Z :=
  match k with
  | Accepts room => (Z.min (Z.of_N room) nbytes, 0)
  | WriteFails e => (-1, e)
  end.

(** [buf [i] = c] on an array; a store outside the array is undefined. *)
Definition array_store (buf : list byte) (i : Z) (c : byte) : M (list byte) :=
  if (0 <=? i) && (i <? Z.of_nat (List.length buf))
  then ret (<[Z.to_nat i := c]> buf)
  else abort OutOfBounds.

(** An automatic array: its contents are whatever [stack] holds. *)
Definition automatic_array (stack : nat -> byte) (size : nat) : list byte :=
  map stack (seq 0 size).

(** ** ConnectionDescriptor, continued *)

(** [ConnectionDescriptor::_DispatchInboundData], lines 1081-1084. *)
Definition _DispatchInboundData (this : binding) (buffer : list byte) (size : Z) : M unit :=
  _GenericInboundDispatch this buffer size.

(** [sizeof (readbuffer)] in [ConnectionDescriptor::Read]. *)
Definition ConnectionDescriptor_readbuffer_size : nat := 16 * 1024 + 1.

(** The read errors that are not fatal (OS_UNIX), lines 1010 and 1320. *)
Definition read_would_block (e : Z) : bool :=
  (e =? EINPROGRESS) || (e =? EWOULDBLOCK) || (e =? EAGAIN) || (e =? EINTR).

Definition write_would_block (e : Z) : bool :=
  (e =? EINPROGRESS) || (e =? EWOULDBLOCK) || (e =? EINTR).

(** The burst loop of [ConnectionDescriptor::Read], lines 974-1026: [n]
    iterations remain, [i] is the loop counter, and the kernel's answer to
    the [i]-th [read] is [kernel i].  Returns [total_bytes_read]. *)
Fixpoint ConnectionDescriptor_Read_loop (this : binding) (kernel : nat -> kernel_read)
    (n i : nat) (readbuffer : list byte) (total_bytes_read : Z) : M Z :=
  match n with
  | O => ret total_bytes_read
  | S n' =>
      let '(readbuffer, r, e) :=
        sys_read (kernel i) readbuffer (Z.of_nat (List.length readbuffer) - 1) in
      if 0 <? r then
        let total_bytes_read := total_bytes_read + r in
        readbuffer <- array_store readbuffer r x00 ;;
        _DispatchInboundData this readbuffer r ;;
        d <- deref this ;;
        if bPaused d then ret total_bytes_read
        else ConnectionDescriptor_Read_loop this kernel n' (S i) readbuffer total_bytes_read
      else if r =? 0 then ret total_bytes_read
      else if negb (read_would_block e) then
        modify this (set_UnbindReasonCode e) ;;
        Close this ;;
        ret total_bytes_read
      else ret total_bytes_read
  end.

(** [ConnectionDescriptor::Read], lines 930-1036. *)
Definition ConnectionDescriptor_Read (this : binding) (stack : nat -> byte)
    (kernel : nat -> kernel_read) : M unit :=
  d <- deref this ;;
  if MySocket d =? INVALID_SOCKET then
    assert (negb (bReadAttemptedAfterClose d)) "!bReadAttemptedAfterClose" ;;
    modify this (set_bReadAttemptedAfterClose true)
  else if bWatchOnly d then
    when (bNotifyReadable d && EventCallback d)
      (emit (Callback this EM_CONNECTION_NOTIFY_READABLE None 0))
  else
    now <- reactor GetCurrentLoopTime ;;
    modify this (set_LastActivity now) ;;
    total_bytes_read <-
      ConnectionDescriptor_Read_loop this kernel 10 0
        (automatic_array stack ConnectionDescriptor_readbuffer_size) 0 ;;
    when (total_bytes_read =? 0) (ConnectionDescriptor_ScheduleClose this false).

(** [op->Length - op->Offset]: the bytes of a page still to be written. *)
Definition unsent (op : OutboundPage) : Z := Length op - Offset op.

(** Lines 1223-1227: the array element that the gathering loop fills for a
    page, [iov_base = op->Buffer + op->Offset] and
    [iov_len = op->Length - op->Offset]. *)
Definition gather (op : OutboundPage) : iovec :=
  mkIovec (skipn (Z.to_nat (Offset op)) (Buffer op)) (unsent op).

(** The page-release loop of [_WriteOutboundData], lines 1286-1302: [iov]
    holds the lengths gathered for the pages still to visit and [op] always
    designates the front of the queue. *)
Fixpoint release_sent (iov : list Z) (pages : list OutboundPage) (sent : Z)
    : list OutboundPage :=
  match iov with
  | [] => pages
  | iov_len :: iov' =>
      if iov_len <=? sent then release_sent iov' (tl pages) (sent - iov_len)
      else match pages with
           | op :: rest => add_Offset sent op :: rest
           | [] => []
           end
  end.

Definition sum_Z (l : list Z) : Z := fold_right Z.add 0 l.

(** The backpressure test of [_WriteOutboundData], line 1278: a threshold
    is set and the queue is below it. *)
Definition under_threshold (d : descriptor) : bool :=
  negb (MaxOutboundBufSize d =? 0)
  && (to_unsigned_int (GetOutboundDataSize d) <? MaxOutboundBufSize d).

(** Lines 1278-1279: resume the proxy source when the test holds and the
    source is paused. *)
Definition resume_source_if_under (this : binding) : M unit :=
  d <- deref this ;;
  match ProxiedFrom d with
  | Some from =>
      if under_threshold d
      then paused <- IsPaused from ;; when paused (Resume from ;; ret tt)
      else ret tt
  | None => ret tt
  end.

(** [ConnectionDescriptor::_WriteOutboundData], lines 1186-1329, with
    HAVE_WRITEV.  The call of [writev] is recorded in the trace with the
    array it is handed and the value it returns.  On a queue whose pages
    have [0 <= Offset < Length] and whose [int] count is their sum, no
    operation of the flush leaves the range of its type: the lengths
    gathered, their sum, the value returned and the new count are written
    without conversions. *)
Definition _WriteOutboundData (this : binding) (kernel : kernel_write) : M unit :=
  d <- deref this ;;
  if MySocket d =? INVALID_SOCKET then
    assert (negb (bWriteAttemptedAfterClose d)) "!bWriteAttemptedAfterClose" ;;
    modify this (set_bWriteAttemptedAfterClose true)
  else
    now <- reactor GetCurrentLoopTime ;;
    modify this (set_LastActivity now) ;;
    let iov := map gather (firstn 16 (OutboundPages d)) in
    let nbytes := sum_Z (map iov_len iov) in
    assert (0 <? nbytes) "nbytes > 0" ;;
    let '(bytes_written, e) := sys_writev kernel nbytes in
    emit (sys_writev_call (MySocket d) iov bytes_written) ;;
    let err := bytes_written <? 0 in
    let bytes_written := if err then 0 else bytes_written in
    modify this (fun d => set_OutboundDataSize (OutboundDataSize d - bytes_written) d) ;;
    resume_source_if_under this ;;
    when (negb err)
      (modify this (fun d => set_OutboundPages
                               (release_sent (map iov_len iov) (OutboundPages d)
                                  bytes_written) d)) ;;
    when (err && negb (write_would_block e)) (
      modify this (set_UnbindReasonCode e) ;;
      Close this).

(** [ConnectionDescriptor::Heartbeat], lines 1590-1621. *)
Definition ConnectionDescriptor_Heartbeat (this : binding) : M unit :=
  skew <- reactor GetTimerQuantum ;;
  d <- deref this ;;
  now <- reactor GetCurrentLoopTime ;;
  if bConnectPending d then
    when (PendingConnectTimeout d <=? u64 (now - CreatedAt d)) (
      modify this (set_UnbindReasonCode ETIMEDOUT) ;;
      ConnectionDescriptor_ScheduleClose this false)
  else
    when (negb (InactivityTimeout d =? 0)
          && (InactivityTimeout d <=? u64 (skew + now - LastActivity d))) (
      modify this (set_UnbindReasonCode ETIMEDOUT) ;;
      ConnectionDescriptor_ScheduleClose this false).

(** ** DatagramDescriptor, continued *)

(** [sizeof (readbuffer)] in [DatagramDescriptor::Read]. *)
Definition DatagramDescriptor_readbuffer_size : nat := 16 * 1024.

(** The burst loop of [DatagramDescriptor::Read], lines 1898-1944. *)
Fixpoint DatagramDescriptor_Read_loop (this : binding) (kernel : nat -> kernel_read)
    (n i : nat) (readbuffer : list byte) : M unit :=
  match n with
  | O => ret tt
  | S n' =>
      let '(readbuffer, r, _) :=
        sys_read (kernel i) readbuffer (Z.of_nat (List.length readbuffer) - 1) in
      if 0 <=? r then
        readbuffer <- array_store readbuffer r x00 ;;
        modify this (set_ReturnAddress (sender_of (kernel i))) ;;
        _GenericInboundDispatch this readbuffer r ;;
        DatagramDescriptor_Read_loop this kernel n' (S i) readbuffer
      else ret tt
  end.

(** [DatagramDescriptor::Read], lines 1888-1947. *)
Definition DatagramDescriptor_Read (this : binding) (stack : nat -> byte)
    (kernel : nat -> kernel_read) : M unit :=
  d <- deref this ;;
  assert (negb (MySocket d =? INVALID_SOCKET)) "sd != INVALID_SOCKET" ;;
  now <- reactor GetCurrentLoopTime ;;
  modify this (set_LastActivity now) ;;
  DatagramDescriptor_Read_loop this kernel 10 0
    (automatic_array stack DatagramDescriptor_readbuffer_size).

(** The [ScheduleClose] that a call on a descriptor of each kind reaches:
    only the stream connection overrides it. *)
Definition ScheduleClose (p : binding) (after_writing : bool) : M unit :=
  d <- deref p ;;
  match kind d with
  | ConnectionDescriptor => ConnectionDescriptor_ScheduleClose p after_writing
  | _ => EventableDescriptor_ScheduleClose p after_writing
  end.

(** ** Sequences of calls

    The world a caller is left with: the one returned, or the one in which
    the exception was thrown. *)
Definition world_after {A} (r : result A) : option World :=
  match r with
  | Returned _ w => Some w
  | Thrown _ w => Some w
  | Aborted _ => None
  end.

Fixpoint ScheduleClose_calls (p : binding) (calls : list bool) (w : World) : option World :=
  match calls with
  | [] => Some w
  | after_writing :: calls' =>
      match world_after (ScheduleClose p after_writing w) with
      | Some w' => ScheduleClose_calls p calls' w'
      | None => None
      end
  end.

(** What [ScheduleClose] calls, passing the given [after_writing] arguments,
    may do to the two close flags. *)
Definition close_flags_advance (after_writing : list bool) (d d' : descriptor) : Prop :=
  (bCloseNow d = true -> bCloseNow d' = true)
  /\ (bCloseAfterWriting d = true -> bCloseAfterWriting d' = true)
  /\ (IsCloseScheduled d = true -> bCloseAfterWriting d' = bCloseAfterWriting d)
  /\ (bCloseNow d' = true -> bCloseNow d = true \/ In false after_writing).

(** ** Vocabulary for the outbound queue and the proxy link *)

(** The bytes still to be written over a whole queue. *)
Definition queued_bytes (pages : list OutboundPage) : Z :=
  sum_Z (map unsent pages).

(** A page of a stream connection's queue is partly consumed at most. *)
Definition page_pending (op : OutboundPage) : Prop :=
  0 <= Offset op /\ Offset op < Length op.

(** The bookkeeping of the outbound queue of a stream connection. *)
Definition outbound_accounted (d : descriptor) : Prop :=
  OutboundDataSize d = queued_bytes (OutboundPages d)
  /\ Forall page_pending (OutboundPages d).

(** The upstream source of [d], if it has one, is a live object on which
    [Pause] and [Resume] do not throw. *)
Definition pausable (s : descriptor) : Prop :=
  kind s = ConnectionDescriptor -> bWatchOnly s = false.

Definition source_pausable (w : World) (d : descriptor) : Prop :=
  forall from, ProxiedFrom d = Some from ->
    exists s, objs w !! from = Some s /\ pausable s.

(** No watch-only connection is paused: [Pause] refuses them, and
    [SetWatchOnly] is applied when the handle is attached. *)
Definition watch_only_never_paused (w : World) : Prop :=
  forall q s, objs w !! q = Some s ->
    kind s = ConnectionDescriptor -> bWatchOnly s = true -> bPaused s = false.

Definition set_descriptor (p : binding) (d : descriptor) (w : World) : World :=
  set_objs (<[p := d]> (objs w)) w.

(** A sink with a backpressure threshold and its upstream proxy source, as
    [StartProxy] links them. *)
Definition backpressure_link (w : World) (sink source : binding) (d s : descriptor) : Prop :=
  objs w !! sink = Some d /\ objs w !! source = Some s /\ sink <> source
  /\ kind d = ConnectionDescriptor /\ bWatchOnly d = false
  /\ ProxiedFrom d = Some source /\ 0 < MaxOutboundBufSize d
  /\ pausable s.

(** The bytes a flush takes off the queue: what the kernel accepts of the
    bytes gathered from the first 16 pages. *)
Definition flushed (kernel : kernel_write) (d : descriptor) : Z :=
  match kernel with
  | Accepts room => Z.min (Z.of_N room) (queued_bytes (firstn 16 (OutboundPages d)))
  | WriteFails _ => 0
  end.

(** What [Close] adds to the trace. *)
Definition Close_effects (p : binding) (d : descriptor) : list effect :=
  if MySocket d =? INVALID_SOCKET then []
  else Deregister p
       :: if (2 <? MySocket d) && negb (bAttached d)
          then [sys_shutdown (MySocket d) 1; sys_close (MySocket d)]
          else [].

(** [Resume] does not throw on the source of [d] when that source is
    paused. *)
Definition source_resumable (w : World) (d : descriptor) : Prop :=
  forall from s,
    ProxiedFrom d = Some from -> objs w !! from = Some s -> bPaused s = true -> pausable s.

(** What the calls on the queue of [p] maintain. *)
Definition queue_inv (p : binding) (w : World) : Prop :=
  watch_only_never_paused w
  /\ exists d, objs w !! p = Some d /\ outbound_accounted d.

(** The calls on a stream connection that fill and drain its queue. *)
Inductive queue_call : Type :=
| Send (data : list byte) (length : N)
| Flush (kernel : kernel_write).

Definition queue_call_run (p : binding) (c : queue_call) : M unit :=
  match c with
  | Send data length => ConnectionDescriptor_SendOutboundData p data (Z.of_N length) ;; ret tt
  | Flush kernel => _WriteOutboundData p kernel
  end.

Fixpoint queue_calls (p : binding) (calls : list queue_call) (w : World) : option World :=
  match calls with
  | [] => Some w
  | c :: calls' =>
      match world_after (queue_call_run p c w) with
      | Some w' => queue_calls p calls' w'
      | None => None
      end
  end.

(** The bytes that a sequence of calls offers to the queue: the lengths of
    its sends. *)
Definition offered (calls : list queue_call) : Z :=
  sum_Z (map (fun c => match c with
                       | Send _ length => Z.of_N length
                       | Flush _ => 0
                       end) calls).

(** ** Vocabulary for proxy forwarding *)

(** An inbound chunk: the memory readable from the pointer handed to
    [_GenericInboundDispatch], and the reported size; its bytes are the
    first [size] of that memory. *)
Definition chunk : Type := list byte * Z.

Definition chunk_bytes (c : chunk) : list byte := firstn (Z.to_nat (snd c)) (fst c).

Definition chunk_in_bounds (c : chunk) : Prop :=
  0 <= snd c <= Z.of_nat (List.length (fst c)).

(** The inbound byte stream that a sequence of chunks carries. *)
Definition stream_of (chunks : list chunk) : list byte := concat (map chunk_bytes chunks).

Fixpoint dispatch_chunks (p : binding) (chunks : list chunk) : M unit :=
  match chunks with
  | [] => ret tt
  | c :: chunks' => _GenericInboundDispatch p (fst c) (snd c) ;; dispatch_chunks p chunks'
  end.

(** The payload bytes held by a queue of outbound pages, in order: what
    the send functions copied into each buffer, that is the buffer without
    its terminating NUL. *)
Definition page_payload (op : OutboundPage) : list byte :=
  removelast (Buffer op).

Definition queue_payload (pages : list OutboundPage) : list byte :=
  concat (map page_payload pages).

(** The bytes handed to the connection-read callback of [p] in a trace, in
    order, and the number of proxy-completed events of [p] in it. *)
Definition read_bytes (p : binding) (e : effect) : list byte :=
  match e with
  | Callback q EM_CONNECTION_READ (Some data) size =>
      if N.eqb q p then firstn (Z.to_nat size) data else []
  | _ => []
  end.

Definition delivered (p : binding) (tr : list effect) : list byte :=
  concat (map (read_bytes p) tr).

Definition is_completion (p : binding) (e : effect) : nat :=
  match e with
  | Callback q EM_PROXY_COMPLETED _ _ => if N.eqb q p then 1 else 0
  | _ => 0
  end.

Definition completions (p : binding) (tr : list effect) : nat :=
  list_sum (map (is_completion p) tr).

(** A descriptor that queues what [SendOutboundData] is given: a stream
    connection that is not watch-only, or a datagram socket, with no close
    scheduled. *)
Definition takes_data (dt : descriptor) : Prop :=
  IsCloseScheduled dt = false
  /\ (kind dt = ConnectionDescriptor /\ bWatchOnly dt = false
      \/ kind dt = DatagramDescriptor).

(** [p] proxies to another descriptor [t], with [left] bytes still to
    forward; [t] takes data and [p], which has its callback installed, is
    the source it may pause. *)
Definition proxying (w : World) (p t : binding) (left : Z) : Prop :=
  p <> t
  /\ (exists d, objs w !! p = Some d
                /\ EventCallback d = true /\ pausable d
                /\ ProxyTarget d = Some t /\ BytesToProxy d = left)
  /\ (exists dt, objs w !! t = Some dt
                 /\ takes_data dt /\ ProxiedFrom dt = Some p).

(** [p] has no proxy target: inbound data goes to its callback. *)
Definition detached (w : World) (p : binding) : Prop :=
  exists d, objs w !! p = Some d /\ EventCallback d = true /\ ProxyTarget d = None.

(** The payload queued at [t], empty if [t] is not in the store. *)
Definition payload_at (w : World) (t : binding) : list byte :=
  match objs w !! t with
  | Some dt => queue_payload (OutboundPages dt)
  | None => []
  end.

(** ** Vocabulary for the guard byte *)

(** A chunk handed to a consumer as pointer and size is NUL-terminated one
    past its length: the byte at index [size] exists and is zero. *)
Definition nul_terminated (data : option (list byte)) (size : Z) : Prop :=
  exists buf, data = Some buf
              /\ 0 <= size < Z.of_nat (List.length buf)
              /\ buf !! Z.to_nat size = Some x00.

(** Every connection-read callback of a trace receives such a chunk. *)
Definition reads_nul_terminated (tr : list effect) : Prop :=
  forall ed data size,
    In (Callback ed EM_CONNECTION_READ data size) tr -> nul_terminated data size.

(** Whatever [m] adds to the trace, whether it returns or throws, keeps the
    read callbacks NUL-terminated, and [m] never leaves the bounds of an
    array. *)
Definition guarded {A} (m : M A) : Prop :=
  forall w,
    match m w with
    | Returned _ w' | Thrown _ w' =>
        exists new, trace w' = trace w ++ new /\ reads_nul_terminated new
    | Aborted why => why <> OutOfBounds
    end.

(** ** The heartbeat rules in the words of the specification *)

(** "A zero timeout means no deadline from that source", and the earlier of
    two optional deadlines. *)
Definition no_deadline_if_zero (timeout : Z) : option Z :=
  if timeout =? 0 then None else Some timeout.

Definition earlier (a b : option Z) : option Z :=
  match a, b with
  | Some x, Some y => Some (Z.min x y)
  | Some x, None => Some x
  | None, _ => b
  end.

(** The time left on a timeout that started running at [since]. *)
Definition time_left (timeout since now : Z) : Z := timeout - (now - since).

(** The deadline as the specification words it: the current real time plus the
    minimum of the time left on the pending-connect timeout (while a connect
    is pending) and the time left on the inactivity timeout; zero when the
    descriptor should be deleted or no timeout applies. *)
Definition next_heartbeat_from_time_left (d : descriptor) (loop_time real_time : Z) : Z :=
  if ShouldDelete d then 0
  else
    match earlier
            (if IsConnectPending d
             then option_map (fun t => time_left t (CreatedAt d) loop_time)
                    (no_deadline_if_zero (PendingConnectTimeout d))
             else None)
            (option_map (fun t => time_left t (LastActivity d) loop_time)
               (no_deadline_if_zero (InactivityTimeout d)))
    with
    | Some remaining => u64 (real_time + remaining)
    | None => 0
    end.

(** The same with the configured timeouts themselves in place of the time
    left on them. *)
Definition next_heartbeat_from_timeouts (d : descriptor) (real_time : Z) : Z :=
  if ShouldDelete d then 0
  else
    match earlier
            (if IsConnectPending d then no_deadline_if_zero (PendingConnectTimeout d)
             else None)
            (no_deadline_if_zero (InactivityTimeout d))
    with
    | Some timeout => u64 (timeout + real_time)
    | None => 0
    end.

(** The two expiry tests of [Heartbeat]. *)
Definition pending_connect_expired (d : descriptor) (w : World) : bool :=
  PendingConnectTimeout d <=? u64 (GetCurrentLoopTime w - CreatedAt d).

Definition inactivity_expired (d : descriptor) (w : World) : bool :=
  negb (InactivityTimeout d =? 0)
  && (InactivityTimeout d <=? u64 (GetTimerQuantum w + GetCurrentLoopTime w - LastActivity d)).

(** When [Heartbeat] schedules a close, as the specification words it: a connect is
    pending and its timeout has expired; otherwise, the inactivity timeout
    has. *)
Definition heartbeat_expiry_as_worded (d : descriptor) (w : World) : bool :=
  if bConnectPending d && pending_connect_expired d w then true
  else inactivity_expired d w.

(** When it does: the inactivity timeout is consulted only when no connect
    is pending. *)
Definition heartbeat_expiry (d : descriptor) (w : World) : bool :=
  if bConnectPending d then pending_connect_expired d w
  else inactivity_expired d w.

(** ** Sample worlds

    An empty reactor at loop time [now], and one holding a stream connection
    at binding 1 on handle 7. *)
Definition empty_world (now : Z) : World :=
  {| objs := ∅; NumCloseScheduled := 0; GetCurrentLoopTime := now; GetRealTime := now;
     GetTimerQuantum := 1; trace := [] |}.

Definition sample_connection : descriptor :=
  init_EventableDescriptor ConnectionDescriptor 7 0.

Definition one_connection_world (d : descriptor) (now : Z) : World :=
  set_objs {[ 1%N := d ]} (empty_world now).

(** A connection idle since loop time 0 with a 10 ms inactivity timeout; one
    whose connect has been pending since loop time 0 with a 5 s inactivity
    timeout next to the default 20 s pending-connect timeout; and a
    watch-only one with the 5 s inactivity timeout. *)
Definition idle_connection : descriptor :=
  set_InactivityTimeout 10000 sample_connection.

Definition pending_connection : descriptor :=
  set_bConnectPending true (set_InactivityTimeout 5000000 sample_connection).

Definition watch_only_connection : descriptor :=
  set_bWatchOnly true (set_InactivityTimeout 5000000 sample_connection).

(** Four gibibytes of the letter a. *)
Definition four_GiB : list byte := repeat x61 (N.to_nat (2 ^ 32)).

(** Five bytes queued in two sends around a partial and a full flush. *)
Definition sample_queue_calls : list queue_call :=
  [Send [x68; x65; x6c] 3; Flush (Accepts 2); Send [x6c; x6f] 2; Flush (Accepts 100)].

(** The world in which the connection at binding 1 proxies to the one at
    binding 2 with a backpressure threshold of 10 bytes and no byte limit,
    and the two descriptors in it. *)
Definition world_of (r : result unit) : World :=
  match r with
  | Returned _ w => w
  | Thrown _ w => w
  | Aborted _ => empty_world 0
  end.

Definition proxy_world : World :=
  world_of ((new_ConnectionDescriptor 1%N 7 ;; new_ConnectionDescriptor 2%N 8 ;;
             SetEventCallback 1%N ;; SetEventCallback 2%N ;;
             StartProxy 1%N 2%N 10 0) (empty_world 0)).

Definition proxy_source : descriptor :=
  set_ProxyTarget (Some 2%N) (set_EventCallback true sample_connection).

Definition proxy_sink : descriptor :=
  set_MaxOutboundBufSize 10
    (set_ProxiedFrom (Some 1%N)
       (set_EventCallback true (init_EventableDescriptor ConnectionDescriptor 8 0))).

(** The same after 20 bytes were sent to the sink: they are queued and the
    source is paused. *)
Definition busy_proxy_world : World :=
  world_of ((ConnectionDescriptor_SendOutboundData 2%N (repeat x61 20) 20 ;; ret tt)
              proxy_world).

Definition busy_sink : descriptor :=
  set_OutboundDataSize 20
    (set_OutboundPages [mkOutboundPage (repeat x61 20 ++ [x00]) 20 0 None] proxy_sink).

Definition busy_source : descriptor := set_bPaused true proxy_source.

(** The world in which the connection at binding 1 proxies to the one at
    binding 2 with a limit of 4 bytes, and two inbound chunks of 3 bytes,
    each followed by its guard byte. *)
Definition limited_proxy_world : World :=
  world_of ((new_ConnectionDescriptor 1%N 7 ;; new_ConnectionDescriptor 2%N 8 ;;
             SetEventCallback 1%N ;; SetEventCallback 2%N ;;
             StartProxy 1%N 2%N 10 4) (empty_world 0)).

(** The same world once a close after writing is scheduled on the target. *)
Definition closing_target_world : World :=
  world_of (ConnectionDescriptor_ScheduleClose 2%N true limited_proxy_world).

Definition sample_chunks : list chunk :=
  [([x61; x62; x63; x00], 3); ([x64; x65; x66; x00], 3)].

(** A connection and a datagram socket with a callback installed; a kernel
    that holds "hi" for the first [read] and nothing after; one that holds
    an empty datagram from the address [[x7f; x01]]; and a stack full of
    [xff]. *)
Definition listening_connection : descriptor := set_EventCallback true sample_connection.

Definition listening_datagram : descriptor :=
  set_EventCallback true (init_EventableDescriptor DatagramDescriptor 7 0).

Definition kernel_hi (i : nat) : kernel_read :=
  match i with
  | O => Delivers [x68; x69] []
  | S _ => ReadFails EAGAIN
  end.

Definition kernel_empty_datagram (i : nat) : kernel_read :=
  match i with
  | O => Delivers [] [x7f; x01]
  | S _ => ReadFails EAGAIN
  end.

Definition dirty_stack (i : nat) : byte := xff.

(** * The rest of the descriptor layer *)

(** ** Destruction *)

(** [bCallbackUnbind] is initialised to [true] by the base constructor (line
    78), cleared by the constructors of the loop breaker and of the inotify
    descriptor (lines 1636 and 2192), and assigned nowhere else in ed.cpp. *)
Definition bCallbackUnbind (d : descriptor) : bool :=
  match kind d with
  | LoopbreakDescriptor | InotifyDescriptor => false
  | _ => true
  end.

(** [EventableDescriptor::~EventableDescriptor], lines 129-142.  The
    proxy-target-unbound event goes through [EventCallback] without a test:
    calling through NULL is undefined. *)
Definition destroy_EventableDescriptor (this : binding) : M unit :=
  d <- deref this ;;
  when (negb (NextHeartbeat d =? 0)) (emit (ClearHeartbeat (NextHeartbeat d) this)) ;;
  when (EventCallback d && bCallbackUnbind d)
    (emit (Callback this EM_CONNECTION_UNBOUND None (UnbindReasonCode d))) ;;
  match ProxiedFrom d with
  | Some from =>
      deref from ;;
      (if EventCallback d then emit (Callback from EM_PROXY_TARGET_UNBOUND None 0)
       else abort DanglingPointer) ;;
      StopProxy from
  | None => ret tt
  end ;;
  (fun w => Returned tt (set_NumCloseScheduled (NumCloseScheduled w - 1) w)) ;;
  StopProxy this ;;
  Close this.

(** [InotifyDescriptor::~InotifyDescriptor], lines 2219-2223. *)
Definition destroy_InotifyDescriptor (this : binding) : M unit :=
  d <- deref this ;;
  emit (sys_close (MySocket d)) ;;
  modify this (set_MySocket INVALID_SOCKET).

(** [delete ed]: the destructor of the dynamic type, then the base
    destructor, then the object is gone from the store.  The destructors of
    the stream and datagram descriptors (lines 599-609, 1862-1867) free the
    buffers of the pages still queued, which changes no member; the
    acceptor's is empty. *)
Definition delete_descriptor (this : binding) : M unit :=
  d <- deref this ;;
  match kind d with
  | InotifyDescriptor => destroy_InotifyDescriptor this
  | _ => ret tt
  end ;;
  destroy_EventableDescriptor this ;;
  (fun w => Returned tt (set_objs (delete this (objs w)) w)).

(** ** Vocabulary for the proxy links *)

(** Where the [ProxyTarget] pointer of [a] and the [ProxiedFrom] pointer of
    [b] lead, for live objects. *)
Definition target_of (w : World) (a : binding) : option binding :=
  objs w !! a ≫= ProxyTarget.

Definition source_of (w : World) (b : binding) : option binding :=
  objs w !! b ≫= ProxiedFrom.

(** The two pointers of a proxy link agree: [a] forwards to [b] exactly when
    [b] is proxied from [a].  In particular neither pointer dangles. *)
Definition links_paired (w : World) : Prop :=
  forall a b, target_of w a = Some b <-> source_of w b = Some a.

(** Calls that make and break proxy links. *)
Inductive proxy_call : Type :=
| Start (from to : binding) (bufsize length : Z)
| Stop (from : binding)
| Delete (ed : binding).

Definition proxy_call_run (c : proxy_call) : M unit :=
  match c with
  | Start from to bufsize length => StartProxy from to bufsize length
  | Stop from => StopProxy from
  | Delete ed => delete_descriptor ed
  end.

(** The world after a sequence of calls that all return. *)
Fixpoint proxy_calls (calls : list proxy_call) (w : World) : option World :=
  match calls with
  | [] => Some w
  | c :: calls' =>
      match proxy_call_run c w with
      | Returned _ w' => proxy_calls calls' w'
      | _ => None
      end
  end.


(** Pairing as a property of the two pointer maps. *)
Definition paired (T F : binding -> option binding) : Prop :=
  forall a b, T a = Some b <-> F b = Some a.

(** An executable form of pairing: every pointer of every live object is
    answered by the opposite pointer of the object it leads to. *)
Definition links_answered (w : World) : bool :=
  forallb (fun entry : binding * descriptor =>
             match ProxyTarget (snd entry) with
             | Some b => bool_decide (source_of w b = Some (fst entry))
             | None => true
             end
             && match ProxiedFrom (snd entry) with
                | Some a => bool_decide (target_of w a = Some (fst entry))
                | None => true
                end)
    (map_to_list (objs w)).

(** Three connections on the handles 7, 8 and 9 with callbacks installed,
    the first proxying to the second. *)
Definition three_connections : World :=
  world_of ((new_ConnectionDescriptor 1%N 7 ;; new_ConnectionDescriptor 2%N 8 ;;
             new_ConnectionDescriptor 3%N 9 ;;
             SetEventCallback 1%N ;; SetEventCallback 2%N ;; SetEventCallback 3%N ;;
             StartProxy 1%N 2%N 10 0) (empty_world 0)).

(** ** DatagramDescriptor: the write side *)

Definition SOCKET_ERROR : Z := -1.

(** [sendto] on a datagram socket takes the whole datagram or fails with an
    [errno]. *)
Inductive kernel_sendto : Type :=
| Sends
| SendtoFails (e : Z).

(** The return value and [errno]. *)
Definition sys_sendto (k : kernel_sendto) (len : Z) : Z * Z :=
  match k with
  | Sends => (len, 0)
  | SendtoFails e => (SOCKET_ERROR, e)
  end.

(** What one [sendto] call is handed: the buffer, the length and the
    destination. *)
Record sendto_call : Type := mkSendto {
  sendto_buf : list byte;
  sendto_len : Z;
  sendto_to : option sockaddr
}.

Definition sendto_of (op : OutboundPage) : sendto_call :=
  mkSendto (Buffer op) (Length op) (From op).

(** The loop of [DatagramDescriptor::Write], lines 1974-2004: [n] iterations
    remain, the kernel's answer to the [i]-th [sendto] is [kernel i], and
    [sent] collects the calls made so far. *)
Fixpoint DatagramDescriptor_Write_loop (this : binding) (kernel : nat -> kernel_sendto)
    (n i : nat) (sent : list sendto_call) : M (list sendto_call) :=
  match n with
  | O => ret sent
  | S n' =>
      d <- deref this ;;
      match OutboundPages d with
      | [] => ret sent
      | op :: _ =>
          let '(s, e) := sys_sendto (kernel i) (Length op) in
          let sent := sent ++ [sendto_of op] in
          modify this (fun d => set_OutboundDataSize (OutboundDataSize d - Length op) d) ;;
          modify this (fun d => set_OutboundPages (tl (OutboundPages d)) d) ;;
          if (s =? SOCKET_ERROR) && negb (write_would_block e) then
            modify this (set_UnbindReasonCode e) ;;
            Close this ;;
            ret sent
          else DatagramDescriptor_Write_loop this kernel n' (S i) sent
      end
  end.

(** [DatagramDescriptor::Write], lines 1954-2018, returning the [sendto]
    calls it made, in order. *)
Definition DatagramDescriptor_Write (this : binding) (kernel : nat -> kernel_sendto)
    : M (list sendto_call) :=
  d <- deref this ;;
  assert (negb (MySocket d =? INVALID_SOCKET)) "sd != INVALID_SOCKET" ;;
  now <- reactor GetCurrentLoopTime ;;
  modify this (set_LastActivity now) ;;
  assert (0 <? Z.of_nat (List.length (OutboundPages d))) "OutboundPages.size() > 0" ;;
  DatagramDescriptor_Write_loop this kernel 10 0 [].

(** [DatagramDescriptor::SelectForWrite], lines 2025-2035. *)
Definition DatagramDescriptor_SelectForWrite (d : descriptor) : bool :=
  0 <? Z.of_nat (List.length (OutboundPages d)).

(** [DatagramDescriptor::SendOutboundDatagram], lines 2080-2120.
    [name2address] is the reactor's resolver ([EventMachine_t::name2address]),
    which yields the socket address or fails.  [length] is converted to
    [int] as in [SendOutboundData]. *)
Definition DatagramDescriptor_SendOutboundDatagram
    (name2address : string -> Z -> option sockaddr)
    (this : binding) (data : list byte) (length : Z) (address : option string) (port : Z)
    : M Z :=
  d <- deref this ;;
  if IsCloseScheduled d then ret 0
  else
    match address with
    | None | Some EmptyString => ret 0
    | Some address =>
        if port =? 0 then ret 0
        else
          match name2address address port with
          | None => ret (-1)
          | Some addr_here =>
              buffer <- copy_outbound data length ;;
              modify this (fun d => set_OutboundPages
                                      (OutboundPages d
                                         ++ [mkOutboundPage buffer (to_int length) 0
                                               (Some addr_here)])
                                      d) ;;
              modify this (fun d => set_OutboundDataSize
                                      (to_int (OutboundDataSize d + length)) d) ;;
              ret (to_int length)
          end
    end.

(** [DatagramDescriptor::Heartbeat], lines 1874-1881; the call of
    [ScheduleClose] reaches the base-class method. *)
Definition DatagramDescriptor_Heartbeat (this : binding) : M unit :=
  d <- deref this ;;
  now <- reactor GetCurrentLoopTime ;;
  when (negb (InactivityTimeout d =? 0)
        && (InactivityTimeout d <=? u64 (now - LastActivity d)))
    (EventableDescriptor_ScheduleClose this false).

(** [DatagramDescriptor::GetPeername], lines 2148-2158, for a non-NULL [s]:
    the address written to [*s]. *)
Definition DatagramDescriptor_GetPeername (d : descriptor) : sockaddr := ReturnAddress d.

(** ** Vocabulary for the datagram queue *)

(** The bookkeeping of the outbound queue of a datagram socket: whole
    datagrams, never partly sent. *)
Definition datagram_pending (op : OutboundPage) : Prop :=
  Offset op = 0 /\ 0 <= Length op.

Definition datagram_accounted (d : descriptor) : Prop :=
  OutboundDataSize d = sum_Z (map Length (OutboundPages d))
  /\ Forall datagram_pending (OutboundPages d).

(** What the calls on the queue of the datagram socket [p] maintain. *)
Definition datagram_inv (p : binding) (w : World) : Prop :=
  exists d, objs w !! p = Some d /\ datagram_accounted d.

(** The calls on a datagram socket that fill and drain its queue. *)
Inductive datagram_call : Type :=
| Reply (data : list byte) (length : N)
| SendTo (data : list byte) (length : N) (address : option string) (port : Z)
| WriteOut (kernel : nat -> kernel_sendto).

Definition datagram_call_run (name2address : string -> Z -> option sockaddr)
    (p : binding) (c : datagram_call) : M unit :=
  match c with
  | Reply data length => DatagramDescriptor_SendOutboundData p data (Z.of_N length) ;; ret tt
  | SendTo data length address port =>
      DatagramDescriptor_SendOutboundDatagram name2address p data (Z.of_N length) address port ;;
      ret tt
  | WriteOut kernel => DatagramDescriptor_Write p kernel ;; ret tt
  end.

Fixpoint datagram_calls (name2address : string -> Z -> option sockaddr)
    (p : binding) (calls : list datagram_call) (w : World) : option World :=
  match calls with
  | [] => Some w
  | c :: calls' =>
      match world_after (datagram_call_run name2address p c w) with
      | Some w' => datagram_calls name2address p calls' w'
      | None => None
      end
  end.

(** The bytes that a call, and a sequence of calls, offers to the queue. *)
Definition datagram_call_length (c : datagram_call) : Z :=
  match c with
  | Reply _ length | SendTo _ length _ _ => Z.of_N length
  | WriteOut _ => 0
  end.

Definition datagram_offered (calls : list datagram_call) : Z :=
  sum_Z (map datagram_call_length calls).

(** A [sendto] failure after which [Write] gives the socket up. *)
Definition sendto_fatal (k : kernel_sendto) : bool :=
  match k with
  | Sends => false
  | SendtoFails e => negb (write_would_block e)
  end.

(** A new datagram socket at binding 1 on handle 7, and a resolver that
    knows one address. *)
Definition datagram_world : World :=
  one_connection_world (init_EventableDescriptor DatagramDescriptor 7 0) 0.

Definition sample_resolver (address : string) (port : Z) : option sockaddr :=
  if String.eqb address "ns" then Some [x0a; x00; x00; x35] else None.

(** A kernel whose second [sendto] would block. *)
Definition kernel_blocks_second (i : nat) : kernel_sendto :=
  match i with
  | 1%nat => SendtoFails EWOULDBLOCK
  | _ => Sends
  end.

(** Two datagrams queued, a [Write], and a third one queued. *)
Definition sample_datagram_calls : list datagram_call :=
  [Reply [x68; x69] 2; SendTo [] 0 (Some "ns"%string) 53; WriteOut kernel_blocks_second;
   SendTo [x3f] 1 (Some "ns"%string) 53].

(** The socket with a two-byte and an empty datagram queued. *)
Definition two_datagrams_world : World :=
  world_of ((DatagramDescriptor_SendOutboundData 1%N [x68; x69] 2 ;;
             DatagramDescriptor_SendOutboundData 1%N [] 0 ;; ret tt) datagram_world).

(** The expiry test of [DatagramDescriptor::Heartbeat]. *)
Definition datagram_idle_expired (d : descriptor) (w : World) : bool :=
  negb (InactivityTimeout d =? 0)
  && (InactivityTimeout d <=? u64 (GetCurrentLoopTime w - LastActivity d)).

(** A datagram socket idle since loop time 0 with a 10 ms inactivity
    timeout. *)
Definition idle_datagram : descriptor :=
  set_InactivityTimeout 10000 (init_EventableDescriptor DatagramDescriptor 7 0).

(** ** Vocabulary for the inbound bursts *)

(** The bytes that one [read] or [recvfrom] asking for [count] bytes takes
    from what the kernel holds. *)
Definition taken (count : nat) (k : kernel_read) : list byte :=
  match k with
  | Delivers pending _ => firstn count pending
  | ReadFails _ => []
  end.

(** The datagrams that up to [n] calls of [recvfrom] yield, each with its
    sender: the burst ends at the first call that fails. *)
Fixpoint datagram_burst (count : nat) (kernel : nat -> kernel_read) (n i : nat)
    : list (list byte * sockaddr) :=
  match n with
  | O => []
  | S n' =>
      match kernel i with
      | Delivers pending sender =>
          (firstn count pending, sender) :: datagram_burst count kernel n' (S i)
      | ReadFails _ => []
      end
  end.

(** The bytes that up to [n] calls of [read] yield on a stream: the burst
    ends at the first call that yields none. *)
Fixpoint stream_burst (count : nat) (kernel : nat -> kernel_read) (n i : nat) : list byte :=
  match n with
  | O => []
  | S n' =>
      match taken count (kernel i) with
      | [] => []
      | got => got ++ stream_burst count kernel n' (S i)
      end
  end.

(** A connection-read callback of [p] carrying the datagram [dg]. *)
Definition carries (p : binding) (e : effect) (dg : list byte * sockaddr) : Prop :=
  exists buf,
    e = Callback p EM_CONNECTION_READ (Some buf) (Z.of_nat (List.length (fst dg)))
    /\ firstn (List.length (fst dg)) buf = fst dg.

(** The sender of the last datagram of a burst, [previous] when the burst is
    empty. *)
Definition reply_address (burst : list (list byte * sockaddr)) (previous : sockaddr)
    : sockaddr :=
  fold_left (fun _ dg => snd dg) burst previous.

(** A kernel that holds two datagrams, "a" from one address and an empty
    one from another. *)
Definition kernel_two_datagrams (i : nat) : kernel_read :=
  match i with
  | 0%nat => Delivers [x61] [x0a; x01]
  | 1%nat => Delivers [] [x0a; x02]
  | _ => ReadFails EAGAIN
  end.

(** ** Timeouts *)

(** [EventableDescriptor::GetPendingConnectTimeout] and
    [SetPendingConnectTimeout], lines 520-538; [value] is a [uint64_t].  The
    request to the reactor to queue a heartbeat is left out, as for
    [SetCommInactivityTimeout] above. *)
Definition GetPendingConnectTimeout (d : descriptor) : Z :=
  PendingConnectTimeout d / 1000.

Definition SetPendingConnectTimeout (this : binding) (value : Z) : M Z :=
  if 0 <? value then
    modify this (set_PendingConnectTimeout (u64 (value * 1000))) ;; ret 1
  else ret 0.

(** [ConnectionDescriptor::GetCommInactivityTimeout], lines 2127-2130. *)
Definition ConnectionDescriptor_GetCommInactivityTimeout (d : descriptor) : Z :=
  InactivityTimeout d / 1000.

(** [DatagramDescriptor::GetCommInactivityTimeout] and
    [SetCommInactivityTimeout], lines 2165-2182. *)
Definition DatagramDescriptor_GetCommInactivityTimeout (d : descriptor) : Z :=
  InactivityTimeout d / 1000.

Definition DatagramDescriptor_SetCommInactivityTimeout (this : binding) (value : Z) : M Z :=
  if 0 <? value then
    modify this (set_InactivityTimeout (u64 (value * 1000))) ;; ret 1
  else ret 0.

(** ** ConnectionDescriptor: the poll registration (HAVE_EPOLL)

    Two members that the descriptor record above does not carry are passed
    to the methods that use them: [bNotifyWritable], written by
    [SetNotifyWritable] only, and the interest mask [EpollEvent.events]. *)

Definition EPOLLIN : Z := 1.
Definition EPOLLOUT : Z := 4.

(** [ConnectionDescriptor::SelectForRead], lines 847-871. *)
Definition ConnectionDescriptor_SelectForRead (d : descriptor) : bool :=
  if bPaused d then false
  else if bConnectPending d then false
  else if bWatchOnly d then bNotifyReadable d
  else true.

(** [ConnectionDescriptor::SelectForWrite], lines 878-894. *)
Definition ConnectionDescriptor_SelectForWrite (d : descriptor) (bNotifyWritable : bool)
    : bool :=
  if bPaused d then false
  else if bConnectPending d then true
  else if bWatchOnly d then bNotifyWritable
  else 0 <? GetOutboundDataSize d.

(** [ConnectionDescriptor::_UpdateEvents (read, write)], lines 621-657, on
    the interest mask: the new mask, and whether [Modify] is requested of
    the reactor. *)
Definition _UpdateEvents (d : descriptor) (bNotifyWritable : bool) (read write : bool)
    (events : Z) : Z * bool :=
  if MySocket d =? INVALID_SOCKET then (events, false)
  else if negb read && negb write then (events, false)
  else
    let old := events in
    let events :=
      if read then
        if ConnectionDescriptor_SelectForRead d then Z.lor events EPOLLIN
        else Z.land events (Z.lnot EPOLLIN)
      else events in
    let events :=
      if write then
        if ConnectionDescriptor_SelectForWrite d bNotifyWritable
        then Z.lor events EPOLLOUT
        else Z.land events (Z.lnot EPOLLOUT)
      else events in
    (events, negb (old =? events)).

(** The bit of the mask that an event flag occupies. *)
Definition EPOLLIN_bit : Z := 0.
Definition EPOLLOUT_bit : Z := 2.

(** [ConnectionDescriptor::SetNotifyReadable], lines 731-738. *)
Definition SetNotifyReadable (this : binding) (readable : bool) : M unit :=
  d <- deref this ;;
  if negb (bWatchOnly d) then
    throw "notify_readable must be on 'watch only' connections"
  else modify this (set_bNotifyReadable readable).

(** [ConnectionDescriptor::SetNotifyWritable], lines 745-752: the new value
    of [bNotifyWritable]. *)
Definition SetNotifyWritable (this : binding) (writable : bool) : M bool :=
  d <- deref this ;;
  if negb (bWatchOnly d) then
    throw "notify_writable must be on 'watch only' connections"
  else ret writable.

(** ** ConnectionDescriptor: Write and HandleError *)

(** What [getsockopt (SO_ERROR)] answers: the pending socket error, or a
    failure of the call itself. *)
Inductive kernel_so_error : Type :=
| SoError (error : Z)
| GetsockoptFails.

(** [ConnectionDescriptor::Write], lines 1110-1179 (no kqueue).  The
    connection-completed event is handed an empty C string. *)
Definition ConnectionDescriptor_Write (this : binding) (bNotifyWritable : bool)
    (so : kernel_so_error) (kernel : kernel_write) : M unit :=
  d <- deref this ;;
  if bConnectPending d then
    match so with
    | SoError 0 =>
        when (EventCallback d)
          (emit (Callback this EM_CONNECTION_COMPLETED (Some [x00]) 0)) ;;
        SetConnectPending this false
    | SoError error =>
        modify this (set_UnbindReasonCode error) ;;
        ConnectionDescriptor_ScheduleClose this false
    | GetsockoptFails => ConnectionDescriptor_ScheduleClose this false
    end
  else if bNotifyWritable then
    when (EventCallback d) (emit (Callback this EM_CONNECTION_NOTIFY_WRITABLE None 0))
  else
    assert (negb (bWatchOnly d)) "!bWatchOnly" ;;
    _WriteOutboundData this kernel.

(** [ConnectionDescriptor::HandleError], lines 696-711. *)
Definition ConnectionDescriptor_HandleError (this : binding) (bNotifyWritable : bool)
    (stack : nat -> byte) (kernel_in : nat -> kernel_read)
    (so : kernel_so_error) (kernel_out : kernel_write) : M unit :=
  d <- deref this ;;
  if bWatchOnly d then
    if MySocket d =? INVALID_SOCKET then ret tt
    else
      when (bNotifyReadable d) (ConnectionDescriptor_Read this stack kernel_in) ;;
      when bNotifyWritable (ConnectionDescriptor_Write this bNotifyWritable so kernel_out)
  else ConnectionDescriptor_ScheduleClose this false.

(** ** Sample registrations *)

(** A connection with three bytes queued, and a paused one. *)
Definition sending_connection : descriptor :=
  set_OutboundDataSize 3
    (set_OutboundPages [mkOutboundPage [x61; x62; x63; x00] 3 0 None] sample_connection).

Definition paused_connection : descriptor := set_bPaused true sending_connection.

(** A connection whose connect is pending, with a callback installed. *)
Definition connecting : descriptor :=
  set_bConnectPending true listening_connection.

(** A watch-only connection with a callback installed. *)
Definition watching : descriptor := set_bWatchOnly true listening_connection.

(** ** Vocabulary: the outbound queue as a byte stream *)

(** The bytes that the [iovec] entry of a page designates: [Length - Offset]
    bytes from [Buffer + Offset]. *)
Definition iov_bytes (op : OutboundPage) : list byte :=
  firstn (Z.to_nat (unsent op)) (skipn (Z.to_nat (Offset op)) (Buffer op)).

(** The bytes of a queue that are still to be written, in order. *)
Definition queue_bytes (pages : list OutboundPage) : list byte :=
  concat (map iov_bytes pages).

(** The buffer of a page is at least as long as the page. *)
Definition page_holds (op : OutboundPage) : Prop :=
  Length op <= Z.of_nat (List.length (Buffer op)).

(** The bytes that an [iovec] entry designates, and the bytes that a
    [writev] recorded in the trace took: the first [returned] of those its
    array designates, none when it failed.  The bytes written in a trace
    are those its [writev]s took, in order. *)
Definition iovec_bytes (v : iovec) : list byte :=
  firstn (Z.to_nat (iov_len v)) (iov_base v).

Definition writev_took (e : effect) : list byte :=
  match e with
  | sys_writev_call _ iov returned =>
      firstn (Z.to_nat returned) (concat (map iovec_bytes iov))
  | _ => []
  end.

Definition written (tr : list effect) : list byte :=
  concat (map writev_took tr).

(** The bytes that a call accepts from its caller, as its return value
    reports them. *)
Definition call_accepts (p : binding) (c : queue_call) (w : World) : list byte :=
  match c with
  | Send data length =>
      match ConnectionDescriptor_SendOutboundData p data (Z.of_N length) w with
      | Returned n _ => firstn (Z.to_nat n) data
      | _ => []
      end
  | Flush _ => []
  end.

(** Over a sequence of calls. *)
Fixpoint accepted (p : binding) (calls : list queue_call) (w : World) : list byte :=
  match calls with
  | [] => []
  | c :: calls' =>
      call_accepts p c w
      ++ match world_after (queue_call_run p c w) with
         | Some w' => accepted p calls' w'
         | None => []
         end
  end.

(** The queue of [p] is accounted and its buffers hold their pages. *)
Definition stream_inv (p : binding) (w : World) : Prop :=
  queue_inv p w
  /\ exists d, objs w !! p = Some d /\ Forall page_holds (OutboundPages d).

(** [n] flushes, the first against a kernel with room for [room i] bytes,
    the next for [room (i + 1)], and so on. *)
Definition flushes (room : nat -> N) (i n : nat) : list queue_call :=
  map (fun j => Flush (Accepts (room j))) (seq i n).

(** The source of [d], if it has one, is a live object. *)
Definition source_live (w : World) (d : descriptor) : Prop :=
  forall from, ProxiedFrom d = Some from -> is_Some (objs w !! from).

(** A connection with "abc" queued in one page and close-after-writing
    scheduled. *)
Definition closing_connection : descriptor :=
  set_bCloseAfterWriting true
    (set_OutboundDataSize 3
       (set_OutboundPages [mkOutboundPage [x61; x62; x63; x00] 3 0 None] sample_connection)).

(** ** Vocabulary: a stream proxy under backpressure *)

(** The stream connection [p] forwards all it reads, with no byte limit, to
    the stream connection [t], whose threshold is [T]; neither is
    watch-only, and the queue of [t] is accounted. *)
Record forwarding (w : World) (p t : binding) (T : Z) (d dt : descriptor) : Prop := {
  forwarding_distinct : p <> t;
  forwarding_source : objs w !! p = Some d;
  forwarding_sink : objs w !! t = Some dt;
  source_callback : EventCallback d = true;
  source_stream : kind d = ConnectionDescriptor;
  source_not_watching : bWatchOnly d = false;
  source_target : ProxyTarget d = Some t;
  source_unlimited : BytesToProxy d = 0;
  sink_stream : kind dt = ConnectionDescriptor;
  sink_not_watching : bWatchOnly dt = false;
  sink_source : ProxiedFrom dt = Some p;
  sink_threshold : MaxOutboundBufSize dt = T;
  sink_accounted : outbound_accounted dt
}.

(** The sample proxy before anything is sent. *)
Definition sample_forwarding_source : descriptor :=
  set_ProxyTarget (Some 2%N) (set_EventCallback true sample_connection).

(** A kernel that holds eight bytes for each of the first two reads. *)
Definition kernel_eight_twice (i : nat) : kernel_read :=
  match i with
  | 0%nat | 1%nat => Delivers (repeat x2e 8) []
  | _ => ReadFails EAGAIN
  end.

Definition sample_forwarding_sink : descriptor :=
  set_MaxOutboundBufSize 10 (set_ProxiedFrom (Some 1%N) sample_connection).

Definition forwarding_world : World :=
  set_objs {[ 1%N := sample_forwarding_source; 2%N := sample_forwarding_sink ]}
    (empty_world 0).

(** * Properties *)

(** ** Running the monad *)

Lemma deref_run (p : binding) (d : descriptor) (w : World) :
  objs w !! p = Some d -> deref p w = Returned d w.
Proof. intros H. unfold deref. now rewrite H. Qed.

Lemma modify_run (p : binding) (f : descriptor -> descriptor) (d : descriptor) (w : World) :
  objs w !! p = Some d -> modify p f w = Returned tt (set_objs (<[p := f d]> (objs w)) w).
Proof. intros H. unfold modify. now rewrite H. Qed.

Lemma bind_run {A B} (m : M A) (k : A -> M B) (a : A) (w w' : World) :
  m w = Returned a w' -> bind m k w = k a w'.
Proof. intros H. unfold bind. now rewrite H. Qed.

Lemma set_objs_id (w : World) : set_objs (objs w) w = w.
Proof. now destruct w. Qed.

Lemma modify_same (p : binding) (d : descriptor) (w : World) :
  objs w !! p = Some d -> set_objs (<[p := d]> (objs w)) w = w.
Proof. intros H. rewrite insert_id by exact H. apply set_objs_id. Qed.

(** Reduce the member accesses on updated descriptors. *)
Ltac dsimp :=
  cbn [
kind bCloseNow bCloseAfterWriting MySocket bAttached bWatchOnly EventCallback
       UnbindReasonCode BytesToProxy ProxyTarget ProxiedFrom ProxiedBytes
       MaxOutboundBufSize PendingConnectTimeout InactivityTimeout CreatedAt LastActivity
       NextHeartbeat bPaused bConnectPending bNotifyReadable bReadAttemptedAfterClose
       bWriteAttemptedAfterClose OutboundPages OutboundDataSize ReturnAddress
       set_bAttached set_bWatchOnly set_EventCallback set_PendingConnectTimeout
       set_InactivityTimeout set_bConnectPending set_bNotifyReadable set_bCloseNow
       set_bCloseAfterWriting set_MySocket set_UnbindReasonCode set_BytesToProxy
       set_ProxyTarget set_ProxiedFrom set_ProxiedBytes set_MaxOutboundBufSize
       set_LastActivity set_NextHeartbeat set_bPaused set_bReadAttemptedAfterClose
       set_bWriteAttemptedAfterClose set_OutboundPages set_OutboundDataSize
       set_ReturnAddress ].

(** Step through a method body: resolve the next [deref]/[modify] against
    the store, whose entry at the binding is known. *)
Ltac mstep :=
  repeat first
    [ progress (cbn [objs set_objs set_trace set_NumCloseScheduled trace NumCloseScheduled
                     GetCurrentLoopTime GetRealTime GetTimerQuantum orb andb negb])
    | progress dsimp
    | rewrite lookup_insert_eq
    | rewrite insert_insert_eq
    | match goal with
      | H : objs ?w !! ?p = Some _ |- context [objs ?w !! ?p] => rewrite H
      end
    | progress (unfold bind, deref, modify, ret, when, emit, reactor, throw, abort, assert) ].

(** ** The conversion to int *)

Lemma to_int_small (x : Z) : INT_MIN <= x <= INT_MAX -> to_int x = x.
Proof.
  unfold to_int, INT_MIN, INT_MAX, UINT_MOD. intros H.
  rewrite Z.mod_small by lia. lia.
Qed.

Lemma to_int_range (x : Z) : INT_MIN <= to_int x <= INT_MAX.
Proof.
  unfold to_int, INT_MIN, INT_MAX, UINT_MOD.
  pose proof (Z.mod_pos_bound (x - - 2 ^ 31) (2 ^ 32) ltac:(lia)). lia.
Qed.

(** ** C1: ShouldDelete *)




(** ** C3: close scheduling is monotonic *)

Lemma EventableDescriptor_ScheduleClose_run (p : binding) (aw : bool) (w : World)
    (d : descriptor) :
  objs w !! p = Some d ->
  exists w' d',
    EventableDescriptor_ScheduleClose p aw w = Returned tt w'
    /\ objs w' !! p = Some d'
    /\ close_flags_advance [aw] d d'
    /\ IsCloseScheduled d' = true.
Proof.
  intros H. unfold EventableDescriptor_ScheduleClose, close_flags_advance, IsCloseScheduled.
  mstep.
  destruct (bCloseNow d) eqn:Hn, (bCloseAfterWriting d) eqn:Ha, aw; mstep;
    eexists _, _; (split; [reflexivity | ]); mstep;
    (split; [ first [ reflexivity | eassumption ] | ]); cbn; rewrite ?Hn, ?Ha;
    intuition congruence.
Qed.

Lemma ScheduleClose_run (p : binding) (aw : bool) (w : World) (d : descriptor) :
  objs w !! p = Some d ->
  exists w' d',
    world_after (ScheduleClose p aw w) = Some w'
    /\ objs w' !! p = Some d'
    /\ close_flags_advance [aw] d d'.
Proof.
  intros H.
  assert (Hbase : exists w' d',
             world_after (EventableDescriptor_ScheduleClose p aw w) = Some w'
             /\ objs w' !! p = Some d' /\ close_flags_advance [aw] d d').
  { destruct (EventableDescriptor_ScheduleClose_run p aw w d H) as (w' & d' & E & L & F & _).
    exists w', d'. rewrite E. auto. }
  unfold ScheduleClose, ConnectionDescriptor_ScheduleClose.
  rewrite (bind_run _ _ _ _ _ (deref_run _ _ _ H)).
  destruct (kind d); try exact Hbase.
  rewrite (bind_run _ _ _ _ _ (deref_run _ _ _ H)).
  destruct (bWatchOnly d); [ | exact Hbase ].
  exists w, d. unfold close_flags_advance. cbn. tauto.
Qed.

Lemma close_flags_advance_trans (a : bool) (calls : list bool) (d1 d2 d3 : descriptor) :
  close_flags_advance [a] d1 d2 -> close_flags_advance calls d2 d3 ->
  close_flags_advance (a :: calls) d1 d3.
Proof.
  unfold close_flags_advance, IsCloseScheduled. cbn [In].
  intros (N1 & A1 & S1 & O1) (N2 & A2 & S2 & O2). repeat split.
  - auto.
  - auto.
  - intros HS. rewrite S2, S1; auto.
    apply orb_true_iff in HS. apply orb_true_iff. destruct HS; auto.
  - intros H3. destruct (O2 H3) as [H2 | Hin]; [ | now right; right ].
    destruct (O1 H2) as [? | [? | []]]; auto.
Qed.

(** C3.  Over any sequence of [ScheduleClose] calls on a descriptor, neither
    close flag is ever reset; once a close is scheduled the after-writing
    flag keeps its value, so the only change left is the escalation to an
    immediate close, and that happens only if some call passed [false]. *)
Theorem close_scheduling_is_monotonic (calls : list bool) (p : binding) (w : World)
    (d : descriptor) :
  objs w !! p = Some d ->
  exists w' d',
    ScheduleClose_calls p calls w = Some w'
    /\ objs w' !! p = Some d'
    /\ (bCloseNow d = true -> bCloseNow d' = true)
    /\ (bCloseAfterWriting d = true -> bCloseAfterWriting d' = true)
    /\ (IsCloseScheduled d = true -> IsCloseScheduled d' = true)
    /\ (IsCloseScheduled d = true -> bCloseAfterWriting d' = bCloseAfterWriting d)
    /\ (bCloseNow d' = true -> bCloseNow d = true \/ In false calls).
Proof.
  intros H.
  enough (exists w' d', ScheduleClose_calls p calls w = Some w'
                        /\ objs w' !! p = Some d' /\ close_flags_advance calls d d') as
      (w' & d' & E & L & N & A & S & O).
  { exists w', d'. split; [exact E | ]. split; [exact L | ].
    split; [exact N | ]. split; [exact A | ]. split; [ | split; [exact S | exact O] ].
    unfold IsCloseScheduled. rewrite !orb_true_iff. tauto. }
  revert w d H. induction calls as [ | a calls IH ]; intros w d H.
  - exists w, d. unfold close_flags_advance. cbn. tauto.
  - destruct (ScheduleClose_run p a w d H) as (w1 & d1 & E1 & L1 & F1).
    destruct (IH w1 d1 L1) as (w' & d' & E & L & F).
    exists w', d'. cbn [ScheduleClose_calls]. rewrite E1.
    split; [exact E | ]. split; [exact L | ].
    eapply close_flags_advance_trans; eauto.
Qed.

Lemma close_scheduling_is_monotonic_witness :
  objs (one_connection_world (set_bCloseAfterWriting true sample_connection) 0) !! 1%N
    = Some (set_bCloseAfterWriting true sample_connection)
  /\ exists w' d',
       ScheduleClose_calls 1%N [true; false; true]
         (one_connection_world (set_bCloseAfterWriting true sample_connection) 0) = Some w'
       /\ objs w' !! 1%N = Some d'
       /\ (bCloseNow (set_bCloseAfterWriting true sample_connection) = true ->
           bCloseNow d' = true)
       /\ (bCloseAfterWriting (set_bCloseAfterWriting true sample_connection) = true ->
           bCloseAfterWriting d' = true)
       /\ (IsCloseScheduled (set_bCloseAfterWriting true sample_connection) = true ->
           IsCloseScheduled d' = true)
       /\ (IsCloseScheduled (set_bCloseAfterWriting true sample_connection) = true ->
           bCloseAfterWriting d'
           = bCloseAfterWriting (set_bCloseAfterWriting true sample_connection))
       /\ (bCloseNow d' = true ->
           bCloseNow (set_bCloseAfterWriting true sample_connection) = true
           \/ In false [true; false; true]).
Proof.
  split; [ reflexivity | ].
  apply (close_scheduling_is_monotonic [true; false; true] 1%N
           (one_connection_world (set_bCloseAfterWriting true sample_connection) 0)
           (set_bCloseAfterWriting true sample_connection)).
  reflexivity.
Defined.

(** ** C8: Close *)

Lemma deregistered_first (p : binding) (rest pre post : list effect) (e : effect) :
  Deregister p :: rest = pre ++ e :: post -> e <> Deregister p -> In (Deregister p) pre.
Proof.
  destruct pre as [ | e0 pre ]; cbn; intros Heq Hne.
  - injection Heq as Heq _. congruence.
  - injection Heq as Heq _. now left.
Qed.

(** C8.  [Close] on a live descriptor invalidates the handle and changes
    nothing else in the store; a second call returns without changing
    anything.  On a valid handle the first call sends [Deregister] to the
    reactor and then, if the handle is above 2 and not attached, releases it
    with [shutdown] and [close], in this order and on this handle; on an
    invalid handle it does nothing.  So whatever the call does to the handle
    comes after the [Deregister], and the handle it closes is never 0, 1 or
    2. *)
Theorem Close_is_idempotent (p : binding) (w : World) (d : descriptor) :
  objs w !! p = Some d ->
  exists w1 new,
    Close p w = Returned tt w1
    /\ Close p w1 = Returned tt w1
    /\ objs w1 = <[p := set_MySocket INVALID_SOCKET d]> (objs w)
    /\ (exists d1, objs w1 !! p = Some d1 /\ MySocket d1 = INVALID_SOCKET)
    /\ trace w1 = trace w ++ new
    /\ new = (if MySocket d =? INVALID_SOCKET then []
              else Deregister p
                   :: if (2 <? MySocket d) && negb (bAttached d)
                      then [sys_shutdown (MySocket d) 1; sys_close (MySocket d)]
                      else [])
    /\ (MySocket d <> INVALID_SOCKET -> In (Deregister p) new)
    /\ (forall pre e post, new = pre ++ e :: post -> e <> Deregister p ->
        In (Deregister p) pre)
    /\ (forall sd, In (sys_close sd) new -> sd = MySocket d /\ 2 < sd).
Proof.
  intros H. unfold Close. mstep.
  destruct (MySocket d =? INVALID_SOCKET) eqn:Hsd; mstep.
  - exists w, []. rewrite app_nil_r. mstep. rewrite Hsd. mstep. apply Z.eqb_eq in Hsd.
    split; [ reflexivity | ]. split; [ reflexivity | ].
    split.
    { rewrite insert_id; [ reflexivity | ]. rewrite H. f_equal.
      destruct d. cbn in *. now subst. }
    split; [ now exists d | ]. split; [ reflexivity | ]. split; [ reflexivity | ].
    split; [ congruence | ].
    split; [ intros pre e post Hnew; now destruct pre | intros sd [] ].
  - assert (Hclosed : (INVALID_SOCKET =? INVALID_SOCKET) = true) by reflexivity.
    destruct ((2 <? MySocket d) && negb (bAttached d)) eqn:Hfd; mstep.
    + apply andb_true_iff in Hfd. destruct Hfd as [Hfd _]. apply Z.ltb_lt in Hfd.
      eexists _, [Deregister p; sys_shutdown (MySocket d) 1; sys_close (MySocket d)].
      split; [ reflexivity | ]. mstep. cbn [MySocket set_MySocket]. rewrite Hclosed. mstep.
      split; [ reflexivity | ]. split; [ reflexivity | ].
      split; [ eexists; split; reflexivity | ].
      split; [ now rewrite <- !app_assoc | ]. split; [ reflexivity | ].
      split; [ intros _; now left | ].
      split; [ intros pre e post Hnew Hne; eapply deregistered_first; eauto | ].
      intros sd Hin. cbn in Hin. destruct Hin as [Hin | [Hin | [Hin | []]]]; try discriminate.
      injection Hin as <-. split; [ reflexivity | exact Hfd ].
    + eexists _, [Deregister p].
      split; [ reflexivity | ]. mstep. cbn [MySocket set_MySocket]. rewrite Hclosed. mstep.
      split; [ reflexivity | ]. split; [ reflexivity | ].
      split; [ eexists; split; reflexivity | ].
      split; [ reflexivity | ]. split; [ reflexivity | ].
      split; [ intros _; now left | ].
      split; [ intros pre e post Hnew Hne; eapply deregistered_first; eauto | ].
      intros sd Hin. cbn in Hin. destruct Hin as [Hin | []]; discriminate.
Qed.

Lemma Close_is_idempotent_witness :
  objs (one_connection_world sample_connection 0) !! 1%N = Some sample_connection
  /\ exists w1 new,
       Close 1%N (one_connection_world sample_connection 0) = Returned tt w1
       /\ Close 1%N w1 = Returned tt w1
       /\ objs w1
          = <[1%N := set_MySocket INVALID_SOCKET sample_connection]>
              (objs (one_connection_world sample_connection 0))
       /\ (exists d1, objs w1 !! 1%N = Some d1 /\ MySocket d1 = INVALID_SOCKET)
       /\ trace w1 = trace (one_connection_world sample_connection 0) ++ new
       /\ new = (if MySocket sample_connection =? INVALID_SOCKET then []
                 else Deregister 1%N
                      :: if (2 <? MySocket sample_connection)
                            && negb (bAttached sample_connection)
                         then [sys_shutdown (MySocket sample_connection) 1;
                               sys_close (MySocket sample_connection)]
                         else [])
       /\ (MySocket sample_connection <> INVALID_SOCKET -> In (Deregister 1%N) new)
       /\ (forall pre e post, new = pre ++ e :: post -> e <> Deregister 1%N ->
           In (Deregister 1%N) pre)
       /\ (forall sd, In (sys_close sd) new -> sd = MySocket sample_connection /\ 2 < sd).
Proof.
  split; [ reflexivity | ].
  apply (Close_is_idempotent 1%N (one_connection_world sample_connection 0) sample_connection).
  reflexivity.
Defined.

(** On the sample connection, whose handle is 7: deregistered, then shut
    down and closed. *)
Example Close_releases_handle :
  exists w1,
    Close 1%N (one_connection_world sample_connection 0) = Returned tt w1
    /\ trace w1 = [Deregister 1%N; sys_shutdown 7 1; sys_close 7].
Proof. eexists. split; reflexivity. Qed.

(** A descriptor on standard output is deregistered and invalidated, and
    the handle stays open. *)
Example Close_spares_stdout :
  exists w1,
    Close 1%N (one_connection_world (set_MySocket 1 sample_connection) 0) = Returned tt w1
    /\ trace w1 = [Deregister 1%N].
Proof. eexists. split; reflexivity. Qed.

(** ** C7: GetNextHeartbeat *)

Lemma ShouldDelete_set_NextHeartbeat (v : Z) (d : descriptor) :
  ShouldDelete (set_NextHeartbeat v d) = ShouldDelete d.
Proof. reflexivity. Qed.

(** C7, as the code has it.  [GetNextHeartbeat] clears the previous
    registration, and returns and stores zero when the descriptor should be
    deleted or no timeout applies; otherwise it returns and stores the
    current real time plus the smaller of the configured pending-connect
    timeout (only while a connect is pending) and the configured inactivity
    timeout, a zero inactivity timeout giving no deadline.  The timeouts enter
    in full: no elapsed time is taken off them. *)
Theorem GetNextHeartbeat_from_timeouts (p : binding) (w : World) (d : descriptor) :
  objs w !! p = Some d ->
  (IsConnectPending d = true -> PendingConnectTimeout d <> 0) ->
  exists w',
    GetNextHeartbeat p w = Returned (next_heartbeat_from_timeouts d (GetRealTime w)) w'
    /\ objs w' !! p
       = Some (set_NextHeartbeat (next_heartbeat_from_timeouts d (GetRealTime w)) d)
    /\ trace w' = trace w ++ (if NextHeartbeat d =? 0 then []
                              else [ClearHeartbeat (NextHeartbeat d) p]).
Proof.
  intros H Hpct.
  assert (Hstep : forall w0 : World,
             objs w0 !! p = Some d -> GetRealTime w0 = GetRealTime w ->
             exists w',
               (modify p (set_NextHeartbeat 0) ;;
                d <- deref p ;;
                if negb (ShouldDelete d) then
                  let time_til_next := InactivityTimeout d in
                  let time_til_next :=
                    if IsConnectPending d then
                      if (time_til_next =? 0) || (PendingConnectTimeout d <? time_til_next)
                      then PendingConnectTimeout d else time_til_next
                    else time_til_next in
                  if time_til_next =? 0 then ret 0
                  else
                    real <- reactor GetRealTime ;;
                    modify p (set_NextHeartbeat (u64 (time_til_next + real))) ;;
                    d <- deref p ;;
                    ret (NextHeartbeat d)
                else ret (NextHeartbeat d)) w0
               = Returned (next_heartbeat_from_timeouts d (GetRealTime w)) w'
               /\ objs w' !! p
                  = Some (set_NextHeartbeat (next_heartbeat_from_timeouts d (GetRealTime w)) d)
               /\ trace w' = trace w0).
  { intros w0 H0 Hreal. unfold next_heartbeat_from_timeouts, earlier, no_deadline_if_zero.
    mstep. rewrite ShouldDelete_set_NextHeartbeat.
    change (IsConnectPending (set_NextHeartbeat 0 d)) with (IsConnectPending d).
    cbn [InactivityTimeout PendingConnectTimeout set_NextHeartbeat].
    destruct (ShouldDelete d); mstep.
    { eexists. split; [ reflexivity | ]. mstep. split; reflexivity. }
    destruct (IsConnectPending d) eqn:Hpending.
    - specialize (Hpct eq_refl). apply Z.eqb_neq in Hpct. rewrite Hpct.
      destruct (InactivityTimeout d =? 0) eqn:Hit; mstep.
      + rewrite Hpct. mstep. rewrite Hreal.
        eexists. split; [ reflexivity | ]. mstep. split; reflexivity.
      + destruct (PendingConnectTimeout d <? InactivityTimeout d) eqn:Hlt.
        * rewrite Hpct. mstep. rewrite Hreal.
          apply Z.ltb_lt in Hlt. rewrite Z.min_l by lia.
          eexists. split; [ reflexivity | ]. mstep. split; reflexivity.
        * rewrite Hit. mstep. rewrite Hreal.
          apply Z.ltb_ge in Hlt. rewrite Z.min_r by lia.
          eexists. split; [ reflexivity | ]. mstep. split; reflexivity.
    - destruct (InactivityTimeout d =? 0) eqn:Hit; mstep.
      + eexists. split; [ reflexivity | ]. mstep. split; reflexivity.
      + rewrite Hreal. eexists. split; [ reflexivity | ]. mstep. split; reflexivity. }
  unfold GetNextHeartbeat.
  rewrite (bind_run _ _ _ _ _ (deref_run _ _ _ H)).
  destruct (NextHeartbeat d =? 0).
  - cbn [negb when]. unfold bind at 1. cbn [ret].
    destruct (Hstep w H eq_refl) as (w' & E & L & T).
    exists w'. rewrite app_nil_r. auto.
  - cbn [negb when]. unfold bind at 1, emit.
    destruct (Hstep (set_trace (trace w ++ [ClearHeartbeat (NextHeartbeat d) p]) w) H eq_refl)
      as (w' & E & L & T).
    exists w'. auto.
Qed.

Lemma GetNextHeartbeat_from_timeouts_witness :
  objs (one_connection_world pending_connection 4000) !! 1%N = Some pending_connection
  /\ (IsConnectPending pending_connection = true ->
      PendingConnectTimeout pending_connection <> 0)
  /\ exists w',
       GetNextHeartbeat 1%N (one_connection_world pending_connection 4000)
       = Returned (next_heartbeat_from_timeouts pending_connection
                     (GetRealTime (one_connection_world pending_connection 4000))) w'
       /\ objs w' !! 1%N
          = Some (set_NextHeartbeat
                    (next_heartbeat_from_timeouts pending_connection
                       (GetRealTime (one_connection_world pending_connection 4000)))
                    pending_connection)
       /\ trace w' = trace (one_connection_world pending_connection 4000)
                     ++ (if NextHeartbeat pending_connection =? 0 then []
                         else [ClearHeartbeat (NextHeartbeat pending_connection) 1%N]).
Proof.
  split; [ reflexivity | ]. split; [ intros _; discriminate | ].
  apply (GetNextHeartbeat_from_timeouts 1%N (one_connection_world pending_connection 4000)
           pending_connection).
  - reflexivity.
  - intros _. discriminate.
Defined.

(** C7 as worded fails: 4 ms into a 10 ms inactivity timeout, 6 ms are left
    on it, yet the deadline returned is 10 ms, not 6 ms, past the current
    real time. *)
Lemma GetNextHeartbeat_not_from_time_left :
  (exists w', GetNextHeartbeat 1%N (one_connection_world idle_connection 4000)
              = Returned 14000 w')
  /\ next_heartbeat_from_time_left idle_connection 4000 4000 = 10000.
Proof. split; [ eexists | ]; vm_compute; reflexivity. Qed.

(** ** C6: Heartbeat *)

(** C6, as the code has it.  On a connection that is not watch-only,
    [Heartbeat] returns; if a connect is pending and the loop time passed
    since creation has reached the pending-connect timeout, or if no connect
    is pending, an inactivity timeout is configured and the timer quantum
    plus the loop time passed since the last activity has reached it, the
    unbind reason becomes [ETIMEDOUT] and an immediate close is scheduled
    (the after-writing flag is not touched, and the descriptor is to be
    deleted whatever is still queued); otherwise nothing changes. *)
Theorem Heartbeat_schedules_immediate_close (p : binding) (w : World) (d : descriptor) :
  objs w !! p = Some d ->
  bWatchOnly d = false ->
  exists w',
    ConnectionDescriptor_Heartbeat p w = Returned tt w'
    /\ if heartbeat_expiry d w
       then exists d',
              objs w' !! p = Some d'
              /\ UnbindReasonCode d' = ETIMEDOUT
              /\ bCloseNow d' = true
              /\ bCloseAfterWriting d' = bCloseAfterWriting d
              /\ ShouldDelete d' = true
       else w' = w.
Proof.
  intros H Hwatch.
  assert (Hclose : exists w' d',
             (modify p (set_UnbindReasonCode ETIMEDOUT) ;;
              ConnectionDescriptor_ScheduleClose p false) w = Returned tt w'
             /\ objs w' !! p = Some d'
             /\ UnbindReasonCode d' = ETIMEDOUT
             /\ bCloseNow d' = true
             /\ bCloseAfterWriting d' = bCloseAfterWriting d
             /\ ShouldDelete d' = true).
  { unfold ConnectionDescriptor_ScheduleClose, EventableDescriptor_ScheduleClose,
      IsCloseScheduled.
    mstep. rewrite Hwatch. mstep.
    destruct (bCloseNow d || bCloseAfterWriting d); mstep;
      eexists _, _; (split; [ reflexivity | ]); mstep; (split; [ reflexivity | ]);
      unfold ShouldDelete; cbn; rewrite orb_true_r; auto. }
  unfold ConnectionDescriptor_Heartbeat, heartbeat_expiry, pending_connect_expired,
    inactivity_expired.
  unfold reactor at 1. unfold bind at 1.
  rewrite (bind_run _ _ _ _ _ (deref_run _ _ _ H)).
  unfold reactor at 1. unfold bind at 1.
  destruct (bConnectPending d).
  - destruct (PendingConnectTimeout d <=? u64 (GetCurrentLoopTime w - CreatedAt d));
      cbn [when].
    + destruct Hclose as (w' & d' & E & L). exists w'. split; [ exact E | ]. now exists d'.
    + now exists w.
  - destruct (negb (InactivityTimeout d =? 0)
              && (InactivityTimeout d
                  <=? u64 (GetTimerQuantum w + GetCurrentLoopTime w - LastActivity d)));
      cbn [when].
    + destruct Hclose as (w' & d' & E & L). exists w'. split; [ exact E | ]. now exists d'.
    + now exists w.
Qed.

Lemma Heartbeat_schedules_immediate_close_witness :
  objs (one_connection_world idle_connection 10000) !! 1%N = Some idle_connection
  /\ bWatchOnly idle_connection = false
  /\ exists w',
       ConnectionDescriptor_Heartbeat 1%N (one_connection_world idle_connection 10000)
       = Returned tt w'
       /\ if heartbeat_expiry idle_connection (one_connection_world idle_connection 10000)
          then exists d',
                 objs w' !! 1%N = Some d'
                 /\ UnbindReasonCode d' = ETIMEDOUT
                 /\ bCloseNow d' = true
                 /\ bCloseAfterWriting d' = bCloseAfterWriting idle_connection
                 /\ ShouldDelete d' = true
          else w' = one_connection_world idle_connection 10000.
Proof.
  split; [ reflexivity | ]. split; [ reflexivity | ].
  apply (Heartbeat_schedules_immediate_close 1%N (one_connection_world idle_connection 10000)
           idle_connection); reflexivity.
Defined.

(** C6 as worded fails.  Ten seconds into a pending connect, the
    pending-connect timeout (20 s) has not expired and the inactivity timeout
    (5 s) has: by the wording a close is due, and [Heartbeat] changes
    nothing.  On a watch-only connection whose inactivity timeout has
    expired, [Heartbeat] throws and no close is scheduled. *)
Lemma Heartbeat_skips_inactivity_while_connecting :
  heartbeat_expiry_as_worded pending_connection
    (one_connection_world pending_connection 10000000) = true
  /\ ConnectionDescriptor_Heartbeat 1%N (one_connection_world pending_connection 10000000)
     = Returned tt (one_connection_world pending_connection 10000000)
  /\ heartbeat_expiry_as_worded watch_only_connection
       (one_connection_world watch_only_connection 10000000) = true
  /\ ConnectionDescriptor_Heartbeat 1%N (one_connection_world watch_only_connection 10000000)
     = Thrown "cannot close 'watch only' connections"
         (one_connection_world (set_UnbindReasonCode ETIMEDOUT watch_only_connection)
            10000000).
Proof. repeat split; vm_compute; reflexivity. Qed.

(** ** Pause and Resume *)

Lemma Pause_run (q : binding) (w : World) (s : descriptor) :
  objs w !! q = Some s -> pausable s ->
  exists b, Pause q w = Returned b (set_objs (<[q := set_bPaused true s]> (objs w)) w).
Proof.
  intros H Hp. unfold Pause, ConnectionDescriptor_Pause, EventableDescriptor_Pause. mstep.
  destruct (kind s) eqn:Hk; mstep; try (eexists; reflexivity).
  rewrite (Hp Hk). mstep. eexists; reflexivity.
Qed.

Lemma Resume_run (q : binding) (w : World) (s : descriptor) :
  objs w !! q = Some s -> pausable s ->
  exists b, Resume q w = Returned b (set_objs (<[q := set_bPaused false s]> (objs w)) w).
Proof.
  intros H Hp. unfold Resume, ConnectionDescriptor_Resume, EventableDescriptor_Resume. mstep.
  destruct (kind s) eqn:Hk; mstep; try (eexists; reflexivity).
  rewrite (Hp Hk). mstep. eexists; reflexivity.
Qed.

(** On a watch-only connection both throw and change nothing. *)
Lemma Pause_watch_only (q : binding) (w : World) (s : descriptor) :
  objs w !! q = Some s -> kind s = ConnectionDescriptor -> bWatchOnly s = true ->
  exists what, Pause q w = Thrown what w.
Proof.
  intros H Hk Hw. unfold Pause, ConnectionDescriptor_Pause. mstep. rewrite Hk. mstep.
  rewrite Hw. eexists; reflexivity.
Qed.

(** ** Sending *)

(** The page that [_SendRawOutboundData] appends. *)
Lemma _SendRawOutboundData_run (p : binding) (data : list byte) (length : Z) (w : World)
    (d : descriptor) :
  objs w !! p = Some d ->
  _SendRawOutboundData p data length w =
  if IsCloseScheduled d then Returned 0 w
  else if length =? 0 then Returned 0 w
  else if Z.of_nat (List.length data) <? length then Aborted OutOfBounds
  else Returned (to_int length)
         (set_objs
            (<[p := set_OutboundDataSize (to_int (OutboundDataSize d + length))
                      (set_OutboundPages
                         (OutboundPages d
                            ++ [mkOutboundPage (firstn (Z.to_nat length) data ++ [x00])
                                  (to_int length) 0 None]) d)]> (objs w)) w).
Proof.
  intros H. unfold _SendRawOutboundData, copy_outbound. mstep.
  destruct (IsCloseScheduled d); [ reflexivity | ].
  destruct (length =? 0); [ reflexivity | ].
  destruct (Z.of_nat (List.length data) <? length); mstep; reflexivity.
Qed.

(** The datagram that [DatagramDescriptor::SendOutboundData] appends. *)
Lemma DatagramDescriptor_SendOutboundData_run (p : binding) (data : list byte) (length : Z)
    (w : World) (d : descriptor) :
  objs w !! p = Some d ->
  DatagramDescriptor_SendOutboundData p data length w =
  if IsCloseScheduled d then Returned 0 w
  else if Z.of_nat (List.length data) <? length then Aborted OutOfBounds
  else Returned (to_int length)
         (set_descriptor p
            (set_OutboundDataSize (to_int (OutboundDataSize d + length))
               (set_OutboundPages
                  (OutboundPages d
                     ++ [mkOutboundPage (firstn (Z.to_nat length) data ++ [x00])
                           (to_int length) 0 (Some (ReturnAddress d))]) d)) w).
Proof.
  intros H. unfold DatagramDescriptor_SendOutboundData, copy_outbound. mstep.
  destruct (IsCloseScheduled d); [ reflexivity | ].
  destruct (Z.of_nat (List.length data) <? length); mstep; reflexivity.
Qed.

Lemma pause_source_if_over_no_source (p : binding) (length : Z) (w : World) (d : descriptor) :
  objs w !! p = Some d -> ProxiedFrom d = None ->
  pause_source_if_over p length w = Returned tt w.
Proof.
  intros H Hs. unfold pause_source_if_over.
  rewrite (bind_run _ _ _ _ _ (deref_run _ _ _ H)). now rewrite Hs.
Qed.

Lemma pause_source_if_over_source (p from : binding) (length : Z) (w : World)
    (d s : descriptor) :
  objs w !! p = Some d -> ProxiedFrom d = Some from ->
  objs w !! from = Some s -> pausable s ->
  pause_source_if_over p length w
  = Returned tt (if over_threshold d length
                 then set_descriptor from (set_bPaused true s) w else w).
Proof.
  intros H Hs Hfrom Hp. unfold pause_source_if_over.
  rewrite (bind_run _ _ _ _ _ (deref_run _ _ _ H)). rewrite Hs.
  destruct (over_threshold d length); cbn [when]; [ | reflexivity ].
  destruct (Pause_run from w s Hfrom Hp) as [b Hpause].
  unfold bind. rewrite Hpause. reflexivity.
Qed.

Lemma ConnectionDescriptor_SendOutboundData_no_source (p : binding) (data : list byte)
    (length : Z) (w : World) (d : descriptor) :
  objs w !! p = Some d -> bWatchOnly d = false -> ProxiedFrom d = None ->
  ConnectionDescriptor_SendOutboundData p data length w = _SendRawOutboundData p data length w.
Proof.
  intros H Hw Hs. unfold ConnectionDescriptor_SendOutboundData.
  rewrite (bind_run _ _ _ _ _ (deref_run _ _ _ H)). rewrite Hw.
  now rewrite (bind_run _ _ _ _ _ (pause_source_if_over_no_source _ _ _ _ H Hs)).
Qed.

Lemma ConnectionDescriptor_SendOutboundData_source (p from : binding) (data : list byte)
    (length : Z) (w : World) (d s : descriptor) :
  objs w !! p = Some d -> bWatchOnly d = false -> ProxiedFrom d = Some from ->
  objs w !! from = Some s -> pausable s ->
  ConnectionDescriptor_SendOutboundData p data length w
  = _SendRawOutboundData p data length
      (if over_threshold d length then set_descriptor from (set_bPaused true s) w else w).
Proof.
  intros H Hw Hs Hfrom Hp. unfold ConnectionDescriptor_SendOutboundData.
  rewrite (bind_run _ _ _ _ _ (deref_run _ _ _ H)). rewrite Hw.
  now rewrite (bind_run _ _ _ _ _ (pause_source_if_over_source _ _ _ _ _ _ H Hs Hfrom Hp)).
Qed.

(** ** C10: data sent to a closing descriptor *)

(** C10, as the code has it.  On a stream connection that is not watch-only
    (and whose proxy source, if any, can be paused), [SendOutboundData]
    returns 0 and leaves the page queue and the byte count as they were when
    a close is scheduled or the length is zero; so does a datagram descriptor
    when a close is scheduled. *)
Theorem SendOutboundData_refused_quietly (p : binding) (w : World) (d : descriptor)
    (data : list byte) (length : Z) :
  objs w !! p = Some d ->
  (kind d = ConnectionDescriptor /\ bWatchOnly d = false /\ source_pausable w d
   /\ (IsCloseScheduled d = true \/ length = 0))
  \/ (kind d = DatagramDescriptor /\ IsCloseScheduled d = true) ->
  exists w' d',
    SendOutboundData p data length w = Returned 0 w'
    /\ objs w' !! p = Some d'
    /\ OutboundPages d' = OutboundPages d
    /\ OutboundDataSize d' = OutboundDataSize d.
Proof.
  intros H [(Hk & Hw & Hsrc & Hwhy) | (Hk & Hclosing)]; unfold SendOutboundData;
    rewrite (bind_run _ _ _ _ _ (deref_run _ _ _ H)), Hk.
  - assert (Hraw : forall w1 d1, objs w1 !! p = Some d1 ->
                     IsCloseScheduled d1 = IsCloseScheduled d ->
                     _SendRawOutboundData p data length w1 = Returned 0 w1).
    { intros w1 d1 H1 Hsame. rewrite (_SendRawOutboundData_run p data length w1 d1 H1).
      rewrite Hsame. destruct Hwhy as [-> | ->]; [ reflexivity | ].
      now destruct (IsCloseScheduled d). }
    destruct (ProxiedFrom d) as [from | ] eqn:Hfrom.
    + destruct (Hsrc from Hfrom) as (s & Hs & Hp).
      rewrite (ConnectionDescriptor_SendOutboundData_source p from data length w d s)
        by assumption.
      destruct (over_threshold d length).
      * destruct (decide (from = p)) as [-> | Hne].
        -- assert (s = d) by congruence. subst s.
           exists (set_descriptor p (set_bPaused true d) w), (set_bPaused true d).
           split; [ apply (Hraw _ (set_bPaused true d)); [ | reflexivity ] | ];
             unfold set_descriptor; mstep; auto.
        -- exists (set_descriptor from (set_bPaused true s) w), d.
           assert (Hp' : objs (set_descriptor from (set_bPaused true s) w) !! p = Some d).
           { unfold set_descriptor. mstep. now rewrite lookup_insert_ne. }
           split; [ now apply (Hraw _ d) | auto ].
      * exists w, d. split; [ now apply (Hraw _ d) | auto ].
    + rewrite (ConnectionDescriptor_SendOutboundData_no_source p data length w d)
        by assumption.
      exists w, d. split; [ now apply (Hraw _ d) | auto ].
  - unfold DatagramDescriptor_SendOutboundData.
    rewrite (bind_run _ _ _ _ _ (deref_run _ _ _ H)), Hclosing.
    exists w, d. auto.
Qed.

Lemma SendOutboundData_refused_quietly_witness :
  objs (one_connection_world (set_bCloseAfterWriting true sample_connection) 0) !! 1%N
    = Some (set_bCloseAfterWriting true sample_connection)
  /\ exists w' d',
       SendOutboundData 1%N [x68; x69] 2
         (one_connection_world (set_bCloseAfterWriting true sample_connection) 0)
       = Returned 0 w'
       /\ objs w' !! 1%N = Some d'
       /\ OutboundPages d' = OutboundPages (set_bCloseAfterWriting true sample_connection)
       /\ OutboundDataSize d'
          = OutboundDataSize (set_bCloseAfterWriting true sample_connection).
Proof.
  split; [ reflexivity | ].
  apply (SendOutboundData_refused_quietly 1%N
           (one_connection_world (set_bCloseAfterWriting true sample_connection) 0)
           (set_bCloseAfterWriting true sample_connection) [x68; x69] 2).
  - reflexivity.
  - left. split; [ reflexivity | ]. split; [ reflexivity | ].
    split; [ intros from Hfrom; discriminate | now left ].
Defined.

(** C10 as worded fails on a watch-only stream connection: a send of length
    zero is faulted, not ignored. *)
Lemma SendOutboundData_faults_on_watch_only :
  SendOutboundData 1%N [] 0 (one_connection_world (set_bWatchOnly true sample_connection) 0)
  = Thrown "cannot send data on a 'watch only' connection"
      (one_connection_world (set_bWatchOnly true sample_connection) 0).
Proof. vm_compute. reflexivity. Qed.

(** ** The outbound queue *)

Lemma queued_bytes_cons (op : OutboundPage) (pages : list OutboundPage) :
  queued_bytes (op :: pages) = unsent op + queued_bytes pages.
Proof. reflexivity. Qed.

Lemma queued_bytes_app (l1 l2 : list OutboundPage) :
  queued_bytes (l1 ++ l2) = queued_bytes l1 + queued_bytes l2.
Proof.
  induction l1 as [ | op l1 IH ]; [ reflexivity | ].
  cbn [app]. rewrite !queued_bytes_cons, IH. lia.
Qed.

Lemma queued_bytes_pos (pages : list OutboundPage) :
  Forall page_pending pages -> pages <> [] -> 0 < queued_bytes pages.
Proof.
  induction 1 as [ | op pages [Hlo Hhi] _ IH ]; [ congruence | ]. intros _.
  rewrite queued_bytes_cons. unfold unsent.
  destruct pages as [ | op' pages ]; [ cbn; lia | ].
  specialize (IH ltac:(discriminate)). lia.
Qed.

Lemma queued_bytes_zero_iff (pages : list OutboundPage) :
  Forall page_pending pages -> queued_bytes pages = 0 <-> pages = [].
Proof.
  intros Hwf. split; [ | now intros -> ].
  intros Hz. destruct pages as [ | op pages ]; [ reflexivity | ].
  pose proof (queued_bytes_pos _ Hwf ltac:(discriminate)). lia.
Qed.

Lemma queued_bytes_firstn (n : nat) (pages : list OutboundPage) :
  Forall page_pending pages -> 0 <= queued_bytes (firstn n pages) <= queued_bytes pages.
Proof.
  intros Hwf. revert n. induction Hwf as [ | op pages [Hlo Hhi] _ IH ]; intros n.
  - destruct n; cbn; lia.
  - destruct n; cbn [firstn]; rewrite ?queued_bytes_cons; unfold unsent.
    + specialize (IH 0%nat). cbn in *. lia.
    + specialize (IH n). lia.
Qed.

(** Releasing [sent] bytes, at most what was gathered from the first [n]
    pages, takes exactly [sent] bytes off the queue and leaves no empty
    page. *)
Lemma release_sent_accounted (n : nat) (pages : list OutboundPage) (sent : Z) :
  Forall page_pending pages ->
  0 <= sent <= queued_bytes (firstn n pages) ->
  Forall page_pending (release_sent (map unsent (firstn n pages)) pages sent)
  /\ queued_bytes (release_sent (map unsent (firstn n pages)) pages sent)
     = queued_bytes pages - sent.
Proof.
  intros Hwf. revert n sent.
  induction Hwf as [ | op pages Hop Hwf IH ]; intros n sent Hsent.
  - destruct n; cbn in *; split; try constructor; lia.
  - destruct n as [ | n ]; cbn [firstn map release_sent] in *.
    + cbn in Hsent. split; [ now constructor | lia ].
    + rewrite queued_bytes_cons in Hsent.
      destruct (unsent op <=? sent) eqn:Hfull.
      * apply Z.leb_le in Hfull. cbn [tl].
        destruct (IH n (sent - unsent op) ltac:(lia)) as [Hwf' Hq].
        split; [ exact Hwf' | ]. rewrite Hq, queued_bytes_cons. lia.
      * apply Z.leb_gt in Hfull. destruct Hop as [Hlo Hhi]. unfold unsent in *.
        split.
        -- constructor; [ | exact Hwf ]. unfold page_pending, add_Offset. cbn. lia.
        -- rewrite !queued_bytes_cons. unfold unsent, add_Offset. cbn. lia.
Qed.

(** ** Updating one object of the store *)

Lemma modify_set (p : binding) (f : descriptor -> descriptor) (d : descriptor) (w : World) :
  objs w !! p = Some d -> modify p f w = Returned tt (set_descriptor p (f d) w).
Proof. apply modify_run. Qed.

Lemma lookup_set_descriptor (p q : binding) (d : descriptor) (w : World) :
  objs (set_descriptor p d w) !! q = if decide (p = q) then Some d else objs w !! q.
Proof. unfold set_descriptor. cbn. apply lookup_insert. Qed.

Lemma lookup_set_descriptor_eq (p : binding) (d : descriptor) (w : World) :
  objs (set_descriptor p d w) !! p = Some d.
Proof. rewrite lookup_set_descriptor. now destruct (decide (p = p)). Qed.

Lemma lookup_set_descriptor_ne (p q : binding) (d : descriptor) (w : World) :
  p <> q -> objs (set_descriptor p d w) !! q = objs w !! q.
Proof. intros Hne. rewrite lookup_set_descriptor. now destruct (decide (p = q)). Qed.

Lemma watch_only_never_paused_objs (w w' : World) :
  objs w' = objs w -> watch_only_never_paused w -> watch_only_never_paused w'.
Proof. unfold watch_only_never_paused. intros ->. auto. Qed.

(** An update that keeps the kind and the watch-only mode of an object, and
    pauses it only if it may be paused, keeps watch-only connections
    unpaused. *)
Lemma watch_only_never_paused_set (p : binding) (s s' : descriptor) (w : World) :
  watch_only_never_paused w ->
  objs w !! p = Some s ->
  kind s' = kind s -> bWatchOnly s' = bWatchOnly s ->
  (bPaused s' = bPaused s \/ bPaused s' = false \/ pausable s) ->
  watch_only_never_paused (set_descriptor p s' w).
Proof.
  intros HJ Hs Hk Hw Hp q x Hq Hkx Hwx.
  rewrite lookup_set_descriptor in Hq. destruct (decide (p = q)) as [<- | Hne].
  - injection Hq as <-. rewrite Hk in Hkx. rewrite Hw in Hwx.
    destruct Hp as [-> | [-> | Hp]]; [ now apply (HJ p s) | reflexivity | ].
    rewrite (Hp Hkx) in Hwx. discriminate.
  - now apply (HJ q x).
Qed.

Lemma queue_inv_set (p : binding) (d d' : descriptor) (w : World) :
  watch_only_never_paused w ->
  objs w !! p = Some d ->
  kind d' = kind d -> bWatchOnly d' = bWatchOnly d -> bPaused d' = bPaused d ->
  outbound_accounted d' ->
  queue_inv p (set_descriptor p d' w).
Proof.
  intros HJ Hd Hk Hw Hp Hacc. split.
  - eapply watch_only_never_paused_set; eauto.
  - exists d'. split; [ apply lookup_set_descriptor_eq | exact Hacc ].
Qed.

(** Pausing or resuming any object keeps the queue of [p] accounted. *)
Lemma queue_inv_set_bPaused (p q : binding) (b : bool) (s : descriptor) (w : World) :
  queue_inv p w ->
  objs w !! q = Some s ->
  b = false \/ pausable s ->
  queue_inv p (set_descriptor q (set_bPaused b s) w).
Proof.
  intros [HJ (d & Hd & Hacc)] Hs Hb. split.
  - eapply watch_only_never_paused_set; eauto; cbn; tauto.
  - rewrite lookup_set_descriptor. destruct (decide (q = p)) as [-> | Hne].
    + exists (set_bPaused b s). split; [ reflexivity | ].
      assert (s = d) by congruence. subst s. exact Hacc.
    + now exists d.
Qed.

(** ** What the backpressure hooks do *)

Lemma pause_source_if_over_cases (p : binding) (length : Z) (w : World) (d : descriptor) :
  objs w !! p = Some d ->
  pause_source_if_over p length w = Returned tt w
  \/ (exists from s,
        ProxiedFrom d = Some from /\ objs w !! from = Some s /\ pausable s
        /\ over_threshold d length = true
        /\ pause_source_if_over p length w
           = Returned tt (set_descriptor from (set_bPaused true s) w))
  \/ (exists what, pause_source_if_over p length w = Thrown what w)
  \/ pause_source_if_over p length w = Aborted DanglingPointer.
Proof.
  intros H. unfold pause_source_if_over.
  rewrite (bind_run _ _ _ _ _ (deref_run _ _ _ H)).
  destruct (ProxiedFrom d) as [from | ] eqn:Hfrom; [ | now left ].
  destruct (over_threshold d length) eqn:Hover; cbn [when]; [ | now left ].
  destruct (objs w !! from) as [s | ] eqn:Hs.
  - destruct (kind s) eqn:Hk;
      try (right; left; exists from, s;
           assert (Hp : pausable s) by (unfold pausable; congruence);
           destruct (Pause_run from w s Hs Hp) as [b Hpause];
           unfold bind; rewrite Hpause; now auto).
    destruct (bWatchOnly s) eqn:Hw.
    + right; right; left.
      destruct (Pause_watch_only from w s Hs Hk Hw) as [what Hthrow].
      exists what. unfold bind. now rewrite Hthrow.
    + right; left. exists from, s.
      assert (Hp : pausable s) by (intros _; exact Hw).
      destruct (Pause_run from w s Hs Hp) as [b Hpause].
      unfold bind. rewrite Hpause. now auto.
  - right; right; right. unfold Pause, bind, deref. now rewrite Hs.
Qed.

Lemma resume_source_if_under_eq (p : binding) (w : World) (d : descriptor) :
  objs w !! p = Some d ->
  resume_source_if_under p w =
  match ProxiedFrom d with
  | Some from =>
      if under_threshold d then
        match objs w !! from with
        | Some s => if bPaused s then (Resume from ;; ret tt) w else Returned tt w
        | None => Aborted DanglingPointer
        end
      else Returned tt w
  | None => Returned tt w
  end.
Proof.
  intros H. unfold resume_source_if_under.
  rewrite (bind_run _ _ _ _ _ (deref_run _ _ _ H)).
  destruct (ProxiedFrom d) as [from | ]; [ | reflexivity ].
  destruct (under_threshold d); [ | reflexivity ].
  unfold IsPaused, bind at 1 2, deref.
  destruct (objs w !! from) as [s | ]; [ | reflexivity ].
  cbn [ret]. now destruct (bPaused s).
Qed.

Lemma resume_source_if_under_cases (p : binding) (w : World) (d : descriptor) :
  objs w !! p = Some d ->
  watch_only_never_paused w ->
  resume_source_if_under p w = Returned tt w
  \/ (exists from s,
        ProxiedFrom d = Some from /\ objs w !! from = Some s /\ bPaused s = true
        /\ under_threshold d = true
        /\ resume_source_if_under p w
           = Returned tt (set_descriptor from (set_bPaused false s) w))
  \/ resume_source_if_under p w = Aborted DanglingPointer.
Proof.
  intros H HJ. rewrite (resume_source_if_under_eq p w d H).
  destruct (ProxiedFrom d) as [from | ] eqn:Hfrom; [ | now left ].
  destruct (under_threshold d) eqn:Hunder; [ | now left ].
  destruct (objs w !! from) as [s | ] eqn:Hs; [ | now right; right ].
  destruct (bPaused s) eqn:Hpaused; [ | now left ].
  right; left. exists from, s.
  assert (Hp : pausable s).
  { intros Hk. destruct (bWatchOnly s) eqn:Hw; [ | reflexivity ].
    rewrite (HJ from s Hs Hk Hw) in Hpaused. discriminate. }
  destruct (Resume_run from w s Hs Hp) as [b Hresume].
  unfold bind. rewrite Hresume. now auto.
Qed.

(** ** Close *)

Lemma Close_does (p : binding) (w : World) (d : descriptor) :
  objs w !! p = Some d ->
  exists w',
    Close p w = Returned tt w'
    /\ objs w' = <[p := set_MySocket INVALID_SOCKET d]> (objs w)
    /\ trace w' = trace w ++ Close_effects p d
    /\ NumCloseScheduled w' = NumCloseScheduled w.
Proof.
  intros H. unfold Close, Close_effects. mstep.
  destruct (MySocket d =? INVALID_SOCKET) eqn:Hsd; mstep.
  - exists w. split; [ reflexivity | ]. apply Z.eqb_eq in Hsd.
    split; [ | rewrite app_nil_r; auto ].
    rewrite insert_id; [ reflexivity | ]. rewrite H. f_equal.
    destruct d. cbn in *. now subst.
  - destruct ((2 <? MySocket d) && negb (bAttached d)); mstep.
    + eexists. split; [ reflexivity | ]. split; [ reflexivity | ].
      split; [ cbn; now rewrite <- !app_assoc | reflexivity ].
    + eexists. split; [ reflexivity | ]. split; [ reflexivity | ].
      split; reflexivity.
Qed.

(** ** What a flush does *)

Lemma watch_only_never_paused_resumable (w : World) (d : descriptor) :
  watch_only_never_paused w -> source_resumable w d.
Proof.
  intros HJ from s _ Hs Hpaused Hk. destruct (bWatchOnly s) eqn:Hw; [ | reflexivity ].
  rewrite (HJ from s Hs Hk Hw) in Hpaused. discriminate.
Qed.

Lemma bind_aborted {A B} (m : M A) (k : A -> M B) (why : abort_reason) (w : World) :
  m w = Aborted why -> bind m k w = Aborted why.
Proof. intros H. unfold bind. now rewrite H. Qed.

Lemma iov_len_gather (pages : list OutboundPage) :
  map iov_len (map gather pages) = map unsent pages.
Proof. rewrite map_map. reflexivity. Qed.

(** A flush on a valid handle with something to gather gets as far as the
    [writev], which is handed the unsent part of each of the first 16
    pages. *)
Lemma _WriteOutboundData_writev (p : binding) (kernel : kernel_write) (w : World)
    (d : descriptor) :
  objs w !! p = Some d -> MySocket d <> INVALID_SOCKET ->
  0 < queued_bytes (firstn 16 (OutboundPages d)) ->
  _WriteOutboundData p kernel w
  = (let iov := map unsent (firstn 16 (OutboundPages d)) in
     let '(bytes_written, e) := sys_writev kernel (sum_Z iov) in
     let err := bytes_written <? 0 in
     let sent := if err then 0 else bytes_written in
     (modify p (fun d => set_OutboundDataSize (OutboundDataSize d - sent) d) ;;
      resume_source_if_under p ;;
      when (negb err)
        (modify p (fun d => set_OutboundPages
                              (release_sent iov (OutboundPages d) sent) d)) ;;
      when (err && negb (write_would_block e)) (
        modify p (set_UnbindReasonCode e) ;;
        Close p))
       (set_trace
          (trace w ++ [sys_writev_call (MySocket d)
                         (map gather (firstn 16 (OutboundPages d))) bytes_written])
          (set_descriptor p (set_LastActivity (GetCurrentLoopTime w) d) w))).
Proof.
  intros Hd Hsd Hpos. unfold _WriteOutboundData.
  rewrite (bind_run _ _ _ _ _ (deref_run _ _ _ Hd)).
  apply Z.eqb_neq in Hsd. rewrite Hsd.
  unfold reactor at 1. unfold bind at 1.
  rewrite (bind_run _ _ _ _ _ (modify_set _ _ _ _ Hd)).
  cbv zeta. rewrite iov_len_gather. fold (queued_bytes (firstn 16 (OutboundPages d))).
  replace (0 <? queued_bytes (firstn 16 (OutboundPages d))) with true
    by (symmetry; now apply Z.ltb_lt).
  cbn [assert]. unfold bind at 1. cbn [ret].
  destruct (sys_writev kernel (queued_bytes (firstn 16 (OutboundPages d))))
    as [bytes_written e].
  unfold emit at 1. unfold bind at 1. reflexivity.
Qed.

(** A flush on a valid handle with an accounted, non-empty queue: either it
    follows a dangling [ProxiedFrom], or it returns; then the count and the
    queue lose what the kernel took, the source is resumed if the count has
    come below the threshold, the trace gains the [writev] and, after a
    fatal error, what [Close] does, and nothing else changes. *)
Lemma _WriteOutboundData_run (p : binding) (kernel : kernel_write) (w : World)
    (d : descriptor) :
  objs w !! p = Some d -> source_resumable w d -> outbound_accounted d ->
  MySocket d <> INVALID_SOCKET -> OutboundPages d <> [] ->
  (exists from,
      ProxiedFrom d = Some from /\ objs w !! from = None
      /\ _WriteOutboundData p kernel w = Aborted DanglingPointer)
  \/ exists w' d',
    _WriteOutboundData p kernel w = Returned tt w'
    /\ objs w' !! p = Some d'
    /\ OutboundDataSize d' = OutboundDataSize d - flushed kernel d
    /\ 0 <= flushed kernel d <= queued_bytes (firstn 16 (OutboundPages d))
    /\ OutboundPages d'
       = match kernel with
         | Accepts _ =>
             release_sent (map unsent (firstn 16 (OutboundPages d))) (OutboundPages d)
               (flushed kernel d)
         | WriteFails _ => OutboundPages d
         end
    /\ MySocket d'
       = match kernel with
         | Accepts _ => MySocket d
         | WriteFails e => if write_would_block e then MySocket d else INVALID_SOCKET
         end
    /\ kind d' = kind d /\ bWatchOnly d' = bWatchOnly d
    /\ bCloseNow d' = bCloseNow d /\ bCloseAfterWriting d' = bCloseAfterWriting d
    /\ ProxiedFrom d' = ProxiedFrom d /\ MaxOutboundBufSize d' = MaxOutboundBufSize d
    /\ (forall q, objs w !! q = None <-> objs w' !! q = None)
    /\ (watch_only_never_paused w -> watch_only_never_paused w')
    /\ trace w'
       = trace w
         ++ sys_writev_call (MySocket d) (map gather (firstn 16 (OutboundPages d)))
              (fst (sys_writev kernel (queued_bytes (firstn 16 (OutboundPages d)))))
         :: match kernel with
            | Accepts _ => []
            | WriteFails e => if write_would_block e then [] else Close_effects p d
            end
    /\ (forall q x, q <> p -> objs w !! q = Some x ->
        objs w' !! q
        = Some (if bool_decide (ProxiedFrom d = Some q)
                   && under_threshold
                        (set_OutboundDataSize (OutboundDataSize d - flushed kernel d) d)
                   && bPaused x
                then set_bPaused false x else x)).
Proof.
  intros Hd Hres [Hsize Hpages] Hsd Hq.
  pose proof (queued_bytes_firstn 16 _ Hpages) as Hgather.
  assert (Hpos : 0 < queued_bytes (firstn 16 (OutboundPages d))).
  { apply queued_bytes_pos; [ now apply Forall_take | ].
    destruct (OutboundPages d); [ congruence | discriminate ]. }
  rewrite (_WriteOutboundData_writev p kernel w d Hd Hsd Hpos).
  set (d1 := set_LastActivity (GetCurrentLoopTime w) d).
  cbv zeta. fold (queued_bytes (firstn 16 (OutboundPages d))).
  (* the part common to both answers of the kernel: the count is reduced and
     the source possibly resumed *)
  assert (Hmid : forall sent tr,
             let w1 := set_trace tr (set_descriptor p d1 w) in
             (exists from,
                 ProxiedFrom d = Some from /\ objs w !! from = None
                 /\ (modify p (fun d => set_OutboundDataSize (OutboundDataSize d - sent) d) ;;
                     resume_source_if_under p) w1 = Aborted DanglingPointer)
             \/ exists w3 d3,
               (modify p (fun d => set_OutboundDataSize (OutboundDataSize d - sent) d) ;;
                resume_source_if_under p) w1 = Returned tt w3
               /\ objs w3 !! p = Some d3
               /\ OutboundDataSize d3 = OutboundDataSize d - sent
               /\ OutboundPages d3 = OutboundPages d /\ MySocket d3 = MySocket d
               /\ kind d3 = kind d /\ bWatchOnly d3 = bWatchOnly d
               /\ bCloseNow d3 = bCloseNow d /\ bCloseAfterWriting d3 = bCloseAfterWriting d
               /\ ProxiedFrom d3 = ProxiedFrom d
               /\ MaxOutboundBufSize d3 = MaxOutboundBufSize d
               /\ bAttached d3 = bAttached d
               /\ (bPaused d3 = bPaused d \/ bPaused d3 = false)
               /\ (forall q, objs w !! q = None <-> objs w3 !! q = None)
               /\ (watch_only_never_paused w -> watch_only_never_paused w3)
               /\ trace w3 = tr
               /\ (forall q x, q <> p -> objs w !! q = Some x ->
                   objs w3 !! q
                   = Some (if bool_decide (ProxiedFrom d = Some q)
                              && under_threshold
                                   (set_OutboundDataSize (OutboundDataSize d - sent) d)
                              && bPaused x
                           then set_bPaused false x else x))).
  { intros sent tr w1.
    assert (Hd1 : objs w1 !! p = Some d1) by apply lookup_set_descriptor_eq.
    assert (HJ1 : watch_only_never_paused w -> watch_only_never_paused w1).
    { intros HJ. change (watch_only_never_paused (set_descriptor p d1 w)).
      eapply watch_only_never_paused_set; eauto. }
    assert (Hother1 : forall q, q <> p -> objs w1 !! q = objs w !! q).
    { intros q Hne. change (objs (set_descriptor p d1 w) !! q = objs w !! q).
      now rewrite lookup_set_descriptor_ne by congruence. }
    assert (Hlive1 : forall q, objs w !! q = None <-> objs w1 !! q = None).
    { intros q. destruct (decide (q = p)) as [-> | Hne].
      - rewrite Hd, Hd1. split; discriminate.
      - now rewrite Hother1. }
    rewrite (bind_run _ _ _ _ _ (modify_set _ _ _ _ Hd1)).
    set (d2 := set_OutboundDataSize (OutboundDataSize d1 - sent) d1).
    set (w2 := set_descriptor p d2 w1).
    assert (HJ2 : watch_only_never_paused w -> watch_only_never_paused w2).
    { intros HJ. subst w2. eapply watch_only_never_paused_set; eauto. }
    assert (Hd2 : objs w2 !! p = Some d2) by apply lookup_set_descriptor_eq.
    assert (Hother2 : forall q, q <> p -> objs w2 !! q = objs w !! q).
    { intros q Hne. subst w2. rewrite lookup_set_descriptor_ne by congruence.
      now apply Hother1. }
    assert (Hlive2 : forall q, objs w !! q = None <-> objs w2 !! q = None).
    { intros q. destruct (decide (q = p)) as [-> | Hne].
      - rewrite Hd, Hd2. split; discriminate.
      - now rewrite Hother2. }
    rewrite (resume_source_if_under_eq p w2 d2 Hd2).
    change (ProxiedFrom d2) with (ProxiedFrom d).
    change (under_threshold d2)
      with (under_threshold (set_OutboundDataSize (OutboundDataSize d - sent) d)).
    assert (Hstay : forall (b : bool),
               (forall q x, q <> p -> objs w !! q = Some x ->
                  bool_decide (ProxiedFrom d = Some q) && b && bPaused x = false) ->
               exists w3 d3,
                 Returned tt w2 = Returned tt w3
                 /\ objs w3 !! p = Some d3
                 /\ OutboundDataSize d3 = OutboundDataSize d - sent
                 /\ OutboundPages d3 = OutboundPages d /\ MySocket d3 = MySocket d
                 /\ kind d3 = kind d /\ bWatchOnly d3 = bWatchOnly d
                 /\ bCloseNow d3 = bCloseNow d /\ bCloseAfterWriting d3 = bCloseAfterWriting d
                 /\ ProxiedFrom d3 = ProxiedFrom d
                 /\ MaxOutboundBufSize d3 = MaxOutboundBufSize d
                 /\ bAttached d3 = bAttached d
                 /\ (bPaused d3 = bPaused d \/ bPaused d3 = false)
                 /\ (forall q, objs w !! q = None <-> objs w3 !! q = None)
                 /\ (watch_only_never_paused w -> watch_only_never_paused w3)
                 /\ trace w3 = tr
                 /\ (forall q x, q <> p -> objs w !! q = Some x ->
                     objs w3 !! q
                     = Some (if bool_decide (ProxiedFrom d = Some q) && b && bPaused x
                             then set_bPaused false x else x))).
    { intros b Hb. exists w2, d2. split; [ reflexivity | ]. split; [ exact Hd2 | ].
      do 10 (split; [ first [ reflexivity | exact Hfrom ] | ]). split; [ now left | ].
      split; [ exact Hlive2 | ]. split; [ exact HJ2 | ]. split; [ reflexivity | ].
      intros q x Hne Hx. rewrite (Hb q x Hne Hx). rewrite Hother2 by exact Hne. exact Hx. }
    destruct (ProxiedFrom d) as [from | ] eqn:Hfrom.
    2:{ right. apply Hstay. intros q x _ _. reflexivity. }
    destruct (under_threshold (set_OutboundDataSize (OutboundDataSize d - sent) d))
      eqn:Hunder.
    2:{ right. apply Hstay. intros q x _ _. now rewrite andb_false_r. }
    destruct (objs w2 !! from) as [s | ] eqn:Hs.
    2:{ left. exists from. split; [ reflexivity | ]. split; [ now apply Hlive2 | reflexivity ]. }
    destruct (bPaused s) eqn:Hpaused.
    2:{ right. apply Hstay. intros q x Hne Hx.
        destruct (bool_decide (Some from = Some q)) eqn:Hq'; [ | reflexivity ].
        apply bool_decide_eq_true in Hq'. injection Hq' as ->.
        rewrite Hother2 in Hs by exact Hne. assert (x = s) by congruence. subst x.
        rewrite Hpaused. reflexivity. }
    right. destruct (decide (from = p)) as [-> | Hne].
    - assert (s = d2) by congruence. subst s.
      assert (Hp : pausable d2).
      { intros Hk. apply (Hres p d Hfrom Hd); [ exact Hpaused | exact Hk ]. }
      destruct (Resume_run p w2 d2 Hd2 Hp) as [b Hresume].
      unfold bind. rewrite Hresume. cbn [ret].
      exists (set_descriptor p (set_bPaused false d2) w2), (set_bPaused false d2).
      split; [ reflexivity | ]. split; [ apply lookup_set_descriptor_eq | ].
      do 10 (split; [ first [ reflexivity | exact Hfrom ] | ]). split; [ now right | ].
      split.
      { intros q. destruct (decide (q = p)) as [-> | Hq'].
        - rewrite Hd, lookup_set_descriptor_eq. split; discriminate.
        - rewrite lookup_set_descriptor_ne by congruence. apply Hlive2. }
      split.
      { intros HJ. eapply watch_only_never_paused_set; eauto; cbn; tauto. }
      split; [ reflexivity | ].
      intros q x Hq' Hx.
      rewrite lookup_set_descriptor_ne by congruence. rewrite Hother2 by exact Hq'.
      rewrite Hx. rewrite bool_decide_eq_false_2 by congruence. reflexivity.
    - assert (Hs0 : objs w !! from = Some s) by (rewrite <- Hother2 by exact Hne; exact Hs).
      assert (Hp : pausable s) by (apply (Hres from s Hfrom Hs0 Hpaused)).
      destruct (Resume_run from w2 s Hs Hp) as [b Hresume].
      unfold bind. rewrite Hresume. cbn [ret].
      exists (set_descriptor from (set_bPaused false s) w2), d2.
      split; [ reflexivity | ].
      split; [ now rewrite lookup_set_descriptor_ne | ].
      do 10 (split; [ first [ reflexivity | exact Hfrom ] | ]). split; [ now left | ].
      split.
      { intros q. destruct (decide (q = from)) as [-> | Hq'].
        - rewrite Hs0, lookup_set_descriptor_eq. split; discriminate.
        - rewrite lookup_set_descriptor_ne by congruence. apply Hlive2. }
      split.
      { intros HJ. eapply watch_only_never_paused_set; eauto; cbn; tauto. }
      split; [ reflexivity | ].
      intros q x Hq' Hx. destruct (decide (q = from)) as [-> | Hqf].
      + assert (x = s) by congruence. subst x.
        rewrite lookup_set_descriptor_eq, bool_decide_eq_true_2 by reflexivity.
        now rewrite Hpaused.
      + rewrite lookup_set_descriptor_ne by congruence. rewrite Hother2 by exact Hq'.
        rewrite Hx. rewrite bool_decide_eq_false_2 by congruence. reflexivity. }
  destruct kernel as [room | e]; cbn [sys_writev flushed fst].
  - set (sent := Z.min (Z.of_N room) (queued_bytes (take 16 (OutboundPages d)))).
    assert (Hsent : 0 <= sent <= queued_bytes (take 16 (OutboundPages d))) by lia.
    replace (sent <? 0) with false by lia. cbn [negb andb when].
    set (tr := trace w ++ _).
    assert (Hd1 : objs (set_trace tr (set_descriptor p d1 w)) !! p = Some d1)
      by apply lookup_set_descriptor_eq.
    destruct (Hmid sent tr)
      as [(from & Hfrom & Hgone & E)
         | (w3 & d3 & E & Hd3 & Hs3 & Hq3 & Hsd3 & Hk3 & Hw3 & Hn3 & Ha3 & Hf3 & Hm3 & Hat3
            & Hp3 & Hlive3 & HJ3 & Htr3 & Hother3)];
      rewrite (bind_run _ _ _ _ _ (modify_set _ _ _ _ Hd1)) in E;
      rewrite (bind_run _ _ _ _ _ (modify_set _ _ _ _ Hd1)).
    { left. exists from. split; [ exact Hfrom | ]. split; [ exact Hgone | ].
      apply bind_aborted. exact E. }
    right. rewrite (bind_run _ _ _ _ _ E).
    rewrite (bind_run _ _ _ _ _ (modify_set _ _ _ _ Hd3)). cbn [ret].
    eexists _, _. split; [ reflexivity | ]. split; [ apply lookup_set_descriptor_eq | ].
    cbn [OutboundDataSize OutboundPages MySocket kind bWatchOnly bCloseNow bCloseAfterWriting
           ProxiedFrom MaxOutboundBufSize set_OutboundPages].
    rewrite Hq3.
    do 10 (split; [ first [ assumption | reflexivity | lia ] | ]).
    split.
    { intros q. rewrite (Hlive3 q). destruct (decide (p = q)) as [<- | Hne].
      - rewrite lookup_set_descriptor_eq, Hd3. split; discriminate.
      - now rewrite lookup_set_descriptor_ne by congruence. }
    split.
    { intros HJ. eapply watch_only_never_paused_set; eauto. }
    split; [ exact Htr3 | ].
    intros q x Hne Hx. rewrite lookup_set_descriptor_ne by congruence.
    now apply Hother3.
  - change (-1 <? 0) with true. cbn [negb andb when].
    set (tr := trace w ++ _).
    assert (Hd1 : objs (set_trace tr (set_descriptor p d1 w)) !! p = Some d1)
      by apply lookup_set_descriptor_eq.
    destruct (Hmid 0 tr)
      as [(from & Hfrom & Hgone & E)
         | (w3 & d3 & E & Hd3 & Hs3 & Hq3 & Hsd3 & Hk3 & Hw3 & Hn3 & Ha3 & Hf3 & Hm3 & Hat3
            & Hp3 & Hlive3 & HJ3 & Htr3 & Hother3)];
      rewrite (bind_run _ _ _ _ _ (modify_set _ _ _ _ Hd1)) in E;
      rewrite (bind_run _ _ _ _ _ (modify_set _ _ _ _ Hd1)).
    { left. exists from. split; [ exact Hfrom | ]. split; [ exact Hgone | ].
      apply bind_aborted. exact E. }
    right. rewrite (bind_run _ _ _ _ _ E). unfold bind at 1. cbn [ret].
    replace (OutboundDataSize d - 0) with (OutboundDataSize d) in * by lia.
    destruct (write_would_block e); cbn [negb when].
    + exists w3, d3. split; [ reflexivity | ]. split; [ exact Hd3 | ].
      do 10 (split; [ first [ assumption | reflexivity | lia ] | ]).
      split; [ exact Hlive3 | ]. split; [ exact HJ3 | ].
      split; [ exact Htr3 | exact Hother3 ].
    + rewrite (bind_run _ _ _ _ _ (modify_set _ _ _ _ Hd3)).
      destruct (Close_does p (set_descriptor p (set_UnbindReasonCode e d3) w3)
                  (set_UnbindReasonCode e d3) (lookup_set_descriptor_eq _ _ _))
        as (w4 & -> & Hobjs & Htr4 & _).
      exists w4, (set_MySocket INVALID_SOCKET (set_UnbindReasonCode e d3)).
      split; [ reflexivity | ].
      split; [ rewrite Hobjs; apply lookup_insert_eq | ].
      cbn [OutboundDataSize OutboundPages MySocket kind bWatchOnly bCloseNow
             bCloseAfterWriting ProxiedFrom MaxOutboundBufSize set_MySocket
             set_UnbindReasonCode].
      do 10 (split; [ first [ assumption | reflexivity | lia ] | ]).
      split.
      { intros q. rewrite (Hlive3 q), Hobjs. cbn.
        destruct (decide (p = q)) as [<- | Hne].
        - rewrite lookup_insert_eq, Hd3. split; discriminate.
        - now rewrite !lookup_insert_ne by congruence. }
      split.
      { intros HJ. apply (watch_only_never_paused_objs
                            (set_descriptor p (set_MySocket INVALID_SOCKET
                                                 (set_UnbindReasonCode e d3))
                               (set_descriptor p (set_UnbindReasonCode e d3) w3))).
        - rewrite Hobjs. reflexivity.
        - eapply watch_only_never_paused_set;
            [ | apply lookup_set_descriptor_eq | reflexivity | reflexivity | now left ].
          eapply watch_only_never_paused_set; eauto. }
      split.
      { rewrite Htr4. cbn [trace set_descriptor set_objs]. rewrite Htr3. subst tr.
        rewrite <- app_assoc. cbn [app]. do 2 f_equal.
        unfold Close_effects. cbn [MySocket bAttached set_UnbindReasonCode].
        now rewrite Hsd3, Hat3. }
      intros q x Hne Hx. rewrite Hobjs. cbn [objs set_descriptor set_objs].
      rewrite !lookup_insert_ne by congruence. now apply Hother3.
Qed.

(** ** C2: the outbound byte count *)

Lemma outbound_accounted_nonneg (d : descriptor) :
  outbound_accounted d -> 0 <= OutboundDataSize d.
Proof.
  intros [Hs Hp]. pose proof (queued_bytes_firstn 0 _ Hp) as Hb. cbn in Hb. lia.
Qed.

(** A send that keeps the count within [int] queues a page of its length
    and adds its length to the count. *)
Lemma _SendRawOutboundData_preserves (p : binding) (data : list byte) (length : Z)
    (w w' : World) (d : descriptor) :
  queue_inv p w -> objs w !! p = Some d ->
  0 <= length -> OutboundDataSize d + length <= INT_MAX ->
  world_after (_SendRawOutboundData p data length w) = Some w' ->
  queue_inv p w'
  /\ exists d', objs w' !! p = Some d'
                /\ OutboundDataSize d' <= OutboundDataSize d + length.
Proof.
  intros Hinv Hd Hlen Hmax. pose proof Hinv as [HJ (d0 & Hd0 & Hacc)].
  assert (d0 = d) by congruence. subst d0.
  pose proof (outbound_accounted_nonneg d Hacc) as Hnonneg.
  destruct Hacc as [Hsize Hpages].
  rewrite (_SendRawOutboundData_run p data length w d Hd).
  assert (Hsame : queue_inv p w
                  /\ exists d', objs w !! p = Some d'
                                /\ OutboundDataSize d' <= OutboundDataSize d + length).
  { split; [ exact Hinv | ]. exists d. split; [ exact Hd | lia ]. }
  destruct (IsCloseScheduled d); [ cbn; now intros [= <-] | ].
  destruct (length =? 0) eqn:Hzero; [ cbn; now intros [= <-] | ].
  destruct (Z.of_nat (List.length data) <? length); [ discriminate | ].
  cbn [world_after]. intros [= <-]. apply Z.eqb_neq in Hzero.
  unfold INT_MAX in Hmax.
  rewrite !to_int_small by (unfold INT_MIN, INT_MAX; lia).
  split.
  - apply (queue_inv_set p d);
      [ exact HJ | exact Hd | reflexivity | reflexivity | reflexivity | ].
    split; cbn [OutboundDataSize OutboundPages set_OutboundDataSize set_OutboundPages].
    + rewrite queued_bytes_app, Hsize. unfold queued_bytes, unsent. cbn. lia.
    + apply Forall_app. split; [ exact Hpages | ].
      constructor; [ | constructor ]. unfold page_pending. cbn. lia.
  - eexists. split; [ apply lookup_insert_eq | ]. cbn. lia.
Qed.

Lemma SendOutboundData_preserves (p : binding) (data : list byte) (length : Z)
    (w w' : World) (d : descriptor) :
  queue_inv p w -> objs w !! p = Some d ->
  0 <= length -> OutboundDataSize d + length <= INT_MAX ->
  world_after (ConnectionDescriptor_SendOutboundData p data length w) = Some w' ->
  queue_inv p w'
  /\ exists d', objs w' !! p = Some d'
                /\ OutboundDataSize d' <= OutboundDataSize d + length.
Proof.
  intros Hinv Hd Hlen Hmax.
  assert (Hsame : queue_inv p w
                  /\ exists d', objs w !! p = Some d'
                                /\ OutboundDataSize d' <= OutboundDataSize d + length).
  { split; [ exact Hinv | ]. exists d. split; [ exact Hd | lia ]. }
  unfold ConnectionDescriptor_SendOutboundData.
  rewrite (bind_run _ _ _ _ _ (deref_run _ _ _ Hd)).
  destruct (bWatchOnly d); [ cbn; now intros [= <-] | ].
  destruct (pause_source_if_over_cases p length w d Hd)
    as [E | [(from & s & _ & Hs & Hp & _ & E) | [[what E] | E]]];
    unfold bind at 1; rewrite E.
  - now apply _SendRawOutboundData_preserves.
  - destruct (decide (from = p)) as [-> | Hne].
    + assert (s = d) by congruence. subst s.
      apply (_SendRawOutboundData_preserves p data length _ w' (set_bPaused true d));
        [ apply queue_inv_set_bPaused; auto | apply lookup_set_descriptor_eq
        | exact Hlen | exact Hmax ].
    + apply (_SendRawOutboundData_preserves p data length _ w' d);
        [ apply queue_inv_set_bPaused; auto | now rewrite lookup_set_descriptor_ne
        | exact Hlen | exact Hmax ].
  - cbn. now intros [= <-].
  - discriminate.
Qed.

Lemma queue_inv_objs (p : binding) (w w' : World) :
  objs w' = objs w -> queue_inv p w -> queue_inv p w'.
Proof.
  intros E [HJ Hd]. split.
  - now apply (watch_only_never_paused_objs w).
  - now rewrite E.
Qed.

Lemma queue_inv_unrelated (p : binding) (w : World) (d d' : descriptor) :
  queue_inv p w -> objs w !! p = Some d ->
  kind d' = kind d -> bWatchOnly d' = bWatchOnly d -> bPaused d' = bPaused d ->
  OutboundDataSize d' = OutboundDataSize d -> OutboundPages d' = OutboundPages d ->
  queue_inv p (set_descriptor p d' w).
Proof.
  intros [HJ (d0 & Hd0 & Hsize & Hpages)] Hd Hk Hw Hp Hs Hq.
  assert (d0 = d) by congruence. subst d0.
  eapply queue_inv_set; eauto. split; [ now rewrite Hs, Hq | now rewrite Hq ].
Qed.

(** A flush keeps the queue accounted and does not raise the count. *)
Lemma _WriteOutboundData_shrinks (p : binding) (kernel : kernel_write) (w w' : World)
    (d : descriptor) :
  queue_inv p w -> objs w !! p = Some d ->
  world_after (_WriteOutboundData p kernel w) = Some w' ->
  queue_inv p w'
  /\ exists d', objs w' !! p = Some d' /\ OutboundDataSize d' <= OutboundDataSize d.
Proof.
  intros Hinv Hd. pose proof Hinv as [HJ (d0 & Hd0 & Hacc)].
  assert (d0 = d) by congruence. subst d0.
  destruct (Z.eq_dec (MySocket d) INVALID_SOCKET) as [Hsd | Hsd].
  { unfold _WriteOutboundData.
    rewrite (bind_run _ _ _ _ _ (deref_run _ _ _ Hd)).
    apply Z.eqb_eq in Hsd. rewrite Hsd.
    destruct (bWriteAttemptedAfterClose d); cbn [negb assert]; [ discriminate | ].
    unfold bind, ret. rewrite (modify_set _ _ _ _ Hd). cbn [world_after]. intros [= <-].
    split; [ now apply (queue_inv_unrelated p w d) | ].
    eexists. split; [ apply lookup_set_descriptor_eq | cbn; lia ]. }
  destruct (decide (OutboundPages d = [])) as [Hq | Hne].
  { unfold _WriteOutboundData.
    rewrite (bind_run _ _ _ _ _ (deref_run _ _ _ Hd)).
    apply Z.eqb_neq in Hsd. rewrite Hsd.
    unfold reactor at 1. unfold bind at 1.
    rewrite (bind_run _ _ _ _ _ (modify_set _ _ _ _ Hd)).
    rewrite Hq. cbn. discriminate. }
  destruct (_WriteOutboundData_run p kernel w d Hd
              (watch_only_never_paused_resumable w d HJ) Hacc Hsd Hne)
    as [(from & _ & _ & ->)
       | (w1 & d1 & -> & Hd1 & Hs1 & Hf1 & Hq1 & _ & Hk1 & Hw1 & _ & _ & _ & _ & _ & HJ1 & _)];
    [ discriminate | ].
  cbn [world_after]. intros [= <-]. destruct Hacc as [Hsize Hpages].
  pose proof (queued_bytes_firstn 16 _ Hpages) as Hgather.
  split; [ | exists d1; split; [ exact Hd1 | lia ] ].
  split; [ now apply HJ1 | ]. exists d1. split; [ exact Hd1 | ].
  destruct kernel as [room | e].
  - destruct (release_sent_accounted 16 _ (flushed (Accepts room) d) Hpages Hf1)
      as [Hwf Hsum].
    rewrite <- Hq1 in Hwf, Hsum. split; [ lia | exact Hwf ].
  - cbn [flushed] in Hs1. rewrite <- Hq1 in Hpages, Hsize. split; [ lia | exact Hpages ].
Qed.

Lemma _WriteOutboundData_preserves (p : binding) (kernel : kernel_write) (w w' : World) :
  queue_inv p w ->
  world_after (_WriteOutboundData p kernel w) = Some w' ->
  queue_inv p w'.
Proof.
  intros Hinv Hrun. pose proof Hinv as [_ (d & Hd & _)].
  now destruct (_WriteOutboundData_shrinks p kernel w w' d Hinv Hd Hrun).
Qed.

Lemma offered_cons (c : queue_call) (calls : list queue_call) :
  offered (c :: calls)
  = match c with Send _ length => Z.of_N length | Flush _ => 0 end + offered calls.
Proof. reflexivity. Qed.

Lemma offered_nonneg (calls : list queue_call) : 0 <= offered calls.
Proof.
  induction calls as [ | c calls IH ]; [ unfold offered; cbn; lia | ].
  rewrite offered_cons. destruct c; lia.
Qed.



Lemma sample_world_never_paused (d : descriptor) (now : Z) :
  bWatchOnly d = false -> watch_only_never_paused (one_connection_world d now).
Proof.
  intros Hw q s Hq _ Hws. unfold one_connection_world in Hq. cbn in Hq.
  apply lookup_singleton_Some in Hq as [_ <-]. congruence.
Qed.


Lemma length_four_GiB : Z.of_nat (List.length four_GiB) = 2 ^ 32.
Proof. unfold four_GiB. rewrite repeat_length, N_nat_Z. reflexivity. Qed.


(** Two gibibytes take the count below zero. *)
Example byte_count_goes_negative :
  exists w' d',
    ConnectionDescriptor_SendOutboundData 1%N four_GiB (2 ^ 31)
      (one_connection_world sample_connection 0) = Returned (- 2 ^ 31) w'
    /\ objs w' !! 1%N = Some d'
    /\ OutboundDataSize d' = - 2 ^ 31.
Proof.
  assert (Hd : objs (one_connection_world sample_connection 0) !! 1%N
               = Some sample_connection) by reflexivity.
  rewrite (ConnectionDescriptor_SendOutboundData_no_source 1%N four_GiB (2 ^ 31) _
             sample_connection Hd eq_refl eq_refl).
  rewrite (_SendRawOutboundData_run 1%N four_GiB (2 ^ 31) _ sample_connection Hd).
  rewrite length_four_GiB.
  change (IsCloseScheduled sample_connection) with false.
  change (2 ^ 31 =? 0) with false. change (2 ^ 32 <? 2 ^ 31) with false.
  cbv iota. eexists _, _. split; [ reflexivity | ].
  split; [ apply lookup_insert_eq | reflexivity ].
Qed.

(** A new connection starts with an empty queue and a zero count. *)
Lemma new_connection_accounted (sd now : Z) :
  outbound_accounted (init_EventableDescriptor ConnectionDescriptor sd now).
Proof. split; [ reflexivity | constructor ]. Qed.

(** 5000 bytes queued on a socket that takes 1500 bytes per write: 500 bytes
    are left after three flushes, none and no page after the fourth. *)
Example five_thousand_bytes_in_four_writes :
  exists w3 d3 w4 d4,
    queue_calls 1%N (Send (repeat x2e 5000) 5000 :: repeat (Flush (Accepts 1500)) 3)
      (one_connection_world sample_connection 0) = Some w3
    /\ objs w3 !! 1%N = Some d3 /\ OutboundDataSize d3 = 500
    /\ queue_calls 1%N [Flush (Accepts 1500)] w3 = Some w4
    /\ objs w4 !! 1%N = Some d4 /\ OutboundDataSize d4 = 0 /\ OutboundPages d4 = [].
Proof.
  eexists _, _, _, _. split; [ vm_compute; reflexivity | ].
  split; [ vm_compute; reflexivity | ]. split; [ reflexivity | ].
  split; [ vm_compute; reflexivity | ].
  split; [ vm_compute; reflexivity | ]. split; reflexivity.
Qed.

(** ** C5: backpressure *)

Lemma to_unsigned_int_small (x : Z) : 0 <= x < UINT_MOD -> to_unsigned_int x = x.
Proof. intros H. unfold to_unsigned_int. now apply Z.mod_small. Qed.

Lemma over_threshold_spec (d : descriptor) (length : Z) :
  kind d = ConnectionDescriptor -> 0 < MaxOutboundBufSize d ->
  0 <= OutboundDataSize d + length < UINT_MOD ->
  over_threshold d length = (MaxOutboundBufSize d <? OutboundDataSize d + length).
Proof.
  intros Hk HT Hrange. unfold over_threshold, GetOutboundDataSize. rewrite Hk.
  rewrite to_unsigned_int_small by exact Hrange.
  destruct (MaxOutboundBufSize d =? 0) eqn:E; [ lia | reflexivity ].
Qed.

Lemma under_threshold_spec (d : descriptor) :
  kind d = ConnectionDescriptor -> 0 < MaxOutboundBufSize d ->
  0 <= OutboundDataSize d < UINT_MOD ->
  under_threshold d = (OutboundDataSize d <? MaxOutboundBufSize d).
Proof.
  intros Hk HT Hrange. unfold under_threshold, GetOutboundDataSize. rewrite Hk.
  rewrite to_unsigned_int_small by exact Hrange.
  destruct (MaxOutboundBufSize d =? 0) eqn:E; [ lia | reflexivity ].
Qed.

Lemma set_bPaused_same (s : descriptor) : set_bPaused (bPaused s) s = s.
Proof. now destruct s. Qed.

(** Pausing takes effect once: on a source that is paused already it
    changes nothing. *)
Lemma pause_once (over : bool) (s : descriptor) :
  (if over then set_bPaused true s else s)
  = (if over && negb (bPaused s) then set_bPaused true s else s).
Proof.
  destruct over; [ | reflexivity ]. destruct (bPaused s) eqn:Hp; [ | reflexivity ].
  cbn. rewrite <- Hp. apply set_bPaused_same.
Qed.

Lemma send_backpressure (w : World) (sink source : binding) (d s : descriptor)
    (data : list byte) (length : Z) :
  backpressure_link w sink source d s ->
  0 <= OutboundDataSize d -> 0 <= length -> OutboundDataSize d + length < UINT_MOD ->
  length <= Z.of_nat (List.length data) ->
  exists n w',
    ConnectionDescriptor_SendOutboundData sink data length w = Returned n w'
    /\ objs w' !! source
       = Some (if (MaxOutboundBufSize d <? OutboundDataSize d + length) && negb (bPaused s)
               then set_bPaused true s else s).
Proof.
  intros (Hd & Hs & Hne & Hk & Hw & Hfrom & HT & Hp) Hsize Hlen Hrange Hdata.
  rewrite <- pause_once.
  rewrite (ConnectionDescriptor_SendOutboundData_source sink source data length w d s)
    by assumption.
  rewrite over_threshold_spec by (try assumption; lia).
  set (w1 := if MaxOutboundBufSize d <? OutboundDataSize d + length
             then set_descriptor source (set_bPaused true s) w else w).
  assert (Hd1 : objs w1 !! sink = Some d).
  { subst w1. destruct (MaxOutboundBufSize d <? OutboundDataSize d + length);
      [ rewrite lookup_set_descriptor_ne by congruence | ]; exact Hd. }
  assert (Hs1 : objs w1 !! source
                = Some (if MaxOutboundBufSize d <? OutboundDataSize d + length
                        then set_bPaused true s else s)).
  { subst w1. destruct (MaxOutboundBufSize d <? OutboundDataSize d + length);
      [ apply lookup_set_descriptor_eq | exact Hs ]. }
  rewrite (_SendRawOutboundData_run sink data length w1 d Hd1).
  destruct (IsCloseScheduled d); [ now exists 0, w1 | ].
  destruct (length =? 0); [ now exists 0, w1 | ].
  destruct (Z.of_nat (List.length data) <? length) eqn:Hoob; [ lia | ].
  eexists _, _. split; [ reflexivity | ].
  cbn [objs set_objs]. rewrite lookup_insert_ne by exact Hne. exact Hs1.
Qed.

Lemma flush_backpressure (w : World) (sink source : binding) (d s : descriptor)
    (kernel : kernel_write) :
  backpressure_link w sink source d s ->
  outbound_accounted d -> OutboundPages d <> [] -> MySocket d <> INVALID_SOCKET ->
  OutboundDataSize d < UINT_MOD ->
  exists w' d',
    _WriteOutboundData sink kernel w = Returned tt w'
    /\ objs w' !! sink = Some d'
    /\ OutboundDataSize d' = OutboundDataSize d - flushed kernel d
    /\ 0 <= flushed kernel d <= OutboundDataSize d
    /\ objs w' !! source
       = Some (if (OutboundDataSize d' <? MaxOutboundBufSize d) && bPaused s
               then set_bPaused false s else s).
Proof.
  intros (Hd & Hs & Hne & Hk & Hw & Hfrom & HT & Hp) Hacc Hnonempty Hsd Hrange.
  assert (Hres : source_resumable w d).
  { intros from s' Hfrom' Hs' _. assert (from = source) by congruence. subst from.
    assert (s' = s) by congruence. now subst s'. }
  destruct (_WriteOutboundData_run sink kernel w d Hd Hres Hacc Hsd Hnonempty)
    as [(from & Hfrom' & Hgone & _)
       | (w' & d' & Hrun & Hd' & Hs' & Hf' & _ & _ & _ & _ & _ & _ & _ & _ & _ & _ & _
          & Hother)].
  { assert (from = source) by congruence. subst from. congruence. }
  destruct Hacc as [Hsize Hpages].
  pose proof (queued_bytes_firstn 16 _ Hpages) as Hgather.
  exists w', d'. split; [ exact Hrun | ]. split; [ exact Hd' | ].
  split; [ exact Hs' | ]. split; [ lia | ].
  rewrite (Hother source s) by (congruence || assumption).
  rewrite bool_decide_eq_true_2 by exact Hfrom.
  rewrite under_threshold_spec;
    [ | exact Hk | exact HT | cbn [OutboundDataSize set_OutboundDataSize]; lia ].
  cbn [OutboundDataSize set_OutboundDataSize MaxOutboundBufSize andb]. now rewrite Hs'.
Qed.

(** C5, as the code has it.  The sink is a stream connection, not
    watch-only, with threshold [T > 0]; its proxy source is another
    descriptor, not a watch-only connection; the sink's byte count is not
    negative.  A send whose length, within its data, keeps the count plus
    the length below [2 ^ 32] pauses the source once if that sum exceeds
    [T], that is, it pauses a source that is not paused and leaves a paused
    one as it is, and leaves the source as it was otherwise.  A flush on a
    valid handle with a non-empty accounted queue and a count below
    [2 ^ 32] resumes the source once, exactly when the bytes still queued
    after it are strictly below [T] and the source is paused, and
    otherwise leaves the source as it was.  With exactly [T] bytes left the
    source is not resumed. *)
Theorem backpressure_pauses_and_resumes (w : World) (sink source : binding)
    (d s : descriptor) :
  backpressure_link w sink source d s ->
  0 <= OutboundDataSize d ->
  (forall data length,
      0 <= length -> OutboundDataSize d + length < UINT_MOD ->
      length <= Z.of_nat (List.length data) ->
      exists n w',
        ConnectionDescriptor_SendOutboundData sink data length w = Returned n w'
        /\ objs w' !! source
           = Some (if (MaxOutboundBufSize d <? OutboundDataSize d + length)
                      && negb (bPaused s)
                   then set_bPaused true s else s))
  /\ (forall kernel,
        outbound_accounted d -> OutboundPages d <> [] -> MySocket d <> INVALID_SOCKET ->
        OutboundDataSize d < UINT_MOD ->
        exists w' d',
          _WriteOutboundData sink kernel w = Returned tt w'
          /\ objs w' !! sink = Some d'
          /\ OutboundDataSize d' = OutboundDataSize d - flushed kernel d
          /\ 0 <= flushed kernel d <= OutboundDataSize d
          /\ objs w' !! source
             = Some (if (OutboundDataSize d' <? MaxOutboundBufSize d) && bPaused s
                     then set_bPaused false s else s)).
Proof.
  intros Hlink Hsize. split.
  - intros data length Hlen Hrange Hdata. now apply send_backpressure.
  - intros kernel Hacc Hpages Hsd Hrange. now apply flush_backpressure.
Qed.

Lemma backpressure_pauses_and_resumes_witness :
  backpressure_link busy_proxy_world 2%N 1%N busy_sink busy_source
  /\ 0 <= OutboundDataSize busy_sink
  /\ (forall data length,
        0 <= length -> OutboundDataSize busy_sink + length < UINT_MOD ->
        length <= Z.of_nat (List.length data) ->
        exists n w',
          ConnectionDescriptor_SendOutboundData 2%N data length busy_proxy_world
          = Returned n w'
          /\ objs w' !! 1%N
             = Some (if (MaxOutboundBufSize busy_sink <? OutboundDataSize busy_sink + length)
                        && negb (bPaused busy_source)
                     then set_bPaused true busy_source else busy_source))
  /\ (forall kernel,
        exists w' d',
          _WriteOutboundData 2%N kernel busy_proxy_world = Returned tt w'
          /\ objs w' !! 2%N = Some d'
          /\ OutboundDataSize d' = OutboundDataSize busy_sink - flushed kernel busy_sink
          /\ 0 <= flushed kernel busy_sink <= OutboundDataSize busy_sink
          /\ objs w' !! 1%N
             = Some (if (OutboundDataSize d' <? MaxOutboundBufSize busy_sink)
                        && bPaused busy_source
                     then set_bPaused false busy_source else busy_source)).
Proof.
  assert (Hlink : backpressure_link busy_proxy_world 2%N 1%N busy_sink busy_source).
  { split; [ vm_compute; reflexivity | ]. split; [ vm_compute; reflexivity | ].
    split; [ discriminate | ]. split; [ reflexivity | ]. split; [ reflexivity | ].
    split; [ reflexivity | ]. split; [ reflexivity | intros _; reflexivity ]. }
  assert (Hsize : 0 <= OutboundDataSize busy_sink) by (vm_compute; discriminate).
  split; [ exact Hlink | ]. split; [ exact Hsize | ].
  destruct (backpressure_pauses_and_resumes busy_proxy_world 2%N 1%N busy_sink busy_source
              Hlink Hsize) as [Hsend Hflush].
  split; [ exact Hsend | ].
  intros kernel. apply Hflush.
  - split; [ reflexivity | ]. constructor; [ | constructor ].
    split; [ vm_compute; discriminate | reflexivity ].
  - discriminate.
  - discriminate.
  - reflexivity.
Defined.

(** C5 as worded fails at the threshold itself.  With [T = 10], a send of 20
    bytes pauses the source; a flush of which the kernel takes 10 bytes
    leaves 10 bytes queued, not more than [T], and the source stays paused.
    It is resumed by the flush that takes the queue below [T]. *)
Lemma source_stays_paused_at_threshold :
  exists w' d s,
    (ConnectionDescriptor_SendOutboundData 2%N (repeat x61 20) 20 ;;
     _WriteOutboundData 2%N (Accepts 10)) proxy_world = Returned tt w'
    /\ objs w' !! 2%N = Some d
    /\ OutboundDataSize d = 10 /\ MaxOutboundBufSize d = 10
    /\ objs w' !! 1%N = Some s
    /\ bPaused s = true.
Proof.
  eexists _, _, _. split; [ vm_compute; reflexivity | ].
  split; [ vm_compute; reflexivity | ]. split; [ reflexivity | ]. split; [ reflexivity | ].
  split; [ vm_compute; reflexivity | reflexivity ].
Qed.

Example source_resumed_below_threshold :
  exists w' d s,
    (ConnectionDescriptor_SendOutboundData 2%N (repeat x61 20) 20 ;;
     _WriteOutboundData 2%N (Accepts 10) ;;
     _WriteOutboundData 2%N (Accepts 1)) proxy_world = Returned tt w'
    /\ objs w' !! 2%N = Some d
    /\ OutboundDataSize d = 9
    /\ objs w' !! 1%N = Some s
    /\ bPaused s = false.
Proof.
  eexists _, _, _. split; [ vm_compute; reflexivity | ].
  split; [ vm_compute; reflexivity | ]. split; [ reflexivity | ].
  split; [ vm_compute; reflexivity | reflexivity ].
Qed.

(** A second send above the threshold finds the source paused and leaves it
    as it is. *)
Example second_send_leaves_source_paused :
  exists n w' w'' s,
    ConnectionDescriptor_SendOutboundData 2%N (repeat x61 20) 20 proxy_world
    = Returned n w'
    /\ objs w' !! 1%N = Some s /\ bPaused s = true
    /\ (ConnectionDescriptor_SendOutboundData 2%N (repeat x61 5) 5 ;; ret tt) w'
       = Returned tt w''
    /\ objs w'' !! 1%N = Some s.
Proof.
  eexists _, _, _, _. split; [ vm_compute; reflexivity | ].
  split; [ vm_compute; reflexivity | ]. split; [ reflexivity | ].
  split; [ vm_compute; reflexivity | vm_compute; reflexivity ].
Qed.

(** The bound on the bytes of a send is needed.  The test of line 764
    converts the sum to [unsigned int]: a send of [2 ^ 32 + 5] bytes into
    an empty queue with [T = 10] compares 5 with 10 and leaves the source
    running. *)
Example huge_send_does_not_pause :
  exists n w' s,
    ConnectionDescriptor_SendOutboundData 2%N (four_GiB ++ repeat x61 5) (2 ^ 32 + 5)
      proxy_world = Returned n w'
    /\ objs w' !! 1%N = Some s /\ bPaused s = false.
Proof.
  assert (Hd : objs proxy_world !! 2%N = Some proxy_sink) by (vm_compute; reflexivity).
  assert (Hs : objs proxy_world !! 1%N = Some proxy_source) by (vm_compute; reflexivity).
  rewrite (ConnectionDescriptor_SendOutboundData_source 2%N 1%N _ (2 ^ 32 + 5) proxy_world
             proxy_sink proxy_source Hd eq_refl eq_refl Hs (fun _ => eq_refl)).
  change (over_threshold proxy_sink (2 ^ 32 + 5)) with false. cbv iota.
  rewrite (_SendRawOutboundData_run 2%N _ (2 ^ 32 + 5) proxy_world proxy_sink Hd).
  rewrite length_app, Nat2Z.inj_add, length_four_GiB.
  change (IsCloseScheduled proxy_sink) with false.
  change (2 ^ 32 + 5 =? 0) with false.
  change (2 ^ 32 + Z.of_nat (List.length (repeat x61 5)) <? 2 ^ 32 + 5) with false.
  cbv iota. eexists _, _, proxy_source. split; [ reflexivity | ].
  assert (Hp : bPaused proxy_source = false) by reflexivity.
  split; [ | exact Hp ].
  change (objs (set_objs ?m ?w)) with m.
  rewrite lookup_insert_ne by discriminate. exact Hs.
Qed.

(** ** C4: proxy forwarding up to the byte limit *)

Lemma queue_payload_app (l1 l2 : list OutboundPage) :
  queue_payload (l1 ++ l2) = queue_payload l1 ++ queue_payload l2.
Proof. unfold queue_payload. now rewrite map_app, concat_app. Qed.

Lemma delivered_app (p : binding) (t1 t2 : list effect) :
  delivered p (t1 ++ t2) = delivered p t1 ++ delivered p t2.
Proof. unfold delivered. now rewrite map_app, concat_app. Qed.

Lemma completions_app (p : binding) (t1 t2 : list effect) :
  completions p (t1 ++ t2) = (completions p t1 + completions p t2)%nat.
Proof. unfold completions. now rewrite map_app, list_sum_app. Qed.

Lemma trace_set_descriptor (q : binding) (x : descriptor) (w : World) :
  trace (set_descriptor q x w) = trace w.
Proof. reflexivity. Qed.

Lemma payload_at_lookup (w : World) (t : binding) (dt : descriptor) :
  objs w !! t = Some dt -> payload_at w t = queue_payload (OutboundPages dt).
Proof. intros H. unfold payload_at. now rewrite H. Qed.

Lemma page_payload_new (data : list byte) (length n : Z) (from : option (list byte)) :
  page_payload (mkOutboundPage (firstn (Z.to_nat length) data ++ [x00]) n 0 from)
  = firstn (Z.to_nat length) data.
Proof. unfold page_payload. cbn [Buffer]. apply removelast_last. Qed.

(** Handing [n] bytes to the target queues exactly those bytes there. *)
Lemma forward_to_target (w : World) (p t : binding) (left : Z) (buf : list byte) (n : Z) :
  proxying w p t left -> 0 <= n <= Z.of_nat (List.length buf) ->
  exists r w1,
    SendOutboundData t buf n w = Returned r w1
    /\ proxying w1 p t left
    /\ payload_at w1 t = payload_at w t ++ firstn (Z.to_nat n) buf
    /\ trace w1 = trace w.
Proof.
  intros (Hne & (d & Hd & Hcb & Hp & Htarget & Hleft)
          & (dt & Hdt & [Hclosing Hkind] & Hfrom)) Hn.
  unfold SendOutboundData.
  rewrite (bind_run _ _ _ _ _ (deref_run _ _ _ Hdt)).
  assert (Hqueued : forall w0 (r : Z) pg size,
             objs w0 !! t = Some dt -> trace w0 = trace w ->
             (exists d0, objs w0 !! p = Some d0
                         /\ EventCallback d0 = true /\ pausable d0
                         /\ ProxyTarget d0 = Some t /\ BytesToProxy d0 = left) ->
             page_payload pg = firstn (Z.to_nat n) buf ->
             exists r' w1,
               Returned r
                 (set_descriptor t
                    (set_OutboundDataSize size
                       (set_OutboundPages (OutboundPages dt ++ [pg]) dt)) w0)
               = Returned r' w1
               /\ proxying w1 p t left
               /\ payload_at w1 t = payload_at w t ++ firstn (Z.to_nat n) buf
               /\ trace w1 = trace w).
  { intros w0 r pg size Hdt0 Htrace0 (d0 & Hd0 & Hrest) Hpg.
    eexists _, _. split; [ reflexivity | ].
    split; [ | split; [ | exact Htrace0 ] ].
    - split; [ exact Hne | ]. split.
      + exists d0. rewrite lookup_set_descriptor_ne by congruence. auto.
      + eexists. split; [ apply lookup_set_descriptor_eq | ].
        split; [ split; [ exact Hclosing | exact Hkind ] | exact Hfrom ].
    - rewrite (payload_at_lookup _ _ _ (lookup_set_descriptor_eq _ _ _)).
      rewrite (payload_at_lookup _ _ _ Hdt).
      cbn [OutboundPages set_OutboundDataSize set_OutboundPages].
      rewrite queue_payload_app. f_equal.
      unfold queue_payload. cbn [map concat]. now rewrite app_nil_r. }
  destruct Hkind as [[Hk Hw] | Hk]; rewrite Hk.
  - rewrite (ConnectionDescriptor_SendOutboundData_source t p buf n w dt d) by assumption.
    set (w0 := if over_threshold dt n then set_descriptor p (set_bPaused true d) w else w).
    assert (Hdt0 : objs w0 !! t = Some dt).
    { subst w0. destruct (over_threshold dt n);
        [ now rewrite lookup_set_descriptor_ne | exact Hdt ]. }
    assert (Hd0 : exists d0, objs w0 !! p = Some d0
                             /\ EventCallback d0 = true /\ pausable d0
                             /\ ProxyTarget d0 = Some t /\ BytesToProxy d0 = left).
    { subst w0. destruct (over_threshold dt n).
      - exists (set_bPaused true d). rewrite lookup_set_descriptor_eq. auto.
      - exists d. auto. }
    assert (Htrace0 : trace w0 = trace w) by (subst w0; now destruct (over_threshold dt n)).
    clearbody w0.
    rewrite (_SendRawOutboundData_run t buf n w0 dt Hdt0), Hclosing.
    destruct (n =? 0) eqn:Hzero.
    + apply Z.eqb_eq in Hzero. subst n. exists 0, w0.
      split; [ reflexivity | ]. split; [ | split; [ | exact Htrace0 ] ].
      * split; [ exact Hne | ]. split; [ exact Hd0 | ]. exists dt.
        split; [ exact Hdt0 | ].
        split; [ split; [ exact Hclosing | left; split; assumption ] | exact Hfrom ].
      * rewrite (payload_at_lookup _ _ _ Hdt0), (payload_at_lookup _ _ _ Hdt).
        cbn. now rewrite app_nil_r.
    + destruct (Z.of_nat (List.length buf) <? n) eqn:Hoob; [ lia | ].
      apply Hqueued; [ exact Hdt0 | exact Htrace0 | exact Hd0 | apply page_payload_new ].
  - rewrite (DatagramDescriptor_SendOutboundData_run t buf n w dt Hdt), Hclosing.
    destruct (Z.of_nat (List.length buf) <? n) eqn:Hoob; [ lia | ].
    apply Hqueued; [ exact Hdt | reflexivity | exists d; auto | apply page_payload_new ].
Qed.

Lemma StopProxy_detaches (w : World) (p t : binding) (left : Z) :
  proxying w p t left ->
  exists w',
    StopProxy p w = Returned tt w'
    /\ detached w' p
    /\ payload_at w' t = payload_at w t
    /\ trace w' = trace w.
Proof.
  intros (Hne & (d & Hd & Hcb & Hp & Htarget & Hleft)
          & (dt & Hdt & Htakes & Hfrom)).
  unfold StopProxy, SetProxiedFrom.
  rewrite (bind_run _ _ _ _ _ (deref_run _ _ _ Hd)), Htarget.
  unfold bind at 1. rewrite (bind_run _ _ _ _ _ (deref_run _ _ _ Hdt)).
  cbn [bool_decide decide_rel andb].
  destruct (bool_decide (None <> None)) eqn:Hnone.
  { apply bool_decide_eq_true in Hnone. congruence. }
  cbn [andb].
  rewrite (bind_run _ _ _ _ _ (modify_set _ _ _ _ Hdt)).
  rewrite (modify_set _ _ _ _ (lookup_set_descriptor_eq _ _ _)).
  assert (Hd' : objs (set_descriptor t
                        (set_MaxOutboundBufSize 0 (set_ProxiedFrom None dt))
                        (set_descriptor t (set_ProxiedFrom None dt) w)) !! p = Some d)
    by now rewrite !lookup_set_descriptor_ne by congruence.
  rewrite (modify_set _ _ _ _ Hd').
  eexists. split; [ reflexivity | ]. split; [ | split; [ | reflexivity ] ].
  - exists (set_ProxyTarget None d). rewrite lookup_set_descriptor_eq. auto.
  - unfold payload_at. rewrite lookup_set_descriptor_ne by congruence.
    rewrite lookup_set_descriptor_eq, Hdt. reflexivity.
Qed.

(** One chunk while the proxy is attached with [left > 0] bytes to go. *)
Lemma dispatch_while_proxying (w : World) (p t : binding) (left : Z) (buf : list byte)
    (size : Z) :
  proxying w p t left -> 0 < left ->
  0 <= size <= Z.of_nat (List.length buf) ->
  exists w',
    _GenericInboundDispatch p buf size w = Returned tt w'
    /\ payload_at w' t = payload_at w t ++ firstn (Z.to_nat (Z.min left size)) buf
    /\ if size <? left
       then proxying w' p t (left - size) /\ trace w' = trace w
       else detached w' p
            /\ trace w'
               = trace w ++ Callback p EM_PROXY_COMPLETED None 0
                   :: (if left <? size
                       then [Callback p EM_CONNECTION_READ
                               (Some (skipn (Z.to_nat left) buf)) (size - left)]
                       else []).
Proof.
  intros Hprox Hleft Hsize.
  pose proof Hprox as (Hne & (d & Hd & Hcb & Hp & Htarget & Hb) & _).
  unfold _GenericInboundDispatch.
  rewrite (bind_run _ _ _ _ _ (deref_run _ _ _ Hd)), Hcb.
  cbn [assert]. unfold bind at 1. cbn [ret]. rewrite Htarget, Hb.
  apply Z.ltb_lt in Hleft. rewrite Hleft. apply Z.ltb_lt in Hleft. cbv zeta.
  destruct (forward_to_target w p t left buf (Z.min left size) Hprox ltac:(lia))
    as (r & w1 & Esend & Hprox1 & Hpay1 & Htr1).
  rewrite (bind_run _ _ _ _ _ Esend).
  destruct Hprox1 as (_ & (d1 & Hd1 & Hcb1 & Hp1 & Htarget1 & Hb1)
                      & (dt1 & Hdt1 & Htakes1 & Hfrom1)).
  rewrite (bind_run _ _ _ _ _ (modify_set _ _ _ _ Hd1)).
  rewrite (bind_run _ _ _ _ _ (modify_set _ _ _ _ (lookup_set_descriptor_eq _ _ _))).
  match goal with
  | |- context [ set_descriptor p ?x (set_descriptor p ?y w1) ] =>
      set (d2 := x); set (w2 := set_descriptor p x (set_descriptor p y w1))
  end.
  assert (Hd2 : objs w2 !! p = Some d2) by apply lookup_set_descriptor_eq.
  assert (Hdt2 : objs w2 !! t = Some dt1)
    by (subst w2; now rewrite !lookup_set_descriptor_ne by congruence).
  assert (Hprox2 : proxying w2 p t (left - Z.min left size)).
  { split; [ exact Hne | ]. split.
    - exists d2. split; [ exact Hd2 | ]. subst d2. cbn. rewrite Hb1. auto.
    - exists dt1. auto. }
  assert (Hpay2 : payload_at w2 t = payload_at w1 t)
    by now rewrite (payload_at_lookup _ _ _ Hdt2), (payload_at_lookup _ _ _ Hdt1).
  assert (Htr2 : trace w2 = trace w) by (subst w2; exact Htr1).
  rewrite (bind_run _ _ _ _ _ (deref_run _ _ _ Hd2)).
  assert (Hb2 : BytesToProxy d2 = left - Z.min left size)
    by (subst d2; cbn; now rewrite Hb1).
  rewrite Hb2. clearbody w2 d2.
  destruct (size <? left) eqn:Hmore.
  - apply Z.ltb_lt in Hmore. rewrite Z.min_r in * by lia.
    destruct (left - size =? 0) eqn:Hz; [ lia | ]. cbn [when].
    exists w2. split; [ reflexivity | ]. split; [ now rewrite Hpay2 | ].
    split; [ exact Hprox2 | exact Htr2 ].
  - apply Z.ltb_ge in Hmore. rewrite Z.min_l in * by lia.
    rewrite Z.sub_diag in *. cbn [Z.eqb when].
    destruct (StopProxy_detaches w2 p t 0 Hprox2) as (w3 & Estop & Hdet & Hpay3 & Htr3).
    rewrite (bind_run _ _ _ _ _ Estop). unfold emit at 1. unfold bind at 1.
    destruct (left <? size) eqn:Hrest; cbn [when].
    + eexists. split; [ reflexivity | ].
      split; [ unfold payload_at in *; cbn; now rewrite Hpay3, Hpay2 | ].
      split; [ exact Hdet | ]. cbn. rewrite Htr3, Htr2, <- app_assoc. reflexivity.
    + eexists. split; [ reflexivity | ].
      split; [ unfold payload_at in *; cbn; now rewrite Hpay3, Hpay2 | ].
      split; [ exact Hdet | ]. cbn. now rewrite Htr3, Htr2.
Qed.

(** One chunk once the proxy is detached. *)
Lemma dispatch_when_detached (w : World) (p : binding) (buf : list byte) (size : Z) :
  detached w p ->
  _GenericInboundDispatch p buf size w
  = Returned tt (set_trace (trace w ++ [Callback p EM_CONNECTION_READ (Some buf) size]) w).
Proof.
  intros (d & Hd & Hcb & Htarget). unfold _GenericInboundDispatch.
  rewrite (bind_run _ _ _ _ _ (deref_run _ _ _ Hd)), Hcb.
  cbn [assert]. unfold bind at 1. cbn [ret]. now rewrite Htarget.
Qed.

Lemma length_chunk_bytes (c : chunk) :
  chunk_in_bounds c -> Z.of_nat (List.length (chunk_bytes c)) = snd c.
Proof. unfold chunk_in_bounds, chunk_bytes. rewrite length_firstn. lia. Qed.

Lemma stream_of_cons (c : chunk) (chunks : list chunk) :
  stream_of (c :: chunks) = chunk_bytes c ++ stream_of chunks.
Proof. reflexivity. Qed.

Lemma delivered_read (p : binding) (buf : list byte) (size : Z) :
  delivered p [Callback p EM_CONNECTION_READ (Some buf) size] = firstn (Z.to_nat size) buf.
Proof. unfold delivered. cbn. rewrite N.eqb_refl. apply app_nil_r. Qed.

Lemma dispatch_chunks_detached (p : binding) (chunks : list chunk) (w : World) :
  detached w p ->
  exists w',
    dispatch_chunks p chunks w = Returned tt w'
    /\ detached w' p
    /\ objs w' = objs w
    /\ delivered p (trace w') = delivered p (trace w) ++ stream_of chunks
    /\ completions p (trace w') = completions p (trace w).
Proof.
  revert w. induction chunks as [ | [buf size] chunks IH ]; intros w Hdet.
  - exists w. cbn. now rewrite app_nil_r.
  - cbn [dispatch_chunks fst snd].
    rewrite (bind_run _ _ _ _ _ (dispatch_when_detached w p buf size Hdet)).
    destruct (IH (set_trace (trace w ++ [Callback p EM_CONNECTION_READ (Some buf) size]) w))
      as (w' & E & Hdet' & Hobjs & Hdel & Hcomp); [ exact Hdet | ].
    exists w'. split; [ exact E | ]. split; [ exact Hdet' | ]. split; [ exact Hobjs | ].
    cbn [trace set_trace] in *. split.
    + rewrite Hdel, delivered_app, delivered_read, stream_of_cons, <- app_assoc.
      reflexivity.
    + rewrite Hcomp, completions_app. cbn. lia.
Qed.

Lemma payload_at_objs (w w' : World) (t : binding) :
  objs w' = objs w -> payload_at w' t = payload_at w t.
Proof. unfold payload_at. now intros ->. Qed.

Lemma leb_shift (a b c : Z) : (a <=? b + c) = (a - b <=? c).
Proof. destruct (Z.leb_spec a (b + c)), (Z.leb_spec (a - b) c); (reflexivity || lia). Qed.

Lemma dispatch_chunks_proxying (p t : binding) (chunks : list chunk) (w : World) (left : Z) :
  proxying w p t left -> 0 < left ->
  Forall chunk_in_bounds chunks ->
  exists w',
    dispatch_chunks p chunks w = Returned tt w'
    /\ payload_at w' t
       = payload_at w t ++ firstn (Z.to_nat left) (stream_of chunks)
    /\ delivered p (trace w')
       = delivered p (trace w) ++ skipn (Z.to_nat left) (stream_of chunks)
    /\ if left <=? Z.of_nat (List.length (stream_of chunks))
       then detached w' p /\ completions p (trace w') = S (completions p (trace w))
       else proxying w' p t (left - Z.of_nat (List.length (stream_of chunks)))
            /\ completions p (trace w') = completions p (trace w).
Proof.
  intros Hprox Hleft Hbounds. revert w left Hprox Hleft.
  induction Hbounds as [ | [buf size] chunks Hc Hbounds IH ]; intros w left Hprox Hleft.
  - exists w. unfold stream_of. cbn [dispatch_chunks map concat List.length].
    rewrite firstn_nil, skipn_nil, !app_nil_r.
    change (Z.of_nat 0) with 0.
    destruct (left <=? 0) eqn:E; [ exfalso; lia | ].
    rewrite Z.sub_0_r. auto.
  - pose proof (length_chunk_bytes _ Hc) as Hlen.
    unfold chunk_in_bounds in Hc. cbn [fst snd] in Hc, Hlen.
    cbn [dispatch_chunks fst snd].
    destruct (dispatch_while_proxying w p t left buf size Hprox Hleft Hc)
      as (w1 & E1 & Hpay1 & Hcase).
    rewrite (bind_run _ _ _ _ _ E1).
    rewrite stream_of_cons, length_app, firstn_app, skipn_app.
    change (chunk_bytes (buf, size)) with (firstn (Z.to_nat size) buf) in *.
    destruct (size <? left) eqn:Hmore.
    + apply Z.ltb_lt in Hmore. destruct Hcase as [Hprox1 Htr1].
      destruct (IH w1 (left - size) Hprox1 ltac:(lia)) as (w' & E & Hpay & Hdel & Hfinal).
      exists w'. split; [ exact E | ].
      rewrite Z.min_r in Hpay1 by lia.
      replace (Z.to_nat left - List.length (firstn (Z.to_nat size) buf))%nat
        with (Z.to_nat (left - size)) by lia.
      rewrite firstn_firstn.
      replace (Nat.min (Z.to_nat left) (Z.to_nat size)) with (Z.to_nat size) by lia.
      rewrite (skipn_all2 (firstn (Z.to_nat size) buf)) by lia.
      split; [ now rewrite Hpay, Hpay1, <- app_assoc | ].
      split; [ now rewrite Hdel, Htr1 | ].
      rewrite Nat2Z.inj_add, Hlen, leb_shift, Z.sub_add_distr.
      rewrite Htr1 in Hfinal. exact Hfinal.
    + apply Z.ltb_ge in Hmore. destruct Hcase as [Hdet1 Htr1].
      destruct (dispatch_chunks_detached p chunks w1 Hdet1)
        as (w' & E & Hdet & Hobjs & Hdel & Hcomp).
      exists w'. split; [ exact E | ].
      rewrite Z.min_l in Hpay1 by lia.
      replace (Z.to_nat left - List.length (firstn (Z.to_nat size) buf))%nat
        with 0%nat by lia.
      rewrite firstn_firstn.
      replace (Nat.min (Z.to_nat left) (Z.to_nat size)) with (Z.to_nat left) by lia.
      cbn [firstn skipn]. rewrite app_nil_r.
      split; [ now rewrite (payload_at_objs _ _ _ Hobjs), Hpay1 | ].
      assert (Hrem : delivered p (trace w1)
                     = delivered p (trace w)
                       ++ skipn (Z.to_nat left) (firstn (Z.to_nat size) buf)).
      { rewrite Htr1, delivered_app. f_equal.
        change (Callback p EM_PROXY_COMPLETED None 0 :: ?l)
          with ([Callback p EM_PROXY_COMPLETED None 0] ++ l).
        rewrite delivered_app. cbn [delivered map concat read_bytes app].
        destruct (left <? size) eqn:Hrest.
        - rewrite delivered_read, skipn_firstn_comm. f_equal. lia.
        - rewrite skipn_all2 by (rewrite length_firstn; lia). reflexivity. }
      split; [ now rewrite Hdel, Hrem, <- app_assoc | ].
      rewrite Nat2Z.inj_add, Hlen.
      replace (left <=? size + Z.of_nat (List.length (stream_of chunks))) with true
        by (symmetry; apply Z.leb_le; lia).
      split; [ exact Hdet | ].
      rewrite Hcomp, Htr1, completions_app.
      change (Callback p EM_PROXY_COMPLETED None 0 :: ?l)
        with ([Callback p EM_PROXY_COMPLETED None 0] ++ l).
      rewrite completions_app. unfold completions at 2. cbn [map is_completion list_sum].
      rewrite N.eqb_refl.
      destruct (left <? size); cbn; lia.
Qed.

(** [StartProxy] on an idle source and an idle stream target establishes
    the link that the lemmas above start from. *)
Lemma StartProxy_attaches (w : World) (p t : binding) (d dt : descriptor)
    (bufsize length : Z) :
  p <> t ->
  objs w !! p = Some d -> EventCallback d = true -> pausable d -> ProxyTarget d = None ->
  objs w !! t = Some dt -> takes_data dt -> ProxiedFrom dt = None ->
  exists w',
    StartProxy p t bufsize length w = Returned tt w'
    /\ proxying w' p t length
    /\ payload_at w' t = payload_at w t
    /\ trace w' = trace w
    /\ exists dt', objs w' !! t = Some dt' /\ MaxOutboundBufSize dt' = bufsize.
Proof.
  intros Hne Hd Hcb Hp Htarget Hdt Htakes Hfrom.
  unfold StartProxy, reactor. unfold bind at 1. rewrite Hdt.
  unfold StopProxy. unfold bind at 1.
  rewrite (bind_run _ _ _ _ _ (deref_run _ _ _ Hd)), Htarget. cbn [ret].
  rewrite (bind_run _ _ _ _ _ (modify_set _ _ _ _ Hd)).
  rewrite (bind_run _ _ _ _ _ (modify_set _ _ _ _ (lookup_set_descriptor_eq _ _ _))).
  rewrite (bind_run _ _ _ _ _ (modify_set _ _ _ _ (lookup_set_descriptor_eq _ _ _))).
  match goal with
  | |- context [ SetProxiedFrom _ _ _ ?w0 ] => set (w1 := w0)
  end.
  assert (Hdt1 : objs w1 !! t = Some dt)
    by (subst w1; now rewrite !lookup_set_descriptor_ne by congruence).
  unfold SetProxiedFrom.
  rewrite (bind_run _ _ _ _ _ (deref_run _ _ _ Hdt1)), Hfrom.
  destruct (bool_decide (@None N <> None)) eqn:Hnone.
  { apply bool_decide_eq_true in Hnone. congruence. }
  rewrite andb_false_r.
  rewrite (bind_run _ _ _ _ _ (modify_set _ _ _ _ Hdt1)).
  rewrite (modify_set _ _ _ _ (lookup_set_descriptor_eq _ _ _)).
  eexists. split; [ reflexivity | ].
  split; [ | split; [ | split; [ reflexivity | ] ] ].
  - split; [ exact Hne | ]. split.
    + eexists. split.
      * rewrite !lookup_set_descriptor_ne by congruence. subst w1.
        apply lookup_set_descriptor_eq.
      * cbn. auto.
    + eexists. split; [ apply lookup_set_descriptor_eq | ]. cbn. auto.
  - unfold payload_at. rewrite lookup_set_descriptor_eq, Hdt. reflexivity.
  - eexists. split; [ apply lookup_set_descriptor_eq | reflexivity ].
Qed.

(** C4, as the code has it.  Let [p], with its callback installed and not a
    watch-only connection, proxy to another descriptor [t] that takes data
    (a stream connection that is not watch-only, or a datagram socket, with
    no close scheduled) and has [p] as its source, with [limit > 0] bytes
    still to forward.  The chunk handled next, its size within its buffer,
    puts its first [min limit size] bytes on the queue of [t]; if that
    exhausts the limit the proxy is detached, one proxy-completed event
    fires and the rest of the same chunk, if any, goes to the
    connection-read callback.  Over any sequence of such chunks, the queue
    of [t] receives exactly the first [limit] bytes of the inbound stream
    and the callback all bytes after them, so that no byte is lost or
    repeated, and the proxy-completed event fires once, when the limit is
    reached. *)
Theorem proxy_forwards_up_to_byte_limit (p t : binding) (w : World) (limit : Z) :
  proxying w p t limit -> 0 < limit ->
  (forall buf size,
      0 <= size <= Z.of_nat (List.length buf) ->
      exists w',
        _GenericInboundDispatch p buf size w = Returned tt w'
        /\ payload_at w' t = payload_at w t ++ firstn (Z.to_nat (Z.min limit size)) buf
        /\ if size <? limit
           then proxying w' p t (limit - size) /\ trace w' = trace w
           else detached w' p
                /\ trace w'
                   = trace w ++ Callback p EM_PROXY_COMPLETED None 0
                       :: (if limit <? size
                           then [Callback p EM_CONNECTION_READ
                                   (Some (skipn (Z.to_nat limit) buf)) (size - limit)]
                           else []))
  /\ (forall chunks,
        Forall chunk_in_bounds chunks ->
        exists w',
          dispatch_chunks p chunks w = Returned tt w'
          /\ payload_at w' t
             = payload_at w t ++ firstn (Z.to_nat limit) (stream_of chunks)
          /\ delivered p (trace w')
             = delivered p (trace w) ++ skipn (Z.to_nat limit) (stream_of chunks)
          /\ if limit <=? Z.of_nat (List.length (stream_of chunks))
             then detached w' p /\ completions p (trace w') = S (completions p (trace w))
             else proxying w' p t (limit - Z.of_nat (List.length (stream_of chunks)))
                  /\ completions p (trace w') = completions p (trace w)).
Proof.
  intros Hprox Hlimit. split.
  - intros buf size Hsize. now apply dispatch_while_proxying.
  - intros chunks Hbounds. now apply dispatch_chunks_proxying.
Qed.

Lemma proxy_forwards_up_to_byte_limit_witness :
  proxying limited_proxy_world 1%N 2%N 4
  /\ 0 < 4
  /\ Forall chunk_in_bounds sample_chunks
  /\ exists w',
       dispatch_chunks 1%N sample_chunks limited_proxy_world = Returned tt w'
       /\ payload_at w' 2%N
          = payload_at limited_proxy_world 2%N ++ firstn (Z.to_nat 4) (stream_of sample_chunks)
       /\ delivered 1%N (trace w')
          = delivered 1%N (trace limited_proxy_world)
            ++ skipn (Z.to_nat 4) (stream_of sample_chunks)
       /\ if 4 <=? Z.of_nat (List.length (stream_of sample_chunks))
          then detached w' 1%N
               /\ completions 1%N (trace w')
                  = S (completions 1%N (trace limited_proxy_world))
          else proxying w' 1%N 2%N (4 - Z.of_nat (List.length (stream_of sample_chunks)))
               /\ completions 1%N (trace w')
                  = completions 1%N (trace limited_proxy_world).
Proof.
  assert (Hprox : proxying limited_proxy_world 1%N 2%N 4).
  { split; [ discriminate | ]. split.
    - eexists. split; [ vm_compute; reflexivity | ].
      split; [ reflexivity | ]. split; [ intros _; reflexivity | ].
      split; reflexivity.
    - eexists. split; [ vm_compute; reflexivity | ].
      split; [ | reflexivity ]. split; [ reflexivity | left; split; reflexivity ]. }
  assert (Hbounds : Forall chunk_in_bounds sample_chunks).
  { repeat constructor; vm_compute; discriminate. }
  split; [ exact Hprox | ]. split; [ reflexivity | ]. split; [ exact Hbounds | ].
  destruct (proxy_forwards_up_to_byte_limit 1%N 2%N limited_proxy_world 4 Hprox eq_refl)
    as [_ Hseq].
  exact (Hseq sample_chunks Hbounds).
Defined.

(** On the sample: the target is handed "abcd", the callback "ef". *)
Example proxy_limit_splits_stream :
  exists w',
    dispatch_chunks 1%N sample_chunks limited_proxy_world = Returned tt w'
    /\ payload_at w' 2%N = [x61; x62; x63; x64]
    /\ delivered 1%N (trace w') = [x65; x66]
    /\ trace w' = [Callback 1%N EM_PROXY_COMPLETED None 0;
                   Callback 1%N EM_CONNECTION_READ (Some [x65; x66; x00]) 2].
Proof.
  eexists. split; [ vm_compute; reflexivity | ].
  split; [ vm_compute; reflexivity | ]. split; vm_compute; reflexivity.
Qed.

(** C4 as worded fails for a target that has a close scheduled.  The
    source proxies to the target with a limit of 4 bytes; the inbound stream
    is the six letters a to f.  The letters e and f reach the read callback,
    the completion event fires and four bytes are counted as proxied, but
    the target, which refuses data once a close is scheduled, has queued
    nothing: the letters a to d are lost. *)
Lemma closing_target_drops_forwarded_bytes :
  exists d0 w' d,
    objs closing_target_world !! 1%N = Some d0
    /\ ProxyTarget d0 = Some 2%N /\ BytesToProxy d0 = 4
    /\ stream_of sample_chunks = [x61; x62; x63; x64; x65; x66]
    /\ dispatch_chunks 1%N sample_chunks closing_target_world = Returned tt w'
    /\ payload_at closing_target_world 2%N = []
    /\ payload_at w' 2%N = []
    /\ delivered 1%N (trace w') = [x65; x66]
    /\ completions 1%N (trace w') = 1%nat
    /\ objs w' !! 1%N = Some d /\ ProxiedBytes d = 4.
Proof.
  eexists _, _, _. split; [ vm_compute; reflexivity | ].
  split; [ reflexivity | ]. split; [ reflexivity | ]. split; [ reflexivity | ].
  split; [ vm_compute; reflexivity | ]. split; [ reflexivity | ].
  split; [ vm_compute; reflexivity | ]. split; [ vm_compute; reflexivity | ].
  split; [ vm_compute; reflexivity | ]. split; [ vm_compute; reflexivity | reflexivity ].
Qed.

(** A datagram socket as target queues each forwarded piece as a datagram of
    its own. *)
Example proxy_to_datagram_socket :
  exists w' dt,
    (new_ConnectionDescriptor 1%N 7 ;; new_DatagramDescriptor 2%N 8 ;;
     SetEventCallback 1%N ;; StartProxy 1%N 2%N 0 4 ;;
     dispatch_chunks 1%N sample_chunks) (empty_world 0) = Returned tt w'
    /\ objs w' !! 2%N = Some dt
    /\ map page_payload (OutboundPages dt) = [[x61; x62; x63]; [x64]]
    /\ delivered 1%N (trace w') = [x65; x66].
Proof.
  eexists _, _. split; [ vm_compute; reflexivity | ].
  split; [ vm_compute; reflexivity | ]. split; vm_compute; reflexivity.
Qed.

(** ** C9: the guard byte *)

Lemma reads_nul_terminated_nil : reads_nul_terminated [].
Proof. intros ed data size []. Qed.

Lemma reads_nul_terminated_app (t1 t2 : list effect) :
  reads_nul_terminated t1 -> reads_nul_terminated t2 -> reads_nul_terminated (t1 ++ t2).
Proof.
  intros H1 H2 ed data size Hin. apply in_app_or in Hin. destruct Hin; eauto.
Qed.

Lemma reads_nul_terminated_other (e : effect) :
  (forall ed data size, e <> Callback ed EM_CONNECTION_READ data size) ->
  reads_nul_terminated [e].
Proof. intros Hne ed data size [-> | []]. now destruct (Hne ed data size). Qed.

Lemma reads_nul_terminated_read (ed : binding) (data : option (list byte)) (size : Z) :
  nul_terminated data size -> reads_nul_terminated [Callback ed EM_CONNECTION_READ data size].
Proof. intros H ed' data' size' [[= <- <- <-] | []]. exact H. Qed.

Create HintDb guarded.

Lemma guarded_ret {A} (a : A) : guarded (ret a).
Proof. intros w. exists []. split; [ now rewrite app_nil_r | apply reads_nul_terminated_nil ]. Qed.

Lemma guarded_throw {A} (what : string) : guarded (@throw A what).
Proof. intros w. exists []. split; [ now rewrite app_nil_r | apply reads_nul_terminated_nil ]. Qed.

Lemma guarded_abort {A} (why : abort_reason) : why <> OutOfBounds -> guarded (@abort A why).
Proof. intros H w. exact H. Qed.

Lemma guarded_assert (b : bool) (what : string) : guarded (assert b what).
Proof. destruct b; [ apply guarded_ret | now apply guarded_abort ]. Qed.

Lemma guarded_deref (p : binding) : guarded (deref p).
Proof.
  intros w. unfold deref. destruct (objs w !! p); [ | discriminate ].
  exists []. split; [ now rewrite app_nil_r | apply reads_nul_terminated_nil ].
Qed.

Lemma guarded_modify (p : binding) (f : descriptor -> descriptor) : guarded (modify p f).
Proof.
  intros w. unfold modify. destruct (objs w !! p); [ | discriminate ].
  exists []. split; [ now rewrite app_nil_r | apply reads_nul_terminated_nil ].
Qed.

Lemma guarded_reactor {A} (f : World -> A) : guarded (reactor f).
Proof. intros w. exists []. split; [ now rewrite app_nil_r | apply reads_nul_terminated_nil ]. Qed.

Lemma guarded_emit (e : effect) : reads_nul_terminated [e] -> guarded (emit e).
Proof. intros H w. now exists [e]. Qed.

Lemma guarded_bind {A B} (m : M A) (k : A -> M B) :
  guarded m -> (forall a, guarded (k a)) -> guarded (bind m k).
Proof.
  intros Hm Hk w. unfold bind. specialize (Hm w).
  destruct (m w) as [a w1 | what w1 | why]; [ | exact Hm | exact Hm ].
  destruct Hm as (new1 & E1 & H1). specialize (Hk a w1).
  destruct (k a w1) as [b w2 | what w2 | why]; [ | | exact Hk ];
    destruct Hk as (new2 & E2 & H2); exists (new1 ++ new2);
    (split; [ now rewrite E2, E1, app_assoc | now apply reads_nul_terminated_app ]).
Qed.

Lemma guarded_when (b : bool) (m : M unit) : guarded m -> guarded (when b m).
Proof. destruct b; [ auto | intros _; apply guarded_ret ]. Qed.

#[local] Hint Resolve guarded_ret guarded_throw guarded_assert guarded_deref guarded_modify
  guarded_reactor guarded_when : guarded.

(** Take a method body apart along its binds and branches. *)
Ltac walk :=
  repeat first
    [ solve [ auto with guarded ]
    | match goal with
      | |- guarded (if ?b then _ else _) => destruct b
      | |- guarded (match ?x with _ => _ end) => destruct x
      | |- guarded (bind _ _) => apply guarded_bind; [ | intros ? ]
      | |- guarded (when _ _) => apply guarded_when
      end ].

Lemma guarded_Close (p : binding) : guarded (Close p).
Proof.
  unfold Close. walk;
    apply guarded_emit; apply reads_nul_terminated_other; discriminate.
Qed.

Lemma guarded_EventableDescriptor_ScheduleClose (p : binding) (after_writing : bool) :
  guarded (EventableDescriptor_ScheduleClose p after_writing).
Proof.
  unfold EventableDescriptor_ScheduleClose. walk.
  intros w. exists []. split; [ now rewrite app_nil_r | apply reads_nul_terminated_nil ].
Qed.

#[local] Hint Resolve guarded_EventableDescriptor_ScheduleClose : guarded.

Lemma guarded_ConnectionDescriptor_ScheduleClose (p : binding) (after_writing : bool) :
  guarded (ConnectionDescriptor_ScheduleClose p after_writing).
Proof. unfold ConnectionDescriptor_ScheduleClose. walk. Qed.

Lemma guarded_Pause (p : binding) : guarded (Pause p).
Proof.
  unfold Pause, ConnectionDescriptor_Pause, EventableDescriptor_Pause. walk.
Qed.

Lemma guarded_copy_outbound (data : list byte) (length : Z) :
  length <= Z.of_nat (List.length data) -> guarded (copy_outbound data length).
Proof.
  intros H. unfold copy_outbound.
  destruct (Z.of_nat (List.length data) <? length) eqn:E; [ lia | apply guarded_ret ].
Qed.

#[local] Hint Resolve guarded_Close guarded_ConnectionDescriptor_ScheduleClose guarded_Pause
  guarded_copy_outbound : guarded.

Lemma guarded_SendOutboundData (p : binding) (data : list byte) (length : Z) :
  length <= Z.of_nat (List.length data) -> guarded (SendOutboundData p data length).
Proof.
  intros H.
  unfold SendOutboundData, ConnectionDescriptor_SendOutboundData, pause_source_if_over,
    _SendRawOutboundData, DatagramDescriptor_SendOutboundData.
  walk.
Qed.

Lemma guarded_StopProxy (p : binding) : guarded (StopProxy p).
Proof. unfold StopProxy, SetProxiedFrom. walk. Qed.

#[local] Hint Resolve guarded_SendOutboundData guarded_StopProxy : guarded.

(** The remainder of a NUL-terminated chunk is NUL-terminated. *)
Lemma nul_terminated_rest (buf : list byte) (size proxied : Z) :
  nul_terminated (Some buf) size -> 0 <= proxied -> proxied < size ->
  nul_terminated (Some (skipn (Z.to_nat proxied) buf)) (size - proxied).
Proof.
  intros (buf' & [= <-] & Hsize & Hnul) Hlo Hhi.
  exists (skipn (Z.to_nat proxied) buf). split; [ reflexivity | ].
  rewrite length_skipn. split; [ lia | ].
  rewrite lookup_drop.
  replace (Z.to_nat proxied + Z.to_nat (size - proxied))%nat with (Z.to_nat size) by lia.
  exact Hnul.
Qed.

Lemma guarded__GenericInboundDispatch (p : binding) (buf : list byte) (size : Z) :
  nul_terminated (Some buf) size -> guarded (_GenericInboundDispatch p buf size).
Proof.
  intros Hnul. pose proof Hnul as (buf' & [= <-] & Hsize & _).
  unfold _GenericInboundDispatch.
  apply guarded_bind; [ walk | intros d ].
  apply guarded_bind; [ walk | intros _ ].
  destruct (ProxyTarget d) as [target | ].
  - destruct (0 <? BytesToProxy d) eqn:Hleft.
    + apply Z.ltb_lt in Hleft. cbv zeta.
      apply guarded_bind; [ apply guarded_SendOutboundData; lia | intros _ ].
      apply guarded_bind; [ walk | intros _ ].
      apply guarded_bind; [ walk | intros _ ].
      apply guarded_bind; [ walk | intros d' ].
      apply guarded_when.
      apply guarded_bind; [ walk | intros _ ].
      apply guarded_bind;
        [ apply guarded_emit, reads_nul_terminated_other; discriminate | intros _ ].
      destruct (Z.min (BytesToProxy d) size <? size) eqn:Hrest; cbn [when];
        [ | apply guarded_ret ].
      apply Z.ltb_lt in Hrest.
      apply guarded_emit, reads_nul_terminated_read, nul_terminated_rest;
        [ exact Hnul | lia | lia ].
    + apply guarded_bind; [ apply guarded_SendOutboundData; lia | intros _ ]. walk.
  - apply guarded_emit, reads_nul_terminated_read. exact Hnul.
Qed.

(** What [read] leaves in the buffer. *)
Lemma sys_read_bounds (k : kernel_read) (buf : list byte) :
  (0 < List.length buf)%nat ->
  let '(buf', r, _) := sys_read k buf (Z.of_nat (List.length buf) - 1) in
  List.length buf' = List.length buf /\ r <= Z.of_nat (List.length buf) - 1.
Proof.
  intros Hbuf. destruct k as [pending sender | e]; cbn [sys_read].
  - rewrite length_app, length_skipn, !length_firstn. lia.
  - lia.
Qed.

Lemma array_store_run (buf : list byte) (r : Z) :
  0 <= r < Z.of_nat (List.length buf) ->
  array_store buf r x00 = ret (<[Z.to_nat r := x00]> buf)
  /\ nul_terminated (Some (<[Z.to_nat r := x00]> buf)) r.
Proof.
  intros Hr. unfold array_store.
  destruct (0 <=? r) eqn:Hlo; [ | lia ].
  destruct (r <? Z.of_nat (List.length buf)) eqn:Hhi; [ | lia ].
  split; [ reflexivity | ].
  eexists. split; [ reflexivity | ]. rewrite length_insert. split; [ exact Hr | ].
  apply list_lookup_insert_eq. lia.
Qed.

Lemma guarded_bind_ret {A B} (a : A) (k : A -> M B) :
  guarded (k a) -> guarded (bind (ret a) k).
Proof. intros H w. exact (H w). Qed.

Lemma length_automatic_array (stack : nat -> byte) (size : nat) :
  List.length (automatic_array stack size) = size.
Proof. unfold automatic_array. now rewrite length_map, length_seq. Qed.

Lemma guarded_ConnectionDescriptor_Read_loop (p : binding) (kernel : nat -> kernel_read)
    (n i : nat) (readbuffer : list byte) (total : Z) :
  (0 < List.length readbuffer)%nat ->
  guarded (ConnectionDescriptor_Read_loop p kernel n i readbuffer total).
Proof.
  revert i readbuffer total. induction n as [ | n IH ]; intros i readbuffer total Hbuf;
    cbn [ConnectionDescriptor_Read_loop]; [ apply guarded_ret | ].
  pose proof (sys_read_bounds (kernel i) readbuffer Hbuf) as Hread.
  destruct (sys_read (kernel i) readbuffer (Z.of_nat (List.length readbuffer) - 1))
    as [[buf r] e].
  destruct Hread as [Hlen Hr].
  destruct (0 <? r) eqn:Hpos; [ | walk ].
  apply Z.ltb_lt in Hpos.
  destruct (array_store_run buf r ltac:(lia)) as [-> Hnul].
  apply guarded_bind_ret.
  apply guarded_bind; [ now apply guarded__GenericInboundDispatch | intros _ ].
  apply guarded_bind; [ walk | intros d ].
  destruct (bPaused d); [ apply guarded_ret | ].
  apply IH. rewrite length_insert. lia.
Qed.

Lemma guarded_DatagramDescriptor_Read_loop (p : binding) (kernel : nat -> kernel_read)
    (n i : nat) (readbuffer : list byte) :
  (0 < List.length readbuffer)%nat ->
  guarded (DatagramDescriptor_Read_loop p kernel n i readbuffer).
Proof.
  revert i readbuffer. induction n as [ | n IH ]; intros i readbuffer Hbuf;
    cbn [DatagramDescriptor_Read_loop]; [ apply guarded_ret | ].
  pose proof (sys_read_bounds (kernel i) readbuffer Hbuf) as Hread.
  destruct (sys_read (kernel i) readbuffer (Z.of_nat (List.length readbuffer) - 1))
    as [[buf r] e].
  destruct Hread as [Hlen Hr].
  destruct (0 <=? r) eqn:Hpos; [ | apply guarded_ret ].
  apply Z.leb_le in Hpos.
  destruct (array_store_run buf r ltac:(lia)) as [-> Hnul].
  apply guarded_bind_ret.
  apply guarded_bind; [ walk | intros _ ].
  apply guarded_bind; [ now apply guarded__GenericInboundDispatch | intros _ ].
  apply IH. rewrite length_insert. lia.
Qed.

Lemma guarded_ConnectionDescriptor_Read (p : binding) (stack : nat -> byte)
    (kernel : nat -> kernel_read) :
  guarded (ConnectionDescriptor_Read p stack kernel).
Proof.
  unfold ConnectionDescriptor_Read.
  apply guarded_bind; [ walk | intros d ].
  destruct (MySocket d =? INVALID_SOCKET); [ walk | ].
  destruct (bWatchOnly d).
  - apply guarded_when, guarded_emit, reads_nul_terminated_other. discriminate.
  - apply guarded_bind; [ walk | intros now ].
    apply guarded_bind; [ walk | intros _ ].
    apply guarded_bind; [ | intros total; walk ].
    apply guarded_ConnectionDescriptor_Read_loop.
    rewrite length_automatic_array. unfold ConnectionDescriptor_readbuffer_size. lia.
Qed.

Lemma guarded_DatagramDescriptor_Read (p : binding) (stack : nat -> byte)
    (kernel : nat -> kernel_read) :
  guarded (DatagramDescriptor_Read p stack kernel).
Proof.
  unfold DatagramDescriptor_Read.
  apply guarded_bind; [ walk | intros d ].
  apply guarded_bind; [ walk | intros _ ].
  apply guarded_bind; [ walk | intros now ].
  apply guarded_bind; [ walk | intros _ ].
  apply guarded_DatagramDescriptor_Read_loop.
  rewrite length_automatic_array. unfold DatagramDescriptor_readbuffer_size. lia.
Qed.

(** C9.  Whatever the kernel delivers and whatever the buffer held before,
    [ConnectionDescriptor::Read] and [DatagramDescriptor::Read] never store
    outside an array, and every chunk they hand to a connection-read
    callback, whether they return or throw, has a zero byte at the index
    equal to its reported size, inside the memory handed over. *)
Theorem inbound_chunks_are_NUL_terminated (p : binding) (stack : nat -> byte)
    (kernel : nat -> kernel_read) (w : World) :
  match ConnectionDescriptor_Read p stack kernel w with
  | Returned _ w' | Thrown _ w' =>
      exists new, trace w' = trace w ++ new /\ reads_nul_terminated new
  | Aborted why => why <> OutOfBounds
  end
  /\ match DatagramDescriptor_Read p stack kernel w with
     | Returned _ w' | Thrown _ w' =>
         exists new, trace w' = trace w ++ new /\ reads_nul_terminated new
     | Aborted why => why <> OutOfBounds
     end.
Proof.
  split.
  - apply guarded_ConnectionDescriptor_Read.
  - apply guarded_DatagramDescriptor_Read.
Qed.

(** Two bytes read into a dirty buffer of 16 KiB + 1: the callback gets the
    buffer with size 2, and the byte after "hi" is zero. *)
Example Read_hi :
  exists w' buf,
    ConnectionDescriptor_Read 1%N dirty_stack kernel_hi
      (one_connection_world listening_connection 0) = Returned tt w'
    /\ trace w' = [Callback 1%N EM_CONNECTION_READ (Some buf) 2]
    /\ firstn 4 buf = [x68; x69; x00; xff]
    /\ List.length buf = ConnectionDescriptor_readbuffer_size.
Proof.
  eexists _, _. split; [ vm_compute; reflexivity | ].
  split; [ reflexivity | ]. split; vm_compute; reflexivity.
Qed.

(** An empty datagram is dispatched with size 0 and a zero first byte, and
    its sender becomes the return address. *)
Example Read_empty_datagram :
  exists w' d buf,
    DatagramDescriptor_Read 1%N dirty_stack kernel_empty_datagram
      (one_connection_world listening_datagram 0) = Returned tt w'
    /\ trace w' = [Callback 1%N EM_CONNECTION_READ (Some buf) 0]
    /\ firstn 2 buf = [x00; xff]
    /\ List.length buf = DatagramDescriptor_readbuffer_size
    /\ objs w' !! 1%N = Some d
    /\ ReturnAddress d = [x7f; x01].
Proof.
  eexists _, _, _. split; [ vm_compute; reflexivity | ].
  split; [ reflexivity | ]. split; [ vm_compute; reflexivity | ].
  split; [ vm_compute; reflexivity | ]. split; [ vm_compute; reflexivity | reflexivity ].
Qed.

(** * Properties of the rest of the descriptor layer *)

Lemma target_of_set_descriptor (p a : binding) (d : descriptor) (w : World) :
  target_of (set_descriptor p d w) a
  = if decide (p = a) then ProxyTarget d else target_of w a.
Proof.
  unfold target_of. rewrite lookup_set_descriptor. now destruct (decide (p = a)).
Qed.

Lemma source_of_set_descriptor (p b : binding) (d : descriptor) (w : World) :
  source_of (set_descriptor p d w) b
  = if decide (p = b) then ProxiedFrom d else source_of w b.
Proof.
  unfold source_of. rewrite lookup_set_descriptor. now destruct (decide (p = b)).
Qed.

Lemma target_of_lookup (w : World) (a : binding) (d : descriptor) :
  objs w !! a = Some d -> target_of w a = ProxyTarget d.
Proof. unfold target_of. now intros ->. Qed.

Lemma source_of_lookup (w : World) (b : binding) (d : descriptor) :
  objs w !! b = Some d -> source_of w b = ProxiedFrom d.
Proof. unfold source_of. now intros ->. Qed.

Lemma source_of_live (w : World) (b a : binding) :
  source_of w b = Some a -> exists db, objs w !! b = Some db /\ ProxiedFrom db = Some a.
Proof.
  unfold source_of. destruct (objs w !! b) as [db | ]; cbn; [ eauto | discriminate ].
Qed.

Lemma target_of_live (w : World) (a b : binding) :
  target_of w a = Some b -> exists da, objs w !! a = Some da /\ ProxyTarget da = Some b.
Proof.
  unfold target_of. destruct (objs w !! a) as [da | ]; cbn; [ eauto | discriminate ].
Qed.

(** [SetProxiedFrom (NULL, 0)] never throws. *)
Lemma SetProxiedFrom_NULL_run (t : binding) (w : World) (dt : descriptor) :
  objs w !! t = Some dt ->
  SetProxiedFrom t None 0 w
  = Returned tt (set_descriptor t (set_MaxOutboundBufSize 0 (set_ProxiedFrom None dt)) w).
Proof.
  intros Hdt. unfold SetProxiedFrom.
  rewrite (bind_run _ _ _ _ _ (deref_run _ _ _ Hdt)).
  destruct (bool_decide (@None N <> None)) eqn:Hnone.
  { apply bool_decide_eq_true in Hnone. congruence. }
  cbn [andb].
  rewrite (bind_run _ _ _ _ _ (modify_set _ _ _ _ Hdt)).
  rewrite (modify_set _ _ _ _ (lookup_set_descriptor_eq _ _ _)).
  unfold set_descriptor. cbn. now rewrite insert_insert_eq.
Qed.

(** What [StopProxy] does to the links of a world whose links are paired. *)
Lemma StopProxy_links (p : binding) (w : World) (d : descriptor) :
  links_paired w -> objs w !! p = Some d ->
  exists w',
    StopProxy p w = Returned tt w'
    /\ (forall a, target_of w' a = if decide (a = p) then None else target_of w a)
    /\ (forall b, source_of w' b
                  = if decide (Some b = ProxyTarget d) then None else source_of w b)
    /\ (forall q, objs w !! q = None -> objs w' !! q = None)
    /\ trace w' = trace w
    /\ NumCloseScheduled w' = NumCloseScheduled w
    /\ (forall q x, objs w !! q = Some x ->
          exists x', objs w' !! q = Some x'
                     /\ kind x' = kind x /\ EventCallback x' = EventCallback x
                     /\ MySocket x' = MySocket x /\ bAttached x' = bAttached x
                     /\ NextHeartbeat x' = NextHeartbeat x
                     /\ UnbindReasonCode x' = UnbindReasonCode x).
Proof.
  intros Hpaired Hd. unfold StopProxy.
  rewrite (bind_run _ _ _ _ _ (deref_run _ _ _ Hd)).
  destruct (ProxyTarget d) as [t | ] eqn:Htarget.
  - assert (Hsrc : source_of w t = Some p).
    { apply Hpaired. now rewrite (target_of_lookup w p d Hd). }
    destruct (source_of_live _ _ _ Hsrc) as (dt & Hdt & Hfrom).
    rewrite (bind_run _ _ _ _ _ (SetProxiedFrom_NULL_run t w dt Hdt)).
    set (w1 := set_descriptor t (set_MaxOutboundBufSize 0 (set_ProxiedFrom None dt)) w).
    assert (exists d1, objs w1 !! p = Some d1 /\ kind d1 = kind d
                       /\ EventCallback d1 = EventCallback d /\ MySocket d1 = MySocket d
                       /\ bAttached d1 = bAttached d /\ NextHeartbeat d1 = NextHeartbeat d
                       /\ UnbindReasonCode d1 = UnbindReasonCode d
                       /\ ProxiedFrom d1 = if decide (t = p) then None else ProxiedFrom d)
      as (d1 & Hd1 & Hk1 & Hcb1 & Hsd1 & Hat1 & Hnh1 & Hur1 & Hpf1).
    { subst w1. rewrite lookup_set_descriptor. destruct (decide (t = p)) as [-> | Hne].
      - assert (dt = d) by congruence. subst dt. eexists. split; [ reflexivity | ].
        cbn. auto 10.
      - exists d. auto 10. }
    rewrite (modify_set _ _ _ _ Hd1).
    eexists. split; [ reflexivity | ].
    split; [ | split; [ | split; [ | split; [ reflexivity | split; [ reflexivity | ] ] ] ] ].
    + intros a. rewrite target_of_set_descriptor. subst w1.
      rewrite target_of_set_descriptor. cbn.
      destruct (decide (a = p)) as [-> | Hap].
      { now destruct (decide (p = p)). }
      destruct (decide (p = a)); [ congruence | ].
      destruct (decide (t = a)) as [<- | Hta]; [ | reflexivity ].
      symmetry. now apply target_of_lookup.
    + intros b. rewrite source_of_set_descriptor. cbn [ProxiedFrom set_ProxyTarget].
      destruct (decide (p = b)) as [<- | Hpb].
      * rewrite Hpf1. destruct (decide (t = p)) as [-> | Htp].
        -- now destruct (decide (Some p = Some p)).
        -- destruct (decide (Some p = Some t)) as [E | _]; [ congruence | ].
           symmetry. now apply source_of_lookup.
      * subst w1. rewrite source_of_set_descriptor. cbn.
        destruct (decide (t = b)) as [<- | Htb].
        -- now destruct (decide (Some t = Some t)).
        -- destruct (decide (Some b = Some t)) as [E | _]; [ congruence | reflexivity ].
    + intros q Hq. rewrite lookup_set_descriptor.
      destruct (decide (p = q)) as [<- | _]; [ congruence | ].
      subst w1. rewrite lookup_set_descriptor.
      destruct (decide (t = q)) as [<- | _]; [ congruence | exact Hq ].
    + intros q x Hq. rewrite lookup_set_descriptor.
      destruct (decide (p = q)) as [<- | Hpq].
      * assert (x = d) by congruence. subst x. eexists. split; [ reflexivity | ].
        cbn. auto 10.
      * subst w1. rewrite lookup_set_descriptor. destruct (decide (t = q)) as [<- | Htq].
        -- assert (x = dt) by congruence. subst x. eexists. split; [ reflexivity | ].
           cbn. auto 10.
        -- exists x. auto 10.
  - exists w. split; [ reflexivity | ].
    split; [ | split; [ | split; [ auto | split; [ reflexivity | split;
      [ reflexivity | ] ] ] ] ].
    + intros a. destruct (decide (a = p)) as [-> | ]; [ | reflexivity ].
      now rewrite (target_of_lookup w p d Hd).
    + intros b. now destruct (decide (Some b = None)).
    + intros q x Hq. exists x. auto 10.
Qed.


Lemma paired_unlink (T F T' F' : binding -> option binding) (p : binding) :
  paired T F ->
  (forall a, T' a = if decide (a = p) then None else T a) ->
  (forall b, F' b = if decide (Some b = T p) then None else F b) ->
  paired T' F'.
Proof.
  intros H HT HF a b. rewrite HT, HF.
  destruct (decide (a = p)) as [-> | Hap].
  - split; [ discriminate | ].
    destruct (decide (Some b = T p)) as [_ | Hb]; [ discriminate | ].
    intros Hfb. apply H in Hfb. congruence.
  - destruct (decide (Some b = T p)) as [Hb | Hb].
    + split; [ | discriminate ]. intros Hta.
      symmetry in Hb. apply H in Hb. apply H in Hta. congruence.
    + apply H.
Qed.

Lemma paired_link (T F T' F' : binding -> option binding) (p t : binding) :
  paired T F -> T p = None -> F t = None ->
  (forall a, T' a = if decide (a = p) then Some t else T a) ->
  (forall b, F' b = if decide (b = t) then Some p else F b) ->
  paired T' F'.
Proof.
  intros H Hp Ht HT HF a b. rewrite HT, HF.
  destruct (decide (a = p)) as [-> | Hap]; destruct (decide (b = t)) as [-> | Hbt].
  - tauto.
  - split; [ congruence | ]. intros Hfb. apply H in Hfb. congruence.
  - split; [ | congruence ]. intros Hta. apply H in Hta. congruence.
  - apply H.
Qed.

Lemma paired_remove (T F T' F' : binding -> option binding) (p : binding) :
  paired T F -> T p = None -> F p = None ->
  (forall a, T' a = if decide (a = p) then None else T a) ->
  (forall b, F' b = if decide (b = p) then None else F b) ->
  paired T' F'.
Proof.
  intros H Hp Hf HT HF a b. rewrite HT, HF.
  destruct (decide (a = p)) as [-> | Hap]; destruct (decide (b = p)) as [-> | Hbp].
  - tauto.
  - split; [ discriminate | ]. intros Hfb. apply H in Hfb. congruence.
  - split; [ | discriminate ]. intros Hta. apply H in Hta. congruence.
  - apply H.
Qed.

Lemma links_paired_objs (w w' : World) :
  objs w' = objs w -> links_paired w -> links_paired w'.
Proof. unfold links_paired, target_of, source_of. now intros ->. Qed.

Lemma StopProxy_paired (p : binding) (w : World) (d : descriptor) :
  links_paired w -> objs w !! p = Some d ->
  exists w',
    StopProxy p w = Returned tt w' /\ links_paired w'
    /\ target_of w' p = None
    /\ (forall b, ProxyTarget d = Some b -> source_of w' b = None)
    /\ (forall b, source_of w b = None -> source_of w' b = None)
    /\ (forall q, objs w !! q = None -> objs w' !! q = None)
    /\ trace w' = trace w
    /\ NumCloseScheduled w' = NumCloseScheduled w
    /\ (forall q x, objs w !! q = Some x ->
          exists x', objs w' !! q = Some x'
                     /\ kind x' = kind x /\ EventCallback x' = EventCallback x
                     /\ MySocket x' = MySocket x /\ bAttached x' = bAttached x
                     /\ NextHeartbeat x' = NextHeartbeat x
                     /\ UnbindReasonCode x' = UnbindReasonCode x).
Proof.
  intros Hpaired Hd.
  destruct (StopProxy_links p w d Hpaired Hd)
    as (w' & Hrun & HT & HF & Hnone & Htr & Hn & Hframe).
  exists w'. split; [ exact Hrun | ].
  split; [ | split; [ | split; [ | split; [ | auto ] ] ] ].
  - apply (paired_unlink (target_of w) (source_of w) _ _ p Hpaired HT).
    intros b. rewrite HF. now rewrite (target_of_lookup w p d Hd).
  - rewrite HT. now destruct (decide (p = p)).
  - intros b Hb. rewrite HF, Hb. now destruct (decide (Some b = Some b)).
  - intros b Hb. rewrite HF. now destruct (decide (Some b = ProxyTarget d)).
Qed.

(** [StartProxy] between two live objects of a world whose links are
    paired: the previous link of [p] is undone and [p] made to point at
    [t]; then [t] accepts the new source, or refuses it when it is proxied
    from another one. *)
Lemma StartProxy_cases (p t : binding) (bufsize length : Z) (w : World) (d dt : descriptor) :
  links_paired w -> objs w !! p = Some d -> objs w !! t = Some dt ->
  exists w2 d2 dt2,
    objs w2 !! p = Some d2 /\ objs w2 !! t = Some dt2
    /\ BytesToProxy d2 = length /\ ProxiedBytes d2 = 0
    /\ (forall a, target_of w2 a = if decide (a = p) then Some t else target_of w a)
    /\ (forall b, source_of w2 b
                  = if decide (Some b = ProxyTarget d) then None else source_of w b)
    /\ (forall q, objs w !! q = None -> objs w2 !! q = None)
    /\ trace w2 = trace w
    /\ StartProxy p t bufsize length w
       = match ProxiedFrom dt2 with
         | None => Returned tt
                     (set_descriptor t
                        (set_MaxOutboundBufSize bufsize (set_ProxiedFrom (Some p) dt2)) w2)
         | Some _ => Thrown "Tried to proxy to a busy target" w2
         end.
Proof.
  intros Hpaired Hd Hdt.
  destruct (StopProxy_links p w d Hpaired Hd)
    as (w1 & Hstop & HT1 & HF1 & Hnone1 & Htr1 & _ & Hframe1).
  destruct (Hframe1 p d Hd) as (d1 & Hd1 & _).
  unfold StartProxy, reactor. unfold bind at 1. rewrite Hdt.
  rewrite (bind_run _ _ _ _ _ Hstop).
  rewrite (bind_run _ _ _ _ _ (modify_set _ _ _ _ Hd1)).
  rewrite (bind_run _ _ _ _ _ (modify_set _ _ _ _ (lookup_set_descriptor_eq _ _ _))).
  rewrite (bind_run _ _ _ _ _ (modify_set _ _ _ _ (lookup_set_descriptor_eq _ _ _))).
  match goal with
  | |- context [ SetProxiedFrom _ _ _ ?w0 ] => set (w2 := w0)
  end.
  set (d2 := set_ProxiedBytes 0 (set_BytesToProxy length (set_ProxyTarget (Some t) d1))).
  assert (Hd2 : objs w2 !! p = Some d2) by (subst w2; apply lookup_set_descriptor_eq).
  assert (Hobjs2 : forall q, objs w2 !! q = if decide (p = q) then Some d2 else objs w1 !! q).
  { intros q. subst w2. rewrite !lookup_set_descriptor.
    now destruct (decide (p = q)). }
  destruct (Hframe1 t dt Hdt) as (dt1 & Hdt1 & _).
  assert (exists dt2, objs w2 !! t = Some dt2) as [dt2 Hdt2].
  { rewrite Hobjs2. destruct (decide (p = t)); eauto. }
  exists w2, d2, dt2.
  split; [ exact Hd2 | ]. split; [ exact Hdt2 | ].
  split; [ reflexivity | ]. split; [ reflexivity | ].
  split; [ | split; [ | split; [ | split ] ] ].
  - intros a. unfold target_of at 1. rewrite Hobjs2.
    destruct (decide (a = p)) as [-> | Hap].
    + now destruct (decide (p = p)).
    + destruct (decide (p = a)); [ congruence | ].
      fold (target_of w1 a). rewrite HT1. now destruct (decide (a = p)).
  - intros b. unfold source_of at 1. rewrite Hobjs2.
    destruct (decide (p = b)) as [<- | Hpb]; [ | apply HF1 ].
    cbn. rewrite <- HF1. symmetry. now apply source_of_lookup.
  - intros q Hq. rewrite Hobjs2. destruct (decide (p = q)) as [<- | _]; [ congruence | ].
    now apply Hnone1.
  - subst w2. exact Htr1.
  - unfold SetProxiedFrom.
    rewrite (bind_run _ _ _ _ _ (deref_run _ _ _ Hdt2)).
    destruct (ProxiedFrom dt2) as [other | ] eqn:Hbusy.
    + rewrite !bool_decide_eq_true_2 by congruence. reflexivity.
    + rewrite (bool_decide_eq_false_2 (@None N <> None)) by congruence.
      rewrite andb_false_r.
      rewrite (bind_run _ _ _ _ _ (modify_set _ _ _ _ Hdt2)).
      rewrite (modify_set _ _ _ _ (lookup_set_descriptor_eq _ _ _)).
      unfold set_descriptor. cbn. now rewrite insert_insert_eq.
Qed.

Lemma StartProxy_paired (p t : binding) (bufsize length : Z) (w w' : World) :
  links_paired w ->
  StartProxy p t bufsize length w = Returned tt w' ->
  links_paired w'
  /\ target_of w' p = Some t /\ source_of w' t = Some p
  /\ (exists d', objs w' !! p = Some d' /\ BytesToProxy d' = length /\ ProxiedBytes d' = 0)
  /\ (exists dt', objs w' !! t = Some dt' /\ MaxOutboundBufSize dt' = bufsize)
  /\ (forall q, objs w !! q = None -> objs w' !! q = None)
  /\ trace w' = trace w.
Proof.
  intros Hpaired Hrun.
  destruct (objs w !! t) as [dt | ] eqn:Hdt.
  2: { unfold StartProxy, reactor in Hrun. unfold bind at 1 in Hrun.
       rewrite Hdt in Hrun. discriminate. }
  destruct (objs w !! p) as [d | ] eqn:Hd.
  2: { unfold StartProxy, reactor, StopProxy, deref in Hrun. unfold bind in Hrun.
       rewrite Hdt, Hd in Hrun. discriminate. }
  destruct (StartProxy_cases p t bufsize length w d dt Hpaired Hd Hdt)
    as (w2 & d2 & dt2 & Hd2 & Hdt2 & Hlen & Hbytes & HT2 & HF2 & Hnone2 & Htr2 & E).
  rewrite E in Hrun. destruct (ProxiedFrom dt2) eqn:Hfree; [ discriminate | ].
  injection Hrun as <-.
  assert (HT' : forall a,
             target_of (set_descriptor t
                          (set_MaxOutboundBufSize bufsize (set_ProxiedFrom (Some p) dt2)) w2) a
             = if decide (a = p) then Some t else target_of w a).
  { intros a. rewrite target_of_set_descriptor. cbn. rewrite <- HT2.
    destruct (decide (t = a)) as [<- | _]; [ | reflexivity ].
    symmetry. now apply target_of_lookup. }
  assert (HF' : forall b,
             source_of (set_descriptor t
                          (set_MaxOutboundBufSize bufsize (set_ProxiedFrom (Some p) dt2)) w2) b
             = if decide (b = t) then Some p
               else if decide (Some b = ProxyTarget d) then None else source_of w b).
  { intros b. rewrite source_of_set_descriptor. cbn. rewrite <- HF2.
    destruct (decide (b = t)) as [-> | Hbt].
    - now destruct (decide (t = t)).
    - destruct (decide (t = b)); [ congruence | reflexivity ]. }
  split; [ | split; [ | split; [ | split; [ | split; [ | split ] ] ] ] ].
  - set (T1 := fun a => if decide (a = p) then None else target_of w a).
    set (F1 := fun b => if decide (Some b = target_of w p) then None else source_of w b).
    assert (paired T1 F1)
      by (apply (paired_unlink (target_of w) (source_of w) _ _ p Hpaired); reflexivity).
    apply (paired_link T1 F1 _ _ p t); [ assumption | | | | ].
    + subst T1. cbn. now destruct (decide (p = p)).
    + subst F1. cbn. rewrite (target_of_lookup w p d Hd), <- HF2.
      now rewrite (source_of_lookup w2 t dt2 Hdt2).
    + intros a. rewrite HT'. subst T1. cbn. now destruct (decide (a = p)).
    + intros b. rewrite HF'. subst F1. cbn. now rewrite (target_of_lookup w p d Hd).
  - rewrite HT'. now destruct (decide (p = p)).
  - rewrite HF'. now destruct (decide (t = t)).
  - rewrite lookup_set_descriptor. destruct (decide (t = p)) as [-> | _].
    + eexists. split; [ reflexivity | ]. cbn.
      assert (dt2 = d2) by congruence. subst dt2. auto.
    + exists d2. auto.
  - eexists. split; [ apply lookup_set_descriptor_eq | reflexivity ].
  - intros q Hq. rewrite lookup_set_descriptor.
    destruct (decide (t = q)) as [<- | _]; [ congruence | now apply Hnone2 ].
  - exact Htr2.
Qed.

(** A target that is proxied from another source refuses the link, but only
    after the caller has been pointed at it. *)
Lemma StartProxy_busy (p t q : binding) (bufsize length : Z) (w : World) (d dt : descriptor) :
  links_paired w -> objs w !! p = Some d -> objs w !! t = Some dt ->
  ProxiedFrom dt = Some q -> q <> p ->
  exists w',
    StartProxy p t bufsize length w = Thrown "Tried to proxy to a busy target" w'
    /\ target_of w' p = Some t /\ source_of w' t = Some q
    /\ (forall b, target_of w p = Some b -> source_of w' b = None)
    /\ trace w' = trace w.
Proof.
  intros Hpaired Hd Hdt Hbusy Hne.
  destruct (StartProxy_cases p t bufsize length w d dt Hpaired Hd Hdt)
    as (w2 & d2 & dt2 & Hd2 & Hdt2 & Hlen & Hbytes & HT2 & HF2 & Hnone2 & Htr2 & E).
  assert (Hsrc : source_of w2 t = Some q).
  { rewrite HF2. destruct (decide (Some t = ProxyTarget d)) as [Ht | _].
    - assert (source_of w t = Some p).
      { apply Hpaired. now rewrite (target_of_lookup w p d Hd). }
      rewrite (source_of_lookup w t dt Hdt) in *. congruence.
    - now rewrite (source_of_lookup w t dt Hdt). }
  rewrite (source_of_lookup w2 t dt2 Hdt2) in Hsrc. rewrite Hsrc in E.
  exists w2. split; [ exact E | ]. split; [ | split; [ | split ] ].
  - rewrite HT2. now destruct (decide (p = p)).
  - now rewrite (source_of_lookup w2 t dt2 Hdt2).
  - intros b Hb. rewrite HF2. rewrite (target_of_lookup w p d Hd) in Hb.
    rewrite Hb. now destruct (decide (Some b = Some b)).
  - exact Htr2.
Qed.

(** What [Close] leaves alone. *)
Lemma Close_links (p : binding) (w : World) (d : descriptor) :
  objs w !! p = Some d ->
  exists w' closing,
    Close p w = Returned tt w'
    /\ (forall a, target_of w' a = target_of w a)
    /\ (forall b, source_of w' b = source_of w b)
    /\ (forall q, objs w !! q = None <-> objs w' !! q = None)
    /\ NumCloseScheduled w' = NumCloseScheduled w
    /\ trace w' = trace w ++ closing
    /\ (forall ed ev data size, ~ In (Callback ed ev data size) closing).
Proof.
  intros Hd. unfold Close. mstep.
  destruct (MySocket d =? INVALID_SOCKET); mstep.
  { exists w, []. rewrite app_nil_r. repeat split; auto. }
  assert (HN : forall q, objs w !! q = None <->
             <[p := set_MySocket INVALID_SOCKET d]> (objs w) !! q = None).
  { intros q. destruct (decide (p = q)) as [<- | Hne].
    - rewrite lookup_insert_eq, Hd. split; discriminate.
    - now rewrite lookup_insert_ne. }
  assert (HT : forall tr a,
             target_of (set_objs (<[p := set_MySocket INVALID_SOCKET d]> (objs w))
                          (set_trace tr w)) a = target_of w a).
  { intros tr a. unfold target_of. cbn. destruct (decide (p = a)) as [<- | Hne].
    - now rewrite lookup_insert_eq, Hd.
    - now rewrite lookup_insert_ne. }
  assert (HF : forall tr b,
             source_of (set_objs (<[p := set_MySocket INVALID_SOCKET d]> (objs w))
                          (set_trace tr w)) b = source_of w b).
  { intros tr b. unfold source_of. cbn. destruct (decide (p = b)) as [<- | Hne].
    - now rewrite lookup_insert_eq, Hd.
    - now rewrite lookup_insert_ne. }
  destruct ((2 <? MySocket d) && negb (bAttached d)); mstep.
  - eexists _, [Deregister p; sys_shutdown (MySocket d) 1; sys_close (MySocket d)].
    split; [ reflexivity | ]. split; [ apply HT | ]. split; [ apply HF | ].
    split; [ exact HN | ]. split; [ reflexivity | ].
    split; [ cbn; now rewrite <- !app_assoc | ].
    intros ed ev data size [E | [E | [E | []]]]; discriminate.
  - eexists _, [Deregister p].
    split; [ reflexivity | ]. split; [ apply HT | ]. split; [ apply HF | ].
    split; [ exact HN | ]. split; [ reflexivity | ]. split; [ reflexivity | ].
    intros ed ev data size [E | []]; discriminate.
Qed.

Lemma when_emit_run (b : bool) (e : effect) (w : World) :
  when b (emit e) w = Returned tt (set_trace (trace w ++ (if b then [e] else [])) w).
Proof.
  destruct b; cbn [when]; [ reflexivity | ].
  rewrite app_nil_r. now destruct w.
Qed.

Lemma links_paired_live (w : World) (p from : binding) (d : descriptor) :
  links_paired w -> objs w !! p = Some d -> ProxiedFrom d = Some from ->
  exists dfrom, objs w !! from = Some dfrom /\ ProxyTarget dfrom = Some p.
Proof.
  intros Hpaired Hd Hfrom. apply target_of_live, Hpaired.
  now rewrite (source_of_lookup w p d Hd).
Qed.

Lemma destroy_EventableDescriptor_run (p : binding) (w : World) (d : descriptor) :
  links_paired w -> objs w !! p = Some d ->
  (ProxiedFrom d <> None -> EventCallback d = true) ->
  exists w' hb closing,
    destroy_EventableDescriptor p w = Returned tt w'
    /\ links_paired w'
    /\ target_of w' p = None /\ source_of w' p = None
    /\ (forall q, objs w !! q = None <-> objs w' !! q = None)
    /\ NumCloseScheduled w' = NumCloseScheduled w - 1
    /\ trace w'
       = trace w ++ hb
         ++ (if EventCallback d && bCallbackUnbind d
             then [Callback p EM_CONNECTION_UNBOUND None (UnbindReasonCode d)] else [])
         ++ match ProxiedFrom d with
            | Some from => [Callback from EM_PROXY_TARGET_UNBOUND None 0]
            | None => []
            end
         ++ closing
    /\ (forall ed ev data size, ~ In (Callback ed ev data size) (hb ++ closing)).
Proof.
  intros Hpaired Hd Hcb. unfold destroy_EventableDescriptor.
  rewrite (bind_run _ _ _ _ _ (deref_run _ _ _ Hd)).
  rewrite (bind_run _ _ _ _ _ (when_emit_run _ _ _)).
  rewrite (bind_run _ _ _ _ _ (when_emit_run _ _ _)).
  set (hb := if negb (NextHeartbeat d =? 0) then [ClearHeartbeat (NextHeartbeat d) p] else []).
  set (unbound := if EventCallback d && bCallbackUnbind d
                  then [Callback p EM_CONNECTION_UNBOUND None (UnbindReasonCode d)] else []).
  cbn [trace set_trace].
  set (wb := set_trace ((trace w ++ hb) ++ unbound) (set_trace (trace w ++ hb) w)).
  assert (Hobjs_b : objs wb = objs w) by reflexivity.
  assert (Hpaired_b : links_paired wb) by now apply (links_paired_objs w).
  (* the proxy source is told and detached *)
  assert (exists w1 d1,
             match ProxiedFrom d with
             | Some from =>
                 deref from ;;
                 (if EventCallback d then emit (Callback from EM_PROXY_TARGET_UNBOUND None 0)
                  else abort DanglingPointer) ;;
                 StopProxy from
             | None => ret tt
             end wb = Returned tt w1
             /\ links_paired w1 /\ source_of w1 p = None
             /\ objs w1 !! p = Some d1
             /\ (forall q, objs w !! q = None <-> objs w1 !! q = None)
             /\ NumCloseScheduled w1 = NumCloseScheduled w
             /\ trace w1 = trace wb ++ match ProxiedFrom d with
                                       | Some from => [Callback from EM_PROXY_TARGET_UNBOUND None 0]
                                       | None => []
                                       end)
    as (w1 & d1 & Hrun1 & Hpaired1 & Hsrc1 & Hd1 & Hlive1 & Hn1 & Htr1).
  { destruct (ProxiedFrom d) as [from | ] eqn:Hfrom.
    - destruct (links_paired_live w p from d Hpaired Hd Hfrom) as (dfrom & Hdfrom & Htarget).
      assert (Hdfrom_b : objs wb !! from = Some dfrom) by exact Hdfrom.
      rewrite (bind_run _ _ _ _ _ (deref_run _ _ _ Hdfrom_b)).
      rewrite Hcb by congruence. unfold emit at 1. unfold bind at 1.
      set (wc := set_trace (trace wb ++ [Callback from EM_PROXY_TARGET_UNBOUND None 0]) wb).
      assert (Hpaired_c : links_paired wc) by now apply (links_paired_objs w).
      assert (Hdfrom_c : objs wc !! from = Some dfrom) by exact Hdfrom.
      destruct (StopProxy_paired from wc dfrom Hpaired_c Hdfrom_c)
        as (w1 & Hstop & Hp1 & _ & Hcut & _ & Hnone & Htr & Hn & Hframe).
      assert (Hd_c : objs wc !! p = Some d) by exact Hd.
      destruct (Hframe p d Hd_c) as (d1 & Hd1 & _).
      exists w1, d1. split; [ exact Hstop | ]. split; [ exact Hp1 | ].
      split; [ now apply Hcut | ]. split; [ exact Hd1 | ].
      split; [ | split; [ exact Hn | exact Htr ] ].
      intros q. split; [ apply Hnone | ].
      intros Hq. destruct (objs w !! q) as [x | ] eqn:Hx; [ | reflexivity ].
      destruct (Hframe q x Hx) as (x' & Hx' & _). congruence.
    - exists wb, d. split; [ reflexivity | ]. split; [ exact Hpaired_b | ].
      split; [ now rewrite (source_of_lookup wb p d Hd) | ]. split; [ exact Hd | ].
      split; [ tauto | ]. split; [ reflexivity | now rewrite app_nil_r ]. }
  rewrite (bind_run _ _ _ _ _ Hrun1).
  unfold bind at 1.
  set (w1' := set_NumCloseScheduled (NumCloseScheduled w1 - 1) w1).
  assert (Hpaired1' : links_paired w1') by now apply (links_paired_objs w1).
  assert (Hd1' : objs w1' !! p = Some d1) by exact Hd1.
  destruct (StopProxy_paired p w1' d1 Hpaired1' Hd1')
    as (w2 & Hstop2 & Hpaired2 & Htgt2 & _ & Hkeep2 & Hnone2 & Htr2 & Hn2 & Hframe2).
  rewrite (bind_run _ _ _ _ _ Hstop2).
  destruct (Hframe2 p d1 Hd1') as (d2 & Hd2 & _).
  destruct (Close_links p w2 d2 Hd2)
    as (w3 & closing & Hclose & HT3 & HF3 & Hlive3 & Hn3 & Htr3 & Hquiet3).
  exists w3, hb, closing. split; [ exact Hclose | ].
  split; [ | split; [ | split; [ | split; [ | split; [ | split ] ] ] ] ].
  - intros a b. rewrite HT3, HF3. apply Hpaired2.
  - now rewrite HT3.
  - rewrite HF3. now apply Hkeep2.
  - intros q. rewrite <- Hlive3, (Hlive1 q). split; [ apply Hnone2 | ].
    intros Hq. destruct (objs w1 !! q) as [x | ] eqn:Hx; [ | reflexivity ].
    destruct (Hframe2 q x Hx) as (x' & Hx' & _). congruence.
  - rewrite Hn3, Hn2. change (NumCloseScheduled w1') with (NumCloseScheduled w1 - 1).
    now rewrite Hn1.
  - rewrite Htr3, Htr2. change (trace w1') with (trace w1). rewrite Htr1.
    subst wb. cbn [trace set_trace]. now rewrite <- !app_assoc.
  - intros ed ev data size Hin. apply in_app_or in Hin as [Hin | Hin].
    + subst hb. destruct (negb (NextHeartbeat d =? 0)); [ | exact Hin ].
      destruct Hin as [E | []]. discriminate.
    + exact (Hquiet3 _ _ _ _ Hin).
Qed.

Lemma delete_descriptor_run (p : binding) (w : World) (d : descriptor) :
  links_paired w -> objs w !! p = Some d ->
  (ProxiedFrom d <> None -> EventCallback d = true) ->
  exists w' pre closing,
    delete_descriptor p w = Returned tt w'
    /\ links_paired w'
    /\ objs w' !! p = None
    /\ (forall q, q <> p -> objs w !! q = None <-> objs w' !! q = None)
    /\ NumCloseScheduled w' = NumCloseScheduled w - 1
    /\ trace w'
       = trace w ++ pre
         ++ (if EventCallback d && bCallbackUnbind d
             then [Callback p EM_CONNECTION_UNBOUND None (UnbindReasonCode d)] else [])
         ++ match ProxiedFrom d with
            | Some from => [Callback from EM_PROXY_TARGET_UNBOUND None 0]
            | None => []
            end
         ++ closing
    /\ (forall ed ev data size, ~ In (Callback ed ev data size) (pre ++ closing)).
Proof.
  intros Hpaired Hd Hcb. unfold delete_descriptor.
  rewrite (bind_run _ _ _ _ _ (deref_run _ _ _ Hd)).
  assert (exists w0 d0 pre0,
             match kind d with
             | InotifyDescriptor => destroy_InotifyDescriptor p
             | _ => ret tt
             end w = Returned tt w0
             /\ objs w0 !! p = Some d0
             /\ EventCallback d0 = EventCallback d /\ kind d0 = kind d
             /\ UnbindReasonCode d0 = UnbindReasonCode d /\ ProxiedFrom d0 = ProxiedFrom d
             /\ (forall a, target_of w0 a = target_of w a)
             /\ (forall b, source_of w0 b = source_of w b)
             /\ (forall q, objs w !! q = None <-> objs w0 !! q = None)
             /\ NumCloseScheduled w0 = NumCloseScheduled w
             /\ trace w0 = trace w ++ pre0
             /\ (forall ed ev data size, ~ In (Callback ed ev data size) pre0))
    as (w0 & d0 & pre0 & Hrun0 & Hd0 & Hcb0 & Hk0 & Hur0 & Hpf0 & HT0 & HF0 & Hlive0
        & Hn0 & Htr0 & Hquiet0).
  { assert (Hsame : exists w0 d0 pre0,
               Returned tt w = Returned tt w0
               /\ objs w0 !! p = Some d0
               /\ EventCallback d0 = EventCallback d /\ kind d0 = kind d
               /\ UnbindReasonCode d0 = UnbindReasonCode d /\ ProxiedFrom d0 = ProxiedFrom d
               /\ (forall a, target_of w0 a = target_of w a)
               /\ (forall b, source_of w0 b = source_of w b)
               /\ (forall q, objs w !! q = None <-> objs w0 !! q = None)
               /\ NumCloseScheduled w0 = NumCloseScheduled w
               /\ trace w0 = trace w ++ pre0
               /\ (forall ed ev data size, ~ In (Callback ed ev data size) pre0)).
    { exists w, d, []. rewrite app_nil_r. repeat split; auto. }
    destruct (kind d) eqn:Hk; try exact Hsame.
    unfold destroy_InotifyDescriptor. mstep.
    eexists _, _, [sys_close (MySocket d)]. split; [ reflexivity | ].
    split; [ cbn; apply lookup_insert_eq | ].
    split; [ reflexivity | ]. split; [ exact Hk | ]. do 2 (split; [ reflexivity | ]).
    split; [ | split; [ | split; [ | split; [ reflexivity | split; [ reflexivity | ] ] ] ] ].
    - intros a. unfold target_of. cbn. destruct (decide (p = a)) as [<- | Hne].
      + now rewrite lookup_insert_eq, Hd.
      + now rewrite lookup_insert_ne.
    - intros b. unfold source_of. cbn. destruct (decide (p = b)) as [<- | Hne].
      + now rewrite lookup_insert_eq, Hd.
      + now rewrite lookup_insert_ne.
    - intros q. cbn. destruct (decide (p = q)) as [<- | Hne].
      + rewrite lookup_insert_eq, Hd. split; discriminate.
      + now rewrite lookup_insert_ne.
    - intros ed ev data size [E | []]. discriminate. }
  rewrite (bind_run _ _ _ _ _ Hrun0).
  assert (Hpaired0 : links_paired w0).
  { intros a b. rewrite HT0, HF0. apply Hpaired. }
  assert (Hcb' : ProxiedFrom d0 <> None -> EventCallback d0 = true).
  { rewrite Hpf0, Hcb0. exact Hcb. }
  destruct (destroy_EventableDescriptor_run p w0 d0 Hpaired0 Hd0 Hcb')
    as (w3 & hb & closing & Hrun3 & Hpaired3 & Htgt3 & Hsrc3 & Hlive3 & Hn3 & Htr3 & Hquiet3).
  rewrite (bind_run _ _ _ _ _ Hrun3).
  eexists _, (pre0 ++ hb), closing. split; [ reflexivity | ].
  split; [ | split; [ | split; [ | split; [ | split ] ] ] ].
  - apply (paired_remove (target_of w3) (source_of w3) _ _ p Hpaired3 Htgt3 Hsrc3).
    + intros a. unfold target_of. cbn. destruct (decide (a = p)) as [-> | Hne].
      * now rewrite lookup_delete_eq.
      * now rewrite lookup_delete_ne.
    + intros b. unfold source_of. cbn. destruct (decide (b = p)) as [-> | Hne].
      * now rewrite lookup_delete_eq.
      * now rewrite lookup_delete_ne.
  - cbn. apply lookup_delete_eq.
  - intros q Hq. cbn. rewrite lookup_delete_ne by congruence.
    now rewrite (Hlive0 q), (Hlive3 q).
  - cbn. rewrite Hn3, Hn0. reflexivity.
  - cbn. rewrite Htr3, Htr0, Hcb0, Hur0, Hpf0. unfold bCallbackUnbind. rewrite Hk0. now rewrite <- !app_assoc.
  - intros ed ev data size Hin. rewrite <- app_assoc in Hin.
    apply in_app_or in Hin as [Hin | Hin]; [ exact (Hquiet0 _ _ _ _ Hin) | ].
    exact (Hquiet3 _ _ _ _ Hin).
Qed.

Lemma links_answered_paired (w : World) : links_answered w = true -> links_paired w.
Proof.
  intros Hall. unfold links_answered in Hall. rewrite forallb_forall in Hall.
  assert (Hentry : forall a da, objs w !! a = Some da ->
             (forall b, ProxyTarget da = Some b -> source_of w b = Some a)
             /\ (forall c, ProxiedFrom da = Some c -> target_of w c = Some a)).
  { intros a da Hda. specialize (Hall (a, da)). cbn in Hall.
    rewrite <- list_elem_of_In, elem_of_map_to_list in Hall.
    specialize (Hall Hda). apply andb_true_iff in Hall as [HT HF]. split.
    - intros b Hb. rewrite Hb in HT. now apply bool_decide_eq_true in HT.
    - intros c Hc. rewrite Hc in HF. now apply bool_decide_eq_true in HF. }
  intros a b. split; intros H.
  - apply target_of_live in H as (da & Hda & Hb). now apply (Hentry a da Hda).
  - apply source_of_live in H as (db & Hdb & Ha). now apply (Hentry b db Hdb).
Qed.

Lemma three_connections_paired : links_paired three_connections.
Proof. apply links_answered_paired. vm_compute. reflexivity. Qed.

(** Without a callback installed, the destructor of a proxy target calls
    through a NULL pointer. *)
Lemma delete_descriptor_aborts (p from : binding) (w : World) (d : descriptor) :
  objs w !! p = Some d -> ProxiedFrom d = Some from -> EventCallback d = false ->
  delete_descriptor p w = Aborted DanglingPointer.
Proof.
  intros Hd Hfrom Hcb. unfold delete_descriptor.
  rewrite (bind_run _ _ _ _ _ (deref_run _ _ _ Hd)).
  assert (exists w0 d0,
             match kind d with
             | InotifyDescriptor => destroy_InotifyDescriptor p
             | _ => ret tt
             end w = Returned tt w0
             /\ objs w0 !! p = Some d0
             /\ EventCallback d0 = false /\ ProxiedFrom d0 = Some from)
    as (w0 & d0 & Hrun0 & Hd0 & Hcb0 & Hfrom0).
  { destruct (kind d); try (exists w, d; now repeat split).
    unfold destroy_InotifyDescriptor. mstep.
    eexists _, _. split; [ reflexivity | ]. split; [ cbn; apply lookup_insert_eq | ].
    now split. }
  rewrite (bind_run _ _ _ _ _ Hrun0).
  unfold destroy_EventableDescriptor.
  unfold bind at 1. rewrite (bind_run _ _ _ _ _ (deref_run _ _ _ Hd0)).
  rewrite (bind_run _ _ _ _ _ (when_emit_run _ _ _)).
  rewrite (bind_run _ _ _ _ _ (when_emit_run _ _ _)).
  rewrite Hfrom0, Hcb0. unfold bind, deref, abort.
  now destruct (objs _ !! from).
Qed.

(** Over any sequence of [StartProxy], [StopProxy] and [delete] calls that
    all return, on any descriptors, the proxy links stay paired: whenever
    [a] has [b] as its proxy target, [b] is live and names [a] as its
    source, and conversely. *)
Theorem proxy_links_stay_paired (calls : list proxy_call) (w w' : World) :
  links_paired w -> proxy_calls calls w = Some w' -> links_paired w'.
Proof.
  revert w. induction calls as [ | c calls IH ]; intros w Hpaired; cbn [proxy_calls].
  - now intros [= <-].
  - destruct (proxy_call_run c w) as [[] w1 | | ] eqn:Hrun; try discriminate.
    apply IH. destruct c as [p t bufsize length | p | p]; cbn [proxy_call_run] in Hrun.
    + now apply (StartProxy_paired p t bufsize length w w1).
    + destruct (objs w !! p) as [d | ] eqn:Hd.
      * destruct (StopProxy_paired p w d Hpaired Hd) as (w2 & Hstop & Hp2 & _).
        rewrite Hstop in Hrun. now injection Hrun as <-.
      * unfold StopProxy, bind, deref in Hrun. rewrite Hd in Hrun. discriminate.
    + destruct (objs w !! p) as [d | ] eqn:Hd.
      * destruct (ProxiedFrom d) as [from | ] eqn:Hfrom.
        -- destruct (EventCallback d) eqn:Hcb.
           ++ destruct (delete_descriptor_run p w d Hpaired Hd)
                as (w2 & pre & closing & Hdel & Hp2 & _); [ auto | ].
              rewrite Hdel in Hrun. now injection Hrun as <-.
           ++ rewrite (delete_descriptor_aborts p from w d Hd Hfrom Hcb) in Hrun.
              discriminate.
        -- destruct (delete_descriptor_run p w d Hpaired Hd)
             as (w2 & pre & closing & Hdel & Hp2 & _); [ rewrite Hfrom; tauto | ].
           rewrite Hdel in Hrun. now injection Hrun as <-.
      * unfold delete_descriptor, bind, deref in Hrun. rewrite Hd in Hrun. discriminate.
Qed.

Lemma proxy_links_stay_paired_witness :
  exists w',
    proxy_calls [Start 3%N 1%N 0 5; Stop 1%N; Start 1%N 3%N 20 0; Delete 3%N; Delete 2%N]
      three_connections = Some w'
    /\ links_paired w'.
Proof.
  eexists. split; [ vm_compute; reflexivity | ].
  apply (proxy_links_stay_paired
           [Start 3%N 1%N 0 5; Stop 1%N; Start 1%N 3%N 20 0; Delete 3%N; Delete 2%N]
           three_connections _ three_connections_paired).
  vm_compute. reflexivity.
Defined.

(** [StartProxy] towards a target that is already proxied from another
    source throws, but only after it has dropped the caller's previous link
    and pointed the caller at the target: the caller is left with a
    [ProxyTarget] that the target does not answer. *)
Theorem StartProxy_busy_target_leaves_one_sided_link (p t q : binding) (bufsize length : Z)
    (w : World) (d dt : descriptor) :
  links_paired w -> objs w !! p = Some d -> objs w !! t = Some dt ->
  ProxiedFrom dt = Some q -> q <> p ->
  exists w',
    StartProxy p t bufsize length w = Thrown "Tried to proxy to a busy target" w'
    /\ target_of w' p = Some t /\ source_of w' t = Some q
    /\ (forall b, target_of w p = Some b -> source_of w' b = None)
    /\ ~ links_paired w'.
Proof.
  intros Hpaired Hd Hdt Hbusy Hne.
  destruct (StartProxy_busy p t q bufsize length w d dt Hpaired Hd Hdt Hbusy Hne)
    as (w' & Hrun & HT & HF & Hold & _).
  exists w'. repeat (split; [ assumption | ]).
  intros Hp. apply Hp in HT. congruence.
Qed.

Lemma StartProxy_busy_target_leaves_one_sided_link_witness :
  exists w',
    StartProxy 3%N 2%N 0 0 three_connections = Thrown "Tried to proxy to a busy target" w'
    /\ target_of w' 3%N = Some 2%N /\ source_of w' 2%N = Some 1%N
    /\ (forall b, target_of three_connections 3%N = Some b -> source_of w' b = None)
    /\ ~ links_paired w'.
Proof.
  assert (Hd : exists d, objs three_connections !! 3%N = Some d)
    by (eexists; vm_compute; reflexivity).
  assert (Hdt : exists dt, objs three_connections !! 2%N = Some dt
                           /\ ProxiedFrom dt = Some 1%N)
    by (eexists; split; vm_compute; reflexivity).
  destruct Hd as [d Hd]. destruct Hdt as (dt & Hdt & Hbusy).
  apply (StartProxy_busy_target_leaves_one_sided_link 3%N 2%N 1%N 0 0 three_connections d dt
           three_connections_paired Hd Hdt Hbusy).
  discriminate.
Defined.

(** [delete] on a live descriptor of a world whose links are paired (with a
    callback installed if it is a proxy target) returns and removes the
    object; no live object is left pointing at it, the links stay paired,
    and every other object stays live.  The only callbacks are the unbound
    event with the reason code, when a callback is installed and the
    descriptor is neither a loop breaker nor an inotify descriptor, followed
    by the proxy-target-unbound event for its proxy source, if it has one;
    the count of scheduled closes goes down by one. *)
Theorem delete_leaves_no_dangling_link (p : binding) (w : World) (d : descriptor) :
  links_paired w -> objs w !! p = Some d ->
  (ProxiedFrom d <> None -> EventCallback d = true) ->
  exists w' pre closing,
    delete_descriptor p w = Returned tt w'
    /\ objs w' !! p = None
    /\ (forall q x, objs w' !! q = Some x ->
          ProxyTarget x <> Some p /\ ProxiedFrom x <> Some p)
    /\ links_paired w'
    /\ (forall q, q <> p -> objs w !! q = None <-> objs w' !! q = None)
    /\ NumCloseScheduled w' = NumCloseScheduled w - 1
    /\ trace w'
       = trace w ++ pre
         ++ (if EventCallback d && bCallbackUnbind d
             then [Callback p EM_CONNECTION_UNBOUND None (UnbindReasonCode d)] else [])
         ++ match ProxiedFrom d with
            | Some from => [Callback from EM_PROXY_TARGET_UNBOUND None 0]
            | None => []
            end
         ++ closing
    /\ (forall ed ev data size, ~ In (Callback ed ev data size) (pre ++ closing)).
Proof.
  intros Hpaired Hd Hcb.
  destruct (delete_descriptor_run p w d Hpaired Hd Hcb)
    as (w' & pre & closing & Hrun & Hp' & Hgone & Hlive & Hn & Htr & Hquiet).
  exists w', pre, closing. split; [ exact Hrun | ]. split; [ exact Hgone | ].
  split; [ | auto 10 ].
  intros q x Hq. split; intros Hptr.
  - assert (Hsrc : source_of w' p = Some q).
    { apply Hp'. now rewrite (target_of_lookup w' q x Hq). }
    unfold source_of in Hsrc. rewrite Hgone in Hsrc. discriminate.
  - assert (Htgt : target_of w' p = Some q).
    { apply Hp'. now rewrite (source_of_lookup w' q x Hq). }
    unfold target_of in Htgt. rewrite Hgone in Htgt. discriminate.
Qed.

Lemma delete_leaves_no_dangling_link_witness :
  exists d,
    objs three_connections !! 2%N = Some d
    /\ exists w' pre closing,
         delete_descriptor 2%N three_connections = Returned tt w'
         /\ objs w' !! 2%N = None
         /\ (forall q x, objs w' !! q = Some x ->
               ProxyTarget x <> Some 2%N /\ ProxiedFrom x <> Some 2%N)
         /\ links_paired w'
         /\ (forall q, q <> 2%N -> objs three_connections !! q = None <-> objs w' !! q = None)
         /\ NumCloseScheduled w' = NumCloseScheduled three_connections - 1
         /\ trace w'
            = trace three_connections ++ pre
              ++ (if EventCallback d && bCallbackUnbind d
                  then [Callback 2%N EM_CONNECTION_UNBOUND None (UnbindReasonCode d)] else [])
              ++ match ProxiedFrom d with
                 | Some from => [Callback from EM_PROXY_TARGET_UNBOUND None 0]
                 | None => []
                 end
              ++ closing
         /\ (forall ed ev data size, ~ In (Callback ed ev data size) (pre ++ closing)).
Proof.
  eexists. split; [ vm_compute; reflexivity | ].
  apply (delete_leaves_no_dangling_link 2%N three_connections _ three_connections_paired).
  - vm_compute. reflexivity.
  - reflexivity.
Defined.

(** Deleting the target of the sample proxy: the handle 8 is deregistered
    and closed, the target's unbound event and the source's
    proxy-target-unbound event fire, and the source is detached. *)
Example delete_proxy_target :
  exists w' d1,
    delete_descriptor 2%N three_connections = Returned tt w'
    /\ trace w' = [Callback 2%N EM_CONNECTION_UNBOUND None 0;
                   Callback 1%N EM_PROXY_TARGET_UNBOUND None 0;
                   Deregister 2%N; sys_shutdown 8 1; sys_close 8]
    /\ objs w' !! 1%N = Some d1 /\ ProxyTarget d1 = None.
Proof.
  eexists _, _. split; [ vm_compute; reflexivity | ].
  split; [ reflexivity | ]. split; [ vm_compute; reflexivity | reflexivity ].
Qed.

(** ** The datagram queue *)

Lemma sum_Z_app (l1 l2 : list Z) : sum_Z (l1 ++ l2) = sum_Z l1 + sum_Z l2.
Proof.
  induction l1 as [ | x l1 IH ]; [ reflexivity | ].
  cbn [app]. unfold sum_Z in *. cbn [fold_right]. lia.
Qed.

Lemma sum_Z_take_drop (k : nat) (l : list Z) :
  sum_Z l = sum_Z (firstn k l) + sum_Z (skipn k l).
Proof. rewrite <- sum_Z_app. now rewrite firstn_skipn. Qed.

Lemma sum_Z_nonneg (l : list Z) : Forall (fun x => 0 <= x) l -> 0 <= sum_Z l.
Proof. induction 1; unfold sum_Z in *; cbn [fold_right]; lia. Qed.

(** After [Close] the handle is invalid, whatever it was. *)
Lemma Close_invalidates (p : binding) (w : World) (d : descriptor) :
  objs w !! p = Some d ->
  exists w', Close p w = Returned tt w'
             /\ objs w' = <[p := set_MySocket INVALID_SOCKET d]> (objs w).
Proof.
  intros H. unfold Close. mstep.
  destruct (MySocket d =? INVALID_SOCKET) eqn:Hsd; mstep.
  - exists w. split; [ reflexivity | ]. apply Z.eqb_eq in Hsd.
    rewrite insert_id; [ reflexivity | ]. rewrite H. f_equal.
    destruct d. cbn in *. now subst.
  - destruct ((2 <? MySocket d) && negb (bAttached d)); mstep;
      eexists; (split; [ reflexivity | ]); reflexivity.
Qed.

(** What one run of the loop of [Write] does to the socket [p]:
    it hands the first [k] queued datagrams to [sendto], in order and each
    as a whole, and takes them off the queue whether or not the kernel took
    them; it stops early only at a fatal error, on which it closes the
    socket. *)
Lemma DatagramDescriptor_Write_loop_run (p : binding) (kernel : nat -> kernel_sendto)
    (n i : nat) (sent : list sendto_call) (w : World) (d : descriptor) :
  objs w !! p = Some d ->
  Forall datagram_pending (OutboundPages d) ->
  exists k w' d',
    DatagramDescriptor_Write_loop p kernel n i sent w
    = Returned (sent ++ map sendto_of (firstn k (OutboundPages d))) w'
    /\ objs w' !! p = Some d'
    /\ (k <= n)%nat /\ (k <= List.length (OutboundPages d))%nat
    /\ OutboundPages d' = skipn k (OutboundPages d)
    /\ OutboundDataSize d'
       = OutboundDataSize d - sum_Z (map Length (firstn k (OutboundPages d)))
    /\ (forall j, (S j < k)%nat -> sendto_fatal (kernel (i + j)%nat) = false)
    /\ ((k = Nat.min n (List.length (OutboundPages d))
         /\ (forall j, (j < k)%nat -> sendto_fatal (kernel (i + j)%nat) = false)
         /\ MySocket d' = MySocket d /\ UnbindReasonCode d' = UnbindReasonCode d)
        \/ (exists j e, k = S j /\ kernel (i + j)%nat = SendtoFails e
                        /\ write_would_block e = false
                        /\ MySocket d' = INVALID_SOCKET /\ UnbindReasonCode d' = e))
    /\ kind d' = kind d /\ bCloseNow d' = bCloseNow d
    /\ bCloseAfterWriting d' = bCloseAfterWriting d
    /\ ReturnAddress d' = ReturnAddress d /\ LastActivity d' = LastActivity d
    /\ (forall q, q <> p -> objs w' !! q = objs w !! q).
Proof.
  revert i sent w d. induction n as [ | n IH ]; intros i sent w d Hd Hpages.
  - exists O, w, d. cbn [DatagramDescriptor_Write_loop]. rewrite firstn_O. cbn [map].
    rewrite app_nil_r.
    split; [ reflexivity | ]. split; [ exact Hd | ].
    split; [ lia | ]. split; [ lia | ]. split; [ reflexivity | ].
    split; [ cbn; unfold sum_Z; cbn; lia | ]. split; [ intros; lia | ].
    split; [ left; repeat split; intros; lia | ]. now repeat split.
  - cbn [DatagramDescriptor_Write_loop].
    rewrite (bind_run _ _ _ _ _ (deref_run _ _ _ Hd)).
    destruct (OutboundPages d) as [ | op rest ] eqn:Hq.
    + exists O, w, d. rewrite firstn_O. cbn [map]. rewrite app_nil_r, Hq.
      split; [ reflexivity | ]. split; [ exact Hd | ].
      split; [ lia | ]. split; [ cbn; lia | ]. split; [ reflexivity | ].
      split; [ cbn; unfold sum_Z; cbn; lia | ]. split; [ intros; lia | ].
      split; [ left; repeat split; intros; lia | ]. now repeat split.
    + apply Forall_cons in Hpages as [[Hoff Hlen] Hrest].
      set (d1 := set_OutboundPages rest
                   (set_OutboundDataSize (OutboundDataSize d - Length op) d)).
      set (w1 := set_descriptor p d1 w).
      assert (Hstep : forall B (k : unit -> M B),
                 (modify p (fun d => set_OutboundDataSize (OutboundDataSize d - Length op) d) ;;
                  x <- modify p (fun d => set_OutboundPages (tl (OutboundPages d)) d) ;; k x) w
                 = k tt w1).
      { intros B k. rewrite (bind_run _ _ _ _ _ (modify_set _ _ _ _ Hd)).
        rewrite (bind_run _ _ _ _ _ (modify_set _ _ _ _ (lookup_set_descriptor_eq _ _ _))).
        cbn [OutboundPages set_OutboundDataSize tl]. rewrite Hq. cbn [tl].
        subst w1 d1. unfold set_descriptor. cbn. now rewrite insert_insert_eq. }
      assert (Hd1 : objs w1 !! p = Some d1) by apply lookup_set_descriptor_eq.
      destruct (sendto_fatal (kernel i)) eqn:Hfatal.
      * (* the socket is given up *)
        destruct (kernel i) as [ | e] eqn:Hk; [ discriminate | ].
        cbn [sendto_fatal] in Hfatal. cbn [sys_sendto].
        rewrite Hstep. rewrite Z.eqb_refl, Hfatal. cbn [andb].
        rewrite (bind_run _ _ _ _ _ (modify_set _ _ _ _ Hd1)).
        destruct (Close_invalidates p (set_descriptor p (set_UnbindReasonCode e d1) w1)
                    (set_UnbindReasonCode e d1) (lookup_set_descriptor_eq _ _ _))
          as (w2 & Hclose & Hobjs2).
        rewrite (bind_run _ _ _ _ _ Hclose). cbn [ret].
        exists 1%nat, w2, (set_MySocket INVALID_SOCKET (set_UnbindReasonCode e d1)).
        split; [ rewrite firstn_cons, firstn_O; reflexivity | ].
        split; [ rewrite Hobjs2; apply lookup_insert_eq | ].
        split; [ lia | ]. split; [ cbn; lia | ]. split; [ reflexivity | ].
        split; [ unfold d1; cbn; rewrite firstn_O; unfold sum_Z; cbn; lia | ].
        split; [ intros; lia | ].
        split.
        { right. exists O, e. rewrite Nat.add_0_r. apply negb_true_iff in Hfatal.
          now repeat split. }
        do 5 (split; [ reflexivity | ]).
        intros q Hne. rewrite Hobjs2. rewrite lookup_insert_ne by congruence.
        subst w1. now rewrite !lookup_set_descriptor_ne by congruence.
      * (* the datagram is gone, sent or not; on to the next *)
        assert (Hgo : (let '(s, e) := sys_sendto (kernel i) (Length op) in
                       (s =? SOCKET_ERROR) && negb (write_would_block e)) = false).
        { destruct (kernel i) as [ | e]; cbn [sys_sendto sendto_fatal] in *.
          - replace (Length op =? SOCKET_ERROR) with false; [ reflexivity | ].
            symmetry. apply Z.eqb_neq. unfold SOCKET_ERROR. lia.
          - rewrite Hfatal. apply andb_false_r. }
        destruct (sys_sendto (kernel i) (Length op)) as [s e]. rewrite Hstep, Hgo.
        destruct (IH (S i) (sent ++ [sendto_of op]) w1 d1 Hd1 Hrest)
          as (k & w' & d' & Hrun & Hd' & Hkn & Hklen & Hq' & Hsize' & Hnofatal & Hend
              & Hkind & Hnow & Hafter & Hret & Hact & Hothers).
        exists (S k), w', d'. rewrite firstn_cons. cbn [map].
        split; [ rewrite Hrun; cbn [OutboundPages set_OutboundPages d1];
                 now rewrite <- app_assoc | ].
        split; [ exact Hd' | ]. split; [ lia | ]. split; [ cbn; cbn in Hklen; lia | ].
        split; [ exact Hq' | ].
        split; [ rewrite Hsize'; cbn; unfold sum_Z; cbn [fold_right]; lia | ].
        split.
        { intros [ | j] Hj.
          - now rewrite Nat.add_0_r.
          - replace (i + S j)%nat with (S i + j)%nat by lia. apply Hnofatal. lia. }
        split.
        { destruct Hend as [(Hk & Hall & Hsd & Hur) | (j & e' & Hk & Hke & Hwb & Hsd & Hur)].
          - left. split; [ cbn in Hk |- *; lia | ]. split; [ | now split ].
            intros [ | j] Hj.
            + now rewrite Nat.add_0_r.
            + replace (i + S j)%nat with (S i + j)%nat by lia. apply Hall. lia.
          - right. exists (S j), e'. split; [ lia | ].
            replace (i + S j)%nat with (S i + j)%nat by lia. auto. }
        split; [ exact Hkind | ]. split; [ exact Hnow | ]. split; [ exact Hafter | ].
        split; [ exact Hret | ]. split; [ exact Hact | ].
        intros q Hne. rewrite (Hothers q Hne). subst w1.
        now rewrite lookup_set_descriptor_ne by congruence.
Qed.

Lemma DatagramDescriptor_SendOutboundDatagram_run
    (name2address : string -> Z -> option sockaddr) (p : binding) (data : list byte)
    (length : Z) (address : option string) (port : Z) (w : World) (d : descriptor) :
  objs w !! p = Some d ->
  (exists n, (n = 0 \/ n = -1)
             /\ DatagramDescriptor_SendOutboundDatagram name2address p data length address port w
                = Returned n w)
  \/ DatagramDescriptor_SendOutboundDatagram name2address p data length address port w
     = Aborted OutOfBounds
  \/ exists a addr_here,
       address = Some a /\ name2address a port = Some addr_here
       /\ IsCloseScheduled d = false
       /\ DatagramDescriptor_SendOutboundDatagram name2address p data length address port w
          = Returned (to_int length)
              (set_descriptor p
                 (set_OutboundDataSize (to_int (OutboundDataSize d + length))
                    (set_OutboundPages
                       (OutboundPages d
                          ++ [mkOutboundPage (firstn (Z.to_nat length) data ++ [x00])
                                (to_int length) 0 (Some addr_here)]) d)) w).
Proof.
  intros H. unfold DatagramDescriptor_SendOutboundDatagram, copy_outbound. mstep.
  destruct (IsCloseScheduled d); [ left; exists 0; auto | ].
  destruct address as [[ | c a] | ]; [ left; exists 0; auto | | left; exists 0; auto ].
  destruct (port =? 0); [ left; exists 0; auto | ].
  destruct (name2address (String c a) port) as [addr_here | ] eqn:Hres;
    [ | left; exists (-1); auto ].
  destruct (Z.of_nat (List.length data) <? length); mstep; [ right; left; reflexivity | ].
  right. right. exists (String c a), addr_here. auto.
Qed.

Lemma datagram_accounted_push (d : descriptor) (buffer : list byte) (length : Z)
    (to : option sockaddr) :
  datagram_accounted d -> 0 <= length ->
  datagram_accounted
    (set_OutboundDataSize (OutboundDataSize d + length)
       (set_OutboundPages (OutboundPages d ++ [mkOutboundPage buffer length 0 to]) d)).
Proof.
  intros [Hsize Hpages] Hlen. split; cbn.
  - rewrite map_app, sum_Z_app, Hsize. cbn. unfold sum_Z. cbn. lia.
  - apply Forall_app. split; [ exact Hpages | ].
    constructor; [ | constructor ]. split; [ reflexivity | exact Hlen ].
Qed.


Lemma DatagramDescriptor_Write_run (p : binding) (kernel : nat -> kernel_sendto)
    (w : World) (d : descriptor) :
  objs w !! p = Some d -> MySocket d <> INVALID_SOCKET -> OutboundPages d <> [] ->
  Forall datagram_pending (OutboundPages d) ->
  exists k w' d',
    DatagramDescriptor_Write p kernel w
    = Returned (map sendto_of (firstn k (OutboundPages d))) w'
    /\ objs w' !! p = Some d'
    /\ (1 <= k <= 10)%nat /\ (k <= List.length (OutboundPages d))%nat
    /\ OutboundPages d' = skipn k (OutboundPages d)
    /\ OutboundDataSize d'
       = OutboundDataSize d - sum_Z (map Length (firstn k (OutboundPages d)))
    /\ LastActivity d' = GetCurrentLoopTime w
    /\ ((k = Nat.min 10 (List.length (OutboundPages d))
         /\ (forall j, (j < k)%nat -> sendto_fatal (kernel j) = false)
         /\ MySocket d' = MySocket d /\ UnbindReasonCode d' = UnbindReasonCode d)
        \/ (exists j e, k = S j /\ kernel j = SendtoFails e
                        /\ (forall j', (j' < j)%nat -> sendto_fatal (kernel j') = false)
                        /\ write_would_block e = false
                        /\ MySocket d' = INVALID_SOCKET /\ UnbindReasonCode d' = e))
    /\ kind d' = kind d /\ bCloseNow d' = bCloseNow d
    /\ bCloseAfterWriting d' = bCloseAfterWriting d
    /\ ReturnAddress d' = ReturnAddress d
    /\ (forall q, q <> p -> objs w' !! q = objs w !! q).
Proof.
  intros Hd Hsd Hq Hpages. unfold DatagramDescriptor_Write.
  rewrite (bind_run _ _ _ _ _ (deref_run _ _ _ Hd)).
  apply Z.eqb_neq in Hsd. rewrite Hsd. cbn [negb assert]. unfold bind at 1, ret at 1.
  unfold reactor at 1. unfold bind at 1.
  rewrite (bind_run _ _ _ _ _ (modify_set _ _ _ _ Hd)).
  assert (Hnonempty : (0 <? Z.of_nat (List.length (OutboundPages d))) = true).
  { apply Z.ltb_lt. destruct (OutboundPages d); [ congruence | cbn; lia ]. }
  rewrite Hnonempty. cbn [assert]. unfold bind at 1, ret at 1.
  set (d0 := set_LastActivity (GetCurrentLoopTime w) d).
  destruct (DatagramDescriptor_Write_loop_run p kernel 10 0 [] (set_descriptor p d0 w) d0
              (lookup_set_descriptor_eq _ _ _) Hpages)
    as (k & w' & d' & Hrun & Hd' & Hkn & Hklen & Hq' & Hsize' & Hnofatal & Hend
        & Hkind & Hnow & Hafter & Hret & Hact & Hothers).
  exists k, w', d'. split; [ exact Hrun | ]. split; [ exact Hd' | ].
  assert (Hk1 : (1 <= k)%nat).
  { destruct Hend as [(Hk & _) | (j & e & Hk & _)]; [ | lia ].
    cbn [OutboundPages d0 set_LastActivity] in Hk.
    destruct (OutboundPages d); [ congruence | cbn in Hk; lia ]. }
  split; [ lia | ]. split; [ exact Hklen | ]. split; [ exact Hq' | ].
  split; [ exact Hsize' | ]. split; [ exact Hact | ].
  split.
  { destruct Hend as [(Hk & Hall & Hsd' & Hur) | (j & e & Hk & Hke & Hwb & Hsd' & Hur)].
    - left. auto.
    - right. exists j, e. repeat split; auto.
      intros j' Hj'. apply (Hnofatal j'). lia. }
  split; [ exact Hkind | ]. split; [ exact Hnow | ]. split; [ exact Hafter | ].
  split; [ exact Hret | ].
  intros q Hne. rewrite (Hothers q Hne). now rewrite lookup_set_descriptor_ne by congruence.
Qed.

Lemma datagram_accounted_drop (k : nat) (d d' : descriptor) :
  datagram_accounted d ->
  OutboundPages d' = skipn k (OutboundPages d) ->
  OutboundDataSize d'
  = OutboundDataSize d - sum_Z (map Length (firstn k (OutboundPages d))) ->
  datagram_accounted d'.
Proof.
  intros [Hsize Hpages] Hq' Hsize'. split.
  - rewrite Hsize', Hq', Hsize.
    rewrite (sum_Z_take_drop k (map Length (OutboundPages d))).
    rewrite firstn_map, skipn_map. lia.
  - rewrite Hq'. now apply Forall_drop.
Qed.

Lemma datagram_accounted_nonneg (d : descriptor) :
  datagram_accounted d -> 0 <= OutboundDataSize d.
Proof.
  intros [Hsize Hpages]. rewrite Hsize. apply sum_Z_nonneg, Forall_map.
  eapply Forall_impl; [ exact Hpages | ]. now intros op [_ Hlen].
Qed.

(** A call that keeps the count within [int] keeps the queue accounted, and
    raises the count by its length at most. *)
Lemma datagram_call_preserves (name2address : string -> Z -> option sockaddr)
    (p : binding) (c : datagram_call) (w w' : World) (d : descriptor) :
  objs w !! p = Some d -> datagram_accounted d ->
  OutboundDataSize d + datagram_call_length c <= INT_MAX ->
  world_after (datagram_call_run name2address p c w) = Some w' ->
  exists d', objs w' !! p = Some d' /\ datagram_accounted d'
             /\ OutboundDataSize d' <= OutboundDataSize d + datagram_call_length c.
Proof.
  intros Hd Hacc Hmax Hrun.
  pose proof (datagram_accounted_nonneg d Hacc) as Hnonneg.
  assert (Hpush : forall length buffer to,
             OutboundDataSize d + Z.of_N length <= INT_MAX ->
             exists d',
               objs (set_descriptor p
                       (set_OutboundDataSize (to_int (OutboundDataSize d + Z.of_N length))
                          (set_OutboundPages
                             (OutboundPages d
                                ++ [mkOutboundPage buffer (to_int (Z.of_N length)) 0 to]) d))
                       w) !! p = Some d'
               /\ datagram_accounted d'
               /\ OutboundDataSize d' <= OutboundDataSize d + Z.of_N length).
  { intros length buffer to Hm. unfold INT_MAX in Hm.
    rewrite !to_int_small by (unfold INT_MIN, INT_MAX; lia).
    eexists. split; [ apply lookup_set_descriptor_eq | ].
    split; [ apply datagram_accounted_push; [ exact Hacc | lia ] | cbn; lia ]. }
  destruct c as [data length | data length address port | kernel];
    cbn [datagram_call_run datagram_call_length] in *; unfold bind in Hrun.
  - rewrite (DatagramDescriptor_SendOutboundData_run p data (Z.of_N length) w d Hd) in Hrun.
    destruct (IsCloseScheduled d).
    { injection Hrun as <-. exists d. split; [ exact Hd | ]. split; [ exact Hacc | lia ]. }
    destruct (Z.of_nat (List.length data) <? Z.of_N length); [ discriminate | ].
    injection Hrun as <-. now apply Hpush.
  - destruct (DatagramDescriptor_SendOutboundDatagram_run name2address p data
                (Z.of_N length) address port w d Hd)
      as [(n & _ & E) | [E | (a & addr_here & _ & _ & _ & E)]]; rewrite E in Hrun.
    + injection Hrun as <-. exists d. split; [ exact Hd | ]. split; [ exact Hacc | lia ].
    + discriminate.
    + injection Hrun as <-. now apply Hpush.
  - destruct (MySocket d =? INVALID_SOCKET) eqn:Hsd.
    { unfold DatagramDescriptor_Write in Hrun.
      rewrite (bind_run _ _ _ _ _ (deref_run _ _ _ Hd)) in Hrun.
      rewrite Hsd in Hrun. discriminate. }
    destruct (OutboundPages d) as [ | op rest ] eqn:Hq.
    { unfold DatagramDescriptor_Write in Hrun.
      rewrite (bind_run _ _ _ _ _ (deref_run _ _ _ Hd)) in Hrun.
      rewrite Hsd, Hq in Hrun. cbn [negb assert] in Hrun. unfold bind at 1, ret at 1 in Hrun.
      unfold reactor at 1 in Hrun. unfold bind at 1 in Hrun.
      rewrite (bind_run _ _ _ _ _ (modify_set _ _ _ _ Hd)) in Hrun. discriminate. }
    apply Z.eqb_neq in Hsd.
    destruct (DatagramDescriptor_Write_run p kernel w d Hd Hsd) as
      (k & w1 & d' & E & Hd' & _ & _ & Hq' & Hsize' & _);
      [ rewrite Hq; discriminate | apply Hacc | ].
    rewrite E in Hrun. injection Hrun as <-. exists d'. split; [ exact Hd' | ].
    split; [ now apply (datagram_accounted_drop k d) | ].
    assert (0 <= sum_Z (map Length (firstn k (OutboundPages d)))).
    { apply sum_Z_nonneg, Forall_map, Forall_take.
      eapply Forall_impl; [ apply Hacc | ]. now intros x [_ Hlen]. }
    lia.
Qed.

Lemma datagram_offered_nonneg (calls : list datagram_call) : 0 <= datagram_offered calls.
Proof.
  induction calls as [ | c calls IH ]; [ unfold datagram_offered, sum_Z; cbn; lia | ].
  change (datagram_offered (c :: calls))
    with (datagram_call_length c + datagram_offered calls).
  destruct c; cbn [datagram_call_length]; lia.
Qed.

Lemma datagram_calls_preserve (name2address : string -> Z -> option sockaddr)
    (p : binding) (calls : list datagram_call) (w w' : World) (d : descriptor) :
  objs w !! p = Some d -> datagram_accounted d ->
  OutboundDataSize d + datagram_offered calls <= INT_MAX ->
  datagram_calls name2address p calls w = Some w' -> datagram_inv p w'.
Proof.
  revert w d. induction calls as [ | c calls IH ]; intros w d Hd Hacc Hmax;
    cbn [datagram_calls].
  - intros [= <-]. now exists d.
  - destruct (world_after (datagram_call_run name2address p c w)) as [w1 | ] eqn:Hstep;
      [ | discriminate ].
    change (datagram_offered (c :: calls))
      with (datagram_call_length c + datagram_offered calls) in Hmax.
    pose proof (datagram_offered_nonneg calls) as Hrest.
    destruct (datagram_call_preserves name2address p c w w1 d Hd Hacc ltac:(lia) Hstep)
      as (d1 & Hd1 & Hacc1 & Hs1).
    apply (IH w1 d1 Hd1 Hacc1). lia.
Qed.

(** ** Inbound bursts *)

Lemma set_ReturnAddress_id (d : descriptor) : set_ReturnAddress (ReturnAddress d) d = d.
Proof. now destruct d. Qed.

(** What a successful [read] leaves at the start of the buffer, also after
    the guard byte has been stored behind it. *)
Lemma sys_read_delivers (pending : list byte) (sender : sockaddr) (buf : list byte) :
  (0 < List.length buf)%nat ->
  let got := firstn (List.length buf - 1) pending in
  exists buf',
    sys_read (Delivers pending sender) buf (Z.of_nat (List.length buf) - 1)
    = (buf', Z.of_nat (List.length got), 0)
    /\ List.length buf' = List.length buf
    /\ (List.length got < List.length buf)%nat
    /\ firstn (List.length got) (<[List.length got := x00]> buf') = got.
Proof.
  intros Hbuf got. cbn [sys_read].
  replace (Z.to_nat (Z.of_nat (List.length buf) - 1)) with (List.length buf - 1)%nat by lia.
  fold got. eexists. split; [ reflexivity | ].
  assert (Hgot : (List.length got <= List.length buf - 1)%nat).
  { subst got. rewrite length_firstn. lia. }
  split; [ rewrite length_app, length_skipn; lia | ]. split; [ lia | ].
  rewrite take_insert_ge by lia. apply take_app_length.
Qed.

Lemma DatagramDescriptor_Read_loop_run (p : binding) (kernel : nat -> kernel_read)
    (n i : nat) (buf : list byte) (w : World) (d : descriptor) :
  objs w !! p = Some d -> EventCallback d = true -> ProxyTarget d = None ->
  (0 < List.length buf)%nat ->
  exists new,
    DatagramDescriptor_Read_loop p kernel n i buf w
    = Returned tt
        (set_descriptor p
           (set_ReturnAddress
              (reply_address (datagram_burst (List.length buf - 1) kernel n i)
                 (ReturnAddress d)) d)
           (set_trace (trace w ++ new) w))
    /\ Forall2 (carries p) new (datagram_burst (List.length buf - 1) kernel n i).
Proof.
  revert i buf w d. induction n as [ | n IH ]; intros i buf w d Hd Hcb Htarget Hbuf.
  - exists []. cbn [DatagramDescriptor_Read_loop datagram_burst reply_address fold_left].
    split; [ | constructor ].
    rewrite set_ReturnAddress_id, app_nil_r. unfold ret, set_descriptor. cbn.
    rewrite insert_id by exact Hd. now destruct w.
  - cbn [DatagramDescriptor_Read_loop datagram_burst].
    destruct (kernel i) as [pending sender | e] eqn:Hk.
    + destruct (sys_read_delivers pending sender buf Hbuf) as (buf' & -> & Hlen & Hgot & Htake).
      set (got := firstn (List.length buf - 1) pending) in *.
      replace (0 <=? Z.of_nat (List.length got)) with true by (symmetry; apply Z.leb_le; lia).
      destruct (array_store_run buf' (Z.of_nat (List.length got)) ltac:(lia)) as [-> _].
      rewrite Nat2Z.id. unfold bind at 1, ret at 1.
      rewrite (bind_run _ _ _ _ _ (modify_set _ _ _ _ Hd)).
      cbn [sender_of].
      set (d1 := set_ReturnAddress sender d).
      assert (Hdet : detached (set_descriptor p d1 w) p).
      { exists d1. split; [ apply lookup_set_descriptor_eq | now split ]. }
      rewrite (bind_run _ _ _ _ _ (dispatch_when_detached _ p _ _ Hdet)).
      set (buf1 := <[List.length got := x00]> buf') in *.
      set (e1 := Callback p EM_CONNECTION_READ (Some buf1) (Z.of_nat (List.length got))).
      destruct (IH (S i) buf1 (set_trace (trace (set_descriptor p d1 w) ++ [e1])
                                 (set_descriptor p d1 w)) d1)
        as (new & Hrun & Hnew);
        [ apply lookup_set_descriptor_eq | exact Hcb | exact Htarget
        | subst buf1; rewrite length_insert; lia | ].
      assert (Hlen1 : List.length buf1 = List.length buf)
        by (subst buf1; now rewrite length_insert).
      rewrite Hlen1 in Hrun, Hnew.
      exists (e1 :: new). split.
      * rewrite Hrun. cbn [reply_address fold_left snd]. f_equal.
        unfold set_descriptor. cbn. rewrite insert_insert_eq, <- app_assoc. reflexivity.
      * constructor; [ | exact Hnew ]. exists buf1. split; [ reflexivity | exact Htake ].
    + cbn [sys_read]. replace (0 <=? -1) with false by reflexivity.
      exists []. cbn [reply_address fold_left]. split; [ | constructor ].
      rewrite set_ReturnAddress_id, app_nil_r. unfold ret, set_descriptor. cbn.
      rewrite insert_id by exact Hd. now destruct w.
Qed.

(** Start from a datagram socket whose byte count matches its queue (a new
    one: count zero, queue empty) and run any sequence of
    [SendOutboundData], [SendOutboundDatagram] and [Write] calls, whatever
    the resolver and the kernel answer, in which the bytes queued at the
    start and the lengths of all the sends together do not exceed
    [INT_MAX].  In every world reached, [OutboundDataSize] is the sum of the
    lengths of the queued datagrams, no datagram is partly sent, and the
    count is not negative; it is zero when the queue is empty. *)
Theorem datagram_byte_count_accounted (name2address : string -> Z -> option sockaddr)
    (p : binding) (calls : list datagram_call) (w w' : World) (d : descriptor) :
  objs w !! p = Some d ->
  datagram_accounted d ->
  OutboundDataSize d + datagram_offered calls <= INT_MAX ->
  datagram_calls name2address p calls w = Some w' ->
  exists d',
    objs w' !! p = Some d'
    /\ OutboundDataSize d' = sum_Z (map Length (OutboundPages d'))
    /\ Forall (fun op => Offset op = 0) (OutboundPages d')
    /\ 0 <= OutboundDataSize d'
    /\ (OutboundPages d' = [] -> OutboundDataSize d' = 0).
Proof.
  intros Hd Hacc Hmax Hrun.
  destruct (datagram_calls_preserve name2address p calls w w' d Hd Hacc Hmax Hrun)
    as (d' & Hd' & Hsize & Hpages).
  exists d'. split; [ exact Hd' | ]. split; [ exact Hsize | ].
  split; [ | split ].
  - eapply Forall_impl; [ exact Hpages | ]. now intros op [Hoff _].
  - rewrite Hsize. apply sum_Z_nonneg. apply Forall_map.
    eapply Forall_impl; [ exact Hpages | ]. now intros op [_ Hlen].
  - intros Hq. rewrite Hsize, Hq. reflexivity.
Qed.

Lemma datagram_byte_count_accounted_witness :
  exists w',
    datagram_calls sample_resolver 1%N sample_datagram_calls datagram_world = Some w'
    /\ exists d',
         objs w' !! 1%N = Some d'
         /\ OutboundDataSize d' = sum_Z (map Length (OutboundPages d'))
         /\ Forall (fun op => Offset op = 0) (OutboundPages d')
         /\ 0 <= OutboundDataSize d'
         /\ (OutboundPages d' = [] -> OutboundDataSize d' = 0).
Proof.
  eexists. split; [ vm_compute; reflexivity | ].
  apply (datagram_byte_count_accounted sample_resolver 1%N sample_datagram_calls
           datagram_world _
           (init_EventableDescriptor DatagramDescriptor 7 0)).
  - reflexivity.
  - split; [ reflexivity | constructor ].
  - vm_compute. discriminate.
  - vm_compute. reflexivity.
Defined.

(** A datagram of four gibibytes is queued with length zero and leaves the
    count at zero: the length [2 ^ 32] converts to the [int] 0. *)
Example datagram_count_wraps_around :
  exists w' d' op,
    DatagramDescriptor_SendOutboundData 1%N four_GiB (2 ^ 32) datagram_world = Returned 0 w'
    /\ objs w' !! 1%N = Some d'
    /\ OutboundPages d' = [op] /\ Length op = 0
    /\ OutboundDataSize d' = 0.
Proof.
  assert (Hd : objs datagram_world !! 1%N
               = Some (init_EventableDescriptor DatagramDescriptor 7 0)) by reflexivity.
  rewrite (DatagramDescriptor_SendOutboundData_run 1%N four_GiB (2 ^ 32) _ _ Hd).
  rewrite length_four_GiB.
  change (IsCloseScheduled (init_EventableDescriptor DatagramDescriptor 7 0)) with false.
  change (2 ^ 32 <? 2 ^ 32) with false. cbv iota.
  eexists _, _, _. split; [ reflexivity | ].
  split; [ apply lookup_set_descriptor_eq | ].
  split; [ reflexivity | ]. split; reflexivity.
Qed.

(** [DatagramDescriptor::Write] on a socket with a non-empty queue hands the
    first [k] queued datagrams to [sendto], in queue order, each as a whole
    with its own destination, where [1 <= k <= 10]; exactly these are taken
    off the queue and off the byte count, whether or not the kernel took
    them: a datagram whose [sendto] would block is dropped, not retried.
    [k] falls short of [min 10 (queue length)] only when the [k]-th [sendto]
    fails for another reason; then the socket is closed with that [errno] as
    the unbind reason. *)
Theorem DatagramDescriptor_Write_sends_in_order (p : binding)
    (kernel : nat -> kernel_sendto) (w : World) (d : descriptor) :
  objs w !! p = Some d -> MySocket d <> INVALID_SOCKET -> OutboundPages d <> [] ->
  Forall datagram_pending (OutboundPages d) ->
  exists k w' d',
    DatagramDescriptor_Write p kernel w
    = Returned (map sendto_of (firstn k (OutboundPages d))) w'
    /\ objs w' !! p = Some d'
    /\ (1 <= k <= 10)%nat /\ (k <= List.length (OutboundPages d))%nat
    /\ OutboundPages d' = skipn k (OutboundPages d)
    /\ OutboundDataSize d'
       = OutboundDataSize d - sum_Z (map Length (firstn k (OutboundPages d)))
    /\ ((k = Nat.min 10 (List.length (OutboundPages d))
         /\ (forall j, (j < k)%nat -> sendto_fatal (kernel j) = false)
         /\ MySocket d' = MySocket d /\ UnbindReasonCode d' = UnbindReasonCode d)
        \/ (exists j e, k = S j /\ kernel j = SendtoFails e
                        /\ (forall j', (j' < j)%nat -> sendto_fatal (kernel j') = false)
                        /\ write_would_block e = false
                        /\ MySocket d' = INVALID_SOCKET /\ UnbindReasonCode d' = e)).
Proof.
  intros Hd Hsd Hq Hpages.
  destruct (DatagramDescriptor_Write_run p kernel w d Hd Hsd Hq Hpages)
    as (k & w' & d' & Hrun & Hd' & Hk & Hklen & Hq' & Hsize' & _ & Hend & _).
  exists k, w', d'. auto 10.
Qed.

Lemma DatagramDescriptor_Write_sends_in_order_witness :
  exists d,
    objs two_datagrams_world !! 1%N = Some d
    /\ exists k w' d',
         DatagramDescriptor_Write 1%N kernel_blocks_second two_datagrams_world
         = Returned (map sendto_of (firstn k (OutboundPages d))) w'
         /\ objs w' !! 1%N = Some d'
         /\ (1 <= k <= 10)%nat /\ (k <= List.length (OutboundPages d))%nat
         /\ OutboundPages d' = skipn k (OutboundPages d)
         /\ OutboundDataSize d'
            = OutboundDataSize d - sum_Z (map Length (firstn k (OutboundPages d)))
         /\ ((k = Nat.min 10 (List.length (OutboundPages d))
              /\ (forall j, (j < k)%nat -> sendto_fatal (kernel_blocks_second j) = false)
              /\ MySocket d' = MySocket d /\ UnbindReasonCode d' = UnbindReasonCode d)
             \/ (exists j e, k = S j /\ kernel_blocks_second j = SendtoFails e
                             /\ (forall j', (j' < j)%nat ->
                                   sendto_fatal (kernel_blocks_second j') = false)
                             /\ write_would_block e = false
                             /\ MySocket d' = INVALID_SOCKET /\ UnbindReasonCode d' = e)).
Proof.
  eexists. split; [ vm_compute; reflexivity | ].
  apply (DatagramDescriptor_Write_sends_in_order 1%N kernel_blocks_second two_datagrams_world).
  - vm_compute. reflexivity.
  - vm_compute. discriminate.
  - discriminate.
  - repeat constructor; cbn; lia.
Defined.

(** The empty datagram, whose [sendto] would block, is handed to the kernel
    once and is gone from the queue. *)
Example would_block_drops_datagram :
  exists w' d',
    DatagramDescriptor_Write 1%N kernel_blocks_second two_datagrams_world
    = Returned [mkSendto [x68; x69; x00] 2 (Some []); mkSendto [x00] 0 (Some [])] w'
    /\ objs w' !! 1%N = Some d' /\ OutboundPages d' = [] /\ MySocket d' = 7.
Proof.
  eexists _, _. split; [ vm_compute; reflexivity | ].
  split; [ vm_compute; reflexivity | ]. split; reflexivity.
Qed.

(** A datagram socket with a close-after-writing scheduled reports itself
    deletable exactly when every datagram still queued is empty, although it
    selects writable as long as the queue is not empty: empty datagrams
    queued before the close do not delay the deletion. *)
Theorem closing_datagram_socket_deletable (d : descriptor) :
  kind d = DatagramDescriptor -> datagram_accounted d ->
  MySocket d <> INVALID_SOCKET -> bCloseNow d = false -> bCloseAfterWriting d = true ->
  (ShouldDelete d = true <-> Forall (fun op => Length op = 0) (OutboundPages d))
  /\ (DatagramDescriptor_SelectForWrite d = true <-> OutboundPages d <> []).
Proof.
  intros Hk [Hsize Hpages] Hsd Hnow Hafter. split.
  - unfold ShouldDelete, GetOutboundDataSize. rewrite Hk, Hnow, Hafter.
    apply Z.eqb_neq in Hsd. rewrite Hsd. cbn [orb andb]. rewrite Z.leb_le, Hsize.
    clear Hsize. induction Hpages as [ | op pages [_ Hlen] Hpages IH ].
    + split; [ intros; constructor | intros; unfold sum_Z; cbn; lia ].
    + assert (Hrest : 0 <= sum_Z (map Length pages)).
      { apply sum_Z_nonneg, Forall_map. eapply Forall_impl; [ exact Hpages | ].
        now intros x [_ Hx]. }
      change (sum_Z (map Length (op :: pages))) with (Length op + sum_Z (map Length pages)).
      split.
      * intros Hsum. constructor; [ lia | ]. apply IH. lia.
      * intros Hall. apply Forall_cons in Hall as [Hop Hall]. apply IH in Hall. lia.
  - unfold DatagramDescriptor_SelectForWrite. rewrite Z.ltb_lt.
    destruct (OutboundPages d); cbn; split; intros; try congruence; lia.
Qed.

Lemma closing_datagram_socket_deletable_witness :
  exists d,
    objs two_datagrams_world !! 1%N = Some d
    /\ (ShouldDelete (set_bCloseAfterWriting true d) = true
        <-> Forall (fun op => Length op = 0) (OutboundPages (set_bCloseAfterWriting true d)))
    /\ (DatagramDescriptor_SelectForWrite (set_bCloseAfterWriting true d) = true
        <-> OutboundPages (set_bCloseAfterWriting true d) <> []).
Proof.
  eexists. split; [ vm_compute; reflexivity | ].
  apply closing_datagram_socket_deletable.
  - reflexivity.
  - split; [ reflexivity | repeat constructor; cbn; lia ].
  - vm_compute. discriminate.
  - reflexivity.
  - reflexivity.
Defined.

(** What [DatagramDescriptor::Read] does on a valid socket that is not
    proxying and has a callback installed. *)
Lemma DatagramDescriptor_Read_run (p : binding) (stack : nat -> byte)
    (kernel : nat -> kernel_read) (w : World) (d : descriptor) :
  objs w !! p = Some d -> EventCallback d = true -> ProxyTarget d = None ->
  MySocket d <> INVALID_SOCKET ->
  exists new,
    DatagramDescriptor_Read p stack kernel w
    = Returned tt
        (set_descriptor p
           (set_ReturnAddress
              (reply_address (datagram_burst (DatagramDescriptor_readbuffer_size - 1) kernel 10 0) (ReturnAddress d))
              (set_LastActivity (GetCurrentLoopTime w) d))
           (set_trace (trace w ++ new) w))
    /\ Forall2 (carries p) new (datagram_burst (DatagramDescriptor_readbuffer_size - 1) kernel 10 0).
Proof.
  intros Hd Hcb Htarget Hsd. unfold DatagramDescriptor_Read.
  rewrite (bind_run _ _ _ _ _ (deref_run _ _ _ Hd)).
  apply Z.eqb_neq in Hsd. rewrite Hsd. cbn [negb assert]. unfold bind at 1, ret at 1.
  unfold reactor at 1. unfold bind at 1.
  rewrite (bind_run _ _ _ _ _ (modify_set _ _ _ _ Hd)).
  set (d0 := set_LastActivity (GetCurrentLoopTime w) d).
  destruct (DatagramDescriptor_Read_loop_run p kernel 10 0
              (automatic_array stack DatagramDescriptor_readbuffer_size)
              (set_descriptor p d0 w) d0)
    as (new & Hrun & Hnew);
    [ apply lookup_set_descriptor_eq | exact Hcb | exact Htarget
    | rewrite length_automatic_array; unfold DatagramDescriptor_readbuffer_size; lia | ].
  rewrite length_automatic_array in Hrun, Hnew.
  exists new. split; [ | exact Hnew ].
  rewrite Hrun. f_equal. unfold set_descriptor. cbn. now rewrite insert_insert_eq.
Qed.

(** [DatagramDescriptor::Read] on a valid socket that is not proxying and
    has a callback installed: the datagrams of the burst (up to ten, ending
    at the first [recvfrom] that fails, each cut to the 16383 bytes asked
    for) go to the connection-read callback one by one, in order, an empty
    datagram included; [ReturnAddress] ends up as the sender of the last of
    them, and stays what it was when the burst is empty; nothing else
    changes but [LastActivity]. *)
Theorem DatagramDescriptor_Read_delivers_burst (p : binding) (stack : nat -> byte)
    (kernel : nat -> kernel_read) (w : World) (d : descriptor) :
  objs w !! p = Some d -> EventCallback d = true -> ProxyTarget d = None ->
  MySocket d <> INVALID_SOCKET ->
  exists new,
    DatagramDescriptor_Read p stack kernel w
    = Returned tt
        (set_descriptor p
           (set_ReturnAddress
              (reply_address (datagram_burst (DatagramDescriptor_readbuffer_size - 1) kernel 10 0) (ReturnAddress d))
              (set_LastActivity (GetCurrentLoopTime w) d))
           (set_trace (trace w ++ new) w))
    /\ Forall2 (carries p) new (datagram_burst (DatagramDescriptor_readbuffer_size - 1) kernel 10 0).
Proof. exact (DatagramDescriptor_Read_run p stack kernel w d). Qed.

Lemma DatagramDescriptor_Read_delivers_burst_witness :
  exists new,
    DatagramDescriptor_Read 1%N dirty_stack kernel_two_datagrams
      (one_connection_world listening_datagram 5)
    = Returned tt
        (set_descriptor 1%N
           (set_ReturnAddress
              (reply_address (datagram_burst (DatagramDescriptor_readbuffer_size - 1) kernel_two_datagrams 10 0)
                 (ReturnAddress listening_datagram))
              (set_LastActivity (GetCurrentLoopTime (one_connection_world listening_datagram 5))
                 listening_datagram))
           (set_trace (trace (one_connection_world listening_datagram 5) ++ new)
              (one_connection_world listening_datagram 5)))
    /\ Forall2 (carries 1%N) new (datagram_burst (DatagramDescriptor_readbuffer_size - 1) kernel_two_datagrams 10 0).
Proof.
  apply (DatagramDescriptor_Read_delivers_burst 1%N dirty_stack kernel_two_datagrams
           (one_connection_world listening_datagram 5) listening_datagram).
  - reflexivity.
  - reflexivity.
  - reflexivity.
  - vm_compute. discriminate.
Defined.

(** After a [Read], [SendOutboundData] on a socket that is not closing
    queues its datagram for the sender of the last datagram that the read
    received (for the return address held before, if it received none): a
    reply goes back where the last datagram came from.  The datagram's
    length, the count and the value returned are [int]s: they receive the
    length, and the count plus the length, converted to [int], which are
    the length and the sum themselves as long as the count is not negative
    and the sum does not exceed [INT_MAX]. *)
Theorem reply_goes_to_last_sender (p : binding) (stack : nat -> byte)
    (kernel : nat -> kernel_read) (w : World) (d : descriptor)
    (data : list byte) (length : Z) :
  objs w !! p = Some d -> EventCallback d = true -> ProxyTarget d = None ->
  MySocket d <> INVALID_SOCKET -> IsCloseScheduled d = false ->
  0 <= length <= Z.of_nat (List.length data) ->
  exists w1 w2 d2,
    DatagramDescriptor_Read p stack kernel w = Returned tt w1
    /\ DatagramDescriptor_SendOutboundData p data length w1 = Returned (to_int length) w2
    /\ objs w2 !! p = Some d2
    /\ OutboundPages d2
       = OutboundPages d
         ++ [mkOutboundPage (firstn (Z.to_nat length) data ++ [x00]) (to_int length) 0
               (Some (reply_address
                        (datagram_burst (DatagramDescriptor_readbuffer_size - 1) kernel 10 0)
                        (ReturnAddress d)))]
    /\ OutboundDataSize d2 = to_int (OutboundDataSize d + length)
    /\ (0 <= OutboundDataSize d -> OutboundDataSize d + length <= INT_MAX ->
        to_int length = length
        /\ to_int (OutboundDataSize d + length) = OutboundDataSize d + length).
Proof.
  intros Hd Hcb Htarget Hsd Hclosing Hlen.
  destruct (DatagramDescriptor_Read_run p stack kernel w d Hd Hcb Htarget Hsd)
    as (new & Hread & _).
  eexists _, _, _. split; [ exact Hread | ].
  rewrite (DatagramDescriptor_SendOutboundData_run p data length _ _
             (lookup_set_descriptor_eq _ _ _)).
  change (IsCloseScheduled (set_ReturnAddress _ (set_LastActivity _ d)))
    with (IsCloseScheduled d).
  rewrite Hclosing.
  replace (Z.of_nat (List.length data) <? length) with false by (symmetry; apply Z.ltb_ge; lia).
  split; [ reflexivity | ]. split; [ apply lookup_set_descriptor_eq | ].
  split; [ reflexivity | ]. split; [ reflexivity | ].
  intros Hsize Hmax. unfold INT_MAX in Hmax.
  split; apply to_int_small; unfold INT_MIN, INT_MAX; lia.
Qed.

Lemma reply_goes_to_last_sender_witness :
  exists w1 w2 d2,
    DatagramDescriptor_Read 1%N dirty_stack kernel_two_datagrams
      (one_connection_world listening_datagram 5) = Returned tt w1
    /\ DatagramDescriptor_SendOutboundData 1%N [x6f; x6b] 2 w1 = Returned (to_int 2) w2
    /\ objs w2 !! 1%N = Some d2
    /\ OutboundPages d2
       = OutboundPages listening_datagram
         ++ [mkOutboundPage (firstn (Z.to_nat 2) [x6f; x6b] ++ [x00]) (to_int 2) 0
               (Some (reply_address
                        (datagram_burst (DatagramDescriptor_readbuffer_size - 1)
                           kernel_two_datagrams 10 0)
                        (ReturnAddress listening_datagram)))]
    /\ OutboundDataSize d2 = to_int (OutboundDataSize listening_datagram + 2)
    /\ (0 <= OutboundDataSize listening_datagram ->
        OutboundDataSize listening_datagram + 2 <= INT_MAX ->
        to_int 2 = 2
        /\ to_int (OutboundDataSize listening_datagram + 2)
           = OutboundDataSize listening_datagram + 2).
Proof.
  apply (reply_goes_to_last_sender 1%N dirty_stack kernel_two_datagrams
           (one_connection_world listening_datagram 5) listening_datagram [x6f; x6b] 2).
  - reflexivity.
  - reflexivity.
  - reflexivity.
  - vm_compute. discriminate.
  - reflexivity.
  - cbn. lia.
Defined.

(** The two sample datagrams: the reply address is the sender of the empty
    one. *)
Example reply_address_of_two_datagrams :
  reply_address (datagram_burst (DatagramDescriptor_readbuffer_size - 1) kernel_two_datagrams 10 0) [] = [x0a; x02].
Proof. reflexivity. Qed.

(** [DatagramDescriptor::Heartbeat] returns; if an inactivity timeout is
    configured and the loop time passed since the last activity has reached
    it (no timer quantum is added here), an immediate close is scheduled and
    the socket is to be deleted, with the unbind reason left as it was and
    the queue untouched; otherwise nothing changes. *)
Theorem DatagramDescriptor_Heartbeat_closes_idle_socket (p : binding) (w : World)
    (d : descriptor) :
  objs w !! p = Some d ->
  exists w',
    DatagramDescriptor_Heartbeat p w = Returned tt w'
    /\ if datagram_idle_expired d w
       then exists d',
              objs w' !! p = Some d'
              /\ bCloseNow d' = true
              /\ bCloseAfterWriting d' = bCloseAfterWriting d
              /\ UnbindReasonCode d' = UnbindReasonCode d
              /\ OutboundPages d' = OutboundPages d
              /\ ShouldDelete d' = true
       else w' = w.
Proof.
  intros H. unfold DatagramDescriptor_Heartbeat, datagram_idle_expired.
  rewrite (bind_run _ _ _ _ _ (deref_run _ _ _ H)).
  unfold reactor at 1. unfold bind at 1.
  destruct (negb (InactivityTimeout d =? 0)
            && (InactivityTimeout d <=? u64 (GetCurrentLoopTime w - LastActivity d)));
    cbn [when]; [ | now exists w ].
  unfold EventableDescriptor_ScheduleClose, IsCloseScheduled. mstep.
  destruct (bCloseNow d || bCloseAfterWriting d); mstep;
    eexists; (split; [ reflexivity | ]); eexists; mstep; (split; [ reflexivity | ]);
    unfold ShouldDelete; cbn; rewrite orb_true_r; auto 10.
Qed.

Lemma DatagramDescriptor_Heartbeat_closes_idle_socket_witness :
  exists w',
    DatagramDescriptor_Heartbeat 1%N (one_connection_world idle_datagram 10000)
    = Returned tt w'
    /\ if datagram_idle_expired idle_datagram (one_connection_world idle_datagram 10000)
       then exists d',
              objs w' !! 1%N = Some d'
              /\ bCloseNow d' = true
              /\ bCloseAfterWriting d' = bCloseAfterWriting idle_datagram
              /\ UnbindReasonCode d' = UnbindReasonCode idle_datagram
              /\ OutboundPages d' = OutboundPages idle_datagram
              /\ ShouldDelete d' = true
       else w' = one_connection_world idle_datagram 10000.
Proof.
  apply (DatagramDescriptor_Heartbeat_closes_idle_socket 1%N
           (one_connection_world idle_datagram 10000) idle_datagram).
  reflexivity.
Defined.

(** ** Timeouts *)

Lemma u64_small (x : Z) : 0 <= x < UINT64_MOD -> u64 x = x.
Proof. intros H. unfold u64. now apply Z.mod_small. Qed.

(** Each timeout setter stores a thousand times its argument and each getter
    returns a thousandth of what is stored.  For a value whose thousandfold
    fits 64 bits, each getter returns what the matching setter was given,
    and the setter returns 1; the pending-connect timeout and the inactivity
    timeout of a datagram socket refuse zero (they return 0 and keep their
    value), while the inactivity timeout of a stream connection accepts
    it. *)
Theorem timeouts_read_back (p : binding) (w : World) (d : descriptor) (value : Z) :
  objs w !! p = Some d -> 0 <= value -> value * 1000 < UINT64_MOD ->
  (exists w' d',
      SetPendingConnectTimeout p value w = Returned (if value =? 0 then 0 else 1) w'
      /\ objs w' !! p = Some d'
      /\ GetPendingConnectTimeout d'
         = if value =? 0 then GetPendingConnectTimeout d else value)
  /\ (exists w' d',
         ConnectionDescriptor_SetCommInactivityTimeout p value w = Returned 1 w'
         /\ objs w' !! p = Some d'
         /\ ConnectionDescriptor_GetCommInactivityTimeout d' = value)
  /\ (exists w' d',
         DatagramDescriptor_SetCommInactivityTimeout p value w
         = Returned (if value =? 0 then 0 else 1) w'
         /\ objs w' !! p = Some d'
         /\ DatagramDescriptor_GetCommInactivityTimeout d'
            = if value =? 0 then DatagramDescriptor_GetCommInactivityTimeout d else value).
Proof.
  intros H Hlo Hhi.
  assert (Hback : u64 (value * 1000) / 1000 = value).
  { rewrite u64_small by lia. now apply Z.div_mul. }
  unfold SetPendingConnectTimeout, ConnectionDescriptor_SetCommInactivityTimeout,
    DatagramDescriptor_SetCommInactivityTimeout, GetPendingConnectTimeout,
    ConnectionDescriptor_GetCommInactivityTimeout,
    DatagramDescriptor_GetCommInactivityTimeout.
  destruct (value =? 0) eqn:Hzero.
  - apply Z.eqb_eq in Hzero. subst value. cbn [Z.ltb Z.compare]. split; [ | split ].
    + now exists w, d.
    + mstep. eexists _, _. split; [ reflexivity | ]. mstep. split; reflexivity.
    + now exists w, d.
  - apply Z.eqb_neq in Hzero.
    replace (0 <? value) with true by (symmetry; apply Z.ltb_lt; lia).
    split; [ | split ]; mstep; eexists _, _; (split; [ reflexivity | ]); mstep;
      (split; [ reflexivity | ]); cbn; exact Hback.
Qed.

Lemma timeouts_read_back_witness :
  (exists w' d',
      SetPendingConnectTimeout 1%N 30000 (one_connection_world sample_connection 0)
      = Returned (if 30000 =? 0 then 0 else 1) w'
      /\ objs w' !! 1%N = Some d'
      /\ GetPendingConnectTimeout d'
         = if 30000 =? 0 then GetPendingConnectTimeout sample_connection else 30000)
  /\ (exists w' d',
         ConnectionDescriptor_SetCommInactivityTimeout 1%N 30000
           (one_connection_world sample_connection 0) = Returned 1 w'
         /\ objs w' !! 1%N = Some d'
         /\ ConnectionDescriptor_GetCommInactivityTimeout d' = 30000)
  /\ (exists w' d',
         DatagramDescriptor_SetCommInactivityTimeout 1%N 30000
           (one_connection_world sample_connection 0)
         = Returned (if 30000 =? 0 then 0 else 1) w'
         /\ objs w' !! 1%N = Some d'
         /\ DatagramDescriptor_GetCommInactivityTimeout d'
            = if 30000 =? 0
              then DatagramDescriptor_GetCommInactivityTimeout sample_connection else 30000).
Proof.
  apply (timeouts_read_back 1%N (one_connection_world sample_connection 0)
           sample_connection 30000).
  - reflexivity.
  - lia.
  - reflexivity.
Defined.

(** Beyond that range the product wraps around: 2^61 ms is stored as a
    pending-connect timeout of zero. *)
Example timeout_wraps_around :
  exists w' d',
    SetPendingConnectTimeout 1%N (2 ^ 61) (one_connection_world sample_connection 0)
    = Returned 1 w'
    /\ objs w' !! 1%N = Some d' /\ PendingConnectTimeout d' = 0.
Proof.
  eexists _, _. split; [ vm_compute; reflexivity | ]. split; [ reflexivity | reflexivity ].
Qed.

(** ** The interest mask *)

Lemma testbit_EPOLLIN (i : Z) : 0 <= i -> Z.testbit EPOLLIN i = (i =? EPOLLIN_bit).
Proof.
  intros Hi. change EPOLLIN with (2 ^ 0). rewrite Z.pow2_bits_eqb by lia.
  unfold EPOLLIN_bit. apply Z.eqb_sym.
Qed.

Lemma testbit_EPOLLOUT (i : Z) : 0 <= i -> Z.testbit EPOLLOUT i = (i =? EPOLLOUT_bit).
Proof.
  intros Hi. change EPOLLOUT with (2 ^ 2). rewrite Z.pow2_bits_eqb by lia.
  unfold EPOLLOUT_bit. apply Z.eqb_sym.
Qed.

(** Setting or clearing one flag of a mask according to [b]. *)
Lemma testbit_update (events flag : Z) (bit : Z) (b : bool) (i : Z) :
  0 <= i -> (forall j, 0 <= j -> Z.testbit flag j = (j =? bit)) ->
  Z.testbit (if b then Z.lor events flag else Z.land events (Z.lnot flag)) i
  = if i =? bit then b else Z.testbit events i.
Proof.
  intros Hi Hflag. destruct b.
  - rewrite Z.lor_spec, Hflag by exact Hi. destruct (i =? bit); [ apply orb_true_r | apply orb_false_r ].
  - rewrite Z.land_spec, Z.lnot_spec, Hflag by exact Hi.
    destruct (i =? bit); [ apply andb_false_r | apply andb_true_r ].
Qed.

(** [_UpdateEvents (read, write)] on a connection with a valid handle, with
    at least one of the two directions asked for: in the new mask the
    EPOLLIN bit is [SelectForRead ()] if [read] was asked for and the
    EPOLLOUT bit is [SelectForWrite ()] if [write] was; every other bit is
    the old one.  [Modify] is requested of the reactor exactly when the mask
    has changed, so that a second call with nothing changed in between
    requests nothing. *)
Theorem _UpdateEvents_syncs_interest_mask (d : descriptor) (bNotifyWritable : bool)
    (read write : bool) (events : Z) :
  MySocket d <> INVALID_SOCKET -> read || write = true ->
  let '(events', modify) := _UpdateEvents d bNotifyWritable read write events in
  (forall i, 0 <= i ->
     Z.testbit events' i
     = if (i =? EPOLLIN_bit) && read then ConnectionDescriptor_SelectForRead d
       else if (i =? EPOLLOUT_bit) && write
            then ConnectionDescriptor_SelectForWrite d bNotifyWritable
            else Z.testbit events i)
  /\ (modify = true <-> events' <> events)
  /\ _UpdateEvents d bNotifyWritable read write events' = (events', false).
Proof.
  intros Hsd Hdir.
  assert (Hbits : forall ev i, 0 <= i ->
             Z.testbit
               (let ev1 := if read
                           then if ConnectionDescriptor_SelectForRead d
                                then Z.lor ev EPOLLIN else Z.land ev (Z.lnot EPOLLIN)
                           else ev in
                if write
                then if ConnectionDescriptor_SelectForWrite d bNotifyWritable
                     then Z.lor ev1 EPOLLOUT else Z.land ev1 (Z.lnot EPOLLOUT)
                else ev1) i
             = if (i =? EPOLLIN_bit) && read then ConnectionDescriptor_SelectForRead d
               else if (i =? EPOLLOUT_bit) && write
                    then ConnectionDescriptor_SelectForWrite d bNotifyWritable
                    else Z.testbit ev i).
  { intros ev i Hi. cbv zeta.
    destruct write.
    - rewrite (testbit_update _ EPOLLOUT EPOLLOUT_bit _ i Hi testbit_EPOLLOUT).
      destruct read.
      + rewrite (testbit_update _ EPOLLIN EPOLLIN_bit _ i Hi testbit_EPOLLIN).
        unfold EPOLLIN_bit, EPOLLOUT_bit.
        destruct (i =? 0) eqn:E0, (i =? 2) eqn:E2; cbn [andb]; try reflexivity. lia.
      + rewrite andb_false_r, andb_true_r. reflexivity.
    - rewrite andb_false_r. destruct read.
      + rewrite (testbit_update _ EPOLLIN EPOLLIN_bit _ i Hi testbit_EPOLLIN).
        now rewrite andb_true_r.
      + now rewrite andb_false_r. }
  unfold _UpdateEvents. apply Z.eqb_neq in Hsd. rewrite Hsd.
  replace (negb read && negb write) with false
    by (destruct read, write; cbn in *; congruence).
  cbv zeta.
  match goal with
  | |- context [ negb (events =? ?e) ] => set (events' := e)
  end.
  split; [ exact (Hbits events) | ]. split.
  - rewrite negb_true_iff, Z.eqb_neq. split; congruence.
  - assert (Hfix : forall i, 0 <= i ->
               Z.testbit
                 (let ev1 := if read
                             then if ConnectionDescriptor_SelectForRead d
                                  then Z.lor events' EPOLLIN
                                  else Z.land events' (Z.lnot EPOLLIN)
                             else events' in
                  if write
                  then if ConnectionDescriptor_SelectForWrite d bNotifyWritable
                       then Z.lor ev1 EPOLLOUT else Z.land ev1 (Z.lnot EPOLLOUT)
                  else ev1) i
               = Z.testbit events' i).
    { intros i Hi. rewrite (Hbits events' i Hi). subst events'.
      pose proof (Hbits events i Hi) as H0. cbv zeta in H0. rewrite H0.
      destruct ((i =? EPOLLIN_bit) && read); [ reflexivity | ].
      destruct ((i =? EPOLLOUT_bit) && write); reflexivity. }
    apply Z.bits_inj' in Hfix. cbv zeta in Hfix. rewrite Hfix.
    now rewrite Z.eqb_refl.
Qed.

Lemma _UpdateEvents_syncs_interest_mask_witness :
  let '(events', modify) := _UpdateEvents sending_connection false true true 0 in
  (forall i, 0 <= i ->
     Z.testbit events' i
     = if (i =? EPOLLIN_bit) && true then ConnectionDescriptor_SelectForRead sending_connection
       else if (i =? EPOLLOUT_bit) && true
            then ConnectionDescriptor_SelectForWrite sending_connection false
            else Z.testbit 0 i)
  /\ (modify = true <-> events' <> 0)
  /\ _UpdateEvents sending_connection false true true events' = (events', false).
Proof.
  apply (_UpdateEvents_syncs_interest_mask sending_connection false true true 0).
  - vm_compute. discriminate.
  - reflexivity.
Defined.

(** From an empty mask, a connection with data queued is registered for
    reading and writing; once paused, for neither; a send on a paused
    connection, which updates the write side only, leaves the mask alone. *)
Example interest_masks :
  _UpdateEvents sending_connection false true true 0 = (EPOLLIN + EPOLLOUT, true)
  /\ _UpdateEvents paused_connection false true true (EPOLLIN + EPOLLOUT) = (0, true)
  /\ _UpdateEvents paused_connection false false true 0 = (0, false).
Proof. repeat split. Qed.

(** ** Write *)

(** [Write] on a connection whose connect is pending (and that is not
    watch-only) settles the connect and touches neither the socket nor the
    queue.  If [getsockopt] reports no error the connection-completed event
    fires, when a callback is installed, and the pending state ends; nothing
    else changes.  Otherwise an immediate close is scheduled and the
    descriptor is to be deleted, the unbind reason being the socket error
    when [getsockopt] delivered one and staying as it was when the call
    itself failed; the connect stays pending and no event fires. *)
Theorem Write_settles_pending_connect (p : binding) (bNotifyWritable : bool)
    (so : kernel_so_error) (kernel : kernel_write) (w : World) (d : descriptor) :
  objs w !! p = Some d -> bConnectPending d = true -> bWatchOnly d = false ->
  exists w' d',
    ConnectionDescriptor_Write p bNotifyWritable so kernel w = Returned tt w'
    /\ objs w' !! p = Some d'
    /\ OutboundPages d' = OutboundPages d /\ OutboundDataSize d' = OutboundDataSize d
    /\ MySocket d' = MySocket d
    /\ match so with
       | SoError 0 =>
           d' = set_bConnectPending false d
           /\ trace w'
              = trace w ++ (if EventCallback d
                            then [Callback p EM_CONNECTION_COMPLETED (Some [x00]) 0] else [])
           /\ NumCloseScheduled w' = NumCloseScheduled w
       | _ =>
           bConnectPending d' = true /\ bCloseNow d' = true /\ ShouldDelete d' = true
           /\ UnbindReasonCode d'
              = match so with SoError error => error | GetsockoptFails => UnbindReasonCode d end
           /\ trace w' = trace w
       end.
Proof.
  intros H Hpending Hwatch.
  assert (Hclose : forall d0, bWatchOnly d0 = false ->
             exists w' d',
               ConnectionDescriptor_ScheduleClose p false (set_descriptor p d0 w)
               = Returned tt w'
               /\ objs w' !! p = Some d'
               /\ OutboundPages d' = OutboundPages d0
               /\ OutboundDataSize d' = OutboundDataSize d0
               /\ MySocket d' = MySocket d0
               /\ bConnectPending d' = bConnectPending d0 /\ bCloseNow d' = true
               /\ ShouldDelete d' = true
               /\ UnbindReasonCode d' = UnbindReasonCode d0
               /\ trace w' = trace w).
  { intros d0 Hw0.
    unfold ConnectionDescriptor_ScheduleClose, EventableDescriptor_ScheduleClose,
      IsCloseScheduled, set_descriptor.
    mstep. rewrite Hw0. mstep.
    destruct (bCloseNow d0 || bCloseAfterWriting d0); mstep;
      eexists _, _; (split; [ reflexivity | ]); mstep; (split; [ reflexivity | ]);
      unfold ShouldDelete; cbn; rewrite orb_true_r; auto 10. }
  unfold ConnectionDescriptor_Write.
  rewrite (bind_run _ _ _ _ _ (deref_run _ _ _ H)). rewrite Hpending.
  destruct so as [[ | e | e] | ].
  - unfold SetConnectPending. destruct (EventCallback d); mstep;
      eexists _, _; (split; [ reflexivity | ]); mstep; (split; [ reflexivity | ]);
      cbn; rewrite ?app_nil_r; auto 10.
  - rewrite (bind_run _ _ _ _ _ (modify_set _ _ _ _ H)).
    destruct (Hclose (set_UnbindReasonCode (Z.pos e) d) Hwatch)
      as (w' & d' & E & L & Hq & Hs & Hsd & Hp & Hn & Hdel & Hur & Htr).
    exists w', d'. cbn in Hp. rewrite Hpending in Hp. auto 10.
  - rewrite (bind_run _ _ _ _ _ (modify_set _ _ _ _ H)).
    destruct (Hclose (set_UnbindReasonCode (Z.neg e) d) Hwatch)
      as (w' & d' & E & L & Hq & Hs & Hsd & Hp & Hn & Hdel & Hur & Htr).
    exists w', d'. cbn in Hp. rewrite Hpending in Hp. auto 10.
  - assert (Hsame : set_descriptor p d w = w) by now apply modify_same.
    destruct (Hclose d Hwatch)
      as (w' & d' & E & L & Hq & Hs & Hsd & Hp & Hn & Hdel & Hur & Htr).
    rewrite Hsame in E. exists w', d'. rewrite Hpending in Hp. auto 10.
Qed.

Lemma Write_settles_pending_connect_witness :
  exists w' d',
    ConnectionDescriptor_Write 1%N false (SoError 111) (Accepts 0)
      (one_connection_world connecting 0) = Returned tt w'
    /\ objs w' !! 1%N = Some d'
    /\ OutboundPages d' = OutboundPages connecting
    /\ OutboundDataSize d' = OutboundDataSize connecting
    /\ MySocket d' = MySocket connecting
    /\ match SoError 111 with
       | SoError 0 =>
           d' = set_bConnectPending false connecting
           /\ trace w'
              = trace (one_connection_world connecting 0)
                ++ (if EventCallback connecting
                    then [Callback 1%N EM_CONNECTION_COMPLETED (Some [x00]) 0] else [])
           /\ NumCloseScheduled w' = NumCloseScheduled (one_connection_world connecting 0)
       | _ =>
           bConnectPending d' = true /\ bCloseNow d' = true /\ ShouldDelete d' = true
           /\ UnbindReasonCode d'
              = match SoError 111 with
                | SoError error => error
                | GetsockoptFails => UnbindReasonCode connecting
                end
           /\ trace w' = trace (one_connection_world connecting 0)
       end.
Proof.
  apply (Write_settles_pending_connect 1%N false (SoError 111) (Accepts 0)
           (one_connection_world connecting 0) connecting); reflexivity.
Defined.

(** A connect that succeeded: one connection-completed event, and the
    connection is no longer pending. *)
Example connect_completed :
  ConnectionDescriptor_Write 1%N false (SoError 0) (Accepts 0)
    (one_connection_world connecting 0)
  = Returned tt
      (set_trace [Callback 1%N EM_CONNECTION_COMPLETED (Some [x00]) 0]
         (one_connection_world listening_connection 0)).
Proof. vm_compute. reflexivity. Qed.

(** ** Watch-only connections *)

Lemma set_trace_same (w : World) : set_trace (trace w ++ []) w = w.
Proof. rewrite app_nil_r. now destruct w. Qed.

(** On a watch-only connection with a valid handle and a callback
    installed, whose connect is not pending, [Read], [Write] and
    [HandleError] do nothing but notify: whatever the kernel holds or
    answers, [Read] fires the notify-readable event if [bNotifyReadable] is
    set, [Write] with [bNotifyWritable] set fires the notify-writable event,
    and [HandleError] fires the enabled ones, readable first.  No byte is
    read or written, no close is scheduled, and no member of any descriptor
    changes, [LastActivity] included. *)
Theorem watch_only_connection_only_notifies (p : binding) (bNotifyWritable : bool)
    (stack : nat -> byte) (kernel_in : nat -> kernel_read) (so : kernel_so_error)
    (kernel_out : kernel_write) (w : World) (d : descriptor) :
  objs w !! p = Some d -> bWatchOnly d = true -> MySocket d <> INVALID_SOCKET ->
  EventCallback d = true -> bConnectPending d = false ->
  let readable := if bNotifyReadable d
                  then [Callback p EM_CONNECTION_NOTIFY_READABLE None 0] else [] in
  let writable := if bNotifyWritable
                  then [Callback p EM_CONNECTION_NOTIFY_WRITABLE None 0] else [] in
  ConnectionDescriptor_Read p stack kernel_in w
  = Returned tt (set_trace (trace w ++ readable) w)
  /\ ConnectionDescriptor_Write p true so kernel_out w
     = Returned tt (set_trace (trace w ++ [Callback p EM_CONNECTION_NOTIFY_WRITABLE None 0]) w)
  /\ ConnectionDescriptor_HandleError p bNotifyWritable stack kernel_in so kernel_out w
     = Returned tt (set_trace (trace w ++ readable ++ writable) w).
Proof.
  intros H Hwatch Hsd Hcb Hpending readable writable.
  apply Z.eqb_neq in Hsd.
  assert (Hread : forall w0, objs w0 = objs w ->
             ConnectionDescriptor_Read p stack kernel_in w0
             = Returned tt (set_trace (trace w0 ++ readable) w0)).
  { intros w0 Hobjs. unfold ConnectionDescriptor_Read, deref. unfold bind at 1.
    rewrite Hobjs, H, Hsd, Hwatch, Hcb, andb_true_r. subst readable.
    destruct (bNotifyReadable d); cbn [when]; [ reflexivity | ].
    now rewrite set_trace_same. }
  assert (Hwrite : forall w0, objs w0 = objs w ->
             ConnectionDescriptor_Write p true so kernel_out w0
             = Returned tt
                 (set_trace (trace w0 ++ [Callback p EM_CONNECTION_NOTIFY_WRITABLE None 0]) w0)).
  { intros w0 Hobjs. unfold ConnectionDescriptor_Write, deref. unfold bind at 1.
    now rewrite Hobjs, H, Hpending, Hcb. }
  split; [ now apply Hread | ]. split; [ now apply Hwrite | ].
  unfold ConnectionDescriptor_HandleError.
  rewrite (bind_run _ _ _ _ _ (deref_run _ _ _ H)). rewrite Hwatch, Hsd.
  assert (Hfirst : when (bNotifyReadable d) (ConnectionDescriptor_Read p stack kernel_in) w
                   = Returned tt (set_trace (trace w ++ readable) w)).
  { subst readable. destruct (bNotifyReadable d) eqn:Hnr; cbn [when].
    - rewrite (Hread w eq_refl). rewrite ?Hnr. reflexivity.
    - now rewrite set_trace_same. }
  rewrite (bind_run _ _ _ _ _ Hfirst). subst writable.
  destruct bNotifyWritable; cbn [when].
  - rewrite (Hwrite (set_trace (trace w ++ readable) w) eq_refl). cbn.
    now rewrite <- app_assoc.
  - unfold ret. rewrite app_nil_r. reflexivity.
Qed.

Lemma watch_only_connection_only_notifies_witness :
  let readable := if bNotifyReadable (set_bNotifyReadable true watching)
                  then [Callback 1%N EM_CONNECTION_NOTIFY_READABLE None 0] else [] in
  let writable := if true
                  then [Callback 1%N EM_CONNECTION_NOTIFY_WRITABLE None 0] else [] in
  ConnectionDescriptor_Read 1%N dirty_stack kernel_hi
    (one_connection_world (set_bNotifyReadable true watching) 5)
  = Returned tt
      (set_trace (trace (one_connection_world (set_bNotifyReadable true watching) 5) ++ readable)
         (one_connection_world (set_bNotifyReadable true watching) 5))
  /\ ConnectionDescriptor_Write 1%N true (SoError 0) (Accepts 10)
       (one_connection_world (set_bNotifyReadable true watching) 5)
     = Returned tt
         (set_trace
            (trace (one_connection_world (set_bNotifyReadable true watching) 5)
             ++ [Callback 1%N EM_CONNECTION_NOTIFY_WRITABLE None 0])
            (one_connection_world (set_bNotifyReadable true watching) 5))
  /\ ConnectionDescriptor_HandleError 1%N true dirty_stack kernel_hi (SoError 0) (Accepts 10)
       (one_connection_world (set_bNotifyReadable true watching) 5)
     = Returned tt
         (set_trace
            (trace (one_connection_world (set_bNotifyReadable true watching) 5)
             ++ readable ++ writable)
            (one_connection_world (set_bNotifyReadable true watching) 5)).
Proof.
  apply (watch_only_connection_only_notifies 1%N true dirty_stack kernel_hi (SoError 0)
           (Accepts 10) (one_connection_world (set_bNotifyReadable true watching) 5)
           (set_bNotifyReadable true watching)).
  - reflexivity.
  - reflexivity.
  - vm_compute. discriminate.
  - reflexivity.
  - reflexivity.
Defined.

(** On a connection that is not watch-only, [HandleError] schedules an
    immediate close. *)
Lemma HandleError_closes (p : binding) (bNotifyWritable : bool)
    (stack : nat -> byte) (kernel_in : nat -> kernel_read) (so : kernel_so_error)
    (kernel_out : kernel_write) (w : World) (d : descriptor) :
  objs w !! p = Some d -> bWatchOnly d = false ->
  ConnectionDescriptor_HandleError p bNotifyWritable stack kernel_in so kernel_out w
  = EventableDescriptor_ScheduleClose p false w.
Proof.
  intros H Hwatch. unfold ConnectionDescriptor_HandleError, ConnectionDescriptor_ScheduleClose.
  rewrite (bind_run _ _ _ _ _ (deref_run _ _ _ H)). rewrite Hwatch.
  rewrite (bind_run _ _ _ _ _ (deref_run _ _ _ H)). now rewrite Hwatch.
Qed.

(** ** The queue as a byte stream *)

Lemma length_iov_bytes (op : OutboundPage) :
  page_pending op -> page_holds op ->
  Z.of_nat (List.length (iov_bytes op)) = unsent op.
Proof.
  intros [Hlo Hhi] Hholds. unfold iov_bytes, page_holds, unsent in *.
  rewrite length_firstn, length_skipn. lia.
Qed.

Lemma queue_bytes_cons (op : OutboundPage) (pages : list OutboundPage) :
  queue_bytes (op :: pages) = iov_bytes op ++ queue_bytes pages.
Proof. reflexivity. Qed.

Lemma queue_bytes_app (l1 l2 : list OutboundPage) :
  queue_bytes (l1 ++ l2) = queue_bytes l1 ++ queue_bytes l2.
Proof. unfold queue_bytes. now rewrite map_app, concat_app. Qed.

Lemma length_queue_bytes (pages : list OutboundPage) :
  Forall page_pending pages -> Forall page_holds pages ->
  Z.of_nat (List.length (queue_bytes pages)) = queued_bytes pages.
Proof.
  intros Hpending. induction Hpending as [ | op pages Hop _ IH ]; intros Hholds.
  - reflexivity.
  - apply Forall_cons in Hholds as [Hh Hholds].
    rewrite queue_bytes_cons, queued_bytes_cons, length_app, Nat2Z.inj_add.
    rewrite (length_iov_bytes op Hop Hh), (IH Hholds). reflexivity.
Qed.

(** Advancing the offset of a page by [sent] drops its first [sent] bytes. *)
Lemma iov_bytes_add_Offset (sent : Z) (op : OutboundPage) :
  page_pending op -> 0 <= sent ->
  iov_bytes (add_Offset sent op) = skipn (Z.to_nat sent) (iov_bytes op).
Proof.
  intros [Hlo Hhi] Hsent. unfold iov_bytes, add_Offset, unsent. cbn.
  rewrite skipn_firstn_comm, skipn_skipn. f_equal; [ lia | f_equal; lia ].
Qed.

(** Releasing the [sent] bytes that the kernel took drops exactly the first
    [sent] bytes of the queue. *)
Lemma release_sent_bytes (n : nat) (pages : list OutboundPage) (sent : Z) :
  Forall page_pending pages -> Forall page_holds pages ->
  0 <= sent <= queued_bytes (firstn n pages) ->
  queue_bytes (release_sent (map unsent (firstn n pages)) pages sent)
  = skipn (Z.to_nat sent) (queue_bytes pages).
Proof.
  intros Hpending. revert n sent.
  induction Hpending as [ | op pages Hop Hpending IH ]; intros n sent Hholds Hsent.
  - destruct n; cbn in *; now rewrite ?skipn_nil.
  - apply Forall_cons in Hholds as [Hh Hholds].
    destruct n as [ | n ]; cbn [firstn map release_sent] in *.
    + cbn in Hsent. replace sent with 0 by lia. reflexivity.
    + rewrite queued_bytes_cons in Hsent. rewrite queue_bytes_cons.
      pose proof (length_iov_bytes op Hop Hh) as Hlen.
      destruct (unsent op <=? sent) eqn:Hfull.
      * apply Z.leb_le in Hfull. cbn [tl].
        rewrite (IH n (sent - unsent op) Hholds ltac:(lia)).
        rewrite drop_app_ge by lia. f_equal. lia.
      * apply Z.leb_gt in Hfull.
        rewrite queue_bytes_cons, (iov_bytes_add_Offset sent op Hop) by lia.
        now rewrite drop_app_le by lia.
Qed.

(** What [writev] takes of the gathered pages is a prefix of the whole
    queue. *)
Lemma gathered_prefix (n : nat) (pages : list OutboundPage) (sent : Z) :
  Forall page_pending pages -> Forall page_holds pages ->
  0 <= sent <= queued_bytes (firstn n pages) ->
  firstn (Z.to_nat sent) (queue_bytes (firstn n pages))
  = firstn (Z.to_nat sent) (queue_bytes pages).
Proof.
  intros Hpending Hholds Hsent.
  rewrite <- (firstn_skipn n pages) at 2. rewrite queue_bytes_app.
  rewrite take_app_le; [ reflexivity | ].
  pose proof (length_queue_bytes (firstn n pages) (Forall_take _ _ _ Hpending)
                (Forall_take _ _ _ Hholds)).
  lia.
Qed.

Lemma page_holds_release (iov : list Z) (pages : list OutboundPage) (sent : Z) :
  Forall page_holds pages -> Forall page_holds (release_sent iov pages sent).
Proof.
  revert pages sent. induction iov as [ | len iov IH ]; intros pages sent Hholds;
    cbn [release_sent]; [ exact Hholds | ].
  destruct (len <=? sent).
  - apply IH. destruct pages; [ constructor | now apply Forall_cons in Hholds as [_ ?] ].
  - destruct pages as [ | op rest ]; [ constructor | ].
    apply Forall_cons in Hholds as [Hh Hrest]. constructor; [ exact Hh | exact Hrest ].
Qed.

Lemma iov_bytes_new_page (data : list byte) (length : Z) (from : option (list byte)) :
  0 <= length <= Z.of_nat (List.length data) ->
  iov_bytes (mkOutboundPage (firstn (Z.to_nat length) data ++ [x00]) length 0 from)
  = firstn (Z.to_nat length) data.
Proof.
  intros Hlen. unfold iov_bytes, unsent. cbn.
  rewrite Z.sub_0_r. apply take_app_length'. rewrite length_firstn. lia.
Qed.

Lemma written_app (t1 t2 : list effect) : written (t1 ++ t2) = written t1 ++ written t2.
Proof. unfold written. now rewrite map_app, concat_app. Qed.

Lemma written_Close_effects (p : binding) (d : descriptor) :
  written (Close_effects p d) = [].
Proof.
  unfold Close_effects. destruct (MySocket d =? INVALID_SOCKET); [ reflexivity | ].
  now destruct ((2 <? MySocket d) && negb (bAttached d)).
Qed.

(** The array that a flush hands to [writev] designates the bytes of the
    first 16 pages still to be written. *)
Lemma gathered_bytes (pages : list OutboundPage) :
  concat (map iovec_bytes (map gather pages)) = queue_bytes pages.
Proof. unfold queue_bytes. now rewrite map_map. Qed.

(** A send within the range of [int] appends what it accepts to the byte
    stream of the queue, and calls nothing. *)
Lemma SendOutboundData_appends (p : binding) (data : list byte) (length : Z)
    (w w1 : World) (d : descriptor) :
  objs w !! p = Some d -> 0 <= length <= INT_MAX ->
  world_after (ConnectionDescriptor_SendOutboundData p data length w) = Some w1 ->
  exists d1,
    objs w1 !! p = Some d1
    /\ (Forall page_holds (OutboundPages d) -> Forall page_holds (OutboundPages d1))
    /\ trace w1 = trace w
    /\ queue_bytes (OutboundPages d1)
       = queue_bytes (OutboundPages d)
         ++ match ConnectionDescriptor_SendOutboundData p data length w with
            | Returned n _ => firstn (Z.to_nat n) data
            | _ => []
            end.
Proof.
  intros Hd Hlen. unfold ConnectionDescriptor_SendOutboundData.
  rewrite (bind_run _ _ _ _ _ (deref_run _ _ _ Hd)).
  destruct (bWatchOnly d).
  { cbn. intros [= <-]. exists d. rewrite app_nil_r. auto. }
  assert (Hraw : forall w0 d0, objs w0 !! p = Some d0 ->
             OutboundPages d0 = OutboundPages d -> trace w0 = trace w ->
             world_after (_SendRawOutboundData p data length w0) = Some w1 ->
             exists d1,
               objs w1 !! p = Some d1
               /\ (Forall page_holds (OutboundPages d) -> Forall page_holds (OutboundPages d1))
               /\ trace w1 = trace w
               /\ queue_bytes (OutboundPages d1)
                  = queue_bytes (OutboundPages d)
                    ++ match _SendRawOutboundData p data length w0 with
                       | Returned n _ => firstn (Z.to_nat n) data
                       | _ => []
                       end).
  { intros w0 d0 Hd0 Hq0 Htr0. rewrite (_SendRawOutboundData_run p data length w0 d0 Hd0).
    destruct (IsCloseScheduled d0).
    { cbn. intros [= <-]. exists d0. rewrite Hq0, app_nil_r. auto. }
    destruct (length =? 0).
    { cbn. intros [= <-]. exists d0. rewrite Hq0, app_nil_r. auto. }
    destruct (Z.of_nat (List.length data) <? length) eqn:Hoob; [ discriminate | ].
    apply Z.ltb_ge in Hoob. cbn [world_after]. intros [= <-].
    rewrite (to_int_small length) by (unfold INT_MIN; lia).
    eexists. split; [ cbn; apply lookup_insert_eq | ].
    cbn [OutboundPages set_OutboundPages set_OutboundDataSize]. rewrite Hq0. split.
    - intros Hholds. apply Forall_app. split; [ exact Hholds | ].
      constructor; [ | constructor ]. unfold page_holds. cbn.
      rewrite length_app, length_firstn. cbn. lia.
    - split; [ exact Htr0 | ].
      rewrite queue_bytes_app. f_equal. unfold queue_bytes. cbn [map concat].
      rewrite app_nil_r. apply iov_bytes_new_page. lia. }
  destruct (pause_source_if_over_cases p length w d Hd)
    as [E | [(from & s & _ & Hs & Hp & _ & E) | [[what E] | E]]];
    unfold bind at 1 2; rewrite E.
  - now apply (Hraw w d).
  - destruct (decide (from = p)) as [-> | Hne].
    + assert (s = d) by congruence. subst s.
      apply (Hraw _ (set_bPaused true d));
        [ apply lookup_set_descriptor_eq | reflexivity | reflexivity ].
    + apply (Hraw _ d); [ now rewrite lookup_set_descriptor_ne | reflexivity | reflexivity ].
  - cbn. intros [= <-]. exists d. rewrite app_nil_r. auto.
  - discriminate.
Qed.

(** A flush hands the kernel the front of the byte stream, and takes what
    the kernel accepted of it off the queue. *)
Lemma _WriteOutboundData_takes_prefix (p : binding) (kernel : kernel_write)
    (w w1 : World) (d : descriptor) :
  objs w !! p = Some d -> watch_only_never_paused w -> outbound_accounted d ->
  Forall page_holds (OutboundPages d) ->
  world_after (_WriteOutboundData p kernel w) = Some w1 ->
  exists d1 new,
    objs w1 !! p = Some d1
    /\ Forall page_holds (OutboundPages d1)
    /\ trace w1 = trace w ++ new
    /\ queue_bytes (OutboundPages d) = written new ++ queue_bytes (OutboundPages d1).
Proof.
  intros Hd HJ Hacc Hholds.
  destruct (MySocket d =? INVALID_SOCKET) eqn:Hsd.
  { unfold _WriteOutboundData. rewrite (bind_run _ _ _ _ _ (deref_run _ _ _ Hd)), Hsd.
    destruct (bWriteAttemptedAfterClose d); cbn [negb assert]; [ discriminate | ].
    unfold bind, ret. rewrite (modify_set _ _ _ _ Hd). cbn [world_after]. intros [= <-].
    eexists _, []. split; [ apply lookup_set_descriptor_eq | ].
    split; [ exact Hholds | ]. split; [ cbn; now rewrite app_nil_r | reflexivity ]. }
  apply Z.eqb_neq in Hsd.
  destruct (decide (OutboundPages d = [])) as [Hq | Hq].
  { unfold _WriteOutboundData. rewrite (bind_run _ _ _ _ _ (deref_run _ _ _ Hd)).
    apply Z.eqb_neq in Hsd. rewrite Hsd, Hq.
    unfold reactor at 1. unfold bind at 1.
    rewrite (bind_run _ _ _ _ _ (modify_set _ _ _ _ Hd)). discriminate. }
  destruct (_WriteOutboundData_run p kernel w d Hd
              (watch_only_never_paused_resumable w d HJ) Hacc Hsd Hq)
    as [(from & _ & _ & ->)
       | (w' & d' & -> & Hd' & _ & Hsent & Hq' & _ & _ & _ & _ & _ & _ & _ & _ & _ & Htr & _)];
    [ discriminate | ].
  cbn [world_after]. intros [= <-].
  exists d'. eexists. split; [ exact Hd' | ]. destruct Hacc as [_ Hpending].
  split; [ | split; [ exact Htr | ] ].
  - rewrite Hq'. destruct kernel; [ now apply page_holds_release | exact Hholds ].
  - change (?x :: ?l) with ([x] ++ l). rewrite written_app.
    unfold written at 1. cbn [map concat writev_took]. rewrite app_nil_r, gathered_bytes.
    destruct kernel as [room | e]; cbn [sys_writev fst flushed] in *.
    + rewrite Hq'. cbn [written map concat]. rewrite ?app_nil_r.
      rewrite (release_sent_bytes 16 _ _ Hpending Hholds Hsent).
      rewrite (gathered_prefix 16 _ _ Hpending Hholds Hsent).
      symmetry. apply firstn_skipn.
    + rewrite Hq'. cbn [Z.to_nat firstn app].
      destruct (write_would_block e); [ reflexivity | ].
      now rewrite written_Close_effects.
Qed.

Lemma queue_call_conserves (p : binding) (c : queue_call) (w w1 : World) (d : descriptor) :
  stream_inv p w -> objs w !! p = Some d ->
  OutboundDataSize d + offered [c] <= INT_MAX ->
  world_after (queue_call_run p c w) = Some w1 ->
  exists d1 new,
    objs w1 !! p = Some d1 /\ stream_inv p w1
    /\ OutboundDataSize d1 <= OutboundDataSize d + offered [c]
    /\ trace w1 = trace w ++ new
    /\ queue_bytes (OutboundPages d) ++ call_accepts p c w
       = written new ++ queue_bytes (OutboundPages d1).
Proof.
  intros [Hinv (d0 & Hd0 & Hholds)] Hd Hmax Hrun.
  assert (d0 = d) by congruence. subst d0.
  pose proof Hinv as [HJ (d0 & Hd0' & Hacc)].
  assert (d0 = d) by congruence. subst d0.
  pose proof (outbound_accounted_nonneg d Hacc) as Hnonneg.
  rewrite offered_cons in *. change (offered []) with 0 in *.
  destruct c as [data length | kernel]; cbn [queue_call_run call_accepts] in *.
  - assert (Hrun' : world_after
                      (ConnectionDescriptor_SendOutboundData p data (Z.of_N length) w)
                    = Some w1).
    { unfold bind in Hrun.
      destruct (ConnectionDescriptor_SendOutboundData p data (Z.of_N length) w); exact Hrun. }
    destruct (SendOutboundData_appends p data (Z.of_N length) w w1 d Hd ltac:(lia) Hrun')
      as (d1 & Hd1 & Hh1 & Htr1 & Hbytes).
    destruct (SendOutboundData_preserves p data (Z.of_N length) w w1 d Hinv Hd
                ltac:(lia) ltac:(lia) Hrun') as [Hinv1 (d1' & Hd1' & Hs1)].
    assert (d1' = d1) by congruence. subst d1'.
    exists d1, []. split; [ exact Hd1 | ]. split.
    { split; [ exact Hinv1 | ]. exists d1. auto. }
    split; [ lia | ]. split; [ now rewrite app_nil_r | ].
    now rewrite Hbytes.
  - destruct (_WriteOutboundData_takes_prefix p kernel w w1 d Hd HJ Hacc Hholds Hrun)
      as (d1 & new & Hd1 & Hh1 & Htr1 & Hbytes).
    destruct (_WriteOutboundData_shrinks p kernel w w1 d Hinv Hd Hrun)
      as [Hinv1 (d1' & Hd1' & Hs1)].
    assert (d1' = d1) by congruence. subst d1'.
    exists d1, new. split; [ exact Hd1 | ]. split.
    { split; [ exact Hinv1 | ]. exists d1. auto. }
    split; [ lia | ]. split; [ exact Htr1 | ].
    rewrite app_nil_r. exact Hbytes.
Qed.

(** ** The outbound queue is a first-in first-out byte stream *)

Lemma queue_calls_conserve (p : binding) (calls : list queue_call) (w w' : World)
    (d : descriptor) :
  stream_inv p w -> objs w !! p = Some d ->
  OutboundDataSize d + offered calls <= INT_MAX ->
  queue_calls p calls w = Some w' ->
  exists d' new,
    objs w' !! p = Some d'
    /\ trace w' = trace w ++ new
    /\ queue_bytes (OutboundPages d) ++ accepted p calls w
       = written new ++ queue_bytes (OutboundPages d').
Proof.
  revert w d. induction calls as [ | c calls IH ]; intros w d Hinv Hd Hmax;
    cbn [queue_calls accepted].
  - intros [= <-]. exists d, []. now rewrite !app_nil_r.
  - destruct (world_after (queue_call_run p c w)) as [w1 | ] eqn:Hstep; [ | discriminate ].
    intros Hrest. rewrite offered_cons in Hmax.
    pose proof (offered_nonneg calls) as Hnn.
    destruct (queue_call_conserves p c w w1 d Hinv Hd) as
      (d1 & new1 & Hd1 & Hinv1 & Hs1 & Htr1 & Hc);
      [ rewrite offered_cons; change (offered []) with 0; lia | exact Hstep | ].
    rewrite offered_cons in Hs1. change (offered []) with 0 in Hs1.
    destruct (IH w1 d1 Hinv1 Hd1 ltac:(lia) Hrest) as (d' & new & Hd' & Htr & Hcs).
    exists d', (new1 ++ new). split; [ exact Hd' | ].
    split; [ now rewrite Htr, Htr1, app_assoc | ].
    rewrite written_app.
    rewrite app_assoc, Hc, <- app_assoc, Hcs, app_assoc. reflexivity.
Qed.

(** Start from a stream connection whose queue is accounted and whose page
    buffers hold their pages (a new connection, say), in a world where no
    watch-only connection is paused, and run any sequence of
    [SendOutboundData] calls and flushes, whatever the kernel accepts or
    refuses, in which the bytes queued at the start and the bytes of all
    the sends together do not exceed [INT_MAX].  The bytes queued at the
    start followed by the bytes the sends accepted, in call order, are the
    bytes that the [writev]s of the flushes took from the arrays they were
    handed, in call order, followed by the bytes still queued: nothing is
    lost, repeated or reordered on the way to the socket. *)
Theorem outbound_bytes_in_order (p : binding) (calls : list queue_call) (w w' : World)
    (d : descriptor) :
  objs w !! p = Some d -> outbound_accounted d ->
  Forall page_holds (OutboundPages d) -> watch_only_never_paused w ->
  OutboundDataSize d + offered calls <= INT_MAX ->
  queue_calls p calls w = Some w' ->
  exists d' new,
    objs w' !! p = Some d'
    /\ trace w' = trace w ++ new
    /\ queue_bytes (OutboundPages d) ++ accepted p calls w
       = written new ++ queue_bytes (OutboundPages d').
Proof.
  intros Hd Hacc Hholds HJ Hmax Hrun.
  apply (queue_calls_conserve p calls w w' d); [ | exact Hd | exact Hmax | exact Hrun ].
  split; [ split; [ exact HJ | now exists d ] | now exists d ].
Qed.

Lemma outbound_bytes_in_order_witness :
  exists w',
    queue_calls 1%N sample_queue_calls (one_connection_world sample_connection 0) = Some w'
    /\ exists d' new,
         objs w' !! 1%N = Some d'
         /\ trace w' = trace (one_connection_world sample_connection 0) ++ new
         /\ queue_bytes (OutboundPages sample_connection)
            ++ accepted 1%N sample_queue_calls (one_connection_world sample_connection 0)
            = written new ++ queue_bytes (OutboundPages d').
Proof.
  eexists. split; [ vm_compute; reflexivity | ].
  apply (outbound_bytes_in_order 1%N sample_queue_calls
           (one_connection_world sample_connection 0) _ sample_connection).
  - reflexivity.
  - split; [ reflexivity | constructor ].
  - constructor.
  - apply sample_world_never_paused. reflexivity.
  - vm_compute. discriminate.
  - vm_compute. reflexivity.
Defined.

(** "hel" and "lo" sent around a write of two bytes and one of the rest:
    the first [writev] is handed "hel" and takes "he", the second is handed
    "l" and "lo" and takes both. *)
Example hello_on_the_wire :
  exists w',
    queue_calls 1%N sample_queue_calls (one_connection_world sample_connection 0) = Some w'
    /\ accepted 1%N sample_queue_calls (one_connection_world sample_connection 0)
       = [x68; x65; x6c; x6c; x6f]
    /\ trace w'
       = [sys_writev_call 7 [mkIovec [x68; x65; x6c; x00] 3] 2;
          sys_writev_call 7 [mkIovec [x6c; x00] 1; mkIovec [x6c; x6f; x00] 2] 3]
    /\ written (trace w') = [x68; x65; x6c; x6c; x6f].
Proof.
  eexists. split; [ vm_compute; reflexivity | ].
  split; [ vm_compute; reflexivity | ]. split; vm_compute; reflexivity.
Qed.

(** ** Draining a queue *)


Lemma source_live_after (w w' : World) (d d' : descriptor) :
  source_live w d -> ProxiedFrom d' = ProxiedFrom d ->
  (forall q, objs w !! q = None <-> objs w' !! q = None) ->
  source_live w' d'.
Proof.
  intros Hlive Hfrom Hsame from Hsrc. rewrite Hfrom in Hsrc.
  destruct (Hlive from Hsrc) as [s Hs].
  destruct (objs w' !! from) eqn:E; [ eauto | ].
  apply Hsame in E. congruence.
Qed.

Lemma drains_within (p : binding) (room : nat -> N) (m : nat) :
  (forall j, (0 < room j)%N) ->
  forall (i : nat) (w : World) (d : descriptor),
    objs w !! p = Some d -> kind d = ConnectionDescriptor ->
    watch_only_never_paused w -> outbound_accounted d ->
    MySocket d <> INVALID_SOCKET -> bCloseAfterWriting d = true -> source_live w d ->
    OutboundDataSize d <= Z.of_nat m ->
    exists n w' d',
      (n <= m)%nat
      /\ queue_calls p (flushes room i n) w = Some w'
      /\ objs w' !! p = Some d'
      /\ OutboundPages d' = [] /\ OutboundDataSize d' = 0 /\ ShouldDelete d' = true.
Proof.
  intros Hroom. induction m as [ | m IH ];
    intros i w d Hd Hk HJ Hacc Hsd Hafter Hlive Hsize.
  - assert (Hzero : OutboundDataSize d = 0).
    { destruct Hacc as [Hs Hp]. pose proof (queued_bytes_firstn 0 _ Hp) as Hb.
      cbn in Hb. lia. }
    exists O, w, d. split; [ lia | ]. split; [ reflexivity | ]. split; [ exact Hd | ].
    destruct Hacc as [Hs Hp]. split; [ apply (queued_bytes_zero_iff _ Hp); lia | ].
    split; [ exact Hzero | ].
    unfold ShouldDelete, GetOutboundDataSize. rewrite Hk, Hafter, Hzero.
    cbn. apply orb_true_r.
  - destruct (OutboundPages d) as [ | op rest ] eqn:Hq.
    + assert (Hzero : OutboundDataSize d = 0) by (destruct Hacc as [-> _]; now rewrite Hq).
      exists O, w, d. split; [ lia | ]. split; [ reflexivity | ]. split; [ exact Hd | ].
      split; [ exact Hq | ]. split; [ exact Hzero | ].
      unfold ShouldDelete, GetOutboundDataSize. rewrite Hk, Hafter, Hzero.
      cbn. apply orb_true_r.
    + assert (Hne : OutboundPages d <> []) by (rewrite Hq; discriminate).
      destruct (_WriteOutboundData_run p (Accepts (room i)) w d Hd
                  (watch_only_never_paused_resumable w d HJ) Hacc Hsd Hne)
        as [(from & Hfrom & Hgone & _)
           | (w1 & d1 & E & Hd1 & Hs1 & Hsent & _ & Hsd1 & Hk1 & _ & _ & Ha1 & Hf1 & _
              & Hsame & _)].
      { destruct (Hlive from Hfrom) as [s Hs]. congruence. }
      assert (Hinv1 : queue_inv p w1).
      { apply (_WriteOutboundData_preserves p (Accepts (room i)) w w1);
          [ split; [ exact HJ | now exists d ] | now rewrite E ]. }
      destruct Hinv1 as [HJ1 (d1' & Hd1' & Hacc1)].
      assert (d1' = d1) by congruence. subst d1'.
      assert (Hprogress : 0 < flushed (Accepts (room i)) d).
      { cbn [flushed]. specialize (Hroom i).
        assert (0 < queued_bytes (firstn 16 (OutboundPages d))).
        { apply queued_bytes_pos; [ apply Forall_take, Hacc | now rewrite Hq ]. }
        lia. }
      destruct (IH (S i) w1 d1 Hd1) as (n & w' & d' & Hn & Hrun & Hd' & Hq' & Hs' & Hdel);
        try assumption; try congruence.
      * now apply (source_live_after w w1 d d1).
      * lia.
      * exists (S n), w', d'. split; [ lia | ].
        split; [ | auto ].
        unfold flushes. cbn [seq map queue_calls queue_call_run]. rewrite E.
        cbn [world_after]. exact Hrun.
Qed.

(** Once a close-after-writing is scheduled on a stream connection with a
    valid handle, flushes against a kernel that takes at least one byte each
    time empty the queue: after at most as many flushes as there are bytes
    queued, the queue is empty, the byte count is zero and the descriptor
    reports that it is to be deleted. *)
Theorem close_after_writing_drains (p : binding) (room : nat -> N) (w : World)
    (d : descriptor) :
  objs w !! p = Some d -> kind d = ConnectionDescriptor ->
  watch_only_never_paused w -> outbound_accounted d ->
  MySocket d <> INVALID_SOCKET -> bCloseAfterWriting d = true -> source_live w d ->
  (forall j, (0 < room j)%N) ->
  exists n w' d',
    Z.of_nat n <= OutboundDataSize d
    /\ queue_calls p (flushes room 0 n) w = Some w'
    /\ objs w' !! p = Some d'
    /\ OutboundPages d' = [] /\ OutboundDataSize d' = 0 /\ ShouldDelete d' = true.
Proof.
  intros Hd Hk HJ Hacc Hsd Hafter Hlive Hroom.
  assert (Hnonneg : 0 <= OutboundDataSize d).
  { destruct Hacc as [Hs Hp]. pose proof (queued_bytes_firstn 0 _ Hp) as Hb.
    cbn in Hb. lia. }
  destruct (drains_within p room (Z.to_nat (OutboundDataSize d)) Hroom 0 w d)
    as (n & w' & d' & Hn & Hrest); try assumption; [ lia | ].
  exists n, w', d'. split; [ lia | exact Hrest ].
Qed.

Lemma close_after_writing_drains_witness :
  exists n w' d',
    Z.of_nat n <= OutboundDataSize closing_connection
    /\ queue_calls 1%N (flushes (fun _ => 2%N) 0 n)
         (one_connection_world closing_connection 0) = Some w'
    /\ objs w' !! 1%N = Some d'
    /\ OutboundPages d' = [] /\ OutboundDataSize d' = 0 /\ ShouldDelete d' = true.
Proof.
  apply (close_after_writing_drains 1%N (fun _ => 2%N)
           (one_connection_world closing_connection 0) closing_connection).
  - reflexivity.
  - reflexivity.
  - apply sample_world_never_paused. reflexivity.
  - split; [ reflexivity | ]. repeat constructor; cbn; lia.
  - vm_compute. discriminate.
  - reflexivity.
  - intros from Hfrom. discriminate.
  - intros j. reflexivity.
Defined.

(** ** Selecting for write *)

(** A stream connection that is neither watch-only nor waiting for its
    connect, with an accounted queue, selects writable exactly when it is
    not paused and its queue is not empty; and the [Write] that the reactor
    makes on a connection that selects writable (valid handle, live source)
    returns: the sanity assertion [nbytes > 0] of [_WriteOutboundData]
    holds. *)
Theorem writable_connection_has_bytes_to_write (p : binding) (bNotifyWritable : bool)
    (so : kernel_so_error) (kernel : kernel_write) (w : World) (d : descriptor) :
  objs w !! p = Some d -> kind d = ConnectionDescriptor ->
  watch_only_never_paused w -> outbound_accounted d ->
  bConnectPending d = false -> bWatchOnly d = false ->
  MySocket d <> INVALID_SOCKET -> source_live w d ->
  (ConnectionDescriptor_SelectForWrite d bNotifyWritable = true
   <-> bPaused d = false /\ OutboundPages d <> [])
  /\ (ConnectionDescriptor_SelectForWrite d bNotifyWritable = true ->
      exists w', ConnectionDescriptor_Write p bNotifyWritable so kernel w = Returned tt w').
Proof.
  intros Hd Hk HJ Hacc Hpending Hwatch Hsd Hlive.
  assert (Hsel : ConnectionDescriptor_SelectForWrite d bNotifyWritable = true
                 <-> bPaused d = false /\ OutboundPages d <> []).
  { unfold ConnectionDescriptor_SelectForWrite, GetOutboundDataSize.
    rewrite Hpending, Hwatch, Hk. destruct Hacc as [Hs Hp].
    pose proof (queued_bytes_zero_iff _ Hp) as Hz.
    pose proof (queued_bytes_firstn 0 _ Hp) as Hb. cbn in Hb.
    destruct (bPaused d); [ split; [ discriminate | intros [? _]; discriminate ] | ].
    rewrite Z.ltb_lt, Hs. split.
    - intros Hpos. split; [ reflexivity | ]. intros Hq. apply Hz in Hq. lia.
    - intros [_ Hq]. destruct (Z.eq_dec (queued_bytes (OutboundPages d)) 0) as [E | E];
        [ apply Hz in E; contradiction | lia ]. }
  split; [ exact Hsel | ].
  intros Hw. apply Hsel in Hw as [_ Hq].
  unfold ConnectionDescriptor_Write.
  rewrite (bind_run _ _ _ _ _ (deref_run _ _ _ Hd)). rewrite Hpending.
  destruct bNotifyWritable.
  - destruct (EventCallback d); cbn [when]; eexists; reflexivity.
  - rewrite Hwatch. cbn [negb assert]. unfold bind at 1, ret at 1.
    destruct (_WriteOutboundData_run p kernel w d Hd
                (watch_only_never_paused_resumable w d HJ) Hacc Hsd Hq)
      as [(from & Hfrom & Hgone & _) | (w' & d' & E & _)].
    + destruct (Hlive from Hfrom) as [s Hs]. congruence.
    + now exists w'.
Qed.

Lemma writable_connection_has_bytes_to_write_witness :
  (ConnectionDescriptor_SelectForWrite sending_connection false = true
   <-> bPaused sending_connection = false /\ OutboundPages sending_connection <> [])
  /\ (ConnectionDescriptor_SelectForWrite sending_connection false = true ->
      exists w',
        ConnectionDescriptor_Write 1%N false (SoError 0) (Accepts 2)
          (one_connection_world sending_connection 0) = Returned tt w').
Proof.
  apply (writable_connection_has_bytes_to_write 1%N false (SoError 0) (Accepts 2)
           (one_connection_world sending_connection 0) sending_connection).
  - reflexivity.
  - reflexivity.
  - apply sample_world_never_paused. reflexivity.
  - split; [ reflexivity | ]. repeat constructor; cbn; lia.
  - reflexivity.
  - reflexivity.
  - vm_compute. discriminate.
  - intros from Hfrom. discriminate.
Defined.

(** ** Close *)

(** [Close] leaves the handle invalid, whatever it was, and fires no
    callback. *)
Lemma Close_run (p : binding) (w : World) (d : descriptor) :
  objs w !! p = Some d ->
  exists w' closing,
    Close p w = Returned tt w'
    /\ objs w' = <[p := set_MySocket INVALID_SOCKET d]> (objs w)
    /\ trace w' = trace w ++ closing
    /\ NumCloseScheduled w' = NumCloseScheduled w
    /\ (forall ed ev data size, ~ In (Callback ed ev data size) closing).
Proof.
  intros H. unfold Close. mstep.
  destruct (MySocket d =? INVALID_SOCKET) eqn:Hsd; mstep.
  - exists w, []. split; [ reflexivity | ]. apply Z.eqb_eq in Hsd.
    split; [ | rewrite app_nil_r; auto ].
    rewrite insert_id; [ reflexivity | ]. rewrite H. f_equal.
    destruct d. cbn in *. now subst.
  - destruct ((2 <? MySocket d) && negb (bAttached d)); mstep.
    + eexists _, [Deregister p; sys_shutdown (MySocket d) 1; sys_close (MySocket d)].
      split; [ reflexivity | ]. split; [ reflexivity | ].
      split; [ cbn; now rewrite <- !app_assoc | ]. split; [ reflexivity | ].
      intros ed ev data size [E | [E | [E | []]]]; discriminate.
    + eexists _, [Deregister p].
      split; [ reflexivity | ]. split; [ reflexivity | ]. split; [ reflexivity | ].
      split; [ reflexivity | ].
      intros ed ev data size [E | []]; discriminate.
Qed.

Lemma delivered_quiet (p : binding) (tr : list effect) :
  (forall ed ev data size, ~ In (Callback ed ev data size) tr) -> delivered p tr = [].
Proof.
  induction tr as [ | e tr IH ]; intros Hquiet; [ reflexivity | ].
  unfold delivered in *. cbn [map concat]. rewrite IH.
  - destruct e; try reflexivity. exfalso. eapply Hquiet. left. reflexivity.
  - intros ed ev data size Hin. eapply Hquiet. right. exact Hin.
Qed.

(** ** The burst of a stream read *)

Lemma ConnectionDescriptor_Read_loop_run (p : binding) (kernel : nat -> kernel_read)
    (n i : nat) (buf : list byte) (total : Z) (w : World) (d : descriptor) :
  objs w !! p = Some d -> EventCallback d = true -> ProxyTarget d = None ->
  bPaused d = false -> (0 < List.length buf)%nat ->
  exists new w',
    ConnectionDescriptor_Read_loop p kernel n i buf total w
    = Returned
        (total + Z.of_nat (List.length (stream_burst (List.length buf - 1) kernel n i))) w'
    /\ trace w' = trace w ++ new
    /\ delivered p new = stream_burst (List.length buf - 1) kernel n i
    /\ NumCloseScheduled w' = NumCloseScheduled w
    /\ (objs w' = objs w
        \/ exists e, read_would_block e = false
                     /\ objs w'
                        = <[p := set_MySocket INVALID_SOCKET (set_UnbindReasonCode e d)]>
                            (objs w)).
Proof.
  revert i buf total w d. induction n as [ | n IH ];
    intros i buf total w d Hd Hcb Htarget Hpaused Hbuf.
  - exists [], w. cbn [ConnectionDescriptor_Read_loop stream_burst]. cbn.
    rewrite Z.add_0_r, app_nil_r. auto 10.
  - cbn [ConnectionDescriptor_Read_loop stream_burst].
    destruct (kernel i) as [pending sender | e] eqn:Hk.
    + destruct (sys_read_delivers pending sender buf Hbuf) as (buf' & -> & Hlen & Hgot & Htake).
      cbn [taken].
      set (got := firstn (List.length buf - 1) pending) in *.
      destruct got as [ | b got' ] eqn:Hg.
      * cbn. exists [], w. rewrite Z.add_0_r, app_nil_r. auto 10.
      * rewrite <- Hg in *.
        assert (Hpos : (0 < List.length got)%nat) by (rewrite Hg; cbn; lia).
        replace (0 <? Z.of_nat (List.length got)) with true
          by (symmetry; apply Z.ltb_lt; lia).
        destruct (array_store_run buf' (Z.of_nat (List.length got)) ltac:(lia)) as [-> _].
        rewrite Nat2Z.id. unfold bind at 1, ret at 1.
        unfold _DispatchInboundData.
        assert (Hdet : detached w p) by (exists d; auto).
        rewrite (bind_run _ _ _ _ _ (dispatch_when_detached w p _ _ Hdet)).
        set (buf1 := <[List.length got := x00]> buf') in *.
        set (e1 := Callback p EM_CONNECTION_READ (Some buf1) (Z.of_nat (List.length got))).
        set (w1 := set_trace (trace w ++ [e1]) w).
        assert (Hd1 : objs w1 !! p = Some d) by exact Hd.
        rewrite (bind_run _ _ _ _ _ (deref_run _ _ _ Hd1)). rewrite Hpaused.
        destruct (IH (S i) buf1 (total + Z.of_nat (List.length got)) w1 d Hd1 Hcb Htarget
                    Hpaused)
          as (new & w' & Hrun & Htr & Hdel & Hn & Hobjs);
          [ subst buf1; rewrite length_insert; lia | ].
        assert (Hlen1 : List.length buf1 = List.length buf)
          by (subst buf1; now rewrite length_insert).
        rewrite Hlen1 in Hrun, Hdel.
        exists (e1 :: new), w'. split.
        { rewrite Hrun. f_equal. rewrite length_app. lia. }
        split; [ rewrite Htr; subst w1; cbn; now rewrite <- app_assoc | ].
        split.
        { change (e1 :: new) with ([e1] ++ new). rewrite delivered_app, Hdel.
          subst e1. rewrite delivered_read, Nat2Z.id, Htake. reflexivity. }
        split; [ exact Hn | exact Hobjs ].
    + cbn [sys_read taken]. change (0 <? -1) with false. change (-1 =? 0) with false.
      cbn [length]. rewrite Z.add_0_r.
      destruct (read_would_block e) eqn:Hwb; cbn [negb].
      * exists [], w. cbn. rewrite app_nil_r. auto 10.
      * rewrite (bind_run _ _ _ _ _ (modify_set _ _ _ _ Hd)).
        destruct (Close_run p (set_descriptor p (set_UnbindReasonCode e d) w)
                    (set_UnbindReasonCode e d) (lookup_set_descriptor_eq _ _ _))
          as (w' & closing & Hclose & Hobjs & Htr & Hn & Hquiet).
        rewrite (bind_run _ _ _ _ _ Hclose). cbn [ret].
        exists closing, w'. split; [ reflexivity | ]. split; [ exact Htr | ].
        split; [ now apply delivered_quiet | ]. split; [ exact Hn | ].
        right. exists e. split; [ exact Hwb | ].
        rewrite Hobjs. cbn. now rewrite insert_insert_eq.
Qed.

(** [ConnectionDescriptor::Read] on a stream connection with a valid handle
    that is neither watch-only, paused nor proxying and has a callback
    installed: the connection-read callback receives, in order, exactly the
    bytes that the kernel delivers in up to ten reads of at most 16384 bytes
    each, up to the first read that delivers nothing.  If that is no byte at
    all (end of stream, or any error, a would-block included, on the first
    read) an immediate close is scheduled and the descriptor is to be
    deleted; otherwise the close flags stay as they were.  The outbound
    queue is not touched. *)
Theorem ConnectionDescriptor_Read_delivers_burst (p : binding) (stack : nat -> byte)
    (kernel : nat -> kernel_read) (w : World) (d : descriptor) :
  objs w !! p = Some d -> EventCallback d = true -> ProxyTarget d = None ->
  bWatchOnly d = false -> bPaused d = false -> MySocket d <> INVALID_SOCKET ->
  let burst := stream_burst (ConnectionDescriptor_readbuffer_size - 1) kernel 10 0 in
  exists w' d' new,
    ConnectionDescriptor_Read p stack kernel w = Returned tt w'
    /\ trace w' = trace w ++ new
    /\ delivered p new = burst
    /\ objs w' !! p = Some d'
    /\ LastActivity d' = GetCurrentLoopTime w
    /\ OutboundPages d' = OutboundPages d /\ OutboundDataSize d' = OutboundDataSize d
    /\ bCloseAfterWriting d' = bCloseAfterWriting d
    /\ bCloseNow d' = match burst with [] => true | _ => bCloseNow d end
    /\ (burst = [] -> ShouldDelete d' = true).
Proof.
  intros Hd Hcb Htarget Hwatch Hpaused Hsd burst. unfold ConnectionDescriptor_Read.
  rewrite (bind_run _ _ _ _ _ (deref_run _ _ _ Hd)).
  apply Z.eqb_neq in Hsd. rewrite Hsd, Hwatch.
  unfold reactor at 1. unfold bind at 1.
  rewrite (bind_run _ _ _ _ _ (modify_set _ _ _ _ Hd)).
  set (d0 := set_LastActivity (GetCurrentLoopTime w) d).
  set (w0 := set_descriptor p d0 w).
  destruct (ConnectionDescriptor_Read_loop_run p kernel 10 0
              (automatic_array stack ConnectionDescriptor_readbuffer_size) 0 w0 d0)
    as (new & w1 & Hrun & Htr & Hdel & Hn & Hobjs);
    [ apply lookup_set_descriptor_eq | exact Hcb | exact Htarget | exact Hpaused
    | rewrite length_automatic_array; unfold ConnectionDescriptor_readbuffer_size; lia | ].
  rewrite length_automatic_array in Hrun, Hdel. fold burst in Hrun, Hdel.
  rewrite (bind_run _ _ _ _ _ Hrun). rewrite Z.add_0_l.
  (* the descriptor after the burst *)
  assert (exists d1, objs w1 !! p = Some d1
                     /\ LastActivity d1 = GetCurrentLoopTime w
                     /\ OutboundPages d1 = OutboundPages d
                     /\ OutboundDataSize d1 = OutboundDataSize d
                     /\ bCloseAfterWriting d1 = bCloseAfterWriting d
                     /\ bCloseNow d1 = bCloseNow d /\ bWatchOnly d1 = false)
    as (d1 & Hd1 & Hact & Hq & Hs & Hafter & Hnow & Hw1).
  { destruct Hobjs as [-> | (e & _ & ->)].
    - exists d0. split; [ apply lookup_set_descriptor_eq | ]. auto 10.
    - eexists. split; [ apply lookup_insert_eq | ]. cbn. auto 10. }
  destruct burst as [ | b burst' ] eqn:Hb.
  - replace (Z.of_nat (List.length (@nil byte)) =? 0) with true by reflexivity.
    cbn [when].
    unfold ConnectionDescriptor_ScheduleClose, EventableDescriptor_ScheduleClose,
      IsCloseScheduled.
    mstep. rewrite Hw1. mstep.
    destruct (bCloseNow d1 || bCloseAfterWriting d1); mstep;
      eexists _, _, new; (split; [ reflexivity | ]); mstep;
      (split; [ exact Htr | ]); (split; [ exact Hdel | ]);
      (split; [ reflexivity | ]); cbn;
      (repeat (split; [ assumption || reflexivity | ])); intros _;
      unfold ShouldDelete; cbn; now rewrite orb_true_r.
  - replace (Z.of_nat (List.length (b :: burst')) =? 0) with false
      by (symmetry; apply Z.eqb_neq; cbn; lia).
    cbn [when ret]. exists w1, d1, new. split; [ reflexivity | ].
    repeat (split; [ assumption | ]). discriminate.
Qed.

Lemma ConnectionDescriptor_Read_delivers_burst_witness :
  let burst := stream_burst (ConnectionDescriptor_readbuffer_size - 1) kernel_hi 10 0 in
  exists w' d' new,
    ConnectionDescriptor_Read 1%N dirty_stack kernel_hi
      (one_connection_world listening_connection 5) = Returned tt w'
    /\ trace w' = trace (one_connection_world listening_connection 5) ++ new
    /\ delivered 1%N new = burst
    /\ objs w' !! 1%N = Some d'
    /\ LastActivity d' = GetCurrentLoopTime (one_connection_world listening_connection 5)
    /\ OutboundPages d' = OutboundPages listening_connection
    /\ OutboundDataSize d' = OutboundDataSize listening_connection
    /\ bCloseAfterWriting d' = bCloseAfterWriting listening_connection
    /\ bCloseNow d' = match burst with [] => true | _ => bCloseNow listening_connection end
    /\ (burst = [] -> ShouldDelete d' = true).
Proof.
  apply (ConnectionDescriptor_Read_delivers_burst 1%N dirty_stack kernel_hi
           (one_connection_world listening_connection 5) listening_connection).
  - reflexivity.
  - reflexivity.
  - reflexivity.
  - reflexivity.
  - reflexivity.
  - vm_compute. discriminate.
Defined.

(** A read that would block at once: nothing is delivered and the
    connection is scheduled for an immediate close. *)
Example spurious_readiness_closes :
  exists w' d',
    ConnectionDescriptor_Read 1%N dirty_stack (fun _ => ReadFails EAGAIN)
      (one_connection_world listening_connection 5) = Returned tt w'
    /\ trace w' = [] /\ objs w' !! 1%N = Some d'
    /\ bCloseNow d' = true /\ MySocket d' = 7.
Proof.
  eexists _, _. split; [ vm_compute; reflexivity | ].
  split; [ reflexivity | ]. split; [ vm_compute; reflexivity | ]. split; reflexivity.
Qed.

(** ** One chunk through a proxy under backpressure *)

Lemma forward_chunk (w : World) (p t : binding) (T : Z) (d dt : descriptor)
    (buf : list byte) (r : Z) :
  forwarding w p t T d dt -> 0 < T ->
  0 < r <= Z.of_nat (List.length buf) -> OutboundDataSize dt + r <= INT_MAX ->
  exists w' d' dt',
    _GenericInboundDispatch p buf r w = Returned tt w'
    /\ forwarding w' p t T d' dt'
    /\ bPaused d' = bPaused d || (T <? OutboundDataSize dt + r)
    /\ OutboundDataSize dt'
       = (if IsCloseScheduled dt then OutboundDataSize dt else OutboundDataSize dt + r)
    /\ MySocket d' = MySocket d /\ LastActivity d' = LastActivity d
    /\ bCloseNow d' = bCloseNow d /\ bCloseAfterWriting d' = bCloseAfterWriting d
    /\ IsCloseScheduled dt' = IsCloseScheduled dt
    /\ trace w' = trace w /\ NumCloseScheduled w' = NumCloseScheduled w.
Proof.
  intros [Hne Hd Hdt Hcb Hk Hw Htarget Hunl Hkt Hwt Hfrom HT Hacc] HTpos Hr Hmax.
  pose proof (outbound_accounted_nonneg dt Hacc) as Hnonneg.
  assert (Hrange : OutboundDataSize dt + r < UINT_MOD)
    by (unfold INT_MAX, UINT_MOD in *; lia).
  assert (Hp : pausable d) by (intros _; exact Hw).
  unfold _GenericInboundDispatch.
  rewrite (bind_run _ _ _ _ _ (deref_run _ _ _ Hd)), Hcb.
  cbn [assert]. unfold bind at 1. cbn [ret]. rewrite Htarget, Hunl.
  change (0 <? 0) with false. cbv iota.
  unfold SendOutboundData.
  unfold bind at 1. rewrite (bind_run _ _ _ _ _ (deref_run _ _ _ Hdt)), Hkt.
  rewrite (ConnectionDescriptor_SendOutboundData_source t p buf r w dt d) by assumption.
  rewrite over_threshold_spec by (try assumption; lia). rewrite HT.
  set (over := T <? OutboundDataSize dt + r).
  set (d1 := if over then set_bPaused true d else d).
  set (w1 := if over then set_descriptor p (set_bPaused true d) w else w).
  assert (Hd1 : objs w1 !! p = Some d1).
  { subst w1 d1. destruct over; [ apply lookup_set_descriptor_eq | exact Hd ]. }
  assert (Hdt1 : objs w1 !! t = Some dt).
  { subst w1. destruct over; [ now rewrite lookup_set_descriptor_ne | exact Hdt ]. }
  assert (Htr1 : trace w1 = trace w) by (subst w1; now destruct over).
  assert (Hn1 : NumCloseScheduled w1 = NumCloseScheduled w) by (subst w1; now destruct over).
  assert (Hpaused1 : bPaused d1 = bPaused d || over).
  { subst d1. destruct over; cbn; [ now rewrite orb_true_r | now rewrite orb_false_r ]. }
  assert (Hsame1 : EventCallback d1 = true /\ kind d1 = ConnectionDescriptor
                   /\ bWatchOnly d1 = false /\ ProxyTarget d1 = Some t
                   /\ BytesToProxy d1 = 0 /\ MySocket d1 = MySocket d
                   /\ LastActivity d1 = LastActivity d /\ bCloseNow d1 = bCloseNow d
                   /\ bCloseAfterWriting d1 = bCloseAfterWriting d).
  { subst d1. destruct over; cbn; auto 10. }
  destruct Hsame1 as (Hcb1 & Hk1 & Hw1 & Htarget1 & Hunl1 & Hsd1 & Hact1 & Hnow1 & Hafter1).
  clearbody w1 d1.
  rewrite (_SendRawOutboundData_run t buf r w1 dt Hdt1).
  set (d2 := set_ProxiedBytes (u64 (ProxiedBytes d1 + r)) d1).
  destruct (IsCloseScheduled dt) eqn:Hclosing.
  - rewrite (modify_set _ _ _ _ Hd1).
    exists (set_descriptor p d2 w1), d2, dt. split; [ reflexivity | ].
    split; [ | cbn; auto 10 ].
    constructor; try assumption.
    + apply lookup_set_descriptor_eq.
    + now rewrite lookup_set_descriptor_ne.
  - replace (r =? 0) with false by lia.
    replace (Z.of_nat (List.length buf) <? r) with false by lia.
    rewrite !to_int_small by (unfold INT_MIN; lia).
    set (dt1 := set_OutboundDataSize (OutboundDataSize dt + r)
                  (set_OutboundPages
                     (OutboundPages dt
                        ++ [mkOutboundPage (firstn (Z.to_nat r) buf ++ [x00]) r 0 None]) dt)).
    change (set_objs (<[t := dt1]> (objs w1)) w1) with (set_descriptor t dt1 w1).
    assert (Hd1' : objs (set_descriptor t dt1 w1) !! p = Some d1)
      by now rewrite lookup_set_descriptor_ne by congruence.
    rewrite (modify_set _ _ _ _ Hd1').
    exists (set_descriptor p d2 (set_descriptor t dt1 w1)), d2, dt1.
    split; [ reflexivity | ]. split; [ | cbn; auto 10 ].
    constructor; try assumption.
    + apply lookup_set_descriptor_eq.
    + rewrite lookup_set_descriptor_ne by exact Hne. apply lookup_set_descriptor_eq.
    + destruct Hacc as [Hs Hpages]. subst dt1. split; cbn [OutboundDataSize OutboundPages set_OutboundDataSize set_OutboundPages].
      * rewrite queued_bytes_app, Hs. unfold queued_bytes, unsent. cbn. lia.
      * apply Forall_app. split; [ exact Hpages | ].
        constructor; [ | constructor ]. unfold page_pending. cbn. lia.
Qed.

(** ** Scheduling the close of a forwarding source *)

Lemma forwarding_ScheduleClose (w : World) (p t : binding) (T : Z) (d dt : descriptor) :
  forwarding w p t T d dt ->
  exists w' d',
    ConnectionDescriptor_ScheduleClose p false w = Returned tt w'
    /\ forwarding w' p t T d' dt
    /\ bPaused d' = bPaused d.
Proof.
  intros [Hne Hd Hdt Hcb Hk Hw Htarget Hunl Hkt Hwt Hfrom HT Hacc].
  unfold ConnectionDescriptor_ScheduleClose.
  rewrite (bind_run _ _ _ _ _ (deref_run _ _ _ Hd)), Hw.
  unfold EventableDescriptor_ScheduleClose.
  rewrite (bind_run _ _ _ _ _ (deref_run _ _ _ Hd)).
  destruct (IsCloseScheduled d); cbn [negb when].
  - rewrite (modify_set _ _ _ _ Hd).
    exists (set_descriptor p (set_bCloseNow true d) w), (set_bCloseNow true d).
    split; [ reflexivity | ]. split; [ | reflexivity ].
    constructor; try assumption.
    + apply lookup_set_descriptor_eq.
    + now rewrite lookup_set_descriptor_ne.
  - unfold bind at 1.
    set (w1 := set_NumCloseScheduled (NumCloseScheduled w + 1) w).
    assert (Hd1 : objs w1 !! p = Some d) by exact Hd.
    rewrite (modify_set _ _ _ _ Hd1).
    exists (set_descriptor p (set_bCloseNow true d) w1), (set_bCloseNow true d).
    split; [ reflexivity | ]. split; [ | reflexivity ].
    constructor; try assumption.
    + apply lookup_set_descriptor_eq.
    + now rewrite lookup_set_descriptor_ne.
Qed.

(** ** The burst of a forwarding source *)

Lemma forwarding_Read_loop (p t : binding) (T : Z) (kernel : nat -> kernel_read)
    (n i : nat) (buf : list byte) (total : Z) (w : World) (d dt : descriptor) :
  forwarding w p t T d dt -> 0 < T ->
  OutboundDataSize dt <= T -> T + Z.of_nat (List.length buf) - 1 <= INT_MAX ->
  (0 < List.length buf)%nat ->
  exists total' w' d' dt',
    ConnectionDescriptor_Read_loop p kernel n i buf total w = Returned total' w'
    /\ forwarding w' p t T d' dt'
    /\ OutboundDataSize dt' <= T + Z.of_nat (List.length buf) - 1
    /\ (T < OutboundDataSize dt' -> bPaused d' = true)
    /\ OutboundDataSize dt <= OutboundDataSize dt'
    /\ (IsCloseScheduled dt = true -> OutboundDataSize dt' = OutboundDataSize dt)
    /\ (bPaused d = true -> bPaused d' = true).
Proof.
  revert i buf total w d dt. induction n as [ | n IH ];
    intros i buf total w d dt Hfw HT Hsize Hrange Hbuf.
  - exists total, w, d, dt. cbn [ConnectionDescriptor_Read_loop].
    split; [ reflexivity | ]. split; [ exact Hfw | ].
    repeat split; intros; lia || auto.
  - cbn [ConnectionDescriptor_Read_loop].
    destruct (kernel i) as [pending sender | e] eqn:Hk.
    + destruct (sys_read_delivers pending sender buf Hbuf) as (buf' & -> & Hlen & Hgot & _).
      set (got := firstn (List.length buf - 1) pending) in *.
      destruct got as [ | b got' ] eqn:Hg.
      * cbn. exists total, w, d, dt. split; [ reflexivity | ]. split; [ exact Hfw | ].
        repeat split; intros; lia || auto.
      * rewrite <- Hg in *.
        assert (Hpos : (0 < List.length got)%nat) by (rewrite Hg; cbn; lia).
        replace (0 <? Z.of_nat (List.length got)) with true
          by (symmetry; apply Z.ltb_lt; lia).
        destruct (array_store_run buf' (Z.of_nat (List.length got)) ltac:(lia)) as [-> _].
        rewrite Nat2Z.id. unfold bind at 1, ret at 1.
        unfold _DispatchInboundData.
        set (buf1 := <[List.length got := x00]> buf') in *.
        assert (Hlen1 : List.length buf1 = List.length buf)
          by (subst buf1; now rewrite length_insert).
        destruct (forward_chunk w p t T d dt buf1 (Z.of_nat (List.length got)) Hfw HT
                    ltac:(lia) ltac:(lia))
          as (w1 & d1 & dt1 & Hrun & Hfw1 & Hp1 & Hs1 & _ & _ & _ & _ & Hc1 & _ & _).
        rewrite (bind_run _ _ _ _ _ Hrun).
        rewrite (bind_run _ _ _ _ _ (deref_run _ _ _ (forwarding_source _ _ _ _ _ _ Hfw1))).
        destruct (bPaused d1) eqn:Hpaused1.
        { exists (total + Z.of_nat (List.length got)), w1, d1, dt1.
          split; [ reflexivity | ]. split; [ exact Hfw1 | ].
          split; [ rewrite Hs1; destruct (IsCloseScheduled dt); lia | ].
          split; [ auto | ].
          split; [ rewrite Hs1; destruct (IsCloseScheduled dt); lia | ].
          split; [ | auto ].
          intros Hclosing. now rewrite Hs1, Hclosing. }
        symmetry in Hp1. apply orb_false_iff in Hp1 as [Hp Hover]. apply Z.ltb_ge in Hover.
        assert (Hsize1 : OutboundDataSize dt1 <= T)
          by (rewrite Hs1; destruct (IsCloseScheduled dt); lia).
        destruct (IH (S i) buf1 (total + Z.of_nat (List.length got)) w1 d1 dt1 Hfw1 HT
                    Hsize1 ltac:(lia) ltac:(lia))
          as (total' & w' & d' & dt' & Hrun' & Hfw' & Hbound & Hp' & Hmono & Hsame & _).
        rewrite Hlen1 in Hbound.
        exists total', w', d', dt'. split; [ exact Hrun' | ]. split; [ exact Hfw' | ].
        split; [ exact Hbound | ]. split; [ exact Hp' | ].
        split; [ rewrite Hs1 in Hmono; destruct (IsCloseScheduled dt); lia | ].
        split; [ | congruence ].
        intros Hclosing. rewrite Hsame by congruence. now rewrite Hs1, Hclosing.
    + cbn [sys_read]. change (0 <? -1) with false. change (-1 =? 0) with false.
      destruct (read_would_block e) eqn:Hwb; cbn [negb].
      * exists total, w, d, dt. split; [ reflexivity | ]. split; [ exact Hfw | ].
        repeat split; intros; lia || auto.
      * destruct Hfw as [Hne Hd Hdt Hcb Hkd Hw Htarget Hunl Hkt Hwt Hfrom HTt Hacc].
        rewrite (bind_run _ _ _ _ _ (modify_set _ _ _ _ Hd)).
        destruct (Close_run p (set_descriptor p (set_UnbindReasonCode e d) w)
                    (set_UnbindReasonCode e d) (lookup_set_descriptor_eq _ _ _))
          as (w' & closing & Hclose & Hobjs & _).
        rewrite (bind_run _ _ _ _ _ Hclose). cbn [ret].
        exists total, w', (set_MySocket INVALID_SOCKET (set_UnbindReasonCode e d)), dt.
        split; [ reflexivity | ].
        split.
        { constructor; try assumption.
          - rewrite Hobjs. apply lookup_insert_eq.
          - rewrite Hobjs, lookup_insert_ne by exact Hne.
            now rewrite lookup_set_descriptor_ne. }
        repeat split; intros; lia || auto.
Qed.

(** ** Backpressure bounds the queue of a proxy target *)

(** A stream connection proxies without byte limit to a stream connection
    whose queue holds at most its threshold [T], where [T] is positive and
    [T + 16384] fits an [int], as the byte count of the target is one.  One [Read] of the source returns
    with the target's queue accounted, no shorter than before and at most
    [T + 16384] bytes long, and unchanged in length if the target is
    closing; and if that queue ends above [T], the source is paused, so that
    [SelectForRead] no longer selects it. *)
Theorem proxy_read_overshoots_by_one_buffer (w : World) (p t : binding) (T : Z)
    (d dt : descriptor) (stack : nat -> byte) (kernel : nat -> kernel_read) :
  forwarding w p t T d dt -> 0 < T -> T + 16384 <= INT_MAX ->
  MySocket d <> INVALID_SOCKET -> OutboundDataSize dt <= T ->
  exists w' d' dt',
    ConnectionDescriptor_Read p stack kernel w = Returned tt w'
    /\ objs w' !! p = Some d' /\ objs w' !! t = Some dt'
    /\ outbound_accounted dt'
    /\ OutboundDataSize dt <= OutboundDataSize dt' <= T + 16384
    /\ (IsCloseScheduled dt = true -> OutboundDataSize dt' = OutboundDataSize dt)
    /\ (T < OutboundDataSize dt' ->
        bPaused d' = true /\ ConnectionDescriptor_SelectForRead d' = false).
Proof.
  intros Hfw HT Hrange Hsd Hsize.
  pose proof Hfw as [Hne Hd Hdt Hcb Hk Hw Htarget Hunl Hkt Hwt Hfrom HTt Hacc].
  unfold ConnectionDescriptor_Read.
  rewrite (bind_run _ _ _ _ _ (deref_run _ _ _ Hd)).
  replace (MySocket d =? INVALID_SOCKET) with false by (symmetry; now apply Z.eqb_neq).
  rewrite Hw. unfold reactor at 1, bind at 1.
  rewrite (bind_run _ _ _ _ _ (modify_set _ _ _ _ Hd)).
  set (d0 := set_LastActivity (GetCurrentLoopTime w) d).
  assert (Hfw0 : forwarding (set_descriptor p d0 w) p t T d0 dt).
  { constructor; try assumption.
    - apply lookup_set_descriptor_eq.
    - now rewrite lookup_set_descriptor_ne. }
  destruct (forwarding_Read_loop p t T kernel 10 0
              (automatic_array stack ConnectionDescriptor_readbuffer_size) 0
              (set_descriptor p d0 w) d0 dt Hfw0 HT Hsize)
    as (total & w1 & d1 & dt1 & Hrun & Hfw1 & Hbound & Hp1 & Hmono & Hsame & _).
  { rewrite length_automatic_array. unfold ConnectionDescriptor_readbuffer_size. lia. }
  { rewrite length_automatic_array. unfold ConnectionDescriptor_readbuffer_size. lia. }
  rewrite length_automatic_array in Hbound.
  unfold ConnectionDescriptor_readbuffer_size in Hbound.
  rewrite (bind_run _ _ _ _ _ Hrun).
  assert (Hsel : forall d', bPaused d' = true ->
                   bPaused d' = true /\ ConnectionDescriptor_SelectForRead d' = false).
  { intros d' Hp. unfold ConnectionDescriptor_SelectForRead. now rewrite Hp. }
  destruct (total =? 0); cbn [when].
  - destruct (forwarding_ScheduleClose w1 p t T d1 dt1 Hfw1) as (w2 & d2 & Hrun2 & Hfw2 & Hp2).
    exists w2, d2, dt1. split; [ exact Hrun2 | ].
    destruct Hfw2.
    split; [ assumption | ]. split; [ assumption | ]. split; [ assumption | ].
    split; [ lia | ]. split; [ exact Hsame | ].
    intros Hover. apply Hsel. rewrite Hp2. auto.
  - exists w1, d1, dt1. split; [ reflexivity | ].
    destruct Hfw1.
    split; [ assumption | ]. split; [ assumption | ]. split; [ assumption | ].
    split; [ lia | ]. split; [ exact Hsame | ].
    intros Hover. apply Hsel. auto.
Qed.

Lemma proxy_read_overshoots_by_one_buffer_witness :
  exists w' d' dt',
    ConnectionDescriptor_Read 1%N (fun _ => x00) kernel_eight_twice forwarding_world
    = Returned tt w'
    /\ objs w' !! 1%N = Some d' /\ objs w' !! 2%N = Some dt'
    /\ outbound_accounted dt'
    /\ OutboundDataSize sample_forwarding_sink <= OutboundDataSize dt' <= 10 + 16384
    /\ (IsCloseScheduled sample_forwarding_sink = true ->
        OutboundDataSize dt' = OutboundDataSize sample_forwarding_sink)
    /\ (10 < OutboundDataSize dt' ->
        bPaused d' = true /\ ConnectionDescriptor_SelectForRead d' = false).
Proof.
  apply (proxy_read_overshoots_by_one_buffer forwarding_world 1%N 2%N 10
           sample_forwarding_source sample_forwarding_sink).
  - constructor; try reflexivity; try discriminate.
    split; [ reflexivity | constructor ].
  - lia.
  - vm_compute. discriminate.
  - discriminate.
  - vm_compute. discriminate.
Defined.

(** Two reads of eight bytes against a threshold of ten: the second chunk is
    still queued, and pauses the source. *)
Example second_chunk_pauses_source :
  match ConnectionDescriptor_Read 1%N (fun _ => x00) kernel_eight_twice forwarding_world with
  | Returned _ w' =>
      (OutboundDataSize <$> objs w' !! 2%N) = Some 16
      /\ (bPaused <$> objs w' !! 1%N) = Some true
  | _ => False
  end.
Proof. vm_compute. split; reflexivity. Qed.
